(** * odbc2deltalake: the load orchestrator of [db_to_delta.py]

    A shallow embedding of [odbc2deltalake/db_to_delta.py].  The Python
    functions become state-passing functions over a [World] that holds the
    source table, the destination (plain files and Delta tables with their
    version history), the views of the local query engine, the logger and
    a trace of the destination-changing calls.  The sqlglot expression
    trees the module builds are kept as trees ([expr], [query]) and the
    query engines are given a small relational semantics ([eval_query]). *)

From stdpp Require Import gmap strings list fin_maps pretty.
From Stdlib Require Import ZArith.

Open Scope string_scope.
Open Scope list_scope.
Open Scope Z_scope.

(** ** Values, rows and tables *)

(** A cell of a row as the drivers hand it to Python: [None], an integer,
    a string, a boolean or a point in time (microseconds, UTC). *)
Inductive value :=
| VNull
| VInt (z : Z)
| VStr (s : string)
| VBool (b : bool)
| VTime (t : Z).

#[global] Instance value_eq_dec : EqDecision value.
Proof. solve_decision. Defined.

(** Rows are column-name-keyed records; the order of the columns is the
    order of the select list that produced them. *)
Abbreviation Row := (list (string * value)).
Abbreviation Table := (list Row).

Fixpoint get_col (name : string) (r : Row) : value :=
  match r with
  | [] => VNull
  | (n, v) :: r' => if bool_decide (n = name) then v else get_col name r'
  end.

Definition row_values (r : Row) : list value := map snd r.

(** Python truthiness of a cell ([if delta_load_value], [if max_valid_from]). *)
Definition truthy (v : value) : bool :=
  match v with
  | VNull => false
  | VInt z => negb (z =? 0)
  | VStr s => negb (bool_decide (s = ""))
  | VBool b => b
  | VTime _ => true
  end.

(** Order of two non-null cells of one kind, as [>] and MAX/MIN use it.
    Cells of different kinds do not compare. *)
Definition value_ltb (a b : value) : option bool :=
  match a, b with
  | VInt x, VInt y => Some (x <? y)
  | VTime x, VTime y => Some (x <? y)
  | VStr x, VStr y => Some (String.ltb x y)
  | VBool x, VBool y => Some (negb x && y)
  | _, _ => None
  end.

(** SQL comparison: unknown (NULL) as soon as one side is NULL. *)
Definition sql_gt (a b : value) : value :=
  match value_ltb b a with
  | Some r => VBool r
  | None => VNull
  end.

Definition sql_eq (a b : value) : value :=
  match a, b with
  | VNull, _ | _, VNull => VNull
  | _, _ => VBool (bool_decide (a = b))
  end.

Definition is_true (v : value) : bool :=
  match v with VBool true => true | _ => false end.

(** MAX and MIN skip NULL and answer NULL on no input. *)
Definition value_max (a b : value) : value :=
  match a, b with
  | VNull, _ => b
  | _, VNull => a
  | _, _ => if is_true (sql_gt b a) then b else a
  end.

Definition value_min (a b : value) : value :=
  match a, b with
  | VNull, _ => b
  | _, VNull => a
  | _, _ => if is_true (sql_gt a b) then b else a
  end.

Definition sql_max (vs : list value) : value := fold_left value_max vs VNull.
Definition sql_min (vs : list value) : value := fold_left value_min vs VNull.

(** ** Column metadata ([metadata.py]) *)

Inductive generated_always_type := NOT_APPLICABLE | AS_ROW_START | AS_ROW_END.

#[global] Instance generated_always_type_eq_dec : EqDecision generated_always_type.
Proof. solve_decision. Defined.

Record InformationSchemaColInfo := {
  column_name : string;
  data_type : string;
  column_default : option string;
  is_nullable : bool;
  character_maximum_length : option Z;
  numeric_precision : option Z;
  numeric_scale : option Z;
  datetime_precision : option Z;
  generated_always_type_desc : option generated_always_type;
  is_identity : bool
}.

#[global] Instance InformationSchemaColInfo_eq_dec : EqDecision InformationSchemaColInfo.
Proof. solve_decision. Defined.

(** [table_name_type]: a bare name, (schema, name) or (database, schema, name). *)
Inductive table_name_type :=
| TName (name : string)
| TSchemaName (schema name : string)
| TDbSchemaName (db schema name : string).

Definition table_parts (t : table_name_type) : list string :=
  match t with
  | TName n => [n]
  | TSchemaName s n => [s; n]
  | TDbSchemaName d s n => [d; s; n]
  end.

Definition _temp_table (table : table_name_type) : string :=
  match table with
  | TName n => "temp_" +:+ n
  | _ => "temp_" +:+ String.concat "_" (table_parts table)
  end.

(** [repr] of a [str], which [f"{table}"] applies to the parts of a tuple:
    the text goes between single quotes, or between double quotes when it
    has a single quote and no double quote; the quote in use and the
    backslash get a backslash before them; tab, line feed and carriage
    return are written [\t], [\n] and [\r], the other control characters
    [\x] and two hexadecimal digits.  A name is the bytes of its UTF-8 text,
    and a character beyond ASCII is taken as printable: [repr] leaves it as
    it is. *)
Fixpoint has_code (n : nat) (s : string) : bool :=
  match s with
  | EmptyString => false
  | String c s' => (Ascii.nat_of_ascii c =? n)%nat || has_code n s'
  end.

Definition hex_digit (n : nat) : Ascii.ascii :=
  Ascii.ascii_of_nat (if (n <? 10)%nat then 48 + n else 87 + n).

Definition repr_char (quote : nat) (c : Ascii.ascii) : string :=
  let n := Ascii.nat_of_ascii c in
  if (n =? quote)%nat || (n =? 92)%nat
  then String (Ascii.ascii_of_nat 92) (String c EmptyString)
  else if (n =? 9)%nat then "\t"
  else if (n =? 10)%nat then "\n"
  else if (n =? 13)%nat then "\r"
  else if (n <? 32)%nat || (n =? 127)%nat
  then "\x" +:+ String (hex_digit (Nat.div n 16))
                       (String (hex_digit (Nat.modulo n 16)) EmptyString)
  else String c EmptyString.

Fixpoint repr_chars (quote : nat) (s : string) : string :=
  match s with
  | EmptyString => EmptyString
  | String c s' => repr_char quote c +:+ repr_chars quote s'
  end.

Definition py_repr (s : string) : string :=
  let quote := if has_code 39 s && negb (has_code 34 s) then 34%nat else 39%nat in
  String (Ascii.ascii_of_nat quote)
         (repr_chars quote s +:+ String (Ascii.ascii_of_nat quote) EmptyString).

(** The text of [f"{table}"] in the log lines: the name itself, or the
    [repr] of the tuple. *)
Definition table_str (table : table_name_type) : string :=
  match table with
  | TName n => n
  | _ => "(" +:+ String.concat ", " (map py_repr (table_parts table)) +:+ ")"
  end.

(** ** Expression and query trees (the part of sqlglot the module uses) *)

Inductive expr :=
| Column (name : string) (table : option string)
| Cast (this : expr) (to : string)
| Alias (this : expr) (alias : string)
| Null
| Star (table : option string)
| Convert (v : value)
| GetUtcDate
| CurrentTimestampUtc
| Max (this : expr)
| Min (this : expr)
| CountStar
| GT (this other : expr)
| EQ (this other : expr)
| OneEqZero.

#[global] Instance expr_eq_dec : EqDecision expr.
Proof. solve_decision. Defined.

Record table_ref := { tr_name : string; tr_alias : option string }.

#[global] Instance table_ref_eq_dec : EqDecision table_ref.
Proof. solve_decision. Defined.

(** [join_type="anti"] is the only join the module asks the builder for. *)
Record anti_join := { j_this : table_ref; j_on : list expr }.

#[global] Instance anti_join_eq_dec : EqDecision anti_join.
Proof. solve_decision. Defined.

Inductive query :=
| Select (expressions : list expr) (from : table_ref)
         (joins : list anti_join) (where_ : list expr)
| Union (l r : query) (distinct : bool)
| Except (l r : query)
| With (name : string) (as_ : query) (this : query)
| CountLimitOne (name : string).

#[global] Instance query_eq_dec : EqDecision query.
Proof. solve_decision. Defined.

(** Modelled from the spec: [sql_glot_utils.table_from_tuple] is not part of
    the sources at hand; it names a table or view, with an optional alias. *)
Definition table_from_tuple (table : table_name_type) (alias : option string) : table_ref :=
  {| tr_name := String.concat "." (table_parts table); tr_alias := alias |}.

Definition table_ (name : string) (alias : string) : table_ref :=
  {| tr_name := name; tr_alias := Some alias |}.

(** Modelled from the spec: [sql_glot_utils.union] is not part of the sources
    at hand; it chains the queries of the list, in order, with UNION (ALL when
    [distinct] is false).  The module never calls it on an empty list. *)
Fixpoint union (qs : list query) (distinct : bool) : option query :=
  match qs with
  | [] => None
  | [q] => Some q
  | q :: qs' =>
      match union qs' distinct with
      | Some r => Some (Union q r distinct)
      | None => Some q
      end
  end.

(** Modelled from the spec: [utils.concat_seq] is not part of the sources at
    hand; it concatenates two sequences. *)
Definition concat_seq {A} (a b : list A) : list A := a ++ b.

(** Modelled from the spec: [sql_glot_utils.count_limit_one] is not part of
    the sources at hand; it counts the rows of a view after LIMIT 1, so the
    answer [cnt] is 0 or 1. *)
Definition count_limit_one (name : string) : query := CountLimitOne name.

(** ** The relational semantics of the query engines *)

(** The rows in scope of an expression, by table alias. *)
Abbreviation Scope := (list (string * Row)).

Fixpoint scope_row (alias : string) (sc : Scope) : Row :=
  match sc with
  | [] => []
  | (a, r) :: sc' => if bool_decide (a = alias) then r else scope_row alias sc'
  end.

Definition scope_all (sc : Scope) : Row := concat (map snd sc).

Fixpoint eval_expr (now : Z) (sc : Scope) (e : expr) : value :=
  match e with
  | Column name (Some t) => get_col name (scope_row t sc)
  | Column name None => get_col name (scope_all sc)
  | Cast this _ => eval_expr now sc this
  | Alias this _ => eval_expr now sc this
  | Null => VNull
  | Convert v => v
  | GetUtcDate => VTime now
  | CurrentTimestampUtc => VTime now
  | GT a b => sql_gt (eval_expr now sc a) (eval_expr now sc b)
  | EQ a b => sql_eq (eval_expr now sc a) (eval_expr now sc b)
  | OneEqZero => VBool false
  | Star _ | Max _ | Min _ | CountStar => VNull
  end.

(** The name of an output column. *)
Fixpoint expr_name (e : expr) : string :=
  match e with
  | Column name _ => name
  | Alias _ alias => alias
  | Cast this _ => expr_name this
  | _ => ""
  end.

(** The output cells of one item of a select list. *)
Definition select_item (now : Z) (sc : Scope) (e : expr) : Row :=
  match e with
  | Star (Some t) => scope_row t sc
  | Star None => scope_all sc
  | _ => [(expr_name e, eval_expr now sc e)]
  end.

Definition select_row (now : Z) (es : list expr) (sc : Scope) : Row :=
  concat (map (select_item now sc) es).

Fixpoint is_aggregate (e : expr) : bool :=
  match e with
  | Max _ | Min _ | CountStar => true
  | Alias this _ | Cast this _ => is_aggregate this
  | _ => false
  end.

Fixpoint eval_aggregate (now : Z) (scs : list Scope) (e : expr) : value :=
  match e with
  | Max this => sql_max (map (fun sc => eval_expr now sc this) scs)
  | Min this => sql_min (map (fun sc => eval_expr now sc this) scs)
  | CountStar => VInt (Z.of_nat (length scs))
  | Alias this _ | Cast this _ => eval_aggregate now scs this
  | _ => VNull
  end.

Definition ref_alias (t : table_ref) : string :=
  match tr_alias t with Some a => a | None => tr_name t end.

(** A row of the left side survives an anti join when no row of the joined
    table makes every conjunct of the ON clause true. *)
Definition anti_join_keeps (now : Z) (sc : Scope) (alias : string)
    (on : list expr) (joined : Table) : bool :=
  negb (existsb (fun r' => forallb (fun c => is_true (eval_expr now (sc ++ [(alias, r')]) c)) on) joined).

Definition where_keeps (now : Z) (conds : list expr) (sc : Scope) : bool :=
  forallb (fun c => is_true (eval_expr now sc c)) conds.

(** Rows are compared cell by cell, by position, NULL equal to NULL, as the
    set operations EXCEPT and UNION do. *)
Definition row_in (r : Row) (t : Table) : bool :=
  bool_decide (row_values r ∈ map row_values t).

Fixpoint distinct_rows (t : Table) (seen : Table) : Table :=
  match t with
  | [] => []
  | r :: t' => if row_in r seen then distinct_rows t' seen
               else r :: distinct_rows t' (r :: seen)
  end.

Definition except_rows (l r : Table) : Table :=
  distinct_rows (filter (fun x => row_in x r = false) l) [].

Fixpoint apply_anti_joins (now : Z) (env : gmap string Table)
    (joins : list anti_join) (scs : list Scope) : option (list Scope) :=
  match joins with
  | [] => Some scs
  | j :: joins' =>
      match env !! tr_name (j_this j) with
      | None => None
      | Some joined =>
          apply_anti_joins now env joins'
            (List.filter (fun sc => anti_join_keeps now sc (ref_alias (j_this j)) (j_on j) joined) scs)
      end
  end.

(** [None]: the query names a view the engine does not know. *)
Fixpoint eval_query (now : Z) (env : gmap string Table) (q : query) : option Table :=
  match q with
  | Select es from joins conds =>
      match env !! tr_name from with
      | None => None
      | Some t =>
          match apply_anti_joins now env joins (map (fun r => [(ref_alias from, r)]) t) with
          | None => None
          | Some scs =>
              let kept := List.filter (where_keeps now conds) scs in
              if existsb is_aggregate es
              then Some [map (fun e => (expr_name e, eval_aggregate now kept e)) es]
              else Some (map (select_row now es) kept)
          end
      end
  | Union l r distinct =>
      match eval_query now env l, eval_query now env r with
      | Some tl, Some tr => Some (if distinct then distinct_rows (tl ++ tr) [] else tl ++ tr)
      | _, _ => None
      end
  | Except l r =>
      match eval_query now env l, eval_query now env r with
      | Some tl, Some tr => Some (except_rows tl tr)
      | _, _ => None
      end
  | With name as_ this =>
      match eval_query now env as_ with
      | Some t => eval_query now (<[name := t]> env) this
      | None => None
      end
  | CountLimitOne name =>
      match env !! name with
      | Some t => Some [[("cnt", VInt (match t with [] => 0 | _ => 1 end))]]
      | None => None
      end
  end.

(** ** [_list_to_chunks] *)

(** The generator, run to its end: [chunk] is the list being filled. *)
Fixpoint list_to_chunks_from {T} (input : list T) (chunk : list T) (chunk_size : Z)
    : list (list T) :=
  match input with
  | [] => if 0 <? Z.of_nat (length chunk) then [chunk] else []
  | item :: input' =>
      let chunk := chunk ++ [item] in
      if Z.of_nat (length chunk) >=? chunk_size
      then chunk :: list_to_chunks_from input' [] chunk_size
      else list_to_chunks_from input' chunk chunk_size
  end.

Definition _list_to_chunks {T} (input : list T) (chunk_size : Z) : list (list T) :=
  list_to_chunks_from input [] chunk_size.

(** ** The world of one invocation *)

Inductive write_mode := overwrite | append.

#[global] Instance write_mode_eq_dec : EqDecision write_mode.
Proof. solve_decision. Defined.

(** One column of the OPENJSON join of [full_sql]: the JSON key [p<i>], the
    source column, its name in the destination, its type and the collation
    clause. *)
Record json_key := {
  jk_p : string;
  jk_column_name : string;
  jk_target_name : string;
  jk_data_type : string;
  jk_character_maximum_length : option Z;
  jk_collate : string
}.

#[global] Instance json_key_eq_dec : EqDecision json_key.
Proof. solve_decision. Defined.

(** SQL sent to the source: a rendered query, or the text [full_sql] builds
    around one: the query over the table [t], joined with the rows of the
    JSON document [js] on the key columns. *)
Inductive source_sql :=
| Sql (q : query)
| OpenJsonSql (q : query) (js : Table) (keys : list json_key).

#[global] Instance source_sql_eq_dec : EqDecision source_sql.
Proof. solve_decision. Defined.

Inductive content :=
| Text (s : string)
| SchemaJson (cols : list InformationSchemaColInfo).

Record file := { f_content : content; f_mtime : Z }.

Inductive log_level := INFO | WARNING | ERROR.

#[global] Instance log_level_eq_dec : EqDecision log_level.
Proof. solve_decision. Defined.

(** The calls that change the destination, in the order they were made. *)
Inductive event :=
| EvMkdir (path : string)
| EvUploadStr (path : string)
| EvRemove (path : string)
| EvSourceWrite (sql : source_sql) (path : string) (mode : write_mode)
| EvLocalWrite (q : query) (path : string) (mode : write_mode)
| EvReconstruct (path : string)
| EvRestore (path : string) (version : nat)
| EvVacuum (path : string).

#[global] Instance event_eq_dec : EqDecision event.
Proof. solve_decision. Defined.

(** One invocation is taken at one instant [now]: the source and the lake
    engine read the same clock, and nothing in the module compares two
    readings of it within a run. *)
Record World := {
  source_name : string;                (* the name of the source table, as the source knows it *)
  source_rows : Table;                 (* its rows *)
  lake : gmap string (list Table);     (* Delta tables: path to versions, oldest first *)
  files : gmap string file;            (* plain files of the destination *)
  views : gmap string Table;           (* views of the local query engine *)
  now : Z;                             (* the clock, microseconds UTC *)
  faults : list bool;                  (* which of the coming engine calls fail *)
  log_buffer : list (log_level * string);
  log_sink : list (log_level * string);
  trace : list event
}.

Definition set_lake (f : gmap string (list Table) -> gmap string (list Table)) (w : World) : World :=
  {| source_name := source_name w; source_rows := source_rows w; lake := f (lake w); files := files w; views := views w;
     now := now w; faults := faults w; log_buffer := log_buffer w; log_sink := log_sink w;
     trace := trace w |}.

Definition set_files (f : gmap string file -> gmap string file) (w : World) : World :=
  {| source_name := source_name w; source_rows := source_rows w; lake := lake w; files := f (files w); views := views w;
     now := now w; faults := faults w; log_buffer := log_buffer w; log_sink := log_sink w;
     trace := trace w |}.

Definition set_views (f : gmap string Table -> gmap string Table) (w : World) : World :=
  {| source_name := source_name w; source_rows := source_rows w; lake := lake w; files := files w; views := f (views w);
     now := now w; faults := faults w; log_buffer := log_buffer w; log_sink := log_sink w;
     trace := trace w |}.

Definition set_faults (fs : list bool) (w : World) : World :=
  {| source_name := source_name w; source_rows := source_rows w; lake := lake w; files := files w; views := views w;
     now := now w; faults := fs; log_buffer := log_buffer w; log_sink := log_sink w;
     trace := trace w |}.

Definition set_log (buffer sink : list (log_level * string)) (w : World) : World :=
  {| source_name := source_name w; source_rows := source_rows w; lake := lake w; files := files w; views := views w;
     now := now w; faults := faults w; log_buffer := buffer; log_sink := sink;
     trace := trace w |}.

Definition add_event (e : event) (w : World) : World :=
  {| source_name := source_name w; source_rows := source_rows w; lake := lake w; files := files w; views := views w;
     now := now w; faults := faults w; log_buffer := log_buffer w; log_sink := log_sink w;
     trace := trace w ++ [e] |}.

(** ** Python control flow: state and exceptions *)

Inductive exn :=
| AssertionError (msg : string)
| EngineError (what : string)
| FileNotFoundError (path : string)
| IndexError
| TypeError
| ZeroDivisionError.

#[global] Instance exn_eq_dec : EqDecision exn.
Proof. solve_decision. Defined.

Inductive Result (A : Type) :=
| Ok (a : A)
| Raise (e : exn).
Arguments Ok {A} a.
Arguments Raise {A} e.

Definition M (A : Type) : Type := World -> Result A * World.

Definition ret {A} (a : A) : M A := fun w => (Ok a, w).

Definition bind {A B} (m : M A) (k : A -> M B) : M B :=
  fun w => match m w with
           | (Ok a, w') => k a w'
           | (Raise e, w') => (Raise e, w')
           end.

Definition raise {A} (e : exn) : M A := fun w => (Raise e, w).

Definition get_world : M World := fun w => (Ok w, w).

Definition modify (f : World -> World) : M unit := fun w => (Ok tt, f w).

Declare Scope py_scope.
Delimit Scope py_scope with py.
Notation "x <- c1 ;; c2" := (bind c1 (fun x => c2))
  (at level 100, c1 at next level, right associativity) : py_scope.
Notation "c1 ;; c2" := (bind c1 (fun _ => c2))
  (at level 100, right associativity) : py_scope.
Open Scope py_scope.

(** [try: body except Exception as e: handler; raise e]. *)
Definition try_except_reraise {A} (body : M A) (handler : M unit) : M A :=
  fun w => match body w with
           | (Ok a, w') => (Ok a, w')
           | (Raise e, w') =>
               match handler w' with
               | (Ok _, w'') => (Raise e, w'')
               | (Raise e', w'') => (Raise e', w'')
               end
           end.

(** [try: body except Exception: handler] where the handler gives the value. *)
Definition try_except {A} (body : M A) (handler : exn -> M A) : M A :=
  fun w => match body w with
           | (Ok a, w') => (Ok a, w')
           | (Raise e, w') => handler e w'
           end.

(** [try: body finally: final]. *)
Definition try_finally {A} (body : M A) (final : M unit) : M A :=
  fun w => match body w with
           | (r, w') =>
               match final w' with
               | (Ok _, w'') => (r, w'')
               | (Raise e, w'') => (Raise e, w'')
               end
           end.

Definition py_assert (b : bool) (msg : string) : M unit :=
  if b then ret tt else raise (AssertionError msg).

(** ** The collaborators: logger, destination, reader *)

(** Modelled from the spec: [delta_logger.DeltaLogger] is not part of the
    sources at hand; log lines are buffered and [flush] hands them to the
    sink.  Keyword arguments of a log call are not kept. *)
Definition logger_log (level : log_level) (msg : string) : M unit :=
  modify (fun w => set_log (log_buffer w ++ [(level, msg)]) (log_sink w) w).

Definition logger_info := logger_log INFO.
Definition logger_warning := logger_log WARNING.
Definition logger_error := logger_log ERROR.

Definition logger_flush : M unit :=
  modify (fun w => set_log [] (log_sink w ++ log_buffer w) w).

(** Modelled from the spec: [destination.Destination] is not part of the
    sources at hand; a path-like with [mkdir], [exists], [remove],
    [upload_str] and [modified_time].  [upload_str] replaces a file that is
    there (the orchestrator uploads [meta/schema.json] on every run).
    Directories are not kept; a Delta table is there as soon as it has a
    first version. *)
Definition dest_mkdir (path : string) : M unit :=
  modify (add_event (EvMkdir path)).

Definition path_exists (path : string) (w : World) : bool :=
  bool_decide (is_Some (files w !! path)) || bool_decide (is_Some (lake w !! path)).

Definition dest_exists (path : string) : M bool :=
  fun w => (Ok (path_exists path w), w).

Definition dest_remove (path : string) : M unit :=
  fun w =>
    if path_exists path w
    then (Ok tt, add_event (EvRemove path) (set_lake (delete path) (set_files (delete path) w)))
    else (Raise (FileNotFoundError path), w).

Definition dest_upload_str (path : string) (c : content) : M unit :=
  modify (fun w => add_event (EvUploadStr path)
                     (set_files (insert path {| f_content := c; f_mtime := now w |}) w)).

Definition dest_modified_time (path : string) : M Z :=
  fun w => match files w !! path with
           | Some f => (Ok (f_mtime f), w)
           | None => (Raise (FileNotFoundError path), w)
           end.

(** Modelled from the spec: [reader.DataSourceReader] is not part of the
    sources at hand; the contract of section 6 of the specification.  Every
    call that runs SQL may fail: it takes the next entry of [faults].  A
    write to a Delta path adds a version; a view is the table as it is when
    the view is registered. *)
Definition fault_point (what : string) : M unit :=
  fun w => match faults w with
           | true :: fs => (Raise (EngineError what), set_faults fs w)
           | false :: fs => (Ok tt, set_faults fs w)
           | [] => (Ok tt, w)
           end.

Definition latest (h : list Table) : Table := List.last h [].

Definition write_versions (mode : write_mode) (rows : Table) (h : option (list Table))
    : list Table :=
  match h with
  | None => [rows]
  | Some h => h ++ [match mode with overwrite => rows | append => latest h ++ rows end]
  end.

Definition write_delta (path : string) (mode : write_mode) (rows : Table) (w : World) : World :=
  set_lake (fun l => <[path := write_versions mode rows (l !! path)]> l) w.

Definition flat_map_rows {A} (f : A -> Table) (l : list A) : Table := List.concat (map f l).

Definition json_key_match (r j : Row) (k : json_key) : bool :=
  is_true (sql_eq (get_col (jk_column_name k) r) (get_col (jk_p k) j)).

(** What the source answers. *)
Definition eval_source (now : Z) (name : string) (rows : Table) (sql : source_sql)
    : option Table :=
  match sql with
  | Sql q => eval_query now {[ name := rows ]} q
  | OpenJsonSql (Select es from _ _) js keys =>
      if bool_decide (tr_name from = name)
      then Some (flat_map_rows (fun r =>
                   flat_map_rows (fun j =>
                     if forallb (json_key_match r j) keys
                     then [select_row now es [(ref_alias from, r)]] else []) js) rows)
      else None
  | OpenJsonSql _ _ _ => None
  end.

(** [extended_check=True] also asks for a column in the table; the tables of
    the lake are those the engines wrote, so the two checks agree here. *)
Definition local_delta_table_exists (path : string) : M bool :=
  fun w => (Ok (bool_decide (is_Some (lake w !! path))), w).

Definition local_register_update_view (path : string) (name : string) (version : option nat)
    : M unit :=
  fault_point "local_register_update_view" ;;
  fun w =>
    match lake w !! path with
    | None => (Raise (EngineError "no delta table"), w)
    | Some h =>
        match version with
        | None => (Ok tt, set_views (insert name (latest h)) w)
        | Some v =>
            match h !! v with
            | Some t => (Ok tt, set_views (insert name t) w)
            | None => (Raise (EngineError "no such version"), w)
            end
        end
    end.

Definition local_execute_sql_to_py (q : query) : M Table :=
  fault_point "local_execute_sql_to_py" ;;
  fun w =>
    match eval_query (now w) (views w) q with
    | Some t => (Ok t, w)
    | None => (Raise (EngineError "unknown view"), w)
    end.

(** The query of a view is run when the view is registered: between the
    registration of a view and its uses the module registers nothing that
    the view reads. *)
Definition local_register_view (q : query) (name : string) : M unit :=
  t <- local_execute_sql_to_py q ;;
  modify (set_views (insert name t)).

Definition local_execute_sql_to_delta (q : query) (path : string) (mode : write_mode) : M unit :=
  t <- local_execute_sql_to_py q ;;
  modify (fun w => add_event (EvLocalWrite q path mode) (write_delta path mode t w)).

Definition source_write_sql_to_delta (sql : source_sql) (path : string) (mode : write_mode)
    : M unit :=
  fault_point "source_write_sql_to_delta" ;;
  fun w =>
    match eval_source (now w) (source_name w) (source_rows w) sql with
    | Some t => (Ok tt, add_event (EvSourceWrite sql path mode) (write_delta path mode t w))
    | None => (Raise (EngineError "invalid object name"), w)
    end.

(** [get_local_delta_ops(path)]: [version()], [restore(v)], [vacuum()]. *)
Definition delta_version (path : string) : M nat :=
  fun w => match lake w !! path with
           | Some h => (Ok (length h - 1)%nat, w)
           | None => (Raise (EngineError "no delta table"), w)
           end.

Definition delta_restore (path : string) (version : nat) : M unit :=
  fun w => match lake w !! path with
           | Some h =>
               match h !! version with
               | Some t => (Ok tt, add_event (EvRestore path version)
                                     (set_lake (insert path (h ++ [t])) w))
               | None => (Raise (EngineError "no such version"), w)
               end
           | None => (Raise (EngineError "no delta table"), w)
           end.

Definition delta_vacuum (path : string) : M unit :=
  fun w => match lake w !! path with
           | Some _ => (Ok tt, add_event (EvVacuum path) w)
           | None => (Raise (EngineError "no delta table"), w)
           end.

(** [rows[0][name]] on the answer of [local_execute_sql_to_py]. *)
Definition first_row (name : string) (rows : Table) : M value :=
  match rows with
  | r :: _ => ret (get_col name r)
  | [] => raise IndexError
  end.

(** An [int] where Python compares one with a number. *)
Definition as_int (v : value) : M Z :=
  match v with
  | VInt z => ret z
  | _ => raise TypeError
  end.

(** ** Configuration ([write_init.py]) *)

Inductive load_mode_type :=
| mode_auto
| mode_overwrite
| mode_append
| mode_force_full
| mode_simple_delta
| mode_append_inserts.

#[global] Instance load_mode_type_eq_dec : EqDecision load_mode_type.
Proof. solve_decision. Defined.

(** Modelled from the spec: [write_init.WriteConfig] and
    [write_init.WriteConfigAndInfos] are not part of the sources at hand; the
    fields are those section 3 of the specification lists and the
    orchestrator reads.  The destination, the reader and the logger of
    [WriteConfigAndInfos] are the [World]. *)
Record WriteConfig := {
  load_mode : load_mode_type;
  dialect : string;
  data_type_map : option (gmap string string);
  get_target_name : InformationSchemaColInfo -> string;
  no_complex_entries_load : bool
}.

Record WriteConfigAndInfos := {
  write_config : WriteConfig;
  col_infos : list InformationSchemaColInfo;
  pk_cols : list InformationSchemaColInfo;
  delta_col : option InformationSchemaColInfo;
  table : table_name_type
}.

(** Modelled from the spec: the constants of [write_init] are not part of the
    sources at hand; the names are those of the destination layout and of the
    augmentation columns in section 3 of the specification. *)
Definition DELTA_1_NAME : string := "delta_1".
Definition DELTA_2_NAME : string := "delta_2".
Definition PRIMARY_KEYS_TS : string := "primary_keys_ts".
Definition LATEST_PK_VERSION : string := "latest_pk".
Definition VALID_FROM_COL_NAME : string := "__valid_from".
Definition IS_DELETED_COL_NAME : string := "__is_deleted".
Definition IS_FULL_LOAD_COL_NAME : string := "__is_full_load".

(** [destination / "delta_load" / name]. *)
Definition delta_load (name : string) : string := "delta_load/" +:+ name.

(** ** The module [db_to_delta] *)

Definition _cast (name data_type : string) (table_alias : option string)
    (type_map : option (gmap string string)) : expr :=
  let mapped_type := match type_map with
                     | Some m => m !! data_type
                     | None => None
                     end in
  match mapped_type with
  | Some ty => if bool_decide (ty = "") then Column name table_alias
               else Cast (Column name table_alias) ty
  | None => Column name table_alias
  end.

Definition valid_from_expr : expr :=
  Alias (Cast GetUtcDate "datetime2(6)") VALID_FROM_COL_NAME.

Definition _get_cols_select (cols : list InformationSchemaColInfo)
    (is_deleted is_full : option bool) (with_valid_from : bool)
    (table_alias : option string) (source_uses_compat : bool)
    (data_type_map : option (gmap string string))
    (get_target_name : option (InformationSchemaColInfo -> string)) : list expr :=
  let get_target_name := match get_target_name with
                         | Some f => f
                         | None => column_name
                         end in
  map (fun c => Alias (_cast (if source_uses_compat then get_target_name c else column_name c)
                             (data_type c) table_alias data_type_map)
                      (get_target_name c)) cols
  ++ (if with_valid_from then [valid_from_expr] else [])
  ++ match is_deleted with
     | Some b => [Alias (Cast (Convert (VInt (Z.b2z b))) "bit") IS_DELETED_COL_NAME]
     | None => []
     end
  ++ match is_full with
     | Some b => [Alias (Cast (Convert (VInt (Z.b2z b))) "bit") IS_FULL_LOAD_COL_NAME]
     | None => []
     end.

Definition _vacuum (dest : string) : M unit :=
  ex <- local_delta_table_exists dest ;;
  if ex then delta_vacuum dest else ret tt.

(** The ON clause of the anti joins: the key columns of [l] equal those of [r]. *)
Definition pk_equal (write_config : WriteConfig) (pks : list InformationSchemaColInfo)
    (l r : string) : list expr :=
  map (fun c => EQ (Column (get_target_name write_config c) (Some l))
                   (Column (get_target_name write_config c) (Some r))) pks.

Definition latest_pk_query (pks : list InformationSchemaColInfo)
    (delta_col : InformationSchemaColInfo) (write_config : WriteConfig) : option query :=
  let cols_select alias :=
    _get_cols_select (concat_seq pks [delta_col]) None None false (Some alias) true None
                     (Some (get_target_name write_config)) in
  union
    [ Select (cols_select "au") (table_from_tuple (TName "delta_2") (Some "au")) [] [];
      Select (cols_select "d1") (table_ DELTA_1_NAME "d1")
        [ {| j_this := table_ "delta_2" "au2"; j_on := pk_equal write_config pks "d1" "au2" |} ] [];
      Select (cols_select "cpk") (table_ PRIMARY_KEYS_TS "cpk")
        [ {| j_this := table_ "delta_2" "au3"; j_on := pk_equal write_config pks "cpk" "au3" |};
          {| j_this := table_ DELTA_1_NAME "au4"; j_on := pk_equal write_config pks "cpk" "au4" |} ]
        [] ]
    false.

Definition write_latest_pk (pks : list InformationSchemaColInfo)
    (delta_col : InformationSchemaColInfo) (write_config : WriteConfig) : M unit :=
  local_register_update_view (delta_load DELTA_1_NAME) DELTA_1_NAME None ;;
  local_register_update_view (delta_load DELTA_2_NAME) DELTA_2_NAME None ;;
  local_register_update_view (delta_load PRIMARY_KEYS_TS) PRIMARY_KEYS_TS None ;;
  match latest_pk_query pks delta_col write_config with
  | Some q => local_execute_sql_to_delta q (delta_load LATEST_PK_VERSION) overwrite
  | None => raise TypeError
  end.

Definition from_ (name : string) : table_ref := {| tr_name := name; tr_alias := None |}.

Definition _get_latest_delta_value (delta_path : string) (table : table_name_type)
    (delta_col : InformationSchemaColInfo) (write_config : WriteConfig) : M value :=
  local_register_update_view delta_path (_temp_table table) None ;;
  rows <- local_execute_sql_to_py
            (Select [Alias (Max (_cast (get_target_name write_config delta_col)
                                       (data_type delta_col) None None)) "max_ts"]
                    (from_ (_temp_table table)) [] []) ;;
  first_row "max_ts" rows.

Definition LAST_PK_VERSION : string := "LAST_PK_VERSION".

Definition delete_query (pk_cols : list InformationSchemaColInfo) (write_config : WriteConfig)
    : query :=
  Except
    (Select (_get_cols_select pk_cols None None false (Some "lpk") true None
                              (Some (get_target_name write_config)))
            (table_from_tuple (TName LAST_PK_VERSION) (Some "lpk")) [] [])
    (Select (_get_cols_select pk_cols None None false (Some "cpk") true None
                              (Some (get_target_name write_config)))
            (table_from_tuple (TName LATEST_PK_VERSION) (Some "cpk")) [] []).

Definition at_time_zone_utc : expr := Alias CurrentTimestampUtc VALID_FROM_COL_NAME.

Definition deletes_with_schema (cols pk_cols : list InformationSchemaColInfo)
    (write_config : WriteConfig) : option query :=
  let non_pk_cols := List.filter (fun c => negb (bool_decide (c ∈ pk_cols))) cols in
  let non_pk_select := map (fun c => Alias Null (get_target_name write_config c)) non_pk_cols in
  match union
    [ Select (_get_cols_select pk_cols None None false (Some "d1") true None
                               (Some (get_target_name write_config))
              ++ _get_cols_select non_pk_cols None None false (Some "d1") true None
                                  (Some (get_target_name write_config))
              ++ [ at_time_zone_utc;
                   Alias (Convert (VBool true)) IS_DELETED_COL_NAME;
                   Alias (Convert (VBool false)) IS_FULL_LOAD_COL_NAME ])
             (table_from_tuple (TName "delta_1") (Some "d1")) [] [OneEqZero];
      Select ([Star (Some "d")] ++ non_pk_select ++ [at_time_zone_utc]
              ++ [Alias (Convert (VBool true)) IS_DELETED_COL_NAME]
              ++ [Alias (Convert (VBool false)) IS_FULL_LOAD_COL_NAME])
             (table_from_tuple (TName "deletes") (Some "d")) [] [] ]
    false with
  | Some q => Some (With "deletes" (delete_query pk_cols write_config) q)
  | None => None
  end.

Definition do_deletes (cols pk_cols : list InformationSchemaColInfo) (old_pk_version : nat)
    (write_config : WriteConfig) : M unit :=
  local_register_update_view (delta_load LATEST_PK_VERSION) LATEST_PK_VERSION None ;;
  local_register_update_view (delta_load LATEST_PK_VERSION) LAST_PK_VERSION (Some old_pk_version) ;;
  match deletes_with_schema cols pk_cols write_config with
  | None => raise TypeError
  | Some q =>
      local_register_view q "deletes_with_schema" ;;
      rows <- local_execute_sql_to_py (count_limit_one "deletes_with_schema") ;;
      cnt <- first_row "cnt" rows ;;
      cnt <- as_int cnt ;;
      let has_deletes := 0 <? cnt in
      if has_deletes
      then local_execute_sql_to_delta (Select [Star None] (from_ "deletes_with_schema") [] [])
                                      "delta" append
      else ret tt
  end.

Definition delta_path : string := "delta".

Definition _retrieve_primary_key_data (table : table_name_type)
    (delta_col : InformationSchemaColInfo) (pk_cols : list InformationSchemaColInfo)
    (write_config : WriteConfig) : M string :=
  let pk_ts_col_select :=
    Select (_get_cols_select (concat_seq pk_cols [delta_col]) None None false None false
                             (data_type_map write_config) (Some (get_target_name write_config)))
           (table_from_tuple table None) [] [] in
  let pk_ts_reader_sql := Sql pk_ts_col_select in
  let pk_path := delta_load PRIMARY_KEYS_TS in
  source_write_sql_to_delta pk_ts_reader_sql pk_path overwrite ;;
  ret pk_path.

(** [criterion] is an expression or [None] at every call of the module. *)
Definition _get_update_sql (cols : list InformationSchemaColInfo) (criterion : option expr)
    (table : table_name_type) (write_config : WriteConfig) : source_sql :=
  Sql (Select (_get_cols_select cols (Some false) (Some false) true (Some "t") false
                                (data_type_map write_config)
                                (Some (get_target_name write_config)))
              (table_from_tuple table (Some "t")) []
              (match criterion with Some c => [c] | None => [] end)).

Definition select_star (name : string) : query := Select [Star None] (from_ name) [] [].

Definition _load_updates_to_delta (delta_path : string) (sql : source_sql)
    (delta_name : string) (write_config : WriteConfig) : M unit :=
  let delta_name_path := delta_load delta_name in
  logger_info "Executing sql" ;;
  source_write_sql_to_delta sql delta_name_path overwrite ;;
  local_register_update_view delta_name_path delta_name None ;;
  rows <- local_execute_sql_to_py (count_limit_one delta_name) ;;
  count <- first_row "cnt" rows ;;
  if bool_decide (count = VInt 0) then ret tt
  else local_execute_sql_to_delta (select_star delta_name) delta_path append.

Definition do_full_load (infos : WriteConfigAndInfos) (mode : write_mode) : M unit :=
  let write_config := write_config infos in
  logger_info (table_str (table infos) +:+ ": Start Full Load") ;;
  let sql := Sql (Select (_get_cols_select (col_infos infos) (Some false) (Some true) true None
                                           false (data_type_map write_config)
                                           (Some (get_target_name write_config)))
                         (table_from_tuple (table infos) None) [] []) in
  ex <- local_delta_table_exists delta_path ;;
  max_valid_from <-
    (if ex
     then local_register_update_view delta_path (_temp_table (table infos)) None ;;
          res <- local_execute_sql_to_py
                   (Select [Alias (Max (Column VALID_FROM_COL_NAME None)) VALID_FROM_COL_NAME]
                           (from_ (_temp_table (table infos))) [] []) ;;
          ret (match res with r :: _ => get_col VALID_FROM_COL_NAME r | [] => VNull end)
     else logger_info "executing sql" ;; ret VNull) ;;
  source_write_sql_to_delta sql delta_path mode ;;
  match delta_col infos with
  | None => logger_info (table_str (table infos) +:+ ": Full Load done")
  | Some delta_col =>
      logger_info (table_str (table infos) +:+ ": Full Load done, write meta for delta load") ;;
      local_register_update_view delta_path (_temp_table (table infos)) None ;;
      dest_mkdir "delta_load" ;;
      let query :=
        Select (map (fun pk => Column (get_target_name write_config pk) None) (pk_cols infos)
                ++ [Column (get_target_name write_config delta_col) None])
               (from_ (_temp_table (table infos))) []
               (if truthy max_valid_from
                then [GT (Column VALID_FROM_COL_NAME None) (Convert max_valid_from)]
                else []) in
      local_execute_sql_to_delta query (delta_load LATEST_PK_VERSION) overwrite
  end.

Definition ascii_lower (c : Ascii.ascii) : Ascii.ascii :=
  let n := Ascii.nat_of_ascii c in
  if (65 <=? n)%nat && (n <=? 90)%nat then Ascii.ascii_of_nat (n + 32) else c.

Fixpoint lower (s : string) : string :=
  match s with
  | EmptyString => EmptyString
  | String c s' => String (ascii_lower c) (lower s')
  end.

Definition _collate (c : InformationSchemaColInfo) : string :=
  if bool_decide (lower (data_type c) ∈ ["char"; "varchar"; "nchar"; "nvarchar"; "text"; "ntext"])
  then "COLLATE Latin1_General_100_BIN "
  else "".

Definition full_sql (table : table_name_type) (pk_cols cols : list InformationSchemaColInfo)
    (write_config : WriteConfig) (js : Table) : source_sql :=
  let selects := _get_cols_select cols (Some false) (Some false) true (Some "t") false
                                  (data_type_map write_config)
                                  (Some (get_target_name write_config)) in
  OpenJsonSql (Select selects (table_from_tuple table (Some "t")) [] []) js
    (imap (fun i p => {| jk_p := "p" +:+ pretty i;
                         jk_column_name := column_name p;
                         jk_target_name := get_target_name write_config p;
                         jk_data_type := data_type p;
                         jk_character_maximum_length := character_maximum_length p;
                         jk_collate := _collate p |}) pk_cols).

(** [json.dumps(rows)]: the document is kept as the rows it encodes; a
    [datetime] cell is not JSON serializable. *)
Definition json_serializable (v : value) : bool :=
  match v with VTime _ => false | _ => true end.

Definition json_dumps (rows : Table) : M Table :=
  if forallb (fun r => forallb json_serializable (row_values r)) rows
  then ret rows else raise TypeError.

Definition char_size_pks (pk_cols : list InformationSchemaColInfo) : Z :=
  foldr Z.add 0
    (map (fun p => 5 + (if bool_decide (data_type p ∈ ["bit"; "int"; "bigint"; "tinyint"; "bool"; "smallint"])
                         then 10 else 40)) pk_cols).

(** [max(10, int(7000 / char_size_pks))]; the quotient of two positive
    integers, truncated. *)
Definition batch_size (pk_cols : list InformationSchemaColInfo) : M Z :=
  if char_size_pks pk_cols =? 0 then raise ZeroDivisionError
  else ret (Z.max 10 (7000 / char_size_pks pk_cols)).

Section Orchestrator.

(** The text of a statement sent to the source, as sqlglot and the f-string
    of [full_sql] render it; only its length is looked at. *)
Variable sql_text : source_sql -> string.

(** Modelled from the spec: [write_utils.restore_pk.restore_last_pk] is not
    part of the sources at hand; "attempt recovery via a reconstruct routine".
    It either raises ([None]), gives up ([Some None]) or writes a
    reconstructed manifest to [latest_pk] and reports success. *)
Variable restore_last_pk : WriteConfigAndInfos -> World -> option (option Table).

Definition restore_last_pk_call (infos : WriteConfigAndInfos) : M bool :=
  fun w => match restore_last_pk infos w with
           | None => (Raise (EngineError "restore_last_pk"), w)
           | Some None => (Ok false, w)
           | Some (Some t) =>
               (Ok true, add_event (EvReconstruct (delta_load LATEST_PK_VERSION))
                           (write_delta (delta_load LATEST_PK_VERSION) overwrite t w))
           end.

(** The body of [for chunk in _list_to_chunks(jsd, batch_size)]. *)
Fixpoint write_chunks (full_sql : Table -> source_sql) (delta_2_path : string)
    (chunks : list Table) (first : bool) : M unit :=
  match chunks with
  | [] => ret tt
  | chunk :: chunks' =>
      js <- json_dumps chunk ;;
      let sql := full_sql js in
      (if 7000 <? Z.of_nat (String.length (sql_text sql))
       then
         let ch_split := (length chunk / 2)%nat in
         let chunk_1 := take ch_split chunk in
         let chunk_2 := drop ch_split chunk in
         js_1 <- json_dumps chunk_1 ;;
         source_write_sql_to_delta (full_sql js_1) delta_2_path
                                   (if first then overwrite else append) ;;
         js_2 <- json_dumps chunk_2 ;;
         source_write_sql_to_delta (full_sql js_2) delta_2_path append
       else
         source_write_sql_to_delta sql delta_2_path (if first then overwrite else append)) ;;
      write_chunks full_sql delta_2_path chunks' false
  end.

Definition additional_updates_query (pk_cols : list InformationSchemaColInfo)
    (delta_col : InformationSchemaColInfo) (write_config : WriteConfig) : query :=
  let pk_ds_cols := concat_seq pk_cols [delta_col] in
  Except
    (Select (_get_cols_select pk_ds_cols None None false (Some "pk") true None
                              (Some (get_target_name write_config)))
            (table_ PRIMARY_KEYS_TS "pk") [] [])
    (Select (_get_cols_select pk_ds_cols None None false (Some "lpk") true None
                              (Some (get_target_name write_config)))
            (table_from_tuple (TName LAST_PK_VERSION) (Some "lpk")) [] []).

Definition real_additional_updates_query (pk_cols : list InformationSchemaColInfo)
    (write_config : WriteConfig) : query :=
  Except
    (Select (_get_cols_select pk_cols None None false (Some "au") true None
                              (Some (get_target_name write_config)))
            (table_ "additional_updates" "au") [] [])
    (Select (_get_cols_select pk_cols None None false (Some "d1") true None
                              (Some (get_target_name write_config)))
            (table_from_tuple (TName "delta_1") (Some "d1")) [] []).

(** The branch of [_handle_additional_updates] for many strange updates:
    take the smallest delta value and load by timestamp once more. *)
Definition replay_timestamp_step (table : table_name_type) (delta_path : string)
    (pk_cols : list InformationSchemaColInfo) (delta_col : InformationSchemaColInfo)
    (cols : list InformationSchemaColInfo) (write_config : WriteConfig) (n : Z) : M unit :=
  let delta_2_path := delta_load "delta_2" in
  source_write_sql_to_delta (full_sql table pk_cols cols write_config []) delta_2_path overwrite ;;
  logger_warning (table_str table +:+ ": Start delta step 3, load " +:+ pretty n
                  +:+ " strange updates via normal delta load") ;;
  rows <- local_execute_sql_to_py
            (Select [Alias (Min (Column (get_target_name write_config delta_col) None)) "min_ts"]
                    (table_ "additional_updates" "rau") [] []) ;;
  delta_load_value <- first_row "min_ts" rows ;;
  let criterion := GT (_cast (column_name delta_col) (data_type delta_col) (Some "t")
                             (data_type_map write_config))
                      (Convert delta_load_value) in
  logger_info (table_str table +:+ ": Start delta step 2, load updates by timestamp") ;;
  let upds_sql := _get_update_sql cols (Some criterion) table write_config in
  logger_info "execute sql" ;;
  _load_updates_to_delta delta_path upds_sql "delta_1" write_config.

(** The last branch of [_handle_additional_updates]: the keys travel to the
    source in batches, as JSON documents. *)
Definition chunked_openjson (table : table_name_type) (delta_path : string)
    (pk_cols cols : list InformationSchemaColInfo) (write_config : WriteConfig)
    (n : Z) (jsd : Table) : M unit :=
  let delta_2_path := delta_load "delta_2" in
  let full_sql := full_sql table pk_cols cols write_config in
  batch_size <- batch_size pk_cols ;;
  logger_warning (table_str table +:+ ": Start delta step 3, load " +:+ pretty n
                  +:+ " strange updates via batches of size " +:+ pretty batch_size) ;;
  logger_info "execute sql" ;;
  write_chunks full_sql delta_2_path (_list_to_chunks jsd batch_size) true ;;
  local_register_update_view delta_2_path "delta_2" None ;;
  local_execute_sql_to_delta (select_star "delta_2") delta_path append.

Definition jsd_query (pk_cols : list InformationSchemaColInfo) (write_config : WriteConfig)
    : query :=
  Select (imap (fun i c => Alias (Column (get_target_name write_config c) None)
                                 ("p" +:+ pretty i)) pk_cols)
         (from_ "real_additional_updates") [] [].

Definition _handle_additional_updates (table : table_name_type) (delta_path : string)
    (pk_cols : list InformationSchemaColInfo) (delta_col : InformationSchemaColInfo)
    (cols : list InformationSchemaColInfo) (write_config : WriteConfig)
    (old_pk_version : nat) : M unit :=
  local_register_update_view (delta_load PRIMARY_KEYS_TS) PRIMARY_KEYS_TS None ;;
  local_register_update_view (delta_load LATEST_PK_VERSION) LAST_PK_VERSION (Some old_pk_version) ;;
  local_register_view (additional_updates_query pk_cols delta_col write_config)
                      "additional_updates" ;;
  let sql_query := real_additional_updates_query pk_cols write_config in
  local_register_view sql_query "real_additional_updates" ;;
  rows <- local_execute_sql_to_py
            (Select [Alias CountStar "cnt"] (from_ "real_additional_updates") [] []) ;;
  update_count <- first_row "cnt" rows ;;
  jsd <- local_execute_sql_to_py (jsd_query pk_cols write_config) ;;
  let delta_2_path := delta_load "delta_2" in
  if bool_decide (update_count = VInt 0)
  then source_write_sql_to_delta (full_sql table pk_cols cols write_config []) delta_2_path
                                 overwrite
  else
    n <- as_int update_count ;;
    if (1000 <? n) || no_complex_entries_load write_config
    then replay_timestamp_step table delta_path pk_cols delta_col cols write_config n
    else chunked_openjson table delta_path pk_cols cols write_config n jsd.

Definition do_append_inserts_load (infos : WriteConfigAndInfos) : M unit :=
  let write_config := write_config infos in
  match delta_col infos with
  | None => raise (AssertionError "must have a delta col")
  | Some delta_col =>
      logger_info (table_str (table infos) +:+ ": Start Append Only Load with Delta Column "
                   +:+ column_name delta_col) ;;
      delta_load_value <- _get_latest_delta_value delta_path (table infos) delta_col write_config ;;
      let criterion :=
        if truthy delta_load_value
        then Some (GT (_cast (column_name delta_col) (data_type delta_col) (Some "t")
                             (data_type_map write_config))
                      (Convert delta_load_value))
        else None in
      logger_info (table_str (table infos) +:+ ": Start delta step 2, load updates by timestamp") ;;
      _load_updates_to_delta delta_path
        (_get_update_sql (col_infos infos) criterion (table infos) write_config)
        "delta_1" write_config ;;
      logger_info (table_str (table infos) +:+ ": Done Append only load")
  end.

(** The text of a cell inside an f-string. *)
Definition value_str (v : value) : string :=
  match v with
  | VNull => "None"
  | VInt z => pretty z
  | VStr s => s
  | VBool true => "True"
  | VBool false => "False"
  | VTime t => pretty t
  end.

Definition do_delta_load (infos : WriteConfigAndInfos) (simple : bool) : M unit :=
  let write_config := write_config infos in
  let table := table infos in
  match delta_col infos with
  | None => raise (AssertionError "Must have a delta_col for delta loads")
  | Some delta_col =>
      let last_pk_path := if negb simple then Some (delta_load LATEST_PK_VERSION) else None in
      logger_info (table_str table +:+ ": Start " +:+ (if simple then "SIMPLE " else "")
                   +:+ "Delta Load with Delta Column " +:+ column_name delta_col
                   +:+ " and pks: " +:+ String.concat ", " (map column_name (pk_cols infos))) ;;
      missing <- match last_pk_path with
                 | Some p => ex <- local_delta_table_exists p ;; ret (negb ex)
                 | None => ret false
                 end ;;
      returned <-
        (if missing
         then
           logger_warning (table_str table +:+ ": Primary keys missing, try to restore") ;;
           restore_success <-
             try_except (restore_last_pk_call infos)
                        (fun e => logger_warning (table_str table
                                                  +:+ ": Could not restore primary keys") ;;
                                  ret false) ;;
           if negb restore_success
           then logger_warning (table_str table +:+ ": No primary keys found, do a full load") ;;
                do_full_load infos append ;;
                ret true
           else ret false
         else ret false) ;;
      if returned then ret tt
      else
        old_pk_version <- (if negb simple
                           then v <- delta_version (delta_load LATEST_PK_VERSION) ;; ret (Some v)
                           else ret None) ;;
        delta_load_value <- _get_latest_delta_value delta_path table delta_col write_config ;;
        if bool_decide (delta_load_value = VNull)
        then logger_warning (table_str table +:+ ": No delta load value, do a full load") ;;
             do_full_load infos append
        else
          logger_info (table_str table
                       +:+ ": Start delta step 1, get primary keys and timestamps. MAX("
                       +:+ column_name delta_col +:+ "): " +:+ value_str delta_load_value) ;;
          (if negb simple
           then _retrieve_primary_key_data table delta_col (pk_cols infos) write_config ;; ret tt
           else ret tt) ;;
          let criterion := GT (_cast (column_name delta_col) (data_type delta_col) (Some "t")
                                     (data_type_map write_config))
                              (Convert delta_load_value) in
          logger_info (table_str table +:+ ": Start delta step 2, load updates by timestamp") ;;
          let upds_sql := _get_update_sql (col_infos infos) (Some criterion) table write_config in
          logger_info "execute sql" ;;
          _load_updates_to_delta delta_path upds_sql "delta_1" write_config ;;
          if negb simple
          then
            match old_pk_version with
            | None => raise (AssertionError "")
            | Some old_pk_version =>
                _handle_additional_updates table delta_path (pk_cols infos) delta_col
                                           (col_infos infos) write_config old_pk_version ;;
                local_register_update_view delta_path (_temp_table table) None ;;
                logger_info (table_str table
                             +:+ ": Start delta step 3.5, write meta for next delta load") ;;
                write_latest_pk (pk_cols infos) delta_col write_config ;;
                logger_info (table_str table +:+ ": Start delta step 4.5, write deletes") ;;
                do_deletes (col_infos infos) (pk_cols infos) old_pk_version write_config ;;
                logger_info (table_str table +:+ ": Done delta load")
            end
          else
            ex <- dest_exists (delta_load LATEST_PK_VERSION) ;;
            if ex then dest_remove (delta_load LATEST_PK_VERSION) else ret tt
  end.

Definition lock_file_path : string := "meta/lock.txt".

(** The statements of [exec_write_db_to_delta] under [try:], in three parts:
    the lock, the choice of the load, the cleanup. *)
Definition exec_lock : M unit :=
  locked <- dest_exists lock_file_path ;;
  stale <- (if locked
            then mtime <- dest_modified_time lock_file_path ;;
                 w <- get_world ;;
                 ret (60 * 60 * 1000000 <? now w - mtime)
            else ret false) ;;
  (if stale then dest_remove lock_file_path else ret tt) ;;
  dest_upload_str lock_file_path (Text "").

Definition exec_dispatch (infos : WriteConfigAndInfos) : M unit :=
  let write_config := write_config infos in
  let pk_cols := pk_cols infos in
  let delta_col := delta_col infos in
  ex <- local_delta_table_exists delta_path ;;
  if negb ex || bool_decide (load_mode write_config = mode_overwrite)
  then
    dest_mkdir delta_path ;;
    logger_info (table_str (table infos) +:+ ": Start Full Load") ;;
    do_full_load infos overwrite
  else if bool_decide (load_mode write_config = mode_append_inserts)
  then
    let delta_col :=
      match delta_col, pk_cols with
      | None, [pk] => if is_identity pk then Some pk else None
      | _, _ => delta_col
      end in
    py_assert (bool_decide (is_Some delta_col))
              "Must provide delta column for append_inserts load" ;;
    do_append_inserts_load infos
  else
    if bool_decide (delta_col = None) || bool_decide (length pk_cols = 0%nat)
       || bool_decide (load_mode write_config = mode_force_full)
    then do_full_load infos append
    else do_delta_load infos (bool_decide (load_mode write_config = mode_simple_delta)).

Definition exec_cleanup : M unit :=
  dest_remove lock_file_path ;;
  _vacuum (delta_load LATEST_PK_VERSION) ;;
  _vacuum (delta_load DELTA_1_NAME) ;;
  _vacuum (delta_load DELTA_2_NAME) ;;
  _vacuum (delta_load PRIMARY_KEYS_TS).

Definition exec_try_body (infos : WriteConfigAndInfos) : M unit :=
  exec_lock ;;
  exec_dispatch infos ;;
  exec_cleanup.

(** The [except Exception] block, before [raise e]. *)
Definition exec_restore (last_version_pk : option nat) : M unit :=
  match last_version_pk with
  | Some last_version_pk =>
      version <- delta_version (delta_load LATEST_PK_VERSION) ;;
      if (last_version_pk <? version)%nat
      then delta_restore (delta_load LATEST_PK_VERSION) last_version_pk
      else ret tt
  | None => ret tt
  end ;;
  logger_error "Error during load: {e}".

(** The [finally] block. *)
Definition exec_finally : M unit :=
  locked <- dest_exists lock_file_path ;;
  (if locked then dest_remove lock_file_path else ret tt) ;;
  logger_flush.

Definition exec_write_db_to_delta (infos : WriteConfigAndInfos) : M unit :=
  dest_mkdir "meta" ;;
  dest_upload_str "meta/schema.json" (SchemaJson (col_infos infos)) ;;
  has_pk <- local_delta_table_exists (delta_load LATEST_PK_VERSION) ;;
  last_version_pk <-
    (if has_pk
     then try_except (v <- delta_version (delta_load LATEST_PK_VERSION) ;; ret (Some v))
                     (fun e => logger_warning "Could not get last version" ;; ret None)
     else ret None) ;;
  try_finally
    (try_except_reraise (exec_try_body infos) (exec_restore last_version_pk))
    exec_finally.

End Orchestrator.

(** ** The relations the queries compute *)

(** The cells of the named columns. *)
Definition project (names : list string) (t : Table) : Table :=
  map (fun r => map (fun n => (n, get_col n r)) names) t.

(** Two rows agree on every key column (SQL equality: never on NULL). *)
Definition pk_match (names : list string) (a b : Row) : bool :=
  forallb (fun n => is_true (sql_eq (get_col n a) (get_col n b))) names.

(** The rows of [l] that have no partner in [r] on the key columns. *)
Definition anti_join_on (names : list string) (l r : Table) : Table :=
  List.filter (fun a => negb (existsb (pk_match names a) r)) l.

(** [additional_updates]: the (key, delta value) pairs of [primary_keys_ts]
    that the manifest of the prior version does not hold. *)
Definition additional_updates_rows (write_config : WriteConfig)
    (pk_cols : list InformationSchemaColInfo) (delta_col : InformationSchemaColInfo)
    (pk_ts prior : Table) : Table :=
  let key_cols := map (get_target_name write_config) pk_cols
                  ++ [get_target_name write_config delta_col] in
  except_rows (project key_cols pk_ts) (project key_cols prior).

(** [real_additional_updates]: their keys, minus the keys of [delta_1]. *)
Definition real_additional_updates_rows (write_config : WriteConfig)
    (pk_cols : list InformationSchemaColInfo) (additional_updates delta_1 : Table) : Table :=
  let keys := map (get_target_name write_config) pk_cols in
  except_rows (project keys additional_updates) (project keys delta_1).

(** The world once [_handle_additional_updates] has registered its views. *)
Definition strange_update_views (pk_ts prior additional_updates real_additional_updates : Table)
    (w : World) : World :=
  set_views (insert "real_additional_updates" real_additional_updates)
    (set_views (insert "additional_updates" additional_updates)
       (set_views (insert LAST_PK_VERSION prior)
          (set_views (insert PRIMARY_KEYS_TS pk_ts) w))).

(** No row of [a] agrees with a row of [b] on the key columns. *)
Definition disjoint_on (names : list string) (a b : Table) : Prop :=
  forall x y, In x a -> In y b -> pk_match names x y = false.

(** ** A table to run the model on *)

Definition example_col (name type : string) (identity : bool) : InformationSchemaColInfo :=
  {| column_name := name; data_type := type; column_default := None; is_nullable := false;
     character_maximum_length := None; numeric_precision := None; numeric_scale := None;
     datetime_precision := None; generated_always_type_desc := Some NOT_APPLICABLE;
     is_identity := identity |}.

Definition col_id : InformationSchemaColInfo := example_col "id" "int" true.
Definition col_name : InformationSchemaColInfo := example_col "name" "varchar" false.
Definition col_ts : InformationSchemaColInfo := example_col "ts" "bigint" false.

Definition example_config (mode : load_mode_type) : WriteConfig :=
  {| load_mode := mode; dialect := "tsql"; data_type_map := None;
     get_target_name := column_name; no_complex_entries_load := false |}.

Definition example_infos (mode : load_mode_type) : WriteConfigAndInfos :=
  {| write_config := example_config mode; col_infos := [col_id; col_name; col_ts];
     pk_cols := [col_id]; delta_col := Some col_ts; table := TSchemaName "dbo" "user2" |}.

Definition source_row (id : Z) (name : string) (ts : Z) : Row :=
  [("id", VInt id); ("name", VStr name); ("ts", VInt ts)].

(** A row of [delta/]: the source row and the three augmentation columns. *)
Definition delta_row (id : Z) (name : string) (ts valid_from : Z) (full : bool) : Row :=
  source_row id name ts
  ++ [("__valid_from", VTime valid_from); ("__is_deleted", VInt 0);
      ("__is_full_load", VInt (Z.b2z full))].

Definition pk_row (id ts : Z) : Row := [("id", VInt id); ("ts", VInt ts)].

Definition example_world (rows : Table) (lake : gmap string (list Table))
    (files : gmap string file) (views : gmap string Table) (now : Z) (faults : list bool)
    : World :=
  {| source_name := "dbo.user2"; source_rows := rows; lake := lake; files := files;
     views := views; now := now; faults := faults; log_buffer := []; log_sink := [];
     trace := [] |}.

(** The first run: nothing at the destination. *)
Definition world_fresh : World :=
  example_world [source_row 1 "a" 10; source_row 2 "b" 11; source_row 3 "c" 12]
                ∅ ∅ ∅ 1000 [].

Definition lake_loaded : gmap string (list Table) :=
  <[delta_load LATEST_PK_VERSION := [[pk_row 1 10; pk_row 2 11; pk_row 3 12]]]>
  (<[delta_path := [[delta_row 1 "a" 10 1000 true; delta_row 2 "b" 11 1000 true;
                     delta_row 3 "c" 12 1000 true]]]> ∅).

Definition rows_changed : Table :=
  [source_row 1 "a" 10; source_row 2 "bb" 13; source_row 4 "d" 14; source_row 5 "e" 9].

(** A later run: row 2 was updated, row 3 deleted, row 4 inserted, and row 5
    came back from a backup with an old delta value. *)
Definition world_changed (mode_faults : list bool) : World :=
  example_world rows_changed lake_loaded ∅ ∅ 2000 mode_faults.

(** The same run after its steps 1 to 3: the transient tables are written. *)
Definition lake_stepped : gmap string (list Table) :=
  <[delta_load DELTA_1_NAME := [[delta_row 2 "bb" 13 2000 false; delta_row 4 "d" 14 2000 false]]]>
  (<[delta_load DELTA_2_NAME := [[delta_row 5 "e" 9 2000 false]]]>
  (<[delta_load PRIMARY_KEYS_TS := [[pk_row 1 10; pk_row 2 13; pk_row 4 14; pk_row 5 9]]]>
   lake_loaded)).

Definition world_stepped : World :=
  example_world rows_changed lake_stepped ∅ ∅ 2000 [].

(** A rendering of the statements: every statement takes 100 characters and
    every key of the JSON document 1000 more. *)
Definition example_sql_text (sql : source_sql) : string :=
  match sql with
  | Sql _ => String.concat "" (replicate 100 "x")
  | OpenJsonSql _ js _ => String.concat "" (replicate (100 + 1000 * length js) "x")
  end.

(** A reconstruct routine that gives up. *)
Definition example_restore_last_pk (infos : WriteConfigAndInfos) (w : World)
    : option (option Table) := Some None.

(** The tombstone of a deleted key: the key cells, NULL in the other columns,
    the time of the lake engine, deleted, not from a full load. *)
Definition tombstone (non_pk : list string) (now : Z) (key : Row) : Row :=
  key ++ map (fun n => (n, VNull)) non_pk
  ++ [(VALID_FROM_COL_NAME, VTime now); (IS_DELETED_COL_NAME, VBool true);
      (IS_FULL_LOAD_COL_NAME, VBool false)].

(** The run of [world_stepped] once [write_latest_pk] has written the manifest. *)
Definition world_manifest : World :=
  (write_latest_pk [col_id] col_ts (example_config mode_auto) world_stepped).2.

(** A run in which the source changed between the snapshot of the keys and
    the load by timestamp: key 3 was not there for [primary_keys_ts] and is
    there, with a new delta value, for [delta_1]. *)
Definition lake_raced : gmap string (list Table) :=
  <[delta_load DELTA_1_NAME := [[delta_row 3 "c" 15 2000 false]]]>
  (<[delta_load DELTA_2_NAME := [[]]]>
  (<[delta_load PRIMARY_KEYS_TS := [[pk_row 1 10; pk_row 2 11]]]> lake_loaded)).

Definition world_raced : World :=
  example_world [source_row 1 "a" 10; source_row 2 "b" 11; source_row 3 "c" 15]
                lake_raced ∅ ∅ 2000 [].

(** The keys of a row as [_handle_additional_updates] reads them for the
    JSON documents: the cell of the i-th key column under the name [p<i>]. *)
Definition json_keys (write_config : WriteConfig) (pk_cols : list InformationSchemaColInfo)
    (r : Row) : Row :=
  imap (fun i c => ("p" +:+ pretty i, get_col (get_target_name write_config c) r)) pk_cols.

(** The run of [world_changed] after its steps 1 and 2: the keys are
    snapshot and the rows found by timestamp are in [delta_1]. *)
Definition lake_read (pk_ts : Table) : gmap string (list Table) :=
  <[delta_load DELTA_1_NAME := [[delta_row 2 "bb" 13 2000 false; delta_row 4 "d" 14 2000 false]]]>
  (<[delta_load PRIMARY_KEYS_TS := [pk_ts]]> lake_loaded).

Definition world_read (pk_ts : Table) : World :=
  example_world rows_changed (lake_read pk_ts) ∅
    {[ "delta_1" := [delta_row 2 "bb" 13 2000 false; delta_row 4 "d" 14 2000 false] ]}
    2000 [].

Definition pk_ts_changed : Table := [pk_row 1 10; pk_row 2 13; pk_row 4 14; pk_row 5 9].
Definition pk_ts_plain : Table := [pk_row 1 10; pk_row 2 13; pk_row 4 14].

Definition example_config_simple_sql : WriteConfig :=
  {| load_mode := mode_auto; dialect := "tsql"; data_type_map := None;
     get_target_name := column_name; no_complex_entries_load := true |}.

(** The documents [write_chunks] sends, in order: a chunk whose statement is
    longer than 7000 characters goes as its two halves. *)
Definition oversized (sql_text : source_sql -> string) (full_sql : Table -> source_sql)
    (chunk : Table) : bool :=
  7000 <? Z.of_nat (String.length (sql_text (full_sql chunk))).

Definition documents (sql_text : source_sql -> string) (full_sql : Table -> source_sql)
    (chunks : list Table) : list Table :=
  List.concat (map (fun chunk =>
                      if oversized sql_text full_sql chunk
                      then [take (length chunk / 2)%nat chunk; drop (length chunk / 2)%nat chunk]
                      else [chunk]) chunks).

Definition integer_like (p : InformationSchemaColInfo) : bool :=
  bool_decide (data_type p ∈ ["bit"; "int"; "bigint"; "tinyint"; "bool"; "smallint"]).

(** The statements of a run of [write_chunks]: only the very first one can
    be in overwrite mode. *)
Definition chunk_events (full_sql : Table -> source_sql) (path : string) (first : bool)
    (docs : list Table) : list event :=
  match docs with
  | [] => []
  | js :: docs' =>
      EvSourceWrite (full_sql js) path (if first then overwrite else append)
      :: map (fun js => EvSourceWrite (full_sql js) path append) docs'
  end.

Definition rows_serializable (rows : Table) : bool :=
  forallb (fun r => forallb json_serializable (row_values r)) rows.

(** A rendering in which every statement with a key in its JSON document is
    longer than 7000 characters. *)
Definition wide_sql_text (sql : source_sql) : string :=
  match sql with
  | OpenJsonSql _ (_ :: _) _ => String.concat "" (replicate (Z.to_nat 7001) "x")
  | _ => ""
  end.

(** A run with 467 strange updates: the keys 1 to 467 are new in
    [primary_keys_ts] and none of them is in [delta_1]. *)
Definition many_keys : Table := map (fun i => pk_row i 5) (seqZ 1 467).

Definition lake_many : gmap string (list Table) :=
  <[delta_load DELTA_1_NAME := [[]]]>
  (<[delta_load PRIMARY_KEYS_TS := [many_keys]]>
  (<[delta_load LATEST_PK_VERSION := [[]]]> (<[delta_path := [[]]]> ∅))).

Definition world_many : World :=
  example_world rows_changed lake_many ∅ {[ "delta_1" := [] ]} 2000 [].

Definition many_documents : Table := map (fun i => [("p0", VInt i)]) (seqZ 1 467).

(** A [delta/] whose delta column holds no value. *)
Definition world_null_watermark : World :=
  example_world [source_row 1 "a" 10]
    (<[delta_path := [[ [("id", VInt 1); ("name", VStr "a"); ("ts", VNull);
                       ("__valid_from", VTime 1000); ("__is_deleted", VInt 0);
                       ("__is_full_load", VInt 1)] ]]]> ∅)
    ∅ ∅ 2000 [].

(** The lock file is there and older than one hour (3600 s, in microseconds). *)
Definition lock_stale (w : World) : bool :=
  match files w !! lock_file_path with
  | Some f => 60 * 60 * 1000000 <? now w - f_mtime f
  | None => false
  end.

(** A destination another run has locked ten seconds ago. *)
Definition world_locked : World :=
  example_world [source_row 1 "a" 10; source_row 2 "b" 11; source_row 3 "c" 12] ∅
    {[ lock_file_path := {| f_content := Text ""; f_mtime := 1000 - 10 * 1000000 |} ]}
    ∅ 1000 [].

(** A destination whose lock is exactly one hour old. *)
Definition world_locked_one_hour : World :=
  example_world [source_row 1 "a" 10; source_row 2 "b" 11; source_row 3 "c" 12] ∅
    {[ lock_file_path := {| f_content := Text ""; f_mtime := 1000 - 60 * 60 * 1000000 |} ]}
    ∅ 1000 [].

(** A table with an identity key and no delta column, loaded once. *)
Definition infos_identity : WriteConfigAndInfos :=
  {| write_config := example_config mode_append_inserts;
     col_infos := [col_id; col_name]; pk_cols := [col_id]; delta_col := None;
     table := TSchemaName "dbo" "user2" |}.

Definition world_identity : World :=
  example_world [[("id", VInt 1); ("name", VStr "a")]; [("id", VInt 2); ("name", VStr "b")]]
    (<[delta_path := [[ [("id", VInt 1); ("name", VStr "a"); ("__valid_from", VTime 1000);
                        ("__is_deleted", VInt 0); ("__is_full_load", VInt 1)] ]]]> ∅)
    ∅ ∅ 2000 [].

(** ** What a run keeps *)

(** [m] ends, from every world, in a result and a world that [Q] accepts. *)
Definition sat {A} (Q : World -> Result A -> World -> Prop) (m : M A) : Prop :=
  forall w, Q w (m w).1 (m w).2.

(** The history of [latest_pk] only gets new versions, and the lock file
    stays where it is. *)
Definition stable (w w' : World) : Prop :=
  (forall h, lake w !! delta_load LATEST_PK_VERSION = Some h ->
             exists h', lake w' !! delta_load LATEST_PK_VERSION = Some (h ++ h')) /\
  (is_Some (files w !! lock_file_path) -> is_Some (files w' !! lock_file_path)).

Definition keeps {A} (m : M A) : Prop := sat (fun w _ w' => stable w w') m.


(** The later run with a failure of the lake engine at the start of
    [do_deletes], after [write_latest_pk] has overwritten the manifest
    (the 22nd call that runs SQL). *)
Definition world_failing : World := world_changed (replicate 21 false ++ [true]).

(** ** What a load reads and writes *)

(** The row a load builds from a row of the source: the cells under their
    names in the destination, then the three augmentation columns. *)
Definition loaded_row (write_config : WriteConfig) (cols : list InformationSchemaColInfo)
    (now : Z) (is_full : bool) (r : Row) : Row :=
  map (fun c => (get_target_name write_config c, get_col (column_name c) r)) cols
  ++ [(VALID_FROM_COL_NAME, VTime now); (IS_DELETED_COL_NAME, VInt 0);
      (IS_FULL_LOAD_COL_NAME, VInt (Z.b2z is_full))].

(** The delta cell of a source row compares greater than the watermark. *)
Definition newer_than (delta_col : InformationSchemaColInfo) (watermark : value) (r : Row)
    : bool :=
  is_true (sql_gt (get_col (column_name delta_col) r) watermark).

(** The cells of a source row under the names of the destination. *)
Definition renamed_row (write_config : WriteConfig) (cols : list InformationSchemaColInfo)
    (r : Row) : Row :=
  map (fun c => (get_target_name write_config c, get_col (column_name c) r)) cols.

(** The names of the key columns and of the delta column in the destination. *)
Definition manifest_cols (write_config : WriteConfig) (pk_cols : list InformationSchemaColInfo)
    (delta_col : InformationSchemaColInfo) : list string :=
  map (get_target_name write_config) pk_cols ++ [get_target_name write_config delta_col].

(** The rows of [delta/] before a load. *)
Definition old_rows (w : World) : Table :=
  match lake w !! delta_path with Some h => latest h | None => [] end.

(** The rows a load by timestamp appends: the source rows newer than the
    watermark, or all of them when the watermark counts as false. *)
Definition rows_after (infos : WriteConfigAndInfos) (dc : InformationSchemaColInfo)
    (all_if_falsy : bool) (watermark : value) (w : World) : Table :=
  map (loaded_row (write_config infos) (col_infos infos) (now w) false)
      (if all_if_falsy && negb (truthy watermark) then source_rows w
       else List.filter (newer_than dc watermark) (source_rows w)).

Definition appended (rows : Table) (h : list Table) : list Table :=
  match rows with
  | [] => h
  | _ => h ++ [latest h ++ rows]
  end.

(** ** What a run may change *)

(** [m] takes every world to a world that is related to it by [R]. *)
Definition changes_within {A} (R : World -> World -> Prop) (m : M A) : Prop :=
  sat (fun w _ w' => R w w') m.

(** The table at [p] keeps its versions: new ones come after them. *)
Definition history_grows (p : string) (w w' : World) : Prop :=
  forall h, lake w !! p = Some h -> exists h', lake w' !! p = Some (h ++ h').

(** The table at [p] keeps its versions and its rows: the newest version
    begins with the rows of the version that was the newest. *)
Definition rows_kept (p : string) (w w' : World) : Prop :=
  forall h, lake w !! p = Some h ->
            exists h' rows, lake w' !! p = Some (h ++ h') /\ latest (h ++ h') = latest h ++ rows.

(** No table outside [tables] and no file outside [plain] changes. *)
Definition untouched (tables plain : list string) (w w' : World) : Prop :=
  (forall p, p ∉ tables -> lake w' !! p = lake w !! p) /\
  (forall p, p ∉ plain -> files w' !! p = files w !! p).

(** The tables and the files of a run. *)
Definition run_tables : list string :=
  [delta_path; delta_load DELTA_1_NAME; delta_load DELTA_2_NAME; delta_load PRIMARY_KEYS_TS;
   delta_load LATEST_PK_VERSION; lock_file_path].

Definition run_files : list string := [lock_file_path; delta_load LATEST_PK_VERSION].

(** ** Column metadata from type names ([metadata.py]) *)

(** A value, or the [ValueError] of a failed conversion or unpacking. *)
Inductive parsed (A : Type) :=
| Parsed (a : A)
| ValueError.
Arguments Parsed {A} a.
Arguments ValueError {A}.

(** The row of [sp_describe_first_result_set] for one column, with the keys
    [_get_query_cols] reads. *)
Record describe_row := {
  dr_name : option string;
  dr_system_type_name : option string;
  dr_precision : option Z;
  dr_scale : option Z;
  dr_is_identity_column : option bool;
  dr_is_nullable : option bool
}.

(** What the loop of [_get_query_cols] makes of a row: the column, or the
    exception it raises: the [TypeError] of ["(" in None], the [ValueError]
    of [int], the [ValidationError] of the pydantic model. *)
Inductive described (A : Type) :=
| Described (a : A)
| DescribeTypeError
| DescribeValueError
| DescribeValidationError.
Arguments Described {A} a.
Arguments DescribeTypeError {A}.
Arguments DescribeValueError {A}.
Arguments DescribeValidationError {A}.

(** [InformationSchemaColInfo(column_name=d["name"], ...)] with the data type
    and the maximum length read from the type name: [column_name] is a
    [str], [is_identity] and [is_nullable] are [bool], and [None] is none of
    them. *)
Definition described_col (d : describe_row) (type_name : string) (length : option Z)
    : described InformationSchemaColInfo :=
  match dr_name d, dr_is_identity_column d, dr_is_nullable d with
  | Some name, Some identity, Some nullable =>
      Described {| column_name := name;
                   data_type := type_name;
                   character_maximum_length := length;
                   column_default := None;
                   numeric_precision := dr_precision d;
                   numeric_scale := dr_scale d;
                   is_identity := identity;
                   datetime_precision := None;
                   generated_always_type_desc := Some NOT_APPLICABLE;
                   is_nullable := nullable |}
  | _, _, _ => DescribeValidationError
  end.

Section Metadata.

Import Stdlib.Strings.Ascii.

(** The operations of Python's [str] the module uses, with a needle of one
    character: [c in s], [s.index(c)], [s.split(c)], [s.split(c, 1)],
    [s[:n]], [s[n:]] and [s[:-1]]. *)
Fixpoint str_in (c : Ascii.ascii) (s : string) : bool :=
  match s with
  | EmptyString => false
  | String x s' => Ascii.eqb x c || str_in c s'
  end.

(** [None]: the [ValueError] of [s.index(c)] when [c] is not in [s]. *)
Fixpoint str_index (c : Ascii.ascii) (s : string) : option nat :=
  match s with
  | EmptyString => None
  | String x s' => if Ascii.eqb x c then Some 0%nat
                   else match str_index c s' with
                        | Some i => Some (S i)
                        | None => None
                        end
  end.

Fixpoint str_take (n : nat) (s : string) : string :=
  match n, s with
  | S n', String x s' => String x (str_take n' s')
  | _, _ => EmptyString
  end.

Fixpoint str_drop (n : nat) (s : string) : string :=
  match n, s with
  | S n', String _ s' => str_drop n' s'
  | _, _ => s
  end.

Fixpoint str_drop_last (s : string) : string :=
  match s with
  | EmptyString => EmptyString
  | String _ EmptyString => EmptyString
  | String x s' => String x (str_drop_last s')
  end.

Fixpoint str_split (c : Ascii.ascii) (s : string) : list string :=
  match s with
  | EmptyString => [EmptyString]
  | String x s' =>
      if Ascii.eqb x c then EmptyString :: str_split c s'
      else match str_split c s' with
           | p :: ps => String x p :: ps
           | [] => [String x EmptyString]
           end
  end.

Definition str_split_1 (c : Ascii.ascii) (s : string) : list string :=
  match str_index c s with
  | Some i => [str_take i s; str_drop (S i) s]
  | None => [s]
  end.

(** The builtins [int], [str.strip] and [str.upper]; [int] answers [None]
    where Python raises [ValueError]. *)
Variable py_int : string -> option Z.
Variable py_strip : string -> string.
Variable py_upper : string -> string.

Definition int (s : string) : parsed Z :=
  match py_int s with
  | Some n => Parsed n
  | None => ValueError
  end.

(** [InformationSchemaColInfo.from_name_type]. *)
Definition from_name_type (name type : string) : parsed InformationSchemaColInfo :=
  match
    (if str_in "("%char type
     then
       match str_split_1 "("%char type with
       | [type; rest] =>
           let rest := str_drop_last rest in
           if str_in ","%char rest
           then
             match str_split_1 ","%char rest with
             | [precision; scale] =>
                 match int precision with
                 | Parsed precision =>
                     match int scale with
                     | Parsed scale => Parsed (type, Some precision, Some scale)
                     | ValueError => ValueError
                     end
                 | ValueError => ValueError
                 end
             | _ => ValueError
             end
           else
             match int rest with
             | Parsed precision => Parsed (type, Some precision, None)
             | ValueError => ValueError
             end
       | _ => ValueError
       end
     else Parsed (type, None, None))
  with
  | Parsed (type, precision, scale) =>
      Parsed {| column_name := name;
                column_default := None;
                is_nullable := true;
                data_type := type;
                character_maximum_length :=
                  if bool_decide (type ∈ ["varchar"; "char"; "nvarchar"; "nchar"])
                  then precision else None;
                numeric_precision :=
                  if bool_decide (type ∈ ["decimal"; "numeric"]) then precision else None;
                numeric_scale :=
                  if bool_decide (type ∈ ["decimal"; "numeric"]) then scale else None;
                datetime_precision := None;
                generated_always_type_desc := Some NOT_APPLICABLE;
                is_identity := false |}
  | ValueError => ValueError
  end.

(** [_ta] of [_get_query_cols]. *)
Definition _ta (s : string) : parsed Z :=
  if bool_decide (py_upper (py_strip s) = "MAX") then Parsed (-1)
  else int (py_strip s).

(** The body of the loop of [_get_query_cols]: the column of one row. *)
Definition query_col (d : describe_row) : described InformationSchemaColInfo :=
  match dr_system_type_name d with
  | None => DescribeTypeError
  | Some sys_type_name =>
      match
        (if str_in "("%char sys_type_name
         then match str_index "("%char sys_type_name with
              | Some i => Parsed (str_take i sys_type_name)
              | None => ValueError
              end
         else Parsed sys_type_name),
        (if str_in "("%char sys_type_name
         then match str_index "("%char sys_type_name with
              | Some i => Parsed (Some (str_split ","%char
                                          (str_drop_last (str_drop (i + 1) sys_type_name))))
              | None => ValueError
              end
         else Parsed None)
      with
      | Parsed type_name, Parsed type_args =>
          match
            (match type_args with
             | Some [a] => match _ta a with
                           | Parsed n => Parsed (Some n)
                           | ValueError => ValueError
                           end
             | _ => Parsed None
             end)
          with
          | Parsed length => described_col d type_name length
          | ValueError => DescribeValueError
          end
      | _, _ => DescribeValueError
      end
  end.

(** [list(_get_query_cols(reader, query))] on the rows [dicts] the source
    answers: the columns, or the first error. *)
Fixpoint _get_query_cols (dicts : list describe_row)
    : described (list InformationSchemaColInfo) :=
  match dicts with
  | [] => Described []
  | d :: dicts' =>
      match query_col d with
      | Described c => match _get_query_cols dicts' with
                       | Described cs => Described (c :: cs)
                       | DescribeTypeError => DescribeTypeError
                       | DescribeValueError => DescribeValueError
                       | DescribeValidationError => DescribeValidationError
                       end
      | DescribeTypeError => DescribeTypeError
      | DescribeValueError => DescribeValueError
      | DescribeValidationError => DescribeValidationError
      end
  end.

(** The builtins on text of decimal digits and ASCII letters. *)
Definition digit_of (c : Ascii.ascii) : option Z :=
  let n := Ascii.nat_of_ascii c in
  if (48 <=? n)%nat && (n <=? 57)%nat then Some (Z.of_nat n - 48) else None.

Fixpoint read_digits (s : string) (acc : Z) : option Z :=
  match s with
  | EmptyString => Some acc
  | String c s' => match digit_of c with
                   | Some d => read_digits s' (10 * acc + d)
                   | None => None
                   end
  end.

Definition ascii_int (s : string) : option Z :=
  match s with
  | EmptyString => None
  | _ => read_digits s 0
  end.

Definition ascii_upper_char (c : Ascii.ascii) : Ascii.ascii :=
  let n := Ascii.nat_of_ascii c in
  if (97 <=? n)%nat && (n <=? 122)%nat then Ascii.ascii_of_nat (n - 32) else c.

Fixpoint ascii_upper (s : string) : string :=
  match s with
  | EmptyString => EmptyString
  | String c s' => String (ascii_upper_char c) (ascii_upper s')
  end.

Fixpoint lstrip_spaces (s : string) : string :=
  match s with
  | String " "%char s' => lstrip_spaces s'
  | _ => s
  end.

Definition ascii_strip (s : string) : string :=
  String.rev (lstrip_spaces (String.rev (lstrip_spaces s))).

End Metadata.

(** A row of the description of a query. *)
Definition example_describe_row (name type : string) : describe_row :=
  {| dr_name := Some name; dr_system_type_name := Some type; dr_precision := Some 0;
     dr_scale := Some 0; dr_is_identity_column := Some false; dr_is_nullable := Some true |}.

(** The column of [example_describe_row]. *)
Definition example_described_col (name type : string) (length : option Z)
    : InformationSchemaColInfo :=
  {| column_name := name; data_type := type; character_maximum_length := length;
     column_default := None; numeric_precision := Some 0; numeric_scale := Some 0;
     is_identity := false; datetime_precision := None;
     generated_always_type_desc := Some NOT_APPLICABLE; is_nullable := true |}.

(** A row of the description of an expression without a name. *)
Definition unnamed_describe_row (type : string) : describe_row :=
  {| dr_name := None; dr_system_type_name := Some type; dr_precision := Some 0;
     dr_scale := Some 0; dr_is_identity_column := Some false; dr_is_nullable := Some true |}.

(** No key cell of the row is NULL. *)
Definition keys_known (names : list string) (r : Row) : bool :=
  forallb (fun n => negb (bool_decide (get_col n r = VNull))) names.

(** The rows [write_latest_pk] writes: the keys of [delta_2], then those of
    [delta_1] that [delta_2] does not have, then those of the snapshot that
    neither has. *)
Definition manifest_rows (keys cols : list string) (d1 d2 pk_ts : Table) : Table :=
  project cols d2
  ++ project cols (anti_join_on keys d1 d2)
  ++ project cols (anti_join_on keys (anti_join_on keys pk_ts d2) d1).

(** [x] is the row a load by timestamp builds from a row of the source. *)
Definition from_source (write_config : WriteConfig) (cols : list InformationSchemaColInfo)
    (w : World) (x : Row) : Prop :=
  exists r, In r (source_rows w) /\ x = loaded_row write_config cols (now w) false r.

(** The columns of the key are columns of the table, and a name of the
    destination stands for one column of the source. *)
Definition key_columns_named (infos : WriteConfigAndInfos) (dc : InformationSchemaColInfo)
    : Prop :=
  (forall c, In c (pk_cols infos) -> In c (col_infos infos)) /\
  (forall a b, In a (col_infos infos ++ pk_cols infos ++ [dc]) -> In b (pk_cols infos) ->
               get_target_name (write_config infos) a = get_target_name (write_config infos) b ->
               column_name a = column_name b).

(** The key cells of a row of the source are there and can be written as JSON. *)
Definition source_keys_known (infos : WriteConfigAndInfos) (r : Row) : Prop :=
  forall c, In c (pk_cols infos) ->
            get_col (column_name c) r <> VNull /\
            json_serializable (get_col (column_name c) r) = true.

(** The snapshot of the keys a delta load takes of the source: the key and
    delta cells of every row. *)
Definition key_snapshot (infos : WriteConfigAndInfos) (dc : InformationSchemaColInfo)
    (w : World) : Table :=
  map (renamed_row (write_config infos) (pk_cols infos ++ [dc])) (source_rows w).

(** The tombstones of the keys of [prior] that the source no longer has. *)
Definition tombstones_of (infos : WriteConfigAndInfos) (dc : InformationSchemaColInfo)
    (prior : Table) (w : World) : Table :=
  let keys := map (get_target_name (write_config infos)) (pk_cols infos) in
  map (tombstone (map (get_target_name (write_config infos))
                      (List.filter (fun c => negb (bool_decide (c ∈ pk_cols infos)))
                                   (col_infos infos)))
                 (now w))
      (except_rows (project keys prior) (project keys (key_snapshot infos dc w))).

(** The key of a row of the source, and the key of a row of the manifest. *)
Definition source_key (infos : WriteConfigAndInfos) (r : Row) : list value :=
  map (fun c => get_col (column_name c) r) (pk_cols infos).

Definition manifest_key (infos : WriteConfigAndInfos) (y : Row) : list value :=
  map (fun n => get_col n y) (map (get_target_name (write_config infos)) (pk_cols infos)).

(** The statement a full load sends to the source, and the rows it answers. *)
Definition full_load_sql (infos : WriteConfigAndInfos) : source_sql :=
  Sql (Select (_get_cols_select (col_infos infos) (Some false) (Some true) true None false
                                (data_type_map (write_config infos))
                                (Some (get_target_name (write_config infos))))
              (table_from_tuple (table infos) None) [] []).

Definition full_load_rows (infos : WriteConfigAndInfos) (w : World) : Table :=
  map (loaded_row (write_config infos) (col_infos infos) (now w) true) (source_rows w).

(** The manifest a full load writes: the key and delta cells of the rows of
    [delta/], once loaded, whose [__valid_from] is later than the newest one
    that was there before the load (all of them when there was none). *)
Definition full_load_manifest (infos : WriteConfigAndInfos) (dc : InformationSchemaColInfo)
    (mode : write_mode) (w : World) : Table :=
  let max_valid_from := sql_max (map (get_col VALID_FROM_COL_NAME) (old_rows w)) in
  project (manifest_cols (write_config infos) (pk_cols infos) dc)
    (List.filter
       (fun r => if truthy max_valid_from
                 then is_true (sql_gt (get_col VALID_FROM_COL_NAME r) max_valid_from)
                 else true)
       (latest (write_versions mode (full_load_rows infos w) (lake w !! delta_path)))).

(** The keys of the OPENJSON join of [full_sql], and the rows the statement
    answers for a document: each row of the source, once for every key of
    the document whose cells equal its key cells. *)
Definition openjson_keys (write_config : WriteConfig) (pk_cols : list InformationSchemaColInfo)
    : list json_key :=
  imap (fun i p => {| jk_p := "p" +:+ pretty i;
                      jk_column_name := column_name p;
                      jk_target_name := get_target_name write_config p;
                      jk_data_type := data_type p;
                      jk_character_maximum_length := character_maximum_length p;
                      jk_collate := _collate p |}) pk_cols.

Definition openjson_rows (write_config : WriteConfig)
    (pk_cols cols : list InformationSchemaColInfo) (now : Z) (js rows : Table) : Table :=
  flat_map_rows
    (fun r => flat_map_rows
                (fun j => if forallb (json_key_match r j) (openjson_keys write_config pk_cols)
                          then [loaded_row write_config cols now false r] else []) js)
    rows.

(** The rows step 3 of a delta load appends to [delta/], by its branch: none
    without a strange update; the rows of the source newer than the smallest
    delta value of [additional_updates] when there are many; else, document
    by document, the rows of the source with a key of the document. *)
Definition strange_rows (sql_text : source_sql -> string) (table : table_name_type)
    (pk_cols : list InformationSchemaColInfo) (delta_col : InformationSchemaColInfo)
    (cols : list InformationSchemaColInfo) (write_config : WriteConfig)
    (pk_ts prior delta_1 : Table) (w : World) : Table :=
  let additional_updates := additional_updates_rows write_config pk_cols delta_col pk_ts prior in
  let real_additional_updates :=
    real_additional_updates_rows write_config pk_cols additional_updates delta_1 in
  let n := Z.of_nat (length real_additional_updates) in
  if n =? 0 then []
  else if (1000 <? n) || no_complex_entries_load write_config
  then map (loaded_row write_config cols (now w) false)
           (List.filter
              (newer_than delta_col
                 (sql_min (map (get_col (get_target_name write_config delta_col))
                               additional_updates)))
              (source_rows w))
  else flat_map_rows
         (fun js => openjson_rows write_config pk_cols cols (now w) js (source_rows w))
         (documents sql_text (full_sql table pk_cols cols write_config)
            (_list_to_chunks (map (json_keys write_config pk_cols) real_additional_updates)
                             (Z.max 10 (7000 / char_size_pks pk_cols)))).

(** * Properties *)

(** ** [_list_to_chunks] *)

Lemma list_to_chunks_from_concat {T} (input chunk : list T) (chunk_size : Z) :
  List.concat (list_to_chunks_from input chunk chunk_size) = chunk ++ input.
Proof.
  revert chunk. induction input as [|item input IH]; intros chunk; simpl.
  - destruct chunk; simpl; [reflexivity|].
    rewrite app_nil_r. reflexivity.
  - destruct (Z.of_nat (length (chunk ++ [item])) >=? chunk_size); simpl.
    + rewrite IH. simpl. rewrite <- app_assoc. reflexivity.
    + rewrite IH. rewrite <- app_assoc. reflexivity.
Qed.

Lemma list_to_chunks_from_nonempty {T} (input chunk : list T) (chunk_size : Z) :
  Forall (fun c => c <> []) (list_to_chunks_from input chunk chunk_size).
Proof.
  revert chunk. induction input as [|item input IH]; intros chunk; simpl.
  - destruct chunk; simpl; [constructor|].
    constructor; [discriminate | constructor].
  - destruct (Z.of_nat (length (chunk ++ [item])) >=? chunk_size).
    + constructor; [|apply IH]. destruct chunk; discriminate.
    + apply IH.
Qed.

(** Every chunk but the last is full; the last holds at most [chunk_size]. *)
Fixpoint chunks_shape {T} (chunk_size : Z) (chunks : list (list T)) : Prop :=
  match chunks with
  | [] => True
  | [c] => Z.of_nat (length c) <= chunk_size
  | c :: chunks' => Z.of_nat (length c) = chunk_size /\ chunks_shape chunk_size chunks'
  end.

Lemma chunks_shape_cons {T} (chunk_size : Z) (c : list T) chunks :
  Z.of_nat (length c) = chunk_size -> chunks_shape chunk_size chunks ->
  chunks_shape chunk_size (c :: chunks).
Proof.
  intros Hc Hs. destruct chunks; simpl; [lia | split; assumption].
Qed.

Lemma list_to_chunks_from_shape {T} (input chunk : list T) (chunk_size : Z) :
  Z.of_nat (length chunk) < chunk_size ->
  chunks_shape chunk_size (list_to_chunks_from input chunk chunk_size).
Proof.
  revert chunk. induction input as [|item input IH]; intros chunk Hlt; simpl.
  - destruct (0 <? Z.of_nat (length chunk)); simpl; [lia | exact I].
  - destruct (Z.geb_spec (Z.of_nat (length (chunk ++ [item]))) chunk_size) as [Hge|Hlt'].
    + apply chunks_shape_cons.
      * rewrite length_app in *. simpl in *. lia.
      * apply IH. simpl. lia.
    + apply IH. lia.
Qed.

Lemma chunks_shape_lookup {T} (chunk_size : Z) (chunks : list (list T)) i c :
  chunks_shape chunk_size chunks -> chunks !! i = Some c ->
  (S i < length chunks)%nat -> Z.of_nat (length c) = chunk_size.
Proof.
  revert i. induction chunks as [|c0 chunks IH]; intros i Hs Hi Hlen; [discriminate|].
  destruct chunks as [|c1 chunks]; [simpl in Hlen; lia|].
  destruct Hs as [Hc0 Hs]. destruct i as [|i]; simpl in Hi.
  - congruence.
  - apply (IH i Hs Hi). simpl in *. lia.
Qed.

Lemma chunks_shape_last {T} (chunk_size : Z) (chunks : list (list T)) c :
  0 <= chunk_size -> chunks_shape chunk_size chunks -> last chunks = Some c ->
  Z.of_nat (length c) <= chunk_size.
Proof.
  intros Hcs. induction chunks as [|c0 chunks IH]; intros Hs Hl; [discriminate|].
  destruct chunks as [|c1 chunks].
  - simpl in *. congruence.
  - destruct Hs as [_ Hs]. apply (IH Hs). exact Hl.
Qed.

(** C10. For every input sequence and every [chunk_size >= 1], the chunks of
    [_list_to_chunks], concatenated in order, are the input; no chunk is
    empty; every chunk but the last has exactly [chunk_size] elements and the
    last has at most [chunk_size]. *)
Theorem list_to_chunks_roundtrip {T} (input : list T) (chunk_size : Z) :
  1 <= chunk_size ->
  List.concat (_list_to_chunks input chunk_size) = input /\
  Forall (fun c => c <> []) (_list_to_chunks input chunk_size) /\
  (forall i c, _list_to_chunks input chunk_size !! i = Some c ->
               (S i < length (_list_to_chunks input chunk_size))%nat ->
               Z.of_nat (length c) = chunk_size) /\
  (forall c, last (_list_to_chunks input chunk_size) = Some c ->
             Z.of_nat (length c) <= chunk_size).
Proof.
  intros Hcs. unfold _list_to_chunks.
  assert (Hshape : chunks_shape chunk_size (list_to_chunks_from input [] chunk_size))
    by (apply list_to_chunks_from_shape; simpl; lia).
  repeat split.
  - apply list_to_chunks_from_concat.
  - apply list_to_chunks_from_nonempty.
  - intros i c Hi Hlen. exact (chunks_shape_lookup _ _ _ _ Hshape Hi Hlen).
  - intros c Hl.
    apply (chunks_shape_last chunk_size (list_to_chunks_from input [] chunk_size) c);
      [lia | exact Hshape | exact Hl].
Qed.

Lemma list_to_chunks_roundtrip_witness :
  1 <= 2 /\
  List.concat (_list_to_chunks [1; 2; 3; 4; 5] 2) = [1; 2; 3; 4; 5] /\
  _list_to_chunks [1; 2; 3; 4; 5] 2 = [[1; 2]; [3; 4]; [5]].
Proof.
  split; [lia|]. split.
  - apply (list_to_chunks_roundtrip [1; 2; 3; 4; 5] 2). lia.
  - reflexivity.
Defined.

(** ** Running the model when no call fails *)

Lemma bind_ok {A B} (m : M A) (k : A -> M B) w a w' :
  m w = (Ok a, w') -> bind m k w = k a w'.
Proof. intros H. unfold bind. rewrite H. reflexivity. Qed.

Lemma bind_raise {A B} (m : M A) (k : A -> M B) w e w' :
  m w = (Raise e, w') -> bind m k w = (Raise e, w').
Proof. intros H. unfold bind. rewrite H. reflexivity. Qed.

Lemma fault_point_nil what w : faults w = [] -> fault_point what w = (Ok tt, w).
Proof. intros H. unfold fault_point. rewrite H. reflexivity. Qed.

Lemma local_register_update_view_latest path name w h :
  faults w = [] -> lake w !! path = Some h ->
  local_register_update_view path name None w
  = (Ok tt, set_views (insert name (latest h)) w).
Proof.
  intros Hf Hl. unfold local_register_update_view.
  rewrite (bind_ok _ _ _ _ _ (fault_point_nil _ w Hf)). rewrite Hl. reflexivity.
Qed.

Lemma local_register_update_view_version path name w h v t :
  faults w = [] -> lake w !! path = Some h -> h !! v = Some t ->
  local_register_update_view path name (Some v) w
  = (Ok tt, set_views (insert name t) w).
Proof.
  intros Hf Hl Hv. unfold local_register_update_view.
  rewrite (bind_ok _ _ _ _ _ (fault_point_nil _ w Hf)). rewrite Hl, Hv. reflexivity.
Qed.

Lemma local_execute_sql_to_py_ok q w t :
  faults w = [] -> eval_query (now w) (views w) q = Some t ->
  local_execute_sql_to_py q w = (Ok t, w).
Proof.
  intros Hf He. unfold local_execute_sql_to_py.
  rewrite (bind_ok _ _ _ _ _ (fault_point_nil _ w Hf)). rewrite He. reflexivity.
Qed.

Lemma local_register_view_ok q name w t :
  faults w = [] -> eval_query (now w) (views w) q = Some t ->
  local_register_view q name w = (Ok tt, set_views (insert name t) w).
Proof.
  intros Hf He. unfold local_register_view.
  rewrite (bind_ok _ _ _ _ _ (local_execute_sql_to_py_ok _ _ _ Hf He)). reflexivity.
Qed.

Lemma local_execute_sql_to_delta_ok q path mode w t :
  faults w = [] -> eval_query (now w) (views w) q = Some t ->
  local_execute_sql_to_delta q path mode w
  = (Ok tt, add_event (EvLocalWrite q path mode) (write_delta path mode t w)).
Proof.
  intros Hf He. unfold local_execute_sql_to_delta.
  rewrite (bind_ok _ _ _ _ _ (local_execute_sql_to_py_ok _ _ _ Hf He)). reflexivity.
Qed.

Lemma source_write_sql_to_delta_ok sql path mode w t :
  faults w = [] -> eval_source (now w) (source_name w) (source_rows w) sql = Some t ->
  source_write_sql_to_delta sql path mode w
  = (Ok tt, add_event (EvSourceWrite sql path mode) (write_delta path mode t w)).
Proof.
  intros Hf He. unfold source_write_sql_to_delta.
  rewrite (bind_ok _ _ _ _ _ (fault_point_nil _ w Hf)). rewrite He. reflexivity.
Qed.

(** ** What the queries of the module compute *)

Lemma cast_no_map name data_type alias : _cast name data_type alias None = Column name alias.
Proof. reflexivity. Qed.

Lemma get_cols_select_plain cols alias f :
  _get_cols_select cols None None false alias true None (Some f)
  = map (fun c => Alias (Column (f c) alias) (f c)) cols.
Proof. unfold _get_cols_select. simpl. rewrite !app_nil_r. reflexivity. Qed.

Lemma select_row_plain now (names : list string) a r :
  select_row now (map (fun n => Alias (Column n (Some a)) n) names) [(a, r)]
  = map (fun n => (n, get_col n r)) names.
Proof.
  unfold select_row. induction names as [|n names IH]; simpl; [reflexivity|].
  rewrite bool_decide_eq_true_2 by reflexivity. f_equal. exact IH.
Qed.

Lemma no_aggregate_plain (names : list string) a :
  existsb is_aggregate (map (fun n => Alias (Column n a) n) names) = false.
Proof. induction names; simpl; auto. Qed.

Lemma filter_true {A} (l : list A) : List.filter (fun _ => true) l = l.
Proof. induction l; simpl; congruence. Qed.

Lemma eval_select_plain now env (names : list string) name a t :
  env !! name = Some t ->
  eval_query now env (Select (map (fun n => Alias (Column n (Some a)) n) names)
                             {| tr_name := name; tr_alias := Some a |} [] [])
  = Some (project names t).
Proof.
  intros H. simpl. rewrite H. simpl. rewrite no_aggregate_plain.
  unfold where_keeps. simpl. rewrite filter_true. rewrite map_map. unfold ref_alias. simpl.
  f_equal. unfold project. apply map_ext. intros r. apply select_row_plain.
Qed.

Lemma pk_equal_map wc pks l r :
  pk_equal wc pks l r
  = map (fun n => EQ (Column n (Some l)) (Column n (Some r))) (map (get_target_name wc) pks).
Proof. unfold pk_equal. rewrite map_map. reflexivity. Qed.

Lemma anti_join_keeps_pk_match now (names : list string) l r (a : Row) joined :
  l <> r ->
  anti_join_keeps now [(l, a)] r
    (map (fun n => EQ (Column n (Some l)) (Column n (Some r))) names) joined
  = negb (existsb (pk_match names a) joined).
Proof.
  intros Hne. unfold anti_join_keeps. f_equal.
  assert (Hm : forall b,
             forallb (fun c => is_true (eval_expr now ([(l, a)] ++ [(r, b)]) c))
                     (map (fun n => EQ (Column n (Some l)) (Column n (Some r))) names)
             = pk_match names a b).
  { intros b. unfold pk_match.
    induction names as [|n names IHn]; [reflexivity|].
    cbn [forallb map]. rewrite IHn. f_equal. cbn [eval_expr app scope_row].
    rewrite (bool_decide_eq_true_2 (l = l)) by reflexivity.
    rewrite (bool_decide_eq_false_2 (l = r)) by exact Hne.
    rewrite (bool_decide_eq_true_2 (r = r)) by reflexivity. reflexivity. }
  induction joined as [|b joined IH]; [reflexivity|].
  cbn [existsb]. rewrite Hm, IH. reflexivity.
Qed.

Lemma filter_map_comm {A B} (f : B -> bool) (g : A -> B) (l : list A) :
  List.filter f (map g l) = map g (List.filter (fun x => f (g x)) l).
Proof.
  induction l as [|x l IH]; simpl; [reflexivity|].
  destruct (f (g x)); simpl; congruence.
Qed.

Lemma filter_ext_eq {A} (f g : A -> bool) (l : list A) :
  (forall x, f x = g x) -> List.filter f l = List.filter g l.
Proof.
  intros H. induction l as [|x l IH]; simpl; [reflexivity|].
  rewrite H, IH. reflexivity.
Qed.

Lemma apply_anti_joins_one now env (names : list string) a jn ja (t tj : Table) :
  env !! jn = Some tj -> a <> ja ->
  apply_anti_joins now env
    [ {| j_this := {| tr_name := jn; tr_alias := Some ja |};
         j_on := map (fun n => EQ (Column n (Some a)) (Column n (Some ja))) names |} ]
    (map (fun r => [(a, r)]) t)
  = Some (map (fun r => [(a, r)]) (anti_join_on names t tj)).
Proof.
  intros Hj Hne. simpl. rewrite Hj. unfold ref_alias. simpl.
  rewrite filter_map_comm. f_equal. f_equal. unfold anti_join_on.
  apply filter_ext_eq. intros r. apply anti_join_keeps_pk_match. exact Hne.
Qed.

Lemma apply_anti_joins_two now env (names : list string) a jn1 ja1 jn2 ja2 (t tj1 tj2 : Table) :
  env !! jn1 = Some tj1 -> env !! jn2 = Some tj2 -> a <> ja1 -> a <> ja2 ->
  apply_anti_joins now env
    [ {| j_this := {| tr_name := jn1; tr_alias := Some ja1 |};
         j_on := map (fun n => EQ (Column n (Some a)) (Column n (Some ja1))) names |};
      {| j_this := {| tr_name := jn2; tr_alias := Some ja2 |};
         j_on := map (fun n => EQ (Column n (Some a)) (Column n (Some ja2))) names |} ]
    (map (fun r => [(a, r)]) t)
  = Some (map (fun r => [(a, r)]) (anti_join_on names (anti_join_on names t tj1) tj2)).
Proof.
  intros Hj1 Hj2 Hne1 Hne2.
  change (apply_anti_joins now env (?j :: ?js) ?scs)
    with (match env !! tr_name (j_this j) with
          | None => None
          | Some joined =>
              apply_anti_joins now env js
                (List.filter (fun sc => anti_join_keeps now sc (ref_alias (j_this j)) (j_on j) joined) scs)
          end).
  cbn [j_this tr_name j_on]. rewrite Hj1. unfold ref_alias at 1. cbn [tr_alias].
  rewrite filter_map_comm.
  rewrite (filter_ext_eq _ (fun r => negb (existsb (pk_match names r) tj1)))
    by (intros r; apply anti_join_keeps_pk_match; exact Hne1).
  apply (apply_anti_joins_one now env names a jn2 ja2 _ tj2 Hj2 Hne2).
Qed.

Lemma eval_select_anti now env (sel keys : list string) name a joins (t t' : Table) :
  env !! name = Some t ->
  apply_anti_joins now env joins (map (fun r => [(a, r)]) t) = Some (map (fun r => [(a, r)]) t') ->
  eval_query now env (Select (map (fun n => Alias (Column n (Some a)) n) sel)
                             {| tr_name := name; tr_alias := Some a |} joins [])
  = Some (project sel t').
Proof.
  intros H Hj. simpl. rewrite H. unfold ref_alias. simpl. rewrite Hj.
  rewrite no_aggregate_plain.
  unfold where_keeps. simpl. rewrite filter_true. rewrite map_map.
  f_equal. unfold project. apply map_ext. intros r. apply select_row_plain.
Qed.

Lemma eval_union_all now env l r tl tr :
  eval_query now env l = Some tl -> eval_query now env r = Some tr ->
  eval_query now env (Union l r false) = Some (tl ++ tr).
Proof. intros Hl Hr. simpl. rewrite Hl, Hr. reflexivity. Qed.

Lemma forallb_ext_In {A} (f g : A -> bool) (l : list A) :
  (forall x, In x l -> f x = g x) -> forallb f l = forallb g l.
Proof.
  induction l as [|x l IH]; intros H; simpl; [reflexivity|].
  rewrite (H x) by (left; reflexivity). rewrite IH; [reflexivity|].
  intros y Hy. apply H. right. exact Hy.
Qed.

Lemma get_col_project (names : list string) n (r : Row) :
  In n names -> get_col n (map (fun n => (n, get_col n r)) names) = get_col n r.
Proof.
  induction names as [|m names IH]; intros Hin; [destruct Hin|].
  simpl. destruct (bool_decide_reflect (m = n)) as [->|Hne]; [reflexivity|].
  apply IH. destruct Hin as [Heq|Hin]; [congruence | exact Hin].
Qed.

Lemma pk_match_project (keys cols : list string) (x y : Row) :
  (forall n, In n keys -> In n cols) ->
  pk_match keys (map (fun n => (n, get_col n x)) cols) (map (fun n => (n, get_col n y)) cols)
  = pk_match keys x y.
Proof.
  intros Hsub. unfold pk_match. apply forallb_ext_In. intros n Hn.
  rewrite !get_col_project by (apply Hsub; exact Hn). reflexivity.
Qed.

Lemma sql_eq_sym a b : sql_eq a b = sql_eq b a.
Proof.
  destruct a, b; simpl; try reflexivity;
    f_equal; apply bool_decide_ext; split; congruence.
Qed.

Lemma pk_match_sym keys x y : pk_match keys x y = pk_match keys y x.
Proof.
  unfold pk_match. apply forallb_ext_In. intros n _. rewrite sql_eq_sym. reflexivity.
Qed.

Lemma anti_join_on_In keys l r x :
  In x (anti_join_on keys l r) ->
  In x l /\ forall y, In y r -> pk_match keys x y = false.
Proof.
  unfold anti_join_on. rewrite filter_In. intros [Hin Hneg]. split; [exact Hin|].
  intros y Hy. apply negb_true_iff in Hneg.
  destruct (pk_match keys x y) eqn:Hm; [|reflexivity].
  assert (existsb (pk_match keys x) r = true) by (apply existsb_exists; eauto).
  congruence.
Qed.

Lemma In_project names t x :
  In x (project names t) -> exists r, In r t /\ x = map (fun n => (n, get_col n r)) names.
Proof.
  unfold project. rewrite in_map_iff. intros [r [Heq Hin]]. eauto.
Qed.

(** The rows an anti join keeps are disjoint, on the key, from the joined table. *)
Lemma disjoint_on_anti_join keys cols l r r' l' :
  (forall n, In n keys -> In n cols) ->
  (forall x, In x r' -> In x r) ->
  (forall x, In x l' -> In x (anti_join_on keys l r)) ->
  disjoint_on keys (project cols r') (project cols l').
Proof.
  intros Hsub Hr' Hl' x y Hx Hy.
  apply In_project in Hx as [rx [Hrx ->]]. apply In_project in Hy as [ry [Hry ->]].
  rewrite pk_match_project by exact Hsub. rewrite pk_match_sym.
  apply Hl' in Hry. apply anti_join_on_In in Hry as [_ Hno]. apply Hno, Hr'. exact Hrx.
Qed.

Lemma anti_join_on_incl keys l r x : In x (anti_join_on keys l r) -> In x l.
Proof. intros H. apply anti_join_on_In in H. tauto. Qed.

Lemma get_cols_select_names cols alias f :
  _get_cols_select cols None None false alias true None (Some f)
  = map (fun n => Alias (Column n alias) n) (map f cols).
Proof. rewrite get_cols_select_plain, map_map. reflexivity. Qed.

Lemma latest_pk_query_shape pks delta_col wc :
  let keys := map (get_target_name wc) pks in
  let cols := keys ++ [get_target_name wc delta_col] in
  let sel a := map (fun n => Alias (Column n (Some a)) n) cols in
  let on_ l r := map (fun n => EQ (Column n (Some l)) (Column n (Some r))) keys in
  latest_pk_query pks delta_col wc
  = Some (Union
            (Select (sel "au") {| tr_name := "delta_2"; tr_alias := Some "au" |} [] [])
            (Union
               (Select (sel "d1") {| tr_name := "delta_1"; tr_alias := Some "d1" |}
                  [ {| j_this := {| tr_name := "delta_2"; tr_alias := Some "au2" |};
                       j_on := on_ "d1" "au2" |} ] [])
               (Select (sel "cpk") {| tr_name := "primary_keys_ts"; tr_alias := Some "cpk" |}
                  [ {| j_this := {| tr_name := "delta_2"; tr_alias := Some "au3" |};
                       j_on := on_ "cpk" "au3" |};
                    {| j_this := {| tr_name := "delta_1"; tr_alias := Some "au4" |};
                       j_on := on_ "cpk" "au4" |} ] [])
               false)
            false).
Proof.
  intros keys cols sel on_. unfold latest_pk_query.
  rewrite !get_cols_select_names. rewrite !pk_equal_map.
  unfold concat_seq. rewrite (map_app (get_target_name wc)). reflexivity.
Qed.

Ltac world_simpl :=
  cbn [set_views set_lake set_files set_faults set_log add_event write_delta
       source_name source_rows lake files views now faults log_buffer log_sink trace] in *.

Lemma latest_write_versions mode rows h :
  latest (write_versions mode rows h)
  = match mode, h with
    | append, Some h => latest h ++ rows
    | _, _ => rows
    end.
Proof.
  unfold write_versions, latest. destruct h as [h|]; [|destruct mode; reflexivity].
  rewrite last_last. destruct mode; reflexivity.
Qed.

(** C8. [write_latest_pk] overwrites [latest_pk] with the UNION ALL of
    (1) [delta_2], (2) [delta_1] anti joined with [delta_2] on the key,
    (3) [primary_keys_ts] anti joined with [delta_2] and with [delta_1] on
    the key, each projected to the key columns and the delta column; the
    three operands are pairwise disjoint on the key. *)
Theorem write_latest_pk_composition pks delta_col wc w h1 h2 h3 :
  faults w = [] ->
  lake w !! delta_load DELTA_1_NAME = Some h1 ->
  lake w !! delta_load DELTA_2_NAME = Some h2 ->
  lake w !! delta_load PRIMARY_KEYS_TS = Some h3 ->
  let keys := map (get_target_name wc) pks in
  let cols := keys ++ [get_target_name wc delta_col] in
  let op1 := project cols (latest h2) in
  let op2 := project cols (anti_join_on keys (latest h1) (latest h2)) in
  let op3 := project cols (anti_join_on keys (anti_join_on keys (latest h3) (latest h2))
                                        (latest h1)) in
  exists q1 q2 q3 w',
    latest_pk_query pks delta_col wc = Some (Union q1 (Union q2 q3 false) false) /\
    write_latest_pk pks delta_col wc w = (Ok tt, w') /\
    eval_query (now w') (views w') q1 = Some op1 /\
    eval_query (now w') (views w') q2 = Some op2 /\
    eval_query (now w') (views w') q3 = Some op3 /\
    (exists h, lake w' !! delta_load LATEST_PK_VERSION = Some h /\
               latest h = op1 ++ op2 ++ op3) /\
    trace w' = trace w ++ [EvLocalWrite (Union q1 (Union q2 q3 false) false)
                                        (delta_load LATEST_PK_VERSION) overwrite] /\
    disjoint_on keys op1 op2 /\ disjoint_on keys op1 op3 /\ disjoint_on keys op2 op3.
Proof.
  intros Hf H1 H2 H3 keys cols op1 op2 op3.
  pose proof (latest_pk_query_shape pks delta_col wc) as Hq. cbv zeta in Hq.
  fold keys in Hq. fold cols in Hq.
  set (w1 := set_views (insert DELTA_1_NAME (latest h1)) w).
  set (w2 := set_views (insert DELTA_2_NAME (latest h2)) w1).
  set (w3 := set_views (insert PRIMARY_KEYS_TS (latest h3)) w2).
  assert (Hv1 : views w3 !! "delta_1" = Some (latest h1)).
  { subst w3 w2 w1. world_simpl. unfold PRIMARY_KEYS_TS, DELTA_2_NAME, DELTA_1_NAME.
    rewrite !lookup_insert_ne by discriminate. apply lookup_insert_eq. }
  assert (Hv2 : views w3 !! "delta_2" = Some (latest h2)).
  { subst w3 w2 w1. world_simpl. unfold PRIMARY_KEYS_TS, DELTA_2_NAME.
    rewrite lookup_insert_ne by discriminate. apply lookup_insert_eq. }
  assert (Hv3 : views w3 !! "primary_keys_ts" = Some (latest h3)).
  { subst w3 w2 w1. world_simpl. unfold PRIMARY_KEYS_TS. apply lookup_insert_eq. }
  assert (He1 : forall q, q = Select (map (fun n => Alias (Column n (Some "au")) n) cols)
                                {| tr_name := "delta_2"; tr_alias := Some "au" |} [] [] ->
                eval_query (now w3) (views w3) q = Some op1).
  { intros q ->. apply eval_select_plain. exact Hv2. }
  assert (He2 : forall q,
             q = Select (map (fun n => Alias (Column n (Some "d1")) n) cols)
                   {| tr_name := "delta_1"; tr_alias := Some "d1" |}
                   [ {| j_this := {| tr_name := "delta_2"; tr_alias := Some "au2" |};
                        j_on := map (fun n => EQ (Column n (Some "d1")) (Column n (Some "au2")))
                                    keys |} ] [] ->
             eval_query (now w3) (views w3) q = Some op2).
  { intros q ->. apply (eval_select_anti _ _ cols keys _ _ _ (latest h1)); [exact Hv1|].
    apply apply_anti_joins_one; [exact Hv2 | discriminate]. }
  assert (He3 : forall q,
             q = Select (map (fun n => Alias (Column n (Some "cpk")) n) cols)
                   {| tr_name := "primary_keys_ts"; tr_alias := Some "cpk" |}
                   [ {| j_this := {| tr_name := "delta_2"; tr_alias := Some "au3" |};
                        j_on := map (fun n => EQ (Column n (Some "cpk")) (Column n (Some "au3")))
                                    keys |};
                     {| j_this := {| tr_name := "delta_1"; tr_alias := Some "au4" |};
                        j_on := map (fun n => EQ (Column n (Some "cpk")) (Column n (Some "au4")))
                                    keys |} ] [] ->
             eval_query (now w3) (views w3) q = Some op3).
  { intros q ->. apply (eval_select_anti _ _ cols keys _ _ _ (latest h3)); [exact Hv3|].
    apply apply_anti_joins_two; [exact Hv2 | exact Hv1 | discriminate | discriminate]. }
  assert (Hsub : forall n, In n keys -> In n cols)
    by (intros n Hn; unfold cols; apply in_or_app; left; exact Hn).
  eexists _, _, _, _. split; [exact Hq|].
  split.
  { unfold write_latest_pk.
    rewrite (bind_ok _ _ _ _ _ (local_register_update_view_latest _ _ w h1 Hf H1)).
    fold w1.
    rewrite (bind_ok _ _ _ _ _ (local_register_update_view_latest _ _ w1 h2 Hf H2)).
    fold w2.
    rewrite (bind_ok _ _ _ _ _ (local_register_update_view_latest _ _ w2 h3 Hf H3)).
    fold w3. rewrite Hq.
    apply (local_execute_sql_to_delta_ok _ _ _ w3 (op1 ++ op2 ++ op3) Hf).
    apply eval_union_all; [apply He1; reflexivity|].
    apply eval_union_all; [apply He2; reflexivity | apply He3; reflexivity]. }
  world_simpl.
  split; [apply He1; reflexivity|].
  split; [apply He2; reflexivity|].
  split; [apply He3; reflexivity|].
  split.
  { eexists. split; [apply lookup_insert_eq|]. rewrite latest_write_versions. reflexivity. }
  split; [reflexivity|].
  split; [|split].
  - apply (disjoint_on_anti_join keys cols (latest h1) (latest h2)); [exact Hsub | auto | auto].
  - apply (disjoint_on_anti_join keys cols (latest h3) (latest h2)); [exact Hsub | auto |].
    intros x Hx. apply anti_join_on_incl in Hx. exact Hx.
  - apply (disjoint_on_anti_join keys cols (anti_join_on keys (latest h3) (latest h2))
                                 (latest h1)); [exact Hsub | | auto].
    apply anti_join_on_incl.
Qed.

Lemma write_latest_pk_composition_witness :
  faults world_stepped = [] /\
  exists w',
    write_latest_pk [col_id] col_ts (example_config mode_auto) world_stepped = (Ok tt, w') /\
    exists h, lake w' !! delta_load LATEST_PK_VERSION = Some h /\
              latest h = [pk_row 5 9; pk_row 2 13; pk_row 4 14; pk_row 1 10].
Proof.
  split; [reflexivity|].
  destruct (write_latest_pk_composition [col_id] col_ts (example_config mode_auto) world_stepped
              [[delta_row 2 "bb" 13 2000 false; delta_row 4 "d" 14 2000 false]]
              [[delta_row 5 "e" 9 2000 false]]
              [[pk_row 1 10; pk_row 2 13; pk_row 4 14; pk_row 5 9]]
              eq_refl eq_refl eq_refl eq_refl)
    as (q1 & q2 & q3 & w' & _ & Hrun & _ & _ & _ & (h & Hh & Hlatest) & _).
  exists w'. split; [exact Hrun|]. exists h. split; [exact Hh|].
  rewrite Hlatest. reflexivity.
Defined.

Lemma eval_select_star now env name (t : Table) :
  env !! name = Some t -> eval_query now env (select_star name) = Some t.
Proof.
  intros H. unfold select_star. simpl. rewrite H. simpl.
  unfold where_keeps. simpl. rewrite filter_true, map_map. f_equal.
  rewrite <- (map_id t) at 2. apply map_ext. intros r.
  unfold select_row. simpl. unfold scope_all. simpl. rewrite !app_nil_r. reflexivity.
Qed.

Lemma eval_except now env l r tl tr :
  eval_query now env l = Some tl -> eval_query now env r = Some tr ->
  eval_query now env (Except l r) = Some (except_rows tl tr).
Proof. intros Hl Hr. simpl. rewrite Hl, Hr. reflexivity. Qed.

Lemma eval_select_where_false now env es name alias (t : Table) :
  env !! name = Some t -> existsb is_aggregate es = false ->
  eval_query now env (Select es {| tr_name := name; tr_alias := alias |} [] [OneEqZero])
  = Some [].
Proof.
  intros H Hagg. simpl. rewrite H. simpl. rewrite Hagg.
  assert (Hnil : forall scs : list Scope, List.filter (where_keeps now [OneEqZero]) scs = []).
  { intros scs. induction scs as [|sc scs IH]; [reflexivity|]. simpl. exact IH. }
  rewrite Hnil. reflexivity.
Qed.

Lemma eval_select_tombstones now env (non_pk : list string) (t : Table) :
  env !! "deletes" = Some t ->
  eval_query now env
    (Select ([Star (Some "d")] ++ map (fun n => Alias Null n) non_pk ++ [at_time_zone_utc]
             ++ [Alias (Convert (VBool true)) IS_DELETED_COL_NAME]
             ++ [Alias (Convert (VBool false)) IS_FULL_LOAD_COL_NAME])
            {| tr_name := "deletes"; tr_alias := Some "d" |} [] [])
  = Some (map (tombstone non_pk now) t).
Proof.
  intros H. simpl. rewrite H. simpl.
  assert (Hagg : existsb is_aggregate
                   (map (fun n => Alias Null n) non_pk
                    ++ [at_time_zone_utc; Alias (Convert (VBool true)) IS_DELETED_COL_NAME;
                        Alias (Convert (VBool false)) IS_FULL_LOAD_COL_NAME]) = false).
  { rewrite existsb_app. simpl. rewrite orb_false_r.
    induction non_pk; simpl; auto. }
  rewrite Hagg. clear Hagg. unfold where_keeps. simpl. rewrite filter_true, map_map. f_equal.
  apply map_ext. intros r. unfold select_row, tombstone. simpl.
  f_equal. rewrite map_app, concat_app. simpl. f_equal.
  induction non_pk as [|n non_pk IH]; simpl; [reflexivity|]. f_equal. exact IH.
Qed.

Lemma first_row_ok name (r : Row) rows w : first_row name (r :: rows) w = (Ok (get_col name r), w).
Proof. reflexivity. Qed.

Lemma eval_count_limit_one now env name (t : Table) :
  env !! name = Some t ->
  eval_query now env (count_limit_one name)
  = Some [[("cnt", VInt (match t with [] => 0 | _ => 1 end))]].
Proof. intros H. simpl. rewrite H. reflexivity. Qed.

Lemma delete_query_eval now env pk_cols wc (prior current : Table) :
  env !! "LAST_PK_VERSION" = Some prior ->
  env !! "latest_pk" = Some current ->
  eval_query now env (delete_query pk_cols wc)
  = Some (except_rows (project (map (get_target_name wc) pk_cols) prior)
                      (project (map (get_target_name wc) pk_cols) current)).
Proof.
  intros Hp Hc. unfold delete_query. rewrite !get_cols_select_names.
  apply eval_except; apply eval_select_plain; assumption.
Qed.

Lemma deletes_with_schema_shape cols pk_cols wc :
  let non_pk := map (get_target_name wc)
                    (List.filter (fun c => negb (bool_decide (c ∈ pk_cols))) cols) in
  deletes_with_schema cols pk_cols wc
  = Some (With "deletes" (delete_query pk_cols wc)
            (Union
               (Select (map (fun n => Alias (Column n (Some "d1")) n)
                            (map (get_target_name wc) pk_cols)
                        ++ map (fun n => Alias (Column n (Some "d1")) n) non_pk
                        ++ [at_time_zone_utc;
                            Alias (Convert (VBool true)) IS_DELETED_COL_NAME;
                            Alias (Convert (VBool false)) IS_FULL_LOAD_COL_NAME])
                       {| tr_name := "delta_1"; tr_alias := Some "d1" |} [] [OneEqZero])
               (Select ([Star (Some "d")] ++ map (fun n => Alias Null n) non_pk
                        ++ [at_time_zone_utc]
                        ++ [Alias (Convert (VBool true)) IS_DELETED_COL_NAME]
                        ++ [Alias (Convert (VBool false)) IS_FULL_LOAD_COL_NAME])
                       {| tr_name := "deletes"; tr_alias := Some "d" |} [] [])
               false)).
Proof.
  intros non_pk. unfold deletes_with_schema. rewrite !get_cols_select_names.
  fold non_pk. rewrite <- (map_map (get_target_name wc) (fun n => Alias Null n)).
  reflexivity.
Qed.

(** C7 (as amended). [do_deletes] takes as deleted the keys of [latest_pk] at
    the prior version EXCEPT the keys of [latest_pk] as it is now (the manifest
    [write_latest_pk] has just written, not [primary_keys_ts]); a tombstone
    carries the key cells, NULL in every other column, the time of the lake
    engine (CURRENT_TIMESTAMP AT TIME ZONE 'UTC') as [__valid_from],
    [__is_deleted] true and [__is_full_load] false; the tombstones are
    appended to [delta/] only when there is one. *)
Theorem do_deletes_tombstones cols pk_cols old_pk_version wc w hl prior d1 :
  faults w = [] ->
  lake w !! delta_load LATEST_PK_VERSION = Some hl ->
  hl !! old_pk_version = Some prior ->
  views w !! "delta_1" = Some d1 ->
  let keys := map (get_target_name wc) pk_cols in
  let non_pk := map (get_target_name wc)
                    (List.filter (fun c => negb (bool_decide (c ∈ pk_cols))) cols) in
  let deletes := except_rows (project keys prior) (project keys (latest hl)) in
  let rows := map (tombstone non_pk (now w)) deletes in
  exists sel w',
    deletes_with_schema cols pk_cols wc
    = Some (With "deletes" (delete_query pk_cols wc)
              (Union sel
                 (Select ([Star (Some "d")] ++ map (fun n => Alias Null n) non_pk
                          ++ [Alias CurrentTimestampUtc VALID_FROM_COL_NAME]
                          ++ [Alias (Convert (VBool true)) IS_DELETED_COL_NAME]
                          ++ [Alias (Convert (VBool false)) IS_FULL_LOAD_COL_NAME])
                         {| tr_name := "deletes"; tr_alias := Some "d" |} [] [])
                 false)) /\
    do_deletes cols pk_cols old_pk_version wc w = (Ok tt, w') /\
    eval_query (now w') (views w') (delete_query pk_cols wc) = Some deletes /\
    views w' !! "deletes_with_schema" = Some rows /\
    lake w' = match deletes with
              | [] => lake w
              | _ => <[delta_path := write_versions append rows (lake w !! delta_path)]> (lake w)
              end /\
    trace w' = trace w ++ match deletes with
                          | [] => []
                          | _ => [EvLocalWrite (select_star "deletes_with_schema")
                                               delta_path append]
                          end.
Proof.
  intros Hf Hl Hv Hd1 keys non_pk deletes rows.
  pose proof (deletes_with_schema_shape cols pk_cols wc) as Hq. cbv zeta in Hq.
  fold non_pk in Hq.
  set (w1 := set_views (insert LATEST_PK_VERSION (latest hl)) w).
  set (w2 := set_views (insert LAST_PK_VERSION prior) w1).
  set (w3 := set_views (insert "deletes_with_schema" rows) w2).
  assert (Hprior : views w2 !! "LAST_PK_VERSION" = Some prior).
  { subst w2 w1. world_simpl. apply lookup_insert_eq. }
  assert (Hcur : views w2 !! "latest_pk" = Some (latest hl)).
  { subst w2 w1. world_simpl. unfold LAST_PK_VERSION, LATEST_PK_VERSION.
    rewrite lookup_insert_ne by discriminate. apply lookup_insert_eq. }
  assert (Hdq : forall env, env !! "LAST_PK_VERSION" = Some prior ->
                            env !! "latest_pk" = Some (latest hl) ->
                eval_query (now w) env (delete_query pk_cols wc) = Some deletes).
  { intros env H1 H2. apply delete_query_eval; assumption. }
  assert (Heval : forall q, deletes_with_schema cols pk_cols wc = Some q ->
                            eval_query (now w2) (views w2) q = Some rows).
  { intros q Hq'. rewrite Hq in Hq'. injection Hq' as <-.
    change (eval_query (now w2) (views w2) (With ?n ?a ?t))
      with (match eval_query (now w2) (views w2) a with
            | Some t' => eval_query (now w2) (<[n := t']> (views w2)) t
            | None => None
            end).
    change (now w2) with (now w). rewrite (Hdq _ Hprior Hcur).
    change rows with ([] ++ rows). apply eval_union_all.
    - apply (eval_select_where_false _ _ _ _ _ d1).
      + subst w2 w1. world_simpl. unfold LAST_PK_VERSION, LATEST_PK_VERSION.
        rewrite !lookup_insert_ne by discriminate. exact Hd1.
      + rewrite !existsb_app, !no_aggregate_plain. reflexivity.
    - apply eval_select_tombstones. apply lookup_insert_eq. }
  assert (Hrun : do_deletes cols pk_cols old_pk_version wc w
                 = (if 0 <? match rows with [] => 0 | _ => 1 end
                    then local_execute_sql_to_delta (select_star "deletes_with_schema")
                                                    delta_path append
                    else ret tt) w3).
  { unfold do_deletes.
    rewrite (bind_ok _ _ _ _ _ (local_register_update_view_latest _ _ w hl Hf Hl)). fold w1.
    rewrite (bind_ok _ _ _ _ _ (local_register_update_view_version _ _ w1 hl _ prior Hf Hl Hv)).
    fold w2. rewrite Hq.
    rewrite (bind_ok _ _ _ _ _ (local_register_view_ok _ _ w2 rows Hf (Heval _ Hq))). fold w3.
    rewrite (bind_ok _ _ _ _ _ (local_execute_sql_to_py_ok _ w3 _ Hf
                                  (eval_count_limit_one _ _ _ rows (lookup_insert_eq _ _ _)))).
    rewrite (bind_ok _ _ _ _ _ (first_row_ok _ _ _ _)). reflexivity. }
  assert (Hdq3 : eval_query (now w3) (views w3) (delete_query pk_cols wc) = Some deletes).
  { apply Hdq; subst w3; world_simpl; rewrite lookup_insert_ne by discriminate; assumption. }
  clearbody deletes. destruct deletes as [|d ds].
  - eexists _, _. split; [exact Hq|].
    split; [rewrite Hrun; reflexivity|]. world_simpl.
    split; [exact Hdq3|]. split; [apply lookup_insert_eq|].
    split; [reflexivity | rewrite app_nil_r; reflexivity].
  - eexists _, _. split; [exact Hq|]. split.
    { rewrite Hrun. subst rows. simpl.
      eapply local_execute_sql_to_delta_ok; [exact Hf|].
      apply eval_select_star. apply lookup_insert_eq. }
    world_simpl. split; [exact Hdq3|].
    split; [apply lookup_insert_eq|]. split; reflexivity.
Qed.

Lemma do_deletes_tombstones_witness :
  faults world_manifest = [] /\
  exists w',
    do_deletes [col_id; col_name; col_ts] [col_id] 0 (example_config mode_auto) world_manifest
    = (Ok tt, w') /\
    trace w' = trace world_manifest
               ++ [EvLocalWrite (select_star "deletes_with_schema") delta_path append] /\
    views w' !! "deletes_with_schema"
    = Some [[("id", VInt 3); ("name", VNull); ("ts", VNull); ("__valid_from", VTime 2000);
             ("__is_deleted", VBool true); ("__is_full_load", VBool false)]].
Proof.
  split; [reflexivity|].
  destruct (do_deletes_tombstones [col_id; col_name; col_ts] [col_id] 0
              (example_config mode_auto) world_manifest
              [[pk_row 1 10; pk_row 2 11; pk_row 3 12];
               [pk_row 5 9; pk_row 2 13; pk_row 4 14; pk_row 1 10]]
              [pk_row 1 10; pk_row 2 11; pk_row 3 12]
              [delta_row 2 "bb" 13 2000 false; delta_row 4 "d" 14 2000 false]
              eq_refl eq_refl eq_refl eq_refl)
    as (sel & w' & _ & Hrun & _ & Hview & _ & Htrace).
  exists w'. split; [exact Hrun|]. split; [exact Htrace | exact Hview].
Defined.

(** C7, as stated, fails: in [world_raced] the keys of [latest_pk] at the
    prior version EXCEPT those of [primary_keys_ts] are the key 3, yet
    [do_deletes] finds no deleted key and appends nothing to [delta/]. *)
Lemma do_deletes_not_primary_keys_ts :
  let w1 := (write_latest_pk [col_id] col_ts (example_config mode_auto) world_raced).2 in
  let w2 := (do_deletes [col_id; col_name; col_ts] [col_id] 0 (example_config mode_auto) w1).2 in
  except_rows (project ["id"] [pk_row 1 10; pk_row 2 11; pk_row 3 12])
              (project ["id"] [pk_row 1 10; pk_row 2 11])
  = [[("id", VInt 3)]] /\
  lake world_raced !! delta_load LATEST_PK_VERSION = Some [[pk_row 1 10; pk_row 2 11; pk_row 3 12]] /\
  lake world_raced !! delta_load PRIMARY_KEYS_TS = Some [[pk_row 1 10; pk_row 2 11]] /\
  (do_deletes [col_id; col_name; col_ts] [col_id] 0 (example_config mode_auto) w1).1 = Ok tt /\
  eval_query (now w2) (views w2) (delete_query [col_id] (example_config mode_auto)) = Some [] /\
  lake w2 !! delta_path = lake world_raced !! delta_path.
Proof. vm_compute. repeat split; reflexivity. Qed.

Lemma eval_count_star now env name (t : Table) :
  env !! name = Some t ->
  eval_query now env (Select [Alias CountStar "cnt"] (from_ name) [] [])
  = Some [[("cnt", VInt (Z.of_nat (length t)))]].
Proof.
  intros H. simpl. rewrite H. simpl. unfold where_keeps. simpl.
  rewrite filter_true, length_map. reflexivity.
Qed.

Lemma eval_min now env name alias c (t : Table) :
  env !! name = Some t ->
  eval_query now env (Select [Alias (Min (Column c None)) "min_ts"] (table_ name alias) [] [])
  = Some [[("min_ts", sql_min (map (get_col c) t))]].
Proof.
  intros H. simpl. rewrite H. simpl. unfold where_keeps. simpl.
  rewrite filter_true, map_map. do 4 f_equal. f_equal.
  apply map_ext. intros r. unfold scope_all. simpl. rewrite app_nil_r. reflexivity.
Qed.

Lemma select_row_imap now sc {A} (f : nat -> A -> expr) (g : nat -> A -> string * value)
    (l : list A) :
  (forall i c, select_item now sc (f i c) = [g i c]) ->
  select_row now (imap f l) sc = imap g l.
Proof.
  unfold select_row. revert f g. induction l as [|x l IH]; intros f g H; [reflexivity|].
  simpl. rewrite H. simpl. f_equal. apply IH. intros i c. apply H.
Qed.

Lemma no_aggregate_imap {A} (f : nat -> A -> expr) (l : list A) :
  (forall i c, is_aggregate (f i c) = false) -> existsb is_aggregate (imap f l) = false.
Proof.
  revert f. induction l as [|x l IH]; intros f H; [reflexivity|].
  simpl. rewrite H. simpl. apply IH. intros i c. apply H.
Qed.

Lemma eval_jsd_query now env pk_cols wc (t : Table) :
  env !! "real_additional_updates" = Some t ->
  eval_query now env (jsd_query pk_cols wc) = Some (map (json_keys wc pk_cols) t).
Proof.
  intros H. unfold jsd_query. simpl. rewrite H. simpl.
  rewrite no_aggregate_imap by reflexivity.
  unfold where_keeps. simpl. rewrite filter_true, map_map. f_equal.
  apply map_ext. intros r. unfold json_keys. apply select_row_imap.
  intros i c. simpl. unfold scope_all. simpl. rewrite app_nil_r. reflexivity.
Qed.

Lemma additional_updates_query_eval now env pk_cols delta_col wc (pk_ts prior : Table) :
  env !! "primary_keys_ts" = Some pk_ts ->
  env !! "LAST_PK_VERSION" = Some prior ->
  let cols := map (get_target_name wc) pk_cols ++ [get_target_name wc delta_col] in
  eval_query now env (additional_updates_query pk_cols delta_col wc)
  = Some (except_rows (project cols pk_ts) (project cols prior)).
Proof.
  intros Hp Hl cols. unfold additional_updates_query. rewrite !get_cols_select_names.
  unfold concat_seq. rewrite (map_app (get_target_name wc)). fold cols.
  apply eval_except; apply eval_select_plain; assumption.
Qed.

Lemma real_additional_updates_query_eval now env pk_cols wc (au d1 : Table) :
  env !! "additional_updates" = Some au ->
  env !! "delta_1" = Some d1 ->
  let keys := map (get_target_name wc) pk_cols in
  eval_query now env (real_additional_updates_query pk_cols wc)
  = Some (except_rows (project keys au) (project keys d1)).
Proof.
  intros Ha Hd keys. unfold real_additional_updates_query. rewrite !get_cols_select_names.
  apply eval_except; apply eval_select_plain; assumption.
Qed.

(** What the source answers to [full_sql] for the empty document. *)
Lemma full_sql_empty_document now name rows table pk_cols cols wc :
  String.concat "." (table_parts table) = name ->
  eval_source now name rows (full_sql table pk_cols cols wc []) = Some [].
Proof.
  intros Hname. unfold full_sql, eval_source, table_from_tuple. cbn [tr_name].
  rewrite bool_decide_eq_true_2 by exact Hname. f_equal.
  unfold flat_map_rows. induction rows as [|r rows IH]; [reflexivity|].
  simpl. exact IH.
Qed.

Lemma logger_log_ok level msg w :
  logger_log level msg w = (Ok tt, set_log (log_buffer w ++ [(level, msg)]) (log_sink w) w).
Proof. reflexivity. Qed.

Lemma eval_source_update_sql now name rows cols criterion table wc :
  String.concat "." (table_parts table) = name ->
  exists t, eval_source now name rows (_get_update_sql cols criterion table wc) = Some t.
Proof.
  intros Hname. unfold _get_update_sql, eval_source, table_from_tuple.
  cbn [eval_query tr_name]. rewrite Hname, lookup_singleton_eq. cbn [apply_anti_joins].
  destruct (existsb is_aggregate _); eauto.
Qed.

Lemma latest_write_overwrite rows h : latest (write_versions overwrite rows h) = rows.
Proof. rewrite latest_write_versions. destruct h; reflexivity. Qed.

(** The load by timestamp: the rows of the source go to [delta_load/<name>]
    (overwrite) and, when there is one, are appended to [delta_path]. *)
Lemma load_updates_to_delta_ok dp sql name wc w rows :
  faults w = [] ->
  eval_source (now w) (source_name w) (source_rows w) sql = Some rows ->
  exists w',
    _load_updates_to_delta dp sql name wc w = (Ok tt, w') /\
    trace w' = trace w ++ EvSourceWrite sql (delta_load name) overwrite
               :: match rows with
                  | [] => []
                  | _ => [EvLocalWrite (select_star name) dp append]
                  end /\
    lake w' = (match rows with
               | [] => fun l => l
               | _ => fun l => <[dp := write_versions append rows (l !! dp)]> l
               end)
                (<[delta_load name := write_versions overwrite rows (lake w !! delta_load name)]>
                   (lake w)) /\
    views w' = <[name := rows]> (views w) /\
    faults w' = [] /\ files w' = files w.
Proof.
  intros Hf Hsrc. unfold _load_updates_to_delta, logger_info.
  rewrite (bind_ok _ _ _ _ _ (logger_log_ok _ _ _)).
  set (w1 := set_log _ _ w).
  rewrite (bind_ok _ _ _ _ _ (source_write_sql_to_delta_ok sql _ overwrite w1 rows Hf Hsrc)).
  set (w2 := add_event _ _).
  assert (Hl2 : lake w2 !! delta_load name
                = Some (write_versions overwrite rows (lake w !! delta_load name)))
    by (subst w2 w1; world_simpl; apply lookup_insert_eq).
  rewrite (bind_ok _ _ _ _ _ (local_register_update_view_latest _ name w2 _ Hf Hl2)).
  rewrite latest_write_overwrite.
  set (w3 := set_views _ w2).
  rewrite (bind_ok _ _ _ _ _ (local_execute_sql_to_py_ok _ w3 _ Hf
                                (eval_count_limit_one _ _ _ rows (lookup_insert_eq _ _ _)))).
  rewrite (bind_ok _ _ _ _ _ (first_row_ok _ _ _ _)).
  cbn [get_col]. rewrite (bool_decide_eq_true_2 ("cnt" = "cnt")) by reflexivity.
  destruct rows as [|r rows].
  - rewrite bool_decide_eq_true_2 by reflexivity. eexists. split; [reflexivity|].
    subst w3 w2 w1. world_simpl. repeat split; auto.
  - rewrite bool_decide_eq_false_2 by discriminate.
    eexists. split.
    { eapply local_execute_sql_to_delta_ok; [exact Hf|].
      apply eval_select_star. apply lookup_insert_eq. }
    subst w3 w2 w1. world_simpl. rewrite <- app_assoc. repeat split; auto.
Qed.

Section StrangeUpdates.

Variable sql_text : source_sql -> string.
Variables (table : table_name_type) (dp : string).
Variables (pk_cols cols : list InformationSchemaColInfo).
Variables (delta_col : InformationSchemaColInfo) (wc : WriteConfig).
Variables (old_pk_version : nat) (w : World) (h_pk h_latest : list Table) (prior d1 : Table).

Hypothesis no_faults : faults w = [].
Hypothesis source_table : String.concat "." (table_parts table) = source_name w.
Hypothesis lake_pk_ts : lake w !! delta_load PRIMARY_KEYS_TS = Some h_pk.
Hypothesis lake_latest_pk : lake w !! delta_load LATEST_PK_VERSION = Some h_latest.
Hypothesis prior_version : h_latest !! old_pk_version = Some prior.
Hypothesis view_delta_1 : views w !! "delta_1" = Some d1.

Abbreviation additional_updates :=
  (additional_updates_rows wc pk_cols delta_col (latest h_pk) prior).
Abbreviation real_additional_updates :=
  (real_additional_updates_rows wc pk_cols additional_updates d1).
Abbreviation n := (Z.of_nat (length real_additional_updates)).
Abbreviation w1 :=
  (strange_update_views (latest h_pk) prior additional_updates real_additional_updates w).

Lemma handle_additional_updates_reads :
  _handle_additional_updates sql_text table dp pk_cols delta_col cols wc old_pk_version w
  = (if n =? 0
     then source_write_sql_to_delta (full_sql table pk_cols cols wc []) (delta_load "delta_2")
                                    overwrite
     else if (1000 <? n) || no_complex_entries_load wc
          then replay_timestamp_step table dp pk_cols delta_col cols wc n
          else chunked_openjson sql_text table dp pk_cols cols wc n
                                (map (json_keys wc pk_cols) real_additional_updates)) w1.
Proof.
  unfold _handle_additional_updates.
  rewrite (bind_ok _ _ _ _ _ (local_register_update_view_latest _ _ w h_pk no_faults lake_pk_ts)).
  set (wa := set_views _ w).
  rewrite (bind_ok _ _ _ _ _ (local_register_update_view_version _ _ wa h_latest _ prior
                                no_faults lake_latest_pk prior_version)).
  set (wb := set_views _ wa).
  assert (Hau : eval_query (now wb) (views wb) (additional_updates_query pk_cols delta_col wc)
                = Some additional_updates).
  { apply additional_updates_query_eval.
    - subst wb wa. world_simpl. unfold LAST_PK_VERSION, PRIMARY_KEYS_TS.
      rewrite lookup_insert_ne by discriminate. apply lookup_insert_eq.
    - subst wb wa. world_simpl. apply lookup_insert_eq. }
  rewrite (bind_ok _ _ _ _ _ (local_register_view_ok _ _ wb _ no_faults Hau)).
  set (wc' := set_views _ wb).
  assert (Hrau : eval_query (now wc') (views wc') (real_additional_updates_query pk_cols wc)
                 = Some real_additional_updates).
  { apply real_additional_updates_query_eval.
    - subst wc'. world_simpl. apply lookup_insert_eq.
    - subst wc' wb wa. world_simpl. unfold LAST_PK_VERSION, PRIMARY_KEYS_TS.
      rewrite !lookup_insert_ne by discriminate. exact view_delta_1. }
  rewrite (bind_ok _ _ _ _ _ (local_register_view_ok _ _ wc' _ no_faults Hrau)).
  change (set_views (insert "real_additional_updates" real_additional_updates) wc') with w1.
  assert (Hv : views w1 !! "real_additional_updates" = Some real_additional_updates)
    by (unfold strange_update_views; world_simpl; apply lookup_insert_eq).
  rewrite (bind_ok _ _ _ _ _ (local_execute_sql_to_py_ok _ w1 _ no_faults
                                (eval_count_star _ _ _ _ Hv))).
  rewrite (bind_ok _ _ _ _ _ (first_row_ok _ _ _ _)).
  cbn [get_col]. rewrite (bool_decide_eq_true_2 ("cnt" = "cnt")) by reflexivity.
  rewrite (bind_ok _ _ _ _ _ (local_execute_sql_to_py_ok _ w1 _ no_faults
                                (eval_jsd_query _ _ _ _ _ Hv))).
  destruct (Z.eqb_spec n 0) as [Hn|Hn].
  - rewrite bool_decide_eq_true_2 by (rewrite Hn; reflexivity). reflexivity.
  - rewrite bool_decide_eq_false_2 by congruence. reflexivity.
Qed.

End StrangeUpdates.

Lemma char_size_pks_count pk_cols :
  char_size_pks pk_cols
  = 15 * Z.of_nat (length (List.filter integer_like pk_cols))
    + 45 * Z.of_nat (length (List.filter (fun p => negb (integer_like p)) pk_cols)).
Proof.
  unfold char_size_pks. induction pk_cols as [|p pk_cols IH]; [reflexivity|].
  cbn [map foldr List.filter]. rewrite IH. unfold integer_like.
  destruct (bool_decide (data_type p ∈ _)); cbn [negb length]; lia.
Qed.

Lemma char_size_pks_pos pk_cols : pk_cols <> [] -> 0 < char_size_pks pk_cols.
Proof.
  intros Hne. rewrite char_size_pks_count. destruct pk_cols as [|p pk_cols]; [congruence|].
  cbn [List.filter]. destruct (integer_like p); cbn [negb length]; lia.
Qed.

Lemma batch_size_ok pk_cols w :
  pk_cols <> [] ->
  batch_size pk_cols w = (Ok (Z.max 10 (7000 / char_size_pks pk_cols)), w).
Proof.
  intros Hne. unfold batch_size. pose proof (char_size_pks_pos pk_cols Hne).
  destruct (Z.eqb_spec (char_size_pks pk_cols) 0); [lia | reflexivity].
Qed.

Lemma json_dumps_ok rows w :
  forallb (fun r => forallb json_serializable (row_values r)) rows = true ->
  json_dumps rows w = (Ok rows, w).
Proof. intros H. unfold json_dumps. rewrite H. reflexivity. Qed.

Lemma eval_source_full_sql now name rows table pk_cols cols wc js :
  String.concat "." (table_parts table) = name ->
  exists t, eval_source now name rows (full_sql table pk_cols cols wc js) = Some t.
Proof.
  intros Hname. unfold full_sql, eval_source, table_from_tuple. cbn [tr_name].
  rewrite bool_decide_eq_true_2 by exact Hname. eauto.
Qed.

Lemma forallb_take {A} (f : A -> bool) n (l : list A) :
  forallb f l = true -> forallb f (take n l) = true.
Proof.
  revert n. induction l as [|x l IH]; intros [|n] H; simpl in *; auto.
  apply andb_true_iff in H as [Hx Hl]. rewrite Hx. simpl. auto.
Qed.

Lemma forallb_drop {A} (f : A -> bool) n (l : list A) :
  forallb f l = true -> forallb f (drop n l) = true.
Proof.
  revert n. induction l as [|x l IH]; intros [|n] H; simpl in *; auto.
  apply andb_true_iff in H as [Hx Hl]. auto.
Qed.

Lemma chunk_events_app full_sql path first (a b : list Table) :
  a <> [] ->
  chunk_events full_sql path first (a ++ b)
  = chunk_events full_sql path first a ++ chunk_events full_sql path false b.
Proof.
  intros Ha. destruct a as [|x a]; [congruence|]. simpl. rewrite map_app.
  destruct b; reflexivity.
Qed.

Lemma bind_bind {A B C} (m : M A) (f : A -> M B) (g : B -> M C) w :
  bind (bind m f) g w = bind m (fun x => bind (f x) g) w.
Proof. unfold bind. destruct (m w) as [[a|e] w']; reflexivity. Qed.

Lemma write_chunks_ok sql_text table pk_cols cols wc path chunks first w :
  faults w = [] ->
  String.concat "." (table_parts table) = source_name w ->
  forallb rows_serializable chunks = true ->
  exists w',
    write_chunks sql_text (full_sql table pk_cols cols wc) path chunks first w = (Ok tt, w') /\
    trace w' = trace w ++ chunk_events (full_sql table pk_cols cols wc) path first
                            (documents sql_text (full_sql table pk_cols cols wc) chunks) /\
    faults w' = [] /\ views w' = views w /\ now w' = now w /\
    (is_Some (lake w !! path) \/ chunks <> [] -> is_Some (lake w' !! path)).
Proof.
  revert first w. induction chunks as [|chunk chunks IH]; intros first w Hf Hname Hser.
  - exists w. simpl. rewrite app_nil_r. repeat split; auto. intros [H|H]; [exact H | congruence].
  - cbn [forallb] in Hser. apply andb_true_iff in Hser as [Hchunk Hser].
    cbn [write_chunks].
    rewrite (bind_ok _ _ _ _ _ (json_dumps_ok chunk w Hchunk)).
    unfold documents. cbn [map List.concat].
    fold (documents sql_text (full_sql table pk_cols cols wc) chunks).
    unfold oversized at 1.
    destruct (7000 <? Z.of_nat (String.length (sql_text (full_sql table pk_cols cols wc chunk)))).
    + rewrite !bind_bind.
      rewrite (bind_ok _ _ _ _ _ (json_dumps_ok _ w (forallb_take _ _ _ Hchunk))).
      destruct (eval_source_full_sql (now w) (source_name w) (source_rows w) table pk_cols cols wc
                  (take (length chunk / 2)%nat chunk) Hname) as [t1 Ht1].
      rewrite !bind_bind.
      rewrite (bind_ok _ _ _ _ _ (source_write_sql_to_delta_ok _ path _ w t1 Hf Ht1)).
      set (w1 := add_event _ _).
      rewrite !bind_bind.
      rewrite (bind_ok _ _ _ _ _ (json_dumps_ok _ w1 (forallb_drop _ _ _ Hchunk))).
      destruct (eval_source_full_sql (now w1) (source_name w1) (source_rows w1) table pk_cols
                  cols wc (drop (length chunk / 2)%nat chunk) Hname) as [t2 Ht2].
      rewrite (bind_ok _ _ _ _ _ (source_write_sql_to_delta_ok _ path _ w1 t2 Hf Ht2)).
      set (w2 := add_event _ _).
      destruct (IH false w2 Hf Hname Hser) as (w' & Hrun & Htrace & Hf' & Hv' & Hn' & Hl').
      exists w'. split; [exact Hrun|]. rewrite Htrace.
      split.
      { subst w2 w1. world_simpl. rewrite chunk_events_app by discriminate.
        rewrite <- !app_assoc. reflexivity. }
      split; [exact Hf'|]. split; [exact Hv'|]. split; [exact Hn'|].
      intros _. apply Hl'. left. subst w2 w1. world_simpl. rewrite lookup_insert_eq. eauto.
    + destruct (eval_source_full_sql (now w) (source_name w) (source_rows w) table pk_cols cols wc
                  chunk Hname) as [t1 Ht1].
      rewrite (bind_ok _ _ _ _ _ (source_write_sql_to_delta_ok _ path _ w t1 Hf Ht1)).
      set (w1 := add_event _ _).
      destruct (IH false w1 Hf Hname Hser) as (w' & Hrun & Htrace & Hf' & Hv' & Hn' & Hl').
      exists w'. split; [exact Hrun|]. rewrite Htrace.
      split.
      { subst w1. world_simpl. rewrite chunk_events_app by discriminate.
        rewrite <- !app_assoc. reflexivity. }
      split; [exact Hf'|]. split; [exact Hv'|]. split; [exact Hn'|].
      intros _. apply Hl'. left. subst w1. world_simpl. rewrite lookup_insert_eq. eauto.
Qed.

Lemma forallb_concat {A} (f : A -> bool) (ls : list (list A)) :
  forallb (forallb f) ls = forallb f (List.concat ls).
Proof.
  induction ls as [|l ls IH]; [reflexivity|]. simpl. rewrite forallb_app, IH. reflexivity.
Qed.

Lemma chunk_events_first full_sql path (docs : list Table) :
  chunk_events full_sql path true docs
  = imap (fun i js => EvSourceWrite (full_sql js) path
                        (match i with O => overwrite | S _ => append end)) docs.
Proof.
  destruct docs as [|js docs]; [reflexivity|]. simpl. f_equal.
  generalize 0%nat. induction docs as [|js' docs IH]; intros k; [reflexivity|].
  simpl. f_equal. apply (IH (S k)).
Qed.

(** The chunked path, when no call fails: the statements it sends. *)
Lemma chunked_openjson_run sql_text table dp pk_cols cols wc n jsd w :
  faults w = [] ->
  String.concat "." (table_parts table) = source_name w ->
  pk_cols <> [] ->
  jsd <> [] ->
  rows_serializable jsd = true ->
  exists w',
    chunked_openjson sql_text table dp pk_cols cols wc n jsd w = (Ok tt, w') /\
    trace w' = trace w
               ++ chunk_events (full_sql table pk_cols cols wc) (delta_load "delta_2") true
                    (documents sql_text (full_sql table pk_cols cols wc)
                       (_list_to_chunks jsd (Z.max 10 (7000 / char_size_pks pk_cols))))
               ++ [EvLocalWrite (select_star "delta_2") dp append].
Proof.
  intros Hf Hname Hpk Hjsd Hser.
  unfold chunked_openjson, logger_warning, logger_info.
  rewrite (bind_ok _ _ _ _ _ (batch_size_ok pk_cols w Hpk)).
  rewrite (bind_ok _ _ _ _ _ (logger_log_ok _ _ _)).
  rewrite (bind_ok _ _ _ _ _ (logger_log_ok _ _ _)).
  set (size := Z.max 10 _).
  set (w1 := set_log _ _ (set_log _ _ w)).
  assert (Hne : _list_to_chunks jsd size <> []).
  { intros Hnil. pose proof (list_to_chunks_from_concat jsd [] size) as Hc.
    fold (_list_to_chunks jsd size) in Hc. rewrite Hnil in Hc. cbn in Hc. congruence. }
  assert (Hchunks : forallb rows_serializable (_list_to_chunks jsd size) = true).
  { unfold rows_serializable. rewrite forallb_concat.
    pose proof (list_to_chunks_from_concat jsd [] size) as Hc.
    fold (_list_to_chunks jsd size) in Hc. rewrite Hc. exact Hser. }
  destruct (write_chunks_ok sql_text table pk_cols cols wc (delta_load "delta_2")
              (_list_to_chunks jsd size) true w1 Hf Hname Hchunks)
    as (w2 & Hrun & Htrace & Hf2 & Hv2 & Hn2 & Hl2).
  rewrite (bind_ok _ _ _ _ _ Hrun).
  destruct (Hl2 (or_intror Hne)) as [h2 Hh2].
  rewrite (bind_ok _ _ _ _ _ (local_register_update_view_latest _ "delta_2" w2 h2 Hf2 Hh2)).
  eexists. split.
  { eapply local_execute_sql_to_delta_ok; [exact Hf2|].
    apply eval_select_star. apply lookup_insert_eq. }
  world_simpl. rewrite Htrace. subst w1. world_simpl.
  rewrite <- app_assoc. reflexivity.
Qed.

Section StrangeUpdateBranches.

Variable sql_text : source_sql -> string.
Variables (table : table_name_type) (dp : string).
Variables (pk_cols cols : list InformationSchemaColInfo).
Variables (delta_col : InformationSchemaColInfo) (wc : WriteConfig).
Variables (old_pk_version : nat) (w : World) (h_pk h_latest : list Table) (prior d1 : Table).

Hypothesis no_faults : faults w = [].
Hypothesis source_table : String.concat "." (table_parts table) = source_name w.
Hypothesis lake_pk_ts : lake w !! delta_load PRIMARY_KEYS_TS = Some h_pk.
Hypothesis lake_latest_pk : lake w !! delta_load LATEST_PK_VERSION = Some h_latest.
Hypothesis prior_version : h_latest !! old_pk_version = Some prior.
Hypothesis view_delta_1 : views w !! "delta_1" = Some d1.

Abbreviation additional_updates :=
  (additional_updates_rows wc pk_cols delta_col (latest h_pk) prior).
Abbreviation real_additional_updates :=
  (real_additional_updates_rows wc pk_cols additional_updates d1).
Abbreviation n := (Z.of_nat (length real_additional_updates)).
Abbreviation w1 :=
  (strange_update_views (latest h_pk) prior additional_updates real_additional_updates w).

(** C5. With [n] the count of [real_additional_updates] ([additional_updates]
    minus [delta_1] on the key columns): if [n] is 0 an empty [delta_2] is
    written in overwrite mode and the step finishes; if [n > 1000] or
    [no_complex_entries_load], an empty [delta_2] is written, the smallest
    delta value of [additional_updates] becomes the watermark and the load by
    timestamp runs again with it ([delta_1] overwritten, its rows appended to
    [delta/]); otherwise the chunked OPENJSON path runs: the keys of
    [real_additional_updates] go to the source as JSON documents, in batches
    of [max(10, 7000 // size of a key)], the first statement overwrites
    [delta_2], the others append to it, and [delta_2] is appended to
    [delta/] (the key has a column and its cells can be written as JSON). *)
Theorem strange_update_branch_selection :
  let minimum := sql_min (map (get_col (get_target_name wc delta_col)) additional_updates) in
  let upds_sql :=
    _get_update_sql cols
      (Some (GT (_cast (column_name delta_col) (data_type delta_col) (Some "t")
                       (data_type_map wc))
                (Convert minimum))) table wc in
  let empty_delta_2 :=
    EvSourceWrite (full_sql table pk_cols cols wc []) (delta_load "delta_2") overwrite in
  let jsd := map (json_keys wc pk_cols) real_additional_updates in
  (n = 0 ->
   exists w',
     _handle_additional_updates sql_text table dp pk_cols delta_col cols wc old_pk_version w
     = (Ok tt, w') /\
     trace w' = trace w ++ [empty_delta_2] /\
     exists h, lake w' !! delta_load "delta_2" = Some h /\ latest h = []) /\
  (n <> 0 -> 1000 < n \/ no_complex_entries_load wc = true ->
   exists rows w',
     eval_source (now w) (source_name w) (source_rows w) upds_sql = Some rows /\
     _handle_additional_updates sql_text table dp pk_cols delta_col cols wc old_pk_version w
     = (Ok tt, w') /\
     trace w' = trace w ++ [empty_delta_2; EvSourceWrite upds_sql (delta_load "delta_1") overwrite]
                ++ match rows with
                   | [] => []
                   | _ => [EvLocalWrite (select_star "delta_1") dp append]
                   end) /\
  (n <> 0 -> n <= 1000 -> no_complex_entries_load wc = false ->
   pk_cols <> [] -> rows_serializable jsd = true ->
   exists w',
     _handle_additional_updates sql_text table dp pk_cols delta_col cols wc old_pk_version w
     = (Ok tt, w') /\
     trace w' = trace w
                ++ chunk_events (full_sql table pk_cols cols wc) (delta_load "delta_2") true
                     (documents sql_text (full_sql table pk_cols cols wc)
                        (_list_to_chunks jsd (Z.max 10 (7000 / char_size_pks pk_cols))))
                ++ [EvLocalWrite (select_star "delta_2") dp append]).
Proof.
  intros minimum upds_sql empty_delta_2 jsd.
  assert (Hempty : source_write_sql_to_delta (full_sql table pk_cols cols wc [])
                                             (delta_load "delta_2") overwrite w1
                   = (Ok tt, add_event empty_delta_2
                               (write_delta (delta_load "delta_2") overwrite [] w1))).
  { apply source_write_sql_to_delta_ok; [exact no_faults|].
    apply full_sql_empty_document. exact source_table. }
  rewrite (handle_additional_updates_reads sql_text table dp pk_cols cols delta_col wc
             old_pk_version w h_pk h_latest prior d1 no_faults lake_pk_ts lake_latest_pk
             prior_version view_delta_1).
  split; [|split].
  - intros Hn. rewrite Hn. cbn [Z.eqb]. eexists. split; [exact Hempty|].
    world_simpl. split; [reflexivity|].
    eexists. split; [apply lookup_insert_eq | apply latest_write_overwrite].
  - intros Hn Hmany.
    destruct (eval_source_update_sql (now w) (source_name w) (source_rows w) cols
                (Some (GT (_cast (column_name delta_col) (data_type delta_col) (Some "t")
                                 (data_type_map wc)) (Convert minimum))) table wc source_table)
      as [rows Hrows].
    fold upds_sql in Hrows.
    rewrite (proj2 (Z.eqb_neq n 0) Hn).
    replace ((1000 <? n) || no_complex_entries_load wc) with true
      by (symmetry; apply orb_true_iff; destruct Hmany as [H|H];
          [left; apply Z.ltb_lt; exact H | right; exact H]).
    unfold replay_timestamp_step, logger_warning, logger_info.
    rewrite (bind_ok _ _ _ _ _ Hempty).
    rewrite (bind_ok _ _ _ _ _ (logger_log_ok _ _ _)).
    set (wa := set_log _ _ _).
    assert (Hv : views wa !! "additional_updates" = Some additional_updates).
    { subst wa. unfold strange_update_views. world_simpl.
      rewrite lookup_insert_ne by discriminate.
      apply lookup_insert_eq. }
    rewrite (bind_ok _ _ _ _ _ (local_execute_sql_to_py_ok _ wa _ no_faults
                                  (eval_min _ _ _ _ _ _ Hv))).
    rewrite (bind_ok _ _ _ _ _ (first_row_ok _ _ _ _)).
    cbn [get_col]. rewrite (bool_decide_eq_true_2 ("min_ts" = "min_ts")) by reflexivity.
    fold minimum.
    rewrite (bind_ok _ _ _ _ _ (logger_log_ok _ _ _)).
    rewrite (bind_ok _ _ _ _ _ (logger_log_ok _ _ _)).
    set (wb := set_log _ _ (set_log _ _ wa)).
    destruct (load_updates_to_delta_ok dp upds_sql "delta_1" wc wb rows no_faults Hrows)
      as (w' & Hrun & Htrace & _).
    exists rows, w'. split; [exact Hrows|]. split; [exact Hrun|].
    rewrite Htrace. subst wb wa. unfold strange_update_views. world_simpl.
    rewrite <- app_assoc. reflexivity.
  - intros Hn Hle Hflag Hpk Hser.
    rewrite (proj2 (Z.eqb_neq n 0) Hn), Hflag.
    rewrite (proj2 (Z.ltb_ge 1000 n) Hle). cbn [orb].
    assert (Hjsd : jsd <> []).
    { subst jsd. intros Hnil. apply Hn. apply map_eq_nil in Hnil. rewrite Hnil. reflexivity. }
    destruct (chunked_openjson_run sql_text table dp pk_cols cols wc n jsd w1
                no_faults source_table Hpk Hjsd Hser) as (w' & Hrun & Htrace).
    exists w'. split; [exact Hrun|]. rewrite Htrace. reflexivity.
Qed.

End StrangeUpdateBranches.

Lemma strange_update_branch_selection_witness :
  faults (world_read pk_ts_changed) = [] /\
  (* no strange update: an empty delta_2 and nothing else *)
  (exists w',
     _handle_additional_updates example_sql_text (TSchemaName "dbo" "user2") delta_path
       [col_id] col_ts [col_id; col_name; col_ts] (example_config mode_auto) 0
       (world_read pk_ts_plain) = (Ok tt, w') /\
     length (trace w') = 1%nat) /\
  (* one strange update, no OPENJSON allowed: the load by timestamp again *)
  (exists w',
     _handle_additional_updates example_sql_text (TSchemaName "dbo" "user2") delta_path
       [col_id] col_ts [col_id; col_name; col_ts] example_config_simple_sql 0
       (world_read pk_ts_changed) = (Ok tt, w') /\
     length (trace w') = 3%nat) /\
  (* one strange update: its key goes to the source in one document *)
  (exists w',
     _handle_additional_updates example_sql_text (TSchemaName "dbo" "user2") delta_path
       [col_id] col_ts [col_id; col_name; col_ts] (example_config mode_auto) 0
       (world_read pk_ts_changed) = (Ok tt, w') /\
     trace w' = [EvSourceWrite (full_sql (TSchemaName "dbo" "user2") [col_id]
                                  [col_id; col_name; col_ts] (example_config mode_auto)
                                  [[("p0", VInt 5)]])
                               (delta_load "delta_2") overwrite;
                 EvLocalWrite (select_star "delta_2") delta_path append]).
Proof.
  split; [reflexivity|]. split; [|split].
  - destruct (strange_update_branch_selection example_sql_text (TSchemaName "dbo" "user2")
                delta_path [col_id] [col_id; col_name; col_ts] col_ts (example_config mode_auto)
                0 (world_read pk_ts_plain) [pk_ts_plain]
                [[pk_row 1 10; pk_row 2 11; pk_row 3 12]] [pk_row 1 10; pk_row 2 11; pk_row 3 12]
                [delta_row 2 "bb" 13 2000 false; delta_row 4 "d" 14 2000 false]
                eq_refl eq_refl eq_refl eq_refl eq_refl eq_refl) as [H0 _].
    destruct (H0 eq_refl) as (w' & Hrun & Htrace & _).
    exists w'. split; [exact Hrun|]. rewrite Htrace. reflexivity.
  - destruct (strange_update_branch_selection example_sql_text (TSchemaName "dbo" "user2")
                delta_path [col_id] [col_id; col_name; col_ts] col_ts example_config_simple_sql
                0 (world_read pk_ts_changed) [pk_ts_changed]
                [[pk_row 1 10; pk_row 2 11; pk_row 3 12]] [pk_row 1 10; pk_row 2 11; pk_row 3 12]
                [delta_row 2 "bb" 13 2000 false; delta_row 4 "d" 14 2000 false]
                eq_refl eq_refl eq_refl eq_refl eq_refl eq_refl) as [_ [Hmany _]].
    destruct (Hmany ltac:(discriminate) (or_intror eq_refl)) as (rows & w' & Hrows & Hrun & Htrace).
    exists w'. split; [exact Hrun|]. rewrite Htrace.
    vm_compute in Hrows. injection Hrows as <-. reflexivity.
  - destruct (strange_update_branch_selection example_sql_text (TSchemaName "dbo" "user2")
                delta_path [col_id] [col_id; col_name; col_ts] col_ts (example_config mode_auto)
                0 (world_read pk_ts_changed) [pk_ts_changed]
                [[pk_row 1 10; pk_row 2 11; pk_row 3 12]] [pk_row 1 10; pk_row 2 11; pk_row 3 12]
                [delta_row 2 "bb" 13 2000 false; delta_row 4 "d" 14 2000 false]
                eq_refl eq_refl eq_refl eq_refl eq_refl eq_refl) as [_ [_ Hchunk]].
    destruct (Hchunk ltac:(discriminate) ltac:(discriminate) eq_refl ltac:(discriminate) eq_refl)
      as (w' & Hrun & Htrace).
    exists w'. split; [exact Hrun|]. rewrite Htrace. reflexivity.
Defined.

(** C6 (as amended). In the chunking branch the batch size is
    [max(10, 7000 / per_tuple)] with [per_tuple] 15 for every integer-like
    key column and 45 for every other; a chunk whose statement is longer than
    7000 characters is sent as its two halves; of all the statements only the
    very first is in overwrite mode on [delta_2], every later one, the first
    half of a later split chunk too, is in append mode; afterwards [delta_2]
    is appended to [delta/]. *)
Theorem chunked_openjson_statements sql_text table dp pk_cols cols wc n jsd w :
  faults w = [] ->
  String.concat "." (table_parts table) = source_name w ->
  pk_cols <> [] ->
  jsd <> [] ->
  rows_serializable jsd = true ->
  let per_tuple := 15 * Z.of_nat (length (List.filter integer_like pk_cols))
                   + 45 * Z.of_nat (length (List.filter (fun p => negb (integer_like p)) pk_cols)) in
  let size := Z.max 10 (7000 / per_tuple) in
  let docs := documents sql_text (full_sql table pk_cols cols wc) (_list_to_chunks jsd size) in
  batch_size pk_cols w = (Ok size, w) /\
  exists w',
    chunked_openjson sql_text table dp pk_cols cols wc n jsd w = (Ok tt, w') /\
    trace w' = trace w
               ++ imap (fun i js => EvSourceWrite (full_sql table pk_cols cols wc js)
                                      (delta_load "delta_2")
                                      (match i with O => overwrite | S _ => append end)) docs
               ++ [EvLocalWrite (select_star "delta_2") dp append].
Proof.
  intros Hf Hname Hpk Hjsd Hser per_tuple size docs.
  assert (Hbs : forall w0, batch_size pk_cols w0 = (Ok size, w0)).
  { intros w0. rewrite (batch_size_ok pk_cols w0 Hpk). subst size per_tuple.
    rewrite char_size_pks_count. reflexivity. }
  split; [apply Hbs|].
  unfold chunked_openjson, logger_warning, logger_info.
  rewrite (bind_ok _ _ _ _ _ (Hbs w)).
  rewrite (bind_ok _ _ _ _ _ (logger_log_ok _ _ _)).
  rewrite (bind_ok _ _ _ _ _ (logger_log_ok _ _ _)).
  set (w1 := set_log _ _ (set_log _ _ w)).
  assert (Hconcat : List.concat (_list_to_chunks jsd size) = jsd)
    by apply list_to_chunks_from_concat.
  assert (Hchunks : forallb rows_serializable (_list_to_chunks jsd size) = true).
  { unfold rows_serializable. rewrite forallb_concat, Hconcat. exact Hser. }
  assert (Hne : _list_to_chunks jsd size <> []).
  { intros Hnil. rewrite Hnil in Hconcat. simpl in Hconcat. congruence. }
  destruct (write_chunks_ok sql_text table pk_cols cols wc (delta_load "delta_2")
              (_list_to_chunks jsd size) true w1 Hf Hname Hchunks)
    as (w2 & Hrun & Htrace & Hf2 & Hv2 & Hn2 & Hl2).
  rewrite (bind_ok _ _ _ _ _ Hrun).
  destruct (Hl2 (or_intror Hne)) as [h2 Hh2].
  rewrite (bind_ok _ _ _ _ _ (local_register_update_view_latest _ "delta_2" w2 h2 Hf2 Hh2)).
  eexists. split.
  { eapply local_execute_sql_to_delta_ok; [exact Hf2|].
    apply eval_select_star. apply lookup_insert_eq. }
  world_simpl. rewrite Htrace, chunk_events_first. subst w1. world_simpl.
  rewrite <- app_assoc. reflexivity.
Qed.

Lemma chunked_openjson_statements_witness :
  faults (world_read pk_ts_changed) = [] /\
  exists w',
    chunked_openjson example_sql_text (TSchemaName "dbo" "user2") delta_path [col_id]
      [col_id; col_name; col_ts] (example_config mode_auto) 8 (take 8 many_documents)
      (world_read pk_ts_changed) = (Ok tt, w') /\
    trace w' = [ EvSourceWrite (full_sql (TSchemaName "dbo" "user2") [col_id]
                                  [col_id; col_name; col_ts] (example_config mode_auto)
                                  (take 4 many_documents))
                               (delta_load "delta_2") overwrite;
                 EvSourceWrite (full_sql (TSchemaName "dbo" "user2") [col_id]
                                  [col_id; col_name; col_ts] (example_config mode_auto)
                                  (drop 4 (take 8 many_documents)))
                               (delta_load "delta_2") append;
                 EvLocalWrite (select_star "delta_2") delta_path append ].
Proof.
  split; [reflexivity|].
  destruct (chunked_openjson_statements example_sql_text (TSchemaName "dbo" "user2") delta_path
              [col_id] [col_id; col_name; col_ts] (example_config mode_auto) 8
              (take 8 many_documents) (world_read pk_ts_changed)
              eq_refl eq_refl ltac:(discriminate) ltac:(discriminate) eq_refl)
    as [_ (w' & Hrun & Htrace)].
  exists w'. split; [exact Hrun|]. rewrite Htrace. vm_compute. reflexivity.
Defined.

(** C6, as stated, fails: with 467 strange updates and batches of 466 keys
    the second chunk holds one key; its statement is longer than 7000
    characters, so it is sent as two halves, and both are in append mode:
    the first half of a split chunk is in overwrite mode only when the chunk
    is the first one. *)
Lemma later_split_chunk_appends :
  let full_sql := full_sql (TSchemaName "dbo" "user2") [col_id] [col_id; col_name; col_ts]
                           (example_config mode_auto) in
  let run := _handle_additional_updates wide_sql_text (TSchemaName "dbo" "user2") delta_path
               [col_id] col_ts [col_id; col_name; col_ts] (example_config mode_auto) 0
               world_many in
  _list_to_chunks many_documents 466 = [take 466 many_documents; drop 466 many_documents] /\
  oversized wide_sql_text full_sql (drop 466 many_documents) = true /\
  run.1 = Ok tt /\
  trace run.2
  = [ EvSourceWrite (full_sql (take 233 many_documents)) (delta_load "delta_2") overwrite;
      EvSourceWrite (full_sql (drop 233 (take 466 many_documents))) (delta_load "delta_2") append;
      EvSourceWrite (full_sql []) (delta_load "delta_2") append;
      EvSourceWrite (full_sql (drop 466 many_documents)) (delta_load "delta_2") append;
      EvLocalWrite (select_star "delta_2") delta_path append ].
Proof. vm_compute. repeat split; reflexivity. Qed.

Lemma eval_max now env name c (t : Table) :
  env !! name = Some t ->
  eval_query now env (Select [Alias (Max (Column c None)) "max_ts"] (from_ name) [] [])
  = Some [[("max_ts", sql_max (map (get_col c) t))]].
Proof.
  intros H. simpl. rewrite H. simpl. unfold where_keeps. simpl.
  rewrite filter_true, map_map. do 4 f_equal. f_equal.
  apply map_ext. intros r. unfold scope_all. simpl. rewrite app_nil_r. reflexivity.
Qed.

Lemma get_latest_delta_value_ok dp table delta_col wc w h :
  faults w = [] -> lake w !! dp = Some h ->
  _get_latest_delta_value dp table delta_col wc w
  = (Ok (sql_max (map (get_col (get_target_name wc delta_col)) (latest h))),
     set_views (insert (_temp_table table) (latest h)) w).
Proof.
  intros Hf Hl. unfold _get_latest_delta_value.
  rewrite (bind_ok _ _ _ _ _ (local_register_update_view_latest _ _ w h Hf Hl)).
  set (w1 := set_views _ w). rewrite cast_no_map.
  rewrite (bind_ok _ _ _ _ _ (local_execute_sql_to_py_ok _ w1 _ Hf
                                (eval_max _ _ _ _ _ (lookup_insert_eq _ _ _)))).
  rewrite first_row_ok. cbn [get_col].
  rewrite (bool_decide_eq_true_2 ("max_ts" = "max_ts")) by reflexivity. reflexivity.
Qed.

Lemma bind_returned (m : M unit) (k : M unit) w :
  bind (bind m (fun _ => ret true)) (fun returned : bool => if returned then ret tt else k) w
  = m w.
Proof. unfold bind, ret. destruct (m w) as [[[]|e] w']; reflexivity. Qed.

Lemma delta_version_ok path w h :
  lake w !! path = Some h -> delta_version path w = (Ok (length h - 1)%nat, w).
Proof. intros H. unfold delta_version. rewrite H. reflexivity. Qed.

Lemma local_delta_table_exists_eq path w :
  local_delta_table_exists path w = (Ok (bool_decide (is_Some (lake w !! path))), w).
Proof. reflexivity. Qed.

Lemma bind_ret_l {A B} (a : A) (k : A -> M B) w : bind (ret a) k w = k a w.
Proof. reflexivity. Qed.

Lemma bind_unit_ret (m : M unit) w : bind m (fun _ => ret tt) w = m w.
Proof. unfold bind, ret. destruct (m w) as [[[]|e] w']; reflexivity. Qed.

Lemma bind_returned_ret (m : M unit) (k : M unit) w :
  bind m (fun _ => bind (ret true) (fun returned : bool => if returned then ret tt else k)) w
  = m w.
Proof. unfold bind, ret. destruct (m w) as [[[]|e] w']; reflexivity. Qed.

Ltac msimpl :=
  unfold logger_info, logger_warning, logger_error;
  repeat first [ rewrite bind_bind
               | rewrite bind_ret_l
               | rewrite (bind_ok _ _ _ _ _ (logger_log_ok _ _ _)) ].

Lemma try_restore_last_pk restore_last_pk infos msg w :
  try_except (restore_last_pk_call restore_last_pk infos)
             (fun _ => bind (logger_log WARNING msg) (fun _ => ret false)) w
  = match restore_last_pk infos w with
    | Some (Some t) =>
        (Ok true, add_event (EvReconstruct (delta_load LATEST_PK_VERSION))
                    (write_delta (delta_load LATEST_PK_VERSION) overwrite t w))
    | Some None => (Ok false, w)
    | None => (Ok false, set_log (log_buffer w ++ [(WARNING, msg)]) (log_sink w) w)
    end.
Proof.
  unfold try_except, restore_last_pk_call.
  destruct (restore_last_pk infos w) as [[t|]|]; reflexivity.
Qed.

(** ** The lock and the choice of the load *)

Lemma dest_exists_eq path w : dest_exists path w = (Ok (path_exists path w), w).
Proof. reflexivity. Qed.

Lemma get_world_eq w : get_world w = (Ok w, w).
Proof. reflexivity. Qed.

Lemma dest_modified_time_ok path w f :
  files w !! path = Some f -> dest_modified_time path w = (Ok (f_mtime f), w).
Proof. intros H. unfold dest_modified_time. rewrite H. reflexivity. Qed.

Lemma dest_remove_ok path w :
  path_exists path w = true ->
  dest_remove path w
  = (Ok tt, add_event (EvRemove path) (set_lake (delete path) (set_files (delete path) w))).
Proof. intros H. unfold dest_remove. rewrite H. reflexivity. Qed.

Lemma dest_mkdir_eq path w : dest_mkdir path w = (Ok tt, add_event (EvMkdir path) w).
Proof. reflexivity. Qed.

Lemma dest_upload_str_eq path c w :
  dest_upload_str path c w
  = (Ok tt, add_event (EvUploadStr path)
              (set_files (insert path {| f_content := c; f_mtime := now w |}) w)).
Proof. reflexivity. Qed.

Lemma exec_lock_ok w :
  lake w !! lock_file_path = None ->
  exec_lock w
  = (Ok tt,
     add_event (EvUploadStr lock_file_path)
       (set_files (insert lock_file_path {| f_content := Text ""; f_mtime := now w |})
          (if lock_stale w
           then add_event (EvRemove lock_file_path)
                  (set_lake (delete lock_file_path) (set_files (delete lock_file_path) w))
           else w))).
Proof.
  intros Hlake. unfold exec_lock, lock_stale.
  assert (Hex : path_exists lock_file_path w
                = match files w !! lock_file_path with Some _ => true | None => false end).
  { unfold path_exists. rewrite Hlake.
    destruct (files w !! lock_file_path) as [f|].
    - rewrite (bool_decide_eq_true_2 (is_Some (Some f))) by eauto. reflexivity.
    - rewrite !bool_decide_eq_false_2 by (intros [x Hx]; discriminate). reflexivity. }
  rewrite (bind_ok _ _ _ _ _ (dest_exists_eq _ w)).
  destruct (files w !! lock_file_path) as [f|] eqn:Hf.
  - rewrite Hex. rewrite bind_bind.
    rewrite (bind_ok _ _ _ _ _ (dest_modified_time_ok _ w f Hf)).
    rewrite bind_bind. rewrite (bind_ok _ _ _ _ _ (get_world_eq w)). rewrite bind_ret_l.
    destruct (60 * 60 * 1000000 <? now w - f_mtime f).
    + rewrite (bind_ok _ _ _ _ _ (dest_remove_ok _ w Hex)). reflexivity.
    + rewrite bind_ret_l. reflexivity.
  - rewrite Hex. rewrite !bind_ret_l. reflexivity.
Qed.

(** C2 (as amended). No invocation is aborted by the lock: a lock file
    strictly older than one hour is removed before the new lock is created, a
    lock file that is not older than that is replaced in place, and in both
    cases the run goes on with the choice of the load. *)
Theorem lock_acquisition_never_aborts sql_text restore_last_pk infos w :
  lake w !! lock_file_path = None ->
  exists w' last_version_pk,
    exec_write_db_to_delta sql_text restore_last_pk infos w
    = try_finally
        (try_except_reraise
           (bind (exec_dispatch sql_text restore_last_pk infos) (fun _ => exec_cleanup))
           (exec_restore last_version_pk))
        exec_finally w' /\
    trace w' = trace w ++ [EvMkdir "meta"; EvUploadStr "meta/schema.json"]
               ++ (if lock_stale w then [EvRemove lock_file_path] else [])
               ++ [EvUploadStr lock_file_path] /\
    files w' !! lock_file_path = Some {| f_content := Text ""; f_mtime := now w |} /\
    lake w' = (if lock_stale w then delete lock_file_path (lake w) else lake w).
Proof.
  intros Hlake. unfold exec_write_db_to_delta.
  set (w0 := add_event (EvUploadStr "meta/schema.json")
               (set_files (insert "meta/schema.json"
                             {| f_content := SchemaJson (col_infos infos); f_mtime := now w |})
                          (add_event (EvMkdir "meta") w))).
  assert (Hlock0 : lake w0 !! lock_file_path = None) by exact Hlake.
  assert (Hstale : lock_stale w0 = lock_stale w).
  { unfold lock_stale. subst w0. world_simpl. unfold lock_file_path.
    rewrite lookup_insert_ne by discriminate. reflexivity. }
  pose proof (exec_lock_ok w0 Hlock0) as Hl. rewrite Hstale in Hl.
  assert (Hpre : forall (k : option nat -> M unit),
             exists last_version_pk,
               bind (dest_mkdir "meta")
                 (fun _ => bind (dest_upload_str "meta/schema.json" (SchemaJson (col_infos infos)))
                 (fun _ => bind (local_delta_table_exists (delta_load LATEST_PK_VERSION))
                 (fun has_pk =>
                    bind (if has_pk
                          then try_except
                                 (bind (delta_version (delta_load LATEST_PK_VERSION))
                                       (fun v => ret (Some v)))
                                 (fun _ => bind (logger_warning "Could not get last version")
                                                (fun _ => ret None))
                          else ret None) k))) w
               = k last_version_pk w0).
  { intros k.
    rewrite (bind_ok _ _ _ _ _ (dest_mkdir_eq _ w)).
    rewrite (bind_ok _ _ _ _ _ (dest_upload_str_eq _ _ _)). fold w0.
    rewrite (bind_ok _ _ _ _ _ (local_delta_table_exists_eq _ w0)).
    destruct (lake w0 !! delta_load LATEST_PK_VERSION) as [hl|] eqn:Hlatest.
    - rewrite bool_decide_eq_true_2 by eauto.
      exists (Some (length hl - 1)%nat). unfold bind, try_except, delta_version.
      rewrite Hlatest. reflexivity.
    - rewrite bool_decide_eq_false_2 by (intros [x Hx]; discriminate).
      exists None. reflexivity. }
  destruct (Hpre (fun last_version_pk =>
                    try_finally
                      (try_except_reraise (exec_try_body sql_text restore_last_pk infos)
                                          (exec_restore last_version_pk))
                      exec_finally)) as [last Hrun].
  eexists _, last. split.
  { rewrite Hrun. unfold try_finally, try_except_reraise, exec_try_body.
    rewrite (bind_ok _ _ _ _ _ Hl). reflexivity. }
  destruct (lock_stale w); subst w0; world_simpl;
    (split; [rewrite <- ?app_assoc; reflexivity|]);
    (split; [apply lookup_insert_eq | reflexivity]).
Qed.

Lemma lock_acquisition_never_aborts_witness :
  lake world_locked !! lock_file_path = None /\
  lock_stale world_locked = false /\
  exists w' last_version_pk,
    exec_write_db_to_delta example_sql_text example_restore_last_pk (example_infos mode_auto)
                           world_locked
    = try_finally
        (try_except_reraise
           (bind (exec_dispatch example_sql_text example_restore_last_pk (example_infos mode_auto))
                 (fun _ => exec_cleanup))
           (exec_restore last_version_pk))
        exec_finally w' /\
    trace w' = [EvMkdir "meta"; EvUploadStr "meta/schema.json"; EvUploadStr lock_file_path].
Proof.
  split; [reflexivity|]. split; [reflexivity|].
  destruct (lock_acquisition_never_aborts example_sql_text example_restore_last_pk
              (example_infos mode_auto) world_locked eq_refl)
    as (w' & last & Hrun & Htrace & _).
  exists w', last. split; [exact Hrun | exact Htrace].
Defined.

(** C2, as stated, fails: [world_locked] holds a lock that is ten seconds
    old, yet the run does not abort: it returns and has written the three
    rows of the source to [delta/] and the manifest to [latest_pk]; and in
    [world_locked_one_hour] the lock is exactly one hour old and is not
    removed before the new lock is written. *)
Lemma young_lock_does_not_abort :
  let run := exec_write_db_to_delta example_sql_text example_restore_last_pk
               (example_infos mode_auto) world_locked in
  let run_hour := exec_write_db_to_delta example_sql_text example_restore_last_pk
                    (example_infos mode_auto) world_locked_one_hour in
  files world_locked !! lock_file_path
  = Some {| f_content := Text ""; f_mtime := 1000 - 10 * 1000000 |} /\
  now world_locked - (1000 - 10 * 1000000) < 60 * 60 * 1000000 /\
  run.1 = Ok tt /\
  lake run.2 !! delta_path
  = Some [[delta_row 1 "a" 10 1000 true; delta_row 2 "b" 11 1000 true;
           delta_row 3 "c" 12 1000 true]] /\
  lake run.2 !! delta_load LATEST_PK_VERSION
  = Some [[pk_row 1 10; pk_row 2 11; pk_row 3 12]] /\
  files world_locked_one_hour !! lock_file_path
  = Some {| f_content := Text ""; f_mtime := 1000 - 60 * 60 * 1000000 |} /\
  now world_locked_one_hour - (1000 - 60 * 60 * 1000000) = 60 * 60 * 1000000 /\
  take 3 (trace run_hour.2)
  = [EvMkdir "meta"; EvUploadStr "meta/schema.json"; EvUploadStr lock_file_path].
Proof. vm_compute. repeat split; reflexivity. Qed.

(** The other branches of the dispatcher, as C1 states them: a full load in
    overwrite mode when [delta/] is missing or the mode is [overwrite]; else
    the append-inserts load when the mode is [append_inserts] and a delta
    column is configured; else a full load in append mode when there is no
    delta column, no key or the mode is [force_full]; else a delta load,
    simple exactly when the mode is [simple_delta]. *)
Lemma exec_dispatch_cases sql_text restore_last_pk infos w :
  let mode := load_mode (write_config infos) in
  (lake w !! delta_path = None \/ mode = mode_overwrite ->
   exec_dispatch sql_text restore_last_pk infos w
   = bind (dest_mkdir delta_path)
          (fun _ => bind (logger_info (table_str (table infos) +:+ ": Start Full Load"))
                         (fun _ => do_full_load infos overwrite)) w) /\
  (is_Some (lake w !! delta_path) -> mode = mode_append_inserts ->
   is_Some (delta_col infos) ->
   exec_dispatch sql_text restore_last_pk infos w = do_append_inserts_load infos w) /\
  (is_Some (lake w !! delta_path) -> mode <> mode_overwrite -> mode <> mode_append_inserts ->
   delta_col infos = None \/ pk_cols infos = [] \/ mode = mode_force_full ->
   exec_dispatch sql_text restore_last_pk infos w = do_full_load infos append w) /\
  (is_Some (lake w !! delta_path) -> mode <> mode_overwrite -> mode <> mode_append_inserts ->
   mode <> mode_force_full -> is_Some (delta_col infos) -> pk_cols infos <> [] ->
   exec_dispatch sql_text restore_last_pk infos w
   = do_delta_load sql_text restore_last_pk infos (bool_decide (mode = mode_simple_delta)) w).
Proof.
  intros mode. unfold exec_dispatch.
  rewrite (bind_ok _ _ _ _ _ (local_delta_table_exists_eq _ w)). fold mode.
  split; [|split; [|split]].
  - intros [Hnone|Hmode].
    + rewrite Hnone. rewrite bool_decide_eq_false_2 by (intros [x Hx]; discriminate).
      reflexivity.
    + rewrite Hmode. rewrite (bool_decide_eq_true_2 (mode_overwrite = mode_overwrite))
        by reflexivity.
      rewrite orb_true_r. reflexivity.
  - intros Hex Hmode [dc Hdc]. rewrite bool_decide_eq_true_2 by exact Hex.
    rewrite Hmode, Hdc.
    rewrite (bool_decide_eq_false_2 (mode_append_inserts = mode_overwrite)) by discriminate.
    rewrite (bool_decide_eq_true_2 (mode_append_inserts = mode_append_inserts)) by reflexivity.
    cbn [negb orb]. rewrite (bool_decide_eq_true_2 (is_Some (Some dc))) by eauto.
    reflexivity.
  - intros Hex Hover Happ Hfull. rewrite bool_decide_eq_true_2 by exact Hex.
    rewrite (bool_decide_eq_false_2 (mode = mode_overwrite)) by exact Hover.
    rewrite (bool_decide_eq_false_2 (mode = mode_append_inserts)) by exact Happ.
    cbn [negb orb].
    replace (bool_decide (delta_col infos = None) || bool_decide (length (pk_cols infos) = 0%nat)
             || bool_decide (mode = mode_force_full)) with true; [reflexivity|].
    symmetry. destruct Hfull as [H|[H|H]].
    + rewrite (bool_decide_eq_true_2 _ H). reflexivity.
    + rewrite H. rewrite (bool_decide_eq_true_2 (length [] = 0%nat)) by reflexivity.
      rewrite orb_true_r. reflexivity.
    + rewrite (bool_decide_eq_true_2 _ H). rewrite orb_true_r. reflexivity.
  - intros Hex Hover Happ Hforce [dc Hdc] Hpk. rewrite bool_decide_eq_true_2 by exact Hex.
    rewrite (bool_decide_eq_false_2 (mode = mode_overwrite)) by exact Hover.
    rewrite (bool_decide_eq_false_2 (mode = mode_append_inserts)) by exact Happ.
    rewrite (bool_decide_eq_false_2 (mode = mode_force_full)) by exact Hforce.
    rewrite (bool_decide_eq_false_2 (delta_col infos = None)) by (rewrite Hdc; discriminate).
    rewrite (bool_decide_eq_false_2 (length (pk_cols infos) = 0%nat))
      by (destruct (pk_cols infos); [congruence | discriminate]).
    reflexivity.
Qed.

(** C1 (the defect). When the load mode is [append_inserts], [delta/] is
    there, no delta column is configured and the only key column is an
    identity column, the dispatcher picks that column, but only into its own
    variable: [do_append_inserts_load] reads [infos.delta_col], which is
    still [None], and raises; no load is performed and nothing changes. *)
Theorem append_inserts_identity_pick_is_lost sql_text restore_last_pk infos w pk h :
  load_mode (write_config infos) = mode_append_inserts ->
  delta_col infos = None ->
  pk_cols infos = [pk] ->
  is_identity pk = true ->
  lake w !! delta_path = Some h ->
  exec_dispatch sql_text restore_last_pk infos w
  = (Raise (AssertionError "must have a delta col"), w).
Proof.
  intros Hmode Hdc Hpk Hid Hl. unfold exec_dispatch.
  rewrite (bind_ok _ _ _ _ _ (local_delta_table_exists_eq _ w)).
  rewrite Hl, Hmode, Hdc, Hpk, Hid.
  rewrite (bool_decide_eq_true_2 (is_Some (Some h))) by eauto.
  rewrite (bool_decide_eq_false_2 (mode_append_inserts = mode_overwrite)) by discriminate.
  rewrite (bool_decide_eq_true_2 (mode_append_inserts = mode_append_inserts)) by reflexivity.
  cbn [negb orb]. rewrite (bool_decide_eq_true_2 (is_Some (Some pk))) by eauto.
  unfold py_assert. rewrite bind_ret_l. unfold do_append_inserts_load. rewrite Hdc.
  reflexivity.
Qed.

Lemma append_inserts_identity_pick_is_lost_witness :
  load_mode (write_config infos_identity) = mode_append_inserts /\
  delta_col infos_identity = None /\
  pk_cols infos_identity = [col_id] /\
  is_identity col_id = true /\
  exec_dispatch example_sql_text example_restore_last_pk infos_identity world_identity
  = (Raise (AssertionError "must have a delta col"), world_identity) /\
  let run := exec_write_db_to_delta example_sql_text example_restore_last_pk infos_identity
               world_identity in
  run.1 = Raise (AssertionError "must have a delta col") /\
  lake run.2 = lake world_identity.
Proof.
  do 4 (split; [reflexivity|]). split.
  - apply (append_inserts_identity_pick_is_lost example_sql_text example_restore_last_pk
             infos_identity world_identity col_id
             [[ [("id", VInt 1); ("name", VStr "a"); ("__valid_from", VTime 1000);
                 ("__is_deleted", VInt 0); ("__is_full_load", VInt 1)] ]]);
      reflexivity.
  - vm_compute. split; reflexivity.
Defined.

(** ** The manifest and the lock over a run *)

Lemma stable_refl w : stable w w.
Proof. split; [|auto]. intros h H. exists []. rewrite app_nil_r. exact H. Qed.

Lemma stable_trans a b c : stable a b -> stable b c -> stable a c.
Proof.
  intros [Hab1 Hab2] [Hbc1 Hbc2]. split; [|auto].
  intros h H. destruct (Hab1 h H) as [h1 H1]. destruct (Hbc1 _ H1) as [h2 H2].
  exists (h1 ++ h2). rewrite app_assoc. exact H2.
Qed.

Lemma stable_same w w' :
  lake w' !! delta_load LATEST_PK_VERSION = lake w !! delta_load LATEST_PK_VERSION ->
  files w' !! lock_file_path = files w !! lock_file_path ->
  stable w w'.
Proof.
  intros Hl Hf. split.
  - intros h H. exists []. rewrite app_nil_r, Hl. exact H.
  - rewrite Hf. auto.
Qed.

Lemma stable_write_delta path mode rows w (f : World -> World) :
  (forall x, lake (f x) = lake x) -> (forall x, files (f x) = files x) ->
  stable w (f (write_delta path mode rows w)).
Proof.
  intros Hfl Hff. split.
  - intros h H. rewrite Hfl. unfold write_delta. world_simpl.
    destruct (decide (path = delta_load LATEST_PK_VERSION)) as [->|Hne].
    + rewrite lookup_insert_eq, H. simpl. eauto.
    + rewrite lookup_insert_ne by exact Hne. exists []. rewrite app_nil_r. exact H.
  - rewrite Hff. unfold write_delta. world_simpl. auto.
Qed.

Lemma keeps_ret {A} (a : A) : keeps (ret a).
Proof. intros w. apply stable_refl. Qed.

Lemma keeps_raise {A} (e : exn) : keeps (@raise A e).
Proof. intros w. apply stable_refl. Qed.

Lemma keeps_bind {A B} (m : M A) (k : A -> M B) :
  keeps m -> (forall a, keeps (k a)) -> keeps (bind m k).
Proof.
  intros Hm Hk w. unfold bind. specialize (Hm w). cbv beta in Hm.
  destruct (m w) as [[a|e] w1]; simpl in *.
  - eapply stable_trans; [exact Hm | apply Hk].
  - exact Hm.
Qed.

Lemma keeps_try_except {A} (m : M A) (handler : exn -> M A) :
  keeps m -> (forall e, keeps (handler e)) -> keeps (try_except m handler).
Proof.
  intros Hm Hh w. unfold try_except. specialize (Hm w). cbv beta in Hm.
  destruct (m w) as [[a|e] w1]; simpl in *.
  - exact Hm.
  - eapply stable_trans; [exact Hm | apply Hh].
Qed.

Lemma keeps_state_unchanged {A} (m : M A) :
  (forall w, (m w).2 = w) -> keeps m.
Proof. intros H w. cbv beta. rewrite H. apply stable_refl. Qed.

Lemma keeps_logger_log level msg : keeps (logger_log level msg).
Proof. intros w. apply stable_same; reflexivity. Qed.

Lemma keeps_dest_mkdir path : keeps (dest_mkdir path).
Proof. intros w. apply stable_same; reflexivity. Qed.

Lemma keeps_fault_point what : keeps (fault_point what).
Proof.
  intros w. unfold fault_point. destruct (faults w) as [|[] fs];
    apply stable_same; reflexivity.
Qed.

Lemma keeps_local_delta_table_exists path : keeps (local_delta_table_exists path).
Proof. apply keeps_state_unchanged. reflexivity. Qed.

Lemma keeps_dest_exists path : keeps (dest_exists path).
Proof. apply keeps_state_unchanged. reflexivity. Qed.

Lemma keeps_local_register_update_view path name version :
  keeps (local_register_update_view path name version).
Proof.
  apply keeps_bind; [apply keeps_fault_point|]. intros _ w.
  destruct (lake w !! path) as [h|]; [|apply stable_refl].
  destruct version as [v|]; [destruct (h !! v)|]; first [apply stable_refl | apply stable_same; reflexivity].
Qed.

Lemma keeps_local_execute_sql_to_py q : keeps (local_execute_sql_to_py q).
Proof.
  apply keeps_bind; [apply keeps_fault_point|]. intros _ w.
  destruct (eval_query (now w) (views w) q); apply stable_refl.
Qed.

Lemma keeps_local_register_view q name : keeps (local_register_view q name).
Proof.
  apply keeps_bind; [apply keeps_local_execute_sql_to_py|]. intros t w.
  apply stable_same; reflexivity.
Qed.

Lemma keeps_local_execute_sql_to_delta q path mode :
  keeps (local_execute_sql_to_delta q path mode).
Proof.
  apply keeps_bind; [apply keeps_local_execute_sql_to_py|]. intros t w.
  apply (stable_write_delta path mode t w (add_event _)); reflexivity.
Qed.

Lemma keeps_source_write_sql_to_delta sql path mode :
  keeps (source_write_sql_to_delta sql path mode).
Proof.
  apply keeps_bind; [apply keeps_fault_point|]. intros _ w.
  destruct (eval_source (now w) (source_name w) (source_rows w) sql) as [t|];
    [|apply stable_refl].
  apply (stable_write_delta path mode t w (add_event _)); reflexivity.
Qed.

Lemma keeps_delta_version path : keeps (delta_version path).
Proof. intros w. unfold delta_version. destruct (lake w !! path); apply stable_refl. Qed.

Lemma keeps_delta_vacuum path : keeps (delta_vacuum path).
Proof.
  intros w. unfold delta_vacuum. destruct (lake w !! path);
    [apply stable_same; reflexivity | apply stable_refl].
Qed.

Lemma keeps_delta_restore path version : keeps (delta_restore path version).
Proof.
  intros w. unfold delta_restore. destruct (lake w !! path) as [h|] eqn:Hh; [|apply stable_refl].
  destruct (h !! version) as [t|]; [|apply stable_refl]. split.
  - intros h0 H0. simpl.
    destruct (decide (path = delta_load LATEST_PK_VERSION)) as [->|Hne].
    + rewrite lookup_insert_eq. rewrite Hh in H0. injection H0 as ->. eauto.
    + rewrite lookup_insert_ne by exact Hne. exists []. rewrite app_nil_r. exact H0.
  - simpl. auto.
Qed.

Lemma keeps_first_row name rows : keeps (first_row name rows).
Proof. destruct rows; [apply keeps_raise | apply keeps_ret]. Qed.

Lemma keeps_as_int v : keeps (as_int v).
Proof. destruct v; first [apply keeps_raise | apply keeps_ret]. Qed.

Lemma keeps_json_dumps rows : keeps (json_dumps rows).
Proof. unfold json_dumps. destruct (forallb _ rows); [apply keeps_ret | apply keeps_raise]. Qed.

Lemma keeps_batch_size pk_cols : keeps (batch_size pk_cols).
Proof. unfold batch_size. destruct (_ =? 0); [apply keeps_raise | apply keeps_ret]. Qed.

Lemma keeps_py_assert b msg : keeps (py_assert b msg).
Proof. destruct b; [apply keeps_ret | apply keeps_raise]. Qed.

Lemma keeps_restore_last_pk_call restore_last_pk infos :
  keeps (restore_last_pk_call restore_last_pk infos).
Proof.
  intros w. unfold restore_last_pk_call.
  destruct (restore_last_pk infos w) as [[t|]|]; try apply stable_refl.
  apply (stable_write_delta _ overwrite t w (add_event _)); reflexivity.
Qed.

Create HintDb keeps discriminated.
#[local] Hint Resolve keeps_ret keeps_raise keeps_logger_log keeps_dest_mkdir keeps_fault_point
  keeps_local_delta_table_exists keeps_dest_exists keeps_local_register_update_view
  keeps_local_execute_sql_to_py keeps_local_register_view keeps_local_execute_sql_to_delta
  keeps_source_write_sql_to_delta keeps_delta_version keeps_delta_vacuum keeps_delta_restore
  keeps_first_row keeps_as_int keeps_json_dumps keeps_batch_size keeps_py_assert
  keeps_restore_last_pk_call : keeps.

Ltac keeps_tac :=
  unfold logger_info, logger_warning, logger_error;
  repeat first
    [ solve [auto 1 with keeps nocore]
    | match goal with
      | |- keeps (bind _ _) => apply keeps_bind; [|intros ?]
      | |- keeps (try_except _ _) => apply keeps_try_except; [|intros ?]
      | |- keeps (if ?b then _ else _) => destruct b
      | |- keeps (match ?x with _ => _ end) => destruct x
      end ].

Lemma keeps__vacuum dest : keeps (_vacuum dest).
Proof. unfold _vacuum. keeps_tac. Qed.

Lemma keeps__get_latest_delta_value dp table delta_col wc :
  keeps (_get_latest_delta_value dp table delta_col wc).
Proof. unfold _get_latest_delta_value. keeps_tac. Qed.

Lemma keeps_write_latest_pk pks delta_col wc : keeps (write_latest_pk pks delta_col wc).
Proof. unfold write_latest_pk. keeps_tac. Qed.

Lemma keeps_do_deletes cols pk_cols old_pk_version wc :
  keeps (do_deletes cols pk_cols old_pk_version wc).
Proof. unfold do_deletes. keeps_tac. Qed.

Lemma keeps__retrieve_primary_key_data table delta_col pk_cols wc :
  keeps (_retrieve_primary_key_data table delta_col pk_cols wc).
Proof. unfold _retrieve_primary_key_data. keeps_tac. Qed.

Lemma keeps__load_updates_to_delta dp sql name wc :
  keeps (_load_updates_to_delta dp sql name wc).
Proof. unfold _load_updates_to_delta. keeps_tac. Qed.

Lemma keeps_do_full_load infos mode : keeps (do_full_load infos mode).
Proof. unfold do_full_load. keeps_tac. Qed.

#[local] Hint Resolve keeps__vacuum keeps__get_latest_delta_value keeps_write_latest_pk
  keeps_do_deletes keeps__retrieve_primary_key_data keeps__load_updates_to_delta
  keeps_do_full_load : keeps.

Lemma keeps_write_chunks sql_text full_sql path chunks first :
  keeps (write_chunks sql_text full_sql path chunks first).
Proof.
  revert first. induction chunks as [|chunk chunks IH]; intros first; cbn [write_chunks].
  - apply keeps_ret.
  - keeps_tac; apply IH.
Qed.

#[local] Hint Resolve keeps_write_chunks : keeps.

Lemma keeps_replay_timestamp_step table dp pk_cols delta_col cols wc n :
  keeps (replay_timestamp_step table dp pk_cols delta_col cols wc n).
Proof. unfold replay_timestamp_step. keeps_tac. Qed.

Lemma keeps_chunked_openjson sql_text table dp pk_cols cols wc n jsd :
  keeps (chunked_openjson sql_text table dp pk_cols cols wc n jsd).
Proof. unfold chunked_openjson. keeps_tac. Qed.

#[local] Hint Resolve keeps_replay_timestamp_step keeps_chunked_openjson : keeps.

Lemma keeps__handle_additional_updates sql_text table dp pk_cols delta_col cols wc old :
  keeps (_handle_additional_updates sql_text table dp pk_cols delta_col cols wc old).
Proof. unfold _handle_additional_updates. keeps_tac. Qed.

Lemma keeps_do_append_inserts_load infos : keeps (do_append_inserts_load infos).
Proof. unfold do_append_inserts_load. keeps_tac. Qed.

#[local] Hint Resolve keeps__handle_additional_updates keeps_do_append_inserts_load : keeps.

(** A delta load that is not a simple one never removes the manifest. *)
Lemma keeps_do_delta_load sql_text restore_last_pk infos :
  keeps (do_delta_load sql_text restore_last_pk infos false).
Proof. unfold do_delta_load. cbv [negb]. cbv iota. keeps_tac. Qed.






(** No load mode but [simple_delta] removes the manifest. *)
Lemma keeps_exec_dispatch sql_text restore_last_pk infos :
  load_mode (write_config infos) <> mode_simple_delta ->
  keeps (exec_dispatch sql_text restore_last_pk infos).
Proof.
  intros Hmode. unfold exec_dispatch.
  rewrite (bool_decide_eq_false_2 (load_mode (write_config infos) = mode_simple_delta))
    by exact Hmode.
  apply keeps_bind; [keeps_tac|]. intros ex.
  destruct (negb ex || _); [keeps_tac|].
  destruct (bool_decide (_ = mode_append_inserts)); [keeps_tac|].
  destruct (_ || _); [keeps_tac|].
  apply keeps_do_delta_load.
Qed.

Lemma vacuum_ok dest w :
  exists w', _vacuum dest w = (Ok tt, w') /\ lake w' = lake w /\ files w' = files w /\
             log_buffer w' = log_buffer w.
Proof.
  unfold _vacuum. rewrite (bind_ok _ _ _ _ _ (local_delta_table_exists_eq _ w)).
  destruct (lake w !! dest) as [h|] eqn:Hd.
  - rewrite bool_decide_eq_true_2 by eauto. unfold delta_vacuum. rewrite Hd.
    eexists. split; [reflexivity|]. auto.
  - rewrite bool_decide_eq_false_2 by (intros [x Hx]; discriminate).
    eexists. split; [reflexivity|]. auto.
Qed.



(** Taking the lock keeps the manifest; when it returns, the lock file is there. *)
Lemma exec_lock_spec w :
  stable w (exec_lock w).2 /\
  ((exec_lock w).1 = Ok tt -> is_Some (files (exec_lock w).2 !! lock_file_path)).
Proof.
  assert (Hcase : exists r w', exec_lock w = (r, w') /\ stable w w' /\
                               (r = Ok tt -> is_Some (files w' !! lock_file_path))).
  { assert (Hup : forall w0,
              (forall h, lake w !! delta_load LATEST_PK_VERSION = Some h ->
                         exists h', lake w0 !! delta_load LATEST_PK_VERSION = Some (h ++ h')) ->
              exists r w', dest_upload_str lock_file_path (Text "") w0 = (r, w') /\
                           stable w w' /\ (r = Ok tt -> is_Some (files w' !! lock_file_path))).
    { intros w0 Hs. eexists _, _. split; [apply dest_upload_str_eq|]. split.
      - split; world_simpl.
        + apply Hs.
        + intros _. rewrite lookup_insert_eq. eauto.
      - intros _. world_simpl. rewrite lookup_insert_eq. eauto. }
    assert (Hsame : forall h, lake w !! delta_load LATEST_PK_VERSION = Some h ->
                      exists h', lake w !! delta_load LATEST_PK_VERSION = Some (h ++ h')).
    { intros h H. exists []. rewrite app_nil_r. exact H. }
    unfold exec_lock. rewrite (bind_ok _ _ _ _ _ (dest_exists_eq _ w)).
    destruct (path_exists lock_file_path w) eqn:Hex.
    - rewrite bind_bind. unfold dest_modified_time at 1.
      destruct (files w !! lock_file_path) as [f|] eqn:Hf.
      + rewrite (bind_ok _ _ w (f_mtime f) w) by (rewrite Hf; reflexivity).
        rewrite bind_bind. rewrite (bind_ok _ _ _ _ _ (get_world_eq w)). rewrite bind_ret_l.
        destruct (60 * 60 * 1000000 <? now w - f_mtime f).
        * rewrite (bind_ok _ _ _ _ _ (dest_remove_ok _ w Hex)). apply Hup.
          intros h H. exists []. rewrite app_nil_r. world_simpl. unfold lock_file_path.
          rewrite lookup_delete_ne by discriminate. exact H.
        * rewrite bind_ret_l. apply Hup, Hsame.
      + rewrite (bind_raise _ _ w (FileNotFoundError lock_file_path) w)
          by (rewrite Hf; reflexivity).
        eexists _, _. split; [reflexivity|]. split; [apply stable_refl | discriminate].
    - rewrite !bind_ret_l. apply Hup, Hsame. }
  destruct Hcase as (r & w' & Hrun & Hs & Hl). rewrite Hrun. split; assumption.
Qed.

Lemma exec_preamble sql_text restore_last_pk infos w :
  exists w0 last_version_pk,
    exec_write_db_to_delta sql_text restore_last_pk infos w
    = try_finally
        (try_except_reraise (exec_try_body sql_text restore_last_pk infos)
                            (exec_restore last_version_pk))
        exec_finally w0 /\
    lake w0 = lake w /\
    (forall h, lake w !! delta_load LATEST_PK_VERSION = Some h ->
               last_version_pk = Some (length h - 1)%nat).
Proof.
  unfold exec_write_db_to_delta.
  rewrite (bind_ok _ _ _ _ _ (dest_mkdir_eq _ w)).
  rewrite (bind_ok _ _ _ _ _ (dest_upload_str_eq _ _ _)).
  set (w0 := add_event _ _).
  rewrite (bind_ok _ _ _ _ _ (local_delta_table_exists_eq _ w0)).
  destruct (lake w0 !! delta_load LATEST_PK_VERSION) as [hl|] eqn:Hlatest.
  - rewrite bool_decide_eq_true_2 by eauto.
    assert (Hv : try_except (bind (delta_version (delta_load LATEST_PK_VERSION))
                                  (fun v => ret (Some v)))
                            (fun _ => bind (logger_warning "Could not get last version")
                                           (fun _ => ret None)) w0
                 = (Ok (Some (length hl - 1)%nat), w0)).
    { unfold try_except, bind, delta_version. rewrite Hlatest. reflexivity. }
    rewrite (bind_ok _ _ _ _ _ Hv).
    exists w0, (Some (length hl - 1)%nat). split; [reflexivity|]. split; [reflexivity|].
    intros h Hh. change (lake w0) with (lake w) in Hlatest. congruence.
  - rewrite bool_decide_eq_false_2 by (intros [x Hx]; discriminate). rewrite bind_ret_l.
    exists w0, None. split; [reflexivity|]. split; [reflexivity|].
    intros h Hh. change (lake w0) with (lake w) in Hlatest. congruence.
Qed.


Lemma latest_lookup (h h' : list Table) :
  h <> [] -> (h ++ h') !! (length h - 1)%nat = Some (latest h).
Proof.
  intros Hne. unfold latest. induction h as [|t h IH]; [congruence|].
  destruct h as [|t' h]; [reflexivity|].
  specialize (IH ltac:(discriminate)). cbn [length] in *.
  replace (S (S (length h)) - 1)%nat with (S (S (length h) - 1)) by lia.
  exact IH.
Qed.




(** C9, as stated, fails: a run in [simple_delta] mode returns and has
    removed [latest_pk], which was there at entry; and a run in [auto] mode
    vacuums [latest_pk], not only the transient tables. *)
Lemma simple_delta_removes_latest_pk :
  let simple := exec_write_db_to_delta example_sql_text example_restore_last_pk
                  (example_infos mode_simple_delta) (world_changed []) in
  let full := exec_write_db_to_delta example_sql_text example_restore_last_pk
                (example_infos mode_auto) world_fresh in
  lake (world_changed []) !! delta_load LATEST_PK_VERSION
  = Some [[pk_row 1 10; pk_row 2 11; pk_row 3 12]] /\
  simple.1 = Ok tt /\
  lake simple.2 !! delta_load LATEST_PK_VERSION = None /\
  In (EvRemove (delta_load LATEST_PK_VERSION)) (trace simple.2) /\
  full.1 = Ok tt /\
  In (EvVacuum (delta_load LATEST_PK_VERSION)) (trace full.2).
Proof.
  vm_compute. repeat split; try reflexivity;
    repeat (first [left; reflexivity | right]).
Qed.

(** ** More on [_list_to_chunks] *)

(** X1. With a [chunk_size] of 1, 0 or a negative number every item is a
    chunk of its own. *)
Theorem list_to_chunks_singletons {T} (input : list T) (chunk_size : Z) :
  chunk_size <= 1 ->
  _list_to_chunks input chunk_size = map (fun item => [item]) input.
Proof.
  intros Hcs. unfold _list_to_chunks.
  induction input as [|item input IH]; [reflexivity|].
  cbn [list_to_chunks_from app length map].
  destruct (Z.geb_spec (Z.of_nat 1) chunk_size) as [_|Hlt]; [|simpl in Hlt; lia].
  rewrite IH. reflexivity.
Qed.

Lemma list_to_chunks_singletons_witness :
  0 <= 1 /\ _list_to_chunks ["a"; "b"; "c"] 0 = [["a"]; ["b"]; ["c"]].
Proof.
  split; [lia|]. apply (list_to_chunks_singletons ["a"; "b"; "c"] 0). lia.
Defined.

Lemma list_to_chunks_from_count {T} (input chunk : list T) (chunk_size : Z) :
  Z.of_nat (length chunk) < chunk_size ->
  Z.of_nat (length (list_to_chunks_from input chunk chunk_size))
  = (Z.of_nat (length chunk) + Z.of_nat (length input) + chunk_size - 1) / chunk_size.
Proof.
  revert chunk. induction input as [|item input IH]; intros chunk Hlen.
  - cbn [list_to_chunks_from length]. rewrite Z.add_0_r.
    destruct (Z.ltb_spec 0 (Z.of_nat (length chunk))) as [Hpos|Hz].
    + cbn [length]. apply Z.div_unique with (r := Z.of_nat (length chunk) - 1); lia.
    + cbn [length]. symmetry. apply Z.div_small. lia.
  - cbn [list_to_chunks_from]. rewrite length_app. cbn [length].
    destruct (Z.geb_spec (Z.of_nat (length chunk + 1)) chunk_size) as [Hge|Hlt].
    + cbn [length]. rewrite Nat2Z.inj_succ, IH by (simpl; lia). cbn [length].
      replace (Z.of_nat (length chunk) + Z.of_nat (S (length input)) + chunk_size - 1)
        with (Z.of_nat 0 + Z.of_nat (length input) + chunk_size - 1 + 1 * chunk_size) by lia.
      rewrite Z.div_add by lia. lia.
    + rewrite IH by (rewrite length_app; simpl; lia).
      rewrite length_app. cbn [length]. f_equal. lia.
Qed.

(** X2. For every [chunk_size >= 1] the number of chunks is the length of
    the input divided by [chunk_size], rounded up; no chunk comes out of an
    empty input. *)
Theorem list_to_chunks_count {T} (input : list T) (chunk_size : Z) :
  1 <= chunk_size ->
  Z.of_nat (length (_list_to_chunks input chunk_size))
  = (Z.of_nat (length input) + chunk_size - 1) / chunk_size.
Proof.
  intros Hcs. unfold _list_to_chunks.
  rewrite list_to_chunks_from_count by (simpl; lia). reflexivity.
Qed.

Lemma list_to_chunks_count_witness :
  1 <= 2 /\ Z.of_nat (length (_list_to_chunks ["a"; "b"; "c"; "d"; "e"] 2)) = (5 + 2 - 1) / 2.
Proof.
  split; [lia|]. apply (list_to_chunks_count ["a"; "b"; "c"; "d"; "e"] 2). lia.
Defined.

(** ** More on the batch size *)

Lemma char_size_pks_cons p pk_cols :
  15 <= char_size_pks (p :: pk_cols) /\ 0 <= char_size_pks pk_cols.
Proof.
  assert (H0 : forall l, 0 <= char_size_pks l).
  { induction l as [|q l IH]; [unfold char_size_pks; simpl; lia|].
    unfold char_size_pks in *. cbn [map foldr]. destruct (bool_decide _); lia. }
  split; [|apply H0]. specialize (H0 pk_cols).
  unfold char_size_pks in *. cbn [map foldr]. destruct (bool_decide _); lia.
Qed.

(** X3. Without a key column the batch size cannot be computed: the division
    by the estimated size raises [ZeroDivisionError].  With at least one key
    column it is a number from 10 to 466. *)
Theorem batch_size_bounds pk_cols w :
  match pk_cols with
  | [] => batch_size pk_cols w = (Raise ZeroDivisionError, w)
  | _ :: _ => exists b, batch_size pk_cols w = (Ok b, w) /\ 10 <= b <= 466
  end.
Proof.
  destruct pk_cols as [|p pk_cols]; [reflexivity|].
  destruct (char_size_pks_cons p pk_cols) as [H15 _].
  unfold batch_size. destruct (Z.eqb_spec (char_size_pks (p :: pk_cols)) 0) as [H0|_]; [lia|].
  eexists. split; [reflexivity|]. split; [lia|].
  apply Z.max_lub; [lia|].
  assert (7000 / char_size_pks (p :: pk_cols) <= 7000 / 15)
    by (apply Z.div_le_compat_l; lia).
  change (7000 / 15) with 466 in H. lia.
Qed.

(** ** The rows of a load *)

Lemma eval_cast now sc name data_type alias type_map :
  eval_expr now sc (_cast name data_type alias type_map) = eval_expr now sc (Column name alias).
Proof.
  unfold _cast. destruct type_map as [m|]; [|reflexivity].
  destruct (m !! data_type) as [ty|]; [|reflexivity].
  destruct (bool_decide (ty = "")); reflexivity.
Qed.

Lemma is_aggregate_cast name data_type alias type_map :
  is_aggregate (_cast name data_type alias type_map) = false.
Proof.
  unfold _cast. destruct type_map as [m|]; [|reflexivity].
  destruct (m !! data_type) as [ty|]; [|reflexivity].
  destruct (bool_decide (ty = "")); reflexivity.
Qed.

Lemma existsb_app_false {A} (f : A -> bool) (a b : list A) :
  existsb f a = false -> existsb f b = false -> existsb f (a ++ b) = false.
Proof. intros Ha Hb. rewrite existsb_app, Ha, Hb. reflexivity. Qed.

Lemma get_cols_select_no_aggregate cols is_deleted is_full with_valid_from alias compat
    type_map target :
  existsb is_aggregate
    (_get_cols_select cols is_deleted is_full with_valid_from alias compat type_map target)
  = false.
Proof.
  unfold _get_cols_select. repeat apply existsb_app_false.
  - induction cols as [|c cols IH]; [reflexivity|].
    cbn [map existsb is_aggregate]. rewrite is_aggregate_cast. exact IH.
  - destruct with_valid_from; reflexivity.
  - destruct is_deleted; reflexivity.
  - destruct is_full; reflexivity.
Qed.

Lemma select_row_app now a b sc :
  select_row now (a ++ b) sc = select_row now a sc ++ select_row now b sc.
Proof. unfold select_row. rewrite map_app, concat_app. reflexivity. Qed.

(** The cells of the select list of a load, read from the row [r] that is in
    scope under the name [a]. *)
Lemma select_row_get_cols_select now cols (is_deleted is_full : bool) alias a r type_map wc :
  (forall n, eval_expr now [(a, r)] (Column n alias) = get_col n r) ->
  select_row now
    (_get_cols_select cols (Some is_deleted) (Some is_full) true alias false type_map
                      (Some (get_target_name wc))) [(a, r)]
  = renamed_row wc cols r
    ++ [(VALID_FROM_COL_NAME, VTime now); (IS_DELETED_COL_NAME, VInt (Z.b2z is_deleted));
        (IS_FULL_LOAD_COL_NAME, VInt (Z.b2z is_full))].
Proof.
  intros Hcol. unfold _get_cols_select. rewrite select_row_app. f_equal.
  unfold select_row, renamed_row. induction cols as [|c cols IH]; [reflexivity|].
  cbn [map concat select_item expr_name eval_expr]. rewrite eval_cast, Hcol.
  cbn [app]. f_equal. exact IH.
Qed.

Lemma select_row_keys now cols alias a r type_map wc :
  (forall n, eval_expr now [(a, r)] (Column n alias) = get_col n r) ->
  select_row now
    (_get_cols_select cols None None false alias false type_map (Some (get_target_name wc)))
    [(a, r)]
  = renamed_row wc cols r.
Proof.
  intros Hcol. unfold _get_cols_select. rewrite !app_nil_r.
  unfold select_row, renamed_row. induction cols as [|c cols IH]; [reflexivity|].
  cbn [map concat select_item expr_name eval_expr]. rewrite eval_cast, Hcol.
  cbn [app]. f_equal. exact IH.
Qed.

Lemma eval_column_alias now a r n : eval_expr now [(a, r)] (Column n (Some a)) = get_col n r.
Proof. cbn [eval_expr scope_row]. rewrite bool_decide_eq_true_2 by reflexivity. reflexivity. Qed.

Lemma eval_column_bare now a r n : eval_expr now [(a, r)] (Column n None) = get_col n r.
Proof. cbn [eval_expr]. unfold scope_all. cbn [map concat snd]. rewrite app_nil_r. reflexivity. Qed.

Lemma filter_map_scope {A B} (f : B -> bool) (g : A -> B) (l : list A) :
  List.filter f (map g l) = map g (List.filter (fun x => f (g x)) l).
Proof.
  induction l as [|x l IH]; [reflexivity|]. cbn [map List.filter].
  destruct (f (g x)); cbn [map]; rewrite IH; reflexivity.
Qed.

(** A select without join and without aggregate over the table of the source. *)
Lemma eval_source_select now name rows es from conds :
  tr_name from = name ->
  existsb is_aggregate es = false ->
  eval_source now name rows (Sql (Select es from [] conds))
  = Some (map (fun r => select_row now es [(ref_alias from, r)])
              (List.filter (fun r => where_keeps now conds [(ref_alias from, r)]) rows)).
Proof.
  intros Hname Hagg. cbn [eval_source eval_query]. rewrite Hname, lookup_singleton_eq.
  cbn [apply_anti_joins]. rewrite Hagg. f_equal.
  rewrite (filter_map_scope (where_keeps now conds)). rewrite map_map. reflexivity.
Qed.

Lemma eval_update_sql now name rows cols criterion table wc :
  String.concat "." (table_parts table) = name ->
  eval_source now name rows (_get_update_sql cols criterion table wc)
  = Some (map (loaded_row wc cols now false)
              (List.filter (fun r => match criterion with
                                     | Some c => is_true (eval_expr now [("t", r)] c)
                                     | None => true
                                     end) rows)).
Proof.
  intros Hname. unfold _get_update_sql.
  rewrite eval_source_select; [|exact Hname|apply get_cols_select_no_aggregate].
  unfold ref_alias, table_from_tuple. cbn [tr_alias]. f_equal.
  rewrite (filter_ext_eq
             (fun r => where_keeps now match criterion with Some c => [c] | None => [] end
                                   [("t", r)])
             (fun r => match criterion with
                       | Some c => is_true (eval_expr now [("t", r)] c)
                       | None => true
                       end)).
  2:{ intros r. unfold where_keeps. destruct criterion; cbn [forallb]; [|reflexivity].
      apply andb_true_r. }
  apply map_ext. intros r.
  rewrite (select_row_get_cols_select now cols false false (Some "t") "t" r)
    by (intros n; apply eval_column_alias).
  reflexivity.
Qed.

Lemma eval_update_sql_newer now name rows cols (dc : InformationSchemaColInfo) v table wc :
  String.concat "." (table_parts table) = name ->
  eval_source now name rows
    (_get_update_sql cols
       (Some (GT (_cast (column_name dc) (data_type dc) (Some "t") (data_type_map wc))
                 (Convert v))) table wc)
  = Some (map (loaded_row wc cols now false) (List.filter (newer_than dc v) rows)).
Proof.
  intros Hname. rewrite (eval_update_sql now name) by exact Hname. do 2 f_equal.
  apply filter_ext_eq. intros r. unfold newer_than. cbn [eval_expr].
  rewrite eval_cast, eval_column_alias. reflexivity.
Qed.

(** X4. The statement of the load by timestamp answers the source rows whose
    delta cell compares greater than the watermark, each with its cells under
    the names of the destination, the time of the source, not deleted and
    not from a full load; without a criterion it answers every source row.
    A row whose delta cell is NULL is never among them. *)
Theorem update_sql_reads_newer_rows now rows cols (dc : InformationSchemaColInfo) v table wc :
  eval_source now (String.concat "." (table_parts table)) rows
    (_get_update_sql cols
       (Some (GT (_cast (column_name dc) (data_type dc) (Some "t") (data_type_map wc))
                 (Convert v))) table wc)
  = Some (map (loaded_row wc cols now false) (List.filter (newer_than dc v) rows)) /\
  eval_source now (String.concat "." (table_parts table)) rows
    (_get_update_sql cols None table wc)
  = Some (map (loaded_row wc cols now false) rows) /\
  Forall (fun r => get_col (column_name dc) r <> VNull) (List.filter (newer_than dc v) rows).
Proof.
  split; [apply eval_update_sql_newer; reflexivity|]. split.
  - rewrite (eval_update_sql now _ rows cols None table wc eq_refl).
    rewrite filter_true. reflexivity.
  - apply List.Forall_forall. intros r Hin. apply List.filter_In in Hin as [_ Hnew].
    unfold newer_than in Hnew. intros Hnull. rewrite Hnull in Hnew.
    unfold sql_gt in Hnew. destruct v; discriminate.
Qed.

(** ** A full load *)

Lemma fold_max_times (vs : list value) m n :
  m < n ->
  Forall (fun v => exists t, v = VTime t /\ t < n) vs ->
  exists m', fold_left value_max vs (VTime m) = VTime m' /\ m <= m' /\ m' < n /\
             Forall (fun v => exists t, v = VTime t /\ t <= m') vs.
Proof.
  revert m. induction vs as [|v vs IH]; intros m Hm Hall.
  - exists m. repeat split; [lia | exact Hm | constructor].
  - apply Forall_cons in Hall as [(t & -> & Ht) Hall]. cbn [fold_left].
    assert (Hmax : value_max (VTime m) (VTime t) = VTime (Z.max m t)).
    { unfold value_max, sql_gt, value_ltb, is_true.
      destruct (Z.ltb_spec m t); f_equal; lia. }
    rewrite Hmax. destruct (IH (Z.max m t) ltac:(lia) Hall) as (m' & Hfold & Hle & Hlt & Hall').
    exists m'. repeat split; [exact Hfold | lia | exact Hlt |].
    constructor; [exists t; split; [reflexivity | lia] | exact Hall'].
Qed.

Lemma sql_max_times (vs : list value) n :
  Forall (fun v => exists t, v = VTime t /\ t < n) vs ->
  (vs = [] /\ sql_max vs = VNull) \/
  (exists m, sql_max vs = VTime m /\ m < n /\
             Forall (fun v => exists t, v = VTime t /\ t <= m) vs).
Proof.
  intros Hall. destruct vs as [|v vs]; [left; split; reflexivity|]. right.
  pose proof Hall as Hall0.
  apply Forall_cons in Hall as [(t & -> & Ht) Hall]. unfold sql_max. cbn [fold_left value_max].
  destruct (fold_max_times vs t n Ht Hall) as (m & Hfold & Hle & Hlt & Hall').
  exists m. repeat split; [exact Hfold | exact Hlt |].
  constructor; [exists t; split; [reflexivity | lia] | exact Hall'].
Qed.

Lemma eval_max_as now env name c alias (t : Table) :
  env !! name = Some t ->
  eval_query now env (Select [Alias (Max (Column c None)) alias] (from_ name) [] [])
  = Some [[(alias, sql_max (map (get_col c) t))]].
Proof.
  intros H. simpl. rewrite H. simpl. unfold where_keeps. simpl.
  rewrite filter_true, map_map. do 4 f_equal. f_equal.
  apply map_ext. intros r. unfold scope_all. simpl. rewrite app_nil_r. reflexivity.
Qed.

Lemma no_aggregate_columns (names : list string) :
  existsb is_aggregate (map (fun n => Column n None) names) = false.
Proof. induction names; simpl; auto. Qed.

Lemma select_row_columns now (names : list string) a r :
  select_row now (map (fun n => Column n None) names) [(a, r)]
  = map (fun n => (n, get_col n r)) names.
Proof.
  unfold select_row. induction names as [|n names IH]; [reflexivity|].
  cbn [map concat select_item expr_name]. rewrite eval_column_bare. cbn [app]. f_equal.
  exact IH.
Qed.

(** The query [do_full_load] writes the manifest with. *)
Lemma eval_manifest_query now env name (names : list string) conds (t : Table) :
  env !! name = Some t ->
  eval_query now env (Select (map (fun n => Column n None) names) (from_ name) [] conds)
  = Some (project names (List.filter (fun r => where_keeps now conds [(name, r)]) t)).
Proof.
  intros H. cbn [eval_query from_ tr_name]. rewrite H. cbn [apply_anti_joins].
  rewrite no_aggregate_columns. f_equal. unfold ref_alias. cbn [tr_alias tr_name].
  rewrite (filter_map_scope (where_keeps now conds)). rewrite map_map.
  unfold project. apply map_ext. intros r. apply select_row_columns.
Qed.

Lemma get_col_app_notin n (a b : Row) :
  n ∉ map fst a -> get_col n (a ++ b) = get_col n b.
Proof.
  induction a as [|[k v] a IH]; intros Hn; [reflexivity|].
  cbn [app get_col]. cbn [map fst] in Hn. apply not_elem_of_cons in Hn as [Hne Hn].
  rewrite bool_decide_eq_false_2 by congruence. apply IH, Hn.
Qed.

Lemma loaded_row_valid_from wc cols now full r :
  VALID_FROM_COL_NAME ∉ map (get_target_name wc) cols ->
  get_col VALID_FROM_COL_NAME (loaded_row wc cols now full r) = VTime now.
Proof.
  intros Hn. unfold loaded_row. rewrite get_col_app_notin; [reflexivity|].
  rewrite map_map. exact Hn.
Qed.

Lemma filter_all {A} (f : A -> bool) (l : list A) :
  Forall (fun x => f x = true) l -> List.filter f l = l.
Proof.
  induction 1 as [|x l Hx _ IH]; [reflexivity|]. cbn [List.filter]. rewrite Hx, IH. reflexivity.
Qed.

Lemma filter_none {A} (f : A -> bool) (l : list A) :
  Forall (fun x => f x = false) l -> List.filter f l = [].
Proof.
  induction 1 as [|x l Hx _ IH]; [reflexivity|]. cbn [List.filter]. rewrite Hx, IH. reflexivity.
Qed.

Lemma where_keeps_gt now a r c v :
  where_keeps now [GT (Column c None) (Convert v)] [(a, r)] = is_true (sql_gt (get_col c r) v).
Proof.
  unfold where_keeps. cbn [forallb]. rewrite andb_true_r.
  change (eval_expr now [(a, r)] (GT (Column c None) (Convert v)))
    with (sql_gt (eval_expr now [(a, r)] (Column c None)) v).
  rewrite eval_column_bare. reflexivity.
Qed.

(** The condition on [__valid_from] keeps the rows of this load ... *)
Lemma filter_keeps_new now a (rows : Table) mvf :
  mvf = VNull \/ (exists m, mvf = VTime m /\ m < now) ->
  Forall (fun r => get_col VALID_FROM_COL_NAME r = VTime now) rows ->
  List.filter
    (fun r => where_keeps now (if truthy mvf
                               then [GT (Column VALID_FROM_COL_NAME None) (Convert mvf)]
                               else []) [(a, r)]) rows
  = rows.
Proof.
  intros [->|(m & -> & Hm)] Hrows; cbn [truthy]; [apply filter_true|].
  apply filter_all. eapply Forall_impl; [exact Hrows|]. intros r Hr.
  rewrite where_keeps_gt, Hr. unfold sql_gt, value_ltb, is_true.
  destruct (Z.ltb_spec m now); [reflexivity | lia].
Qed.

(** ... and none of the rows the table held before. *)
Lemma filter_drops_old now a (old : Table) :
  Forall (fun r => exists t, get_col VALID_FROM_COL_NAME r = VTime t /\ t < now) old ->
  List.filter
    (fun r => where_keeps now
                (if truthy (sql_max (map (get_col VALID_FROM_COL_NAME) old))
                 then [GT (Column VALID_FROM_COL_NAME None)
                          (Convert (sql_max (map (get_col VALID_FROM_COL_NAME) old)))]
                 else []) [(a, r)]) old
  = [].
Proof.
  intros Hold.
  destruct (sql_max_times (map (get_col VALID_FROM_COL_NAME) old) now)
    as [[Hnil _]|(m & -> & Hm & Hle)].
  { apply (proj2 (List.Forall_map _ _ _)). eapply Forall_impl; [exact Hold|]. intros r (t & Ht & Hlt); eauto. }
  - apply map_eq_nil in Hnil as ->. reflexivity.
  - cbn [truthy]. apply filter_none.
    apply (proj1 (List.Forall_map _ _ _)) in Hle. eapply Forall_impl; [exact Hle|]. intros r (t & Ht & Hlt).
    rewrite where_keeps_gt. cbn beta in Ht. rewrite Ht. unfold sql_gt, value_ltb, is_true.
    destruct (Z.ltb_spec m t); [lia | reflexivity].
Qed.

Lemma watermark_before now (old : Table) :
  Forall (fun r => exists t, get_col VALID_FROM_COL_NAME r = VTime t /\ t < now) old ->
  sql_max (map (get_col VALID_FROM_COL_NAME) old) = VNull \/
  (exists m, sql_max (map (get_col VALID_FROM_COL_NAME) old) = VTime m /\ m < now).
Proof.
  intros Hold.
  destruct (sql_max_times (map (get_col VALID_FROM_COL_NAME) old) now)
    as [[_ ->]|(m & -> & Hm & _)]; [|left; reflexivity|right; eauto].
  apply (proj2 (List.Forall_map _ _ _)). eapply Forall_impl; [exact Hold|]. intros r (t & Ht & Hlt); eauto.
Qed.

Lemma eval_full_load_sql now name rows cols table wc :
  String.concat "." (table_parts table) = name ->
  eval_source now name rows
    (Sql (Select (_get_cols_select cols (Some false) (Some true) true None false
                                   (data_type_map wc) (Some (get_target_name wc)))
                 (table_from_tuple table None) [] []))
  = Some (map (loaded_row wc cols now true) rows).
Proof.
  intros Hname. rewrite eval_source_select; [|exact Hname|apply get_cols_select_no_aggregate].
  unfold where_keeps. cbn [forallb]. rewrite filter_true. f_equal.
  apply map_ext. intros r.
  rewrite (select_row_get_cols_select now cols false true None _ r)
    by (intros n; apply eval_column_bare).
  reflexivity.
Qed.

(** The rows of the full load, the history of [delta/] and of the manifest
    after it. *)
Lemma do_full_load_ok infos mode w dc :
  faults w = [] ->
  source_name w = String.concat "." (table_parts (table infos)) ->
  delta_col infos = Some dc ->
  VALID_FROM_COL_NAME ∉ map (get_target_name (write_config infos)) (col_infos infos) ->
  Forall (fun r => exists t, get_col VALID_FROM_COL_NAME r = VTime t /\ t < now w) (old_rows w) ->
  exists w',
    do_full_load infos mode w = (Ok tt, w') /\
    lake w'
    = <[delta_load LATEST_PK_VERSION :=
          write_versions overwrite
            (project (manifest_cols (write_config infos) (pk_cols infos) dc)
                     (map (loaded_row (write_config infos) (col_infos infos) (now w) true)
                          (source_rows w)))
            (lake w !! delta_load LATEST_PK_VERSION)]>
      (<[delta_path :=
           write_versions mode
             (map (loaded_row (write_config infos) (col_infos infos) (now w) true)
                  (source_rows w))
             (lake w !! delta_path)]> (lake w)) /\
    files w' = files w /\ faults w' = [].
Proof.
  intros Hf Hname Hdc Hvf Hold. unfold do_full_load.
  set (rows := map (loaded_row (write_config infos) (col_infos infos) (now w) true)
                   (source_rows w)).
  unfold logger_info at 1. rewrite (bind_ok _ _ _ _ _ (logger_log_ok _ _ _)).
  set (w1 := set_log _ _ w).
  rewrite (bind_ok _ _ _ _ _ (local_delta_table_exists_eq _ w1)).
  (* the newest [__valid_from] of the table *)
  assert (Hmvf : exists w2,
             (if bool_decide (is_Some (lake w1 !! delta_path))
              then local_register_update_view delta_path (_temp_table (table infos)) None ;;
                   res <- local_execute_sql_to_py
                            (Select [Alias (Max (Column VALID_FROM_COL_NAME None))
                                           VALID_FROM_COL_NAME]
                                    (from_ (_temp_table (table infos))) [] []) ;;
                   ret (match res with
                        | r :: _ => get_col VALID_FROM_COL_NAME r
                        | [] => VNull
                        end)
              else logger_info "executing sql" ;; ret VNull) w1
             = (Ok (sql_max (map (get_col VALID_FROM_COL_NAME) (old_rows w))), w2) /\
             lake w2 = lake w /\ files w2 = files w /\ faults w2 = [] /\ now w2 = now w /\
             source_name w2 = source_name w /\ source_rows w2 = source_rows w).
  { assert (Hl1 : lake w1 = lake w) by reflexivity.
    assert (Hf1 : faults w1 = []) by exact Hf.
    assert (Hw1 : files w1 = files w /\ now w1 = now w /\ source_name w1 = source_name w /\
                  source_rows w1 = source_rows w) by auto.
    clearbody w1. unfold old_rows. rewrite Hl1.
    destruct (lake w !! delta_path) as [h|] eqn:Hh.
    - rewrite bool_decide_eq_true_2 by eauto. rewrite <- Hl1 in Hh.
      rewrite (bind_ok _ _ _ _ _ (local_register_update_view_latest _ _ _ h Hf1 Hh)).
      set (w2 := set_views _ _).
      rewrite (bind_ok _ _ _ _ _ (local_execute_sql_to_py_ok _ w2 _ Hf1
                                    (eval_max_as _ _ _ _ _ _ (lookup_insert_eq _ _ _)))).
      exists w2. split; [|subst w2; world_simpl; intuition congruence].
      unfold ret. cbn [get_col]. rewrite bool_decide_eq_true_2 by reflexivity. reflexivity.
    - rewrite bool_decide_eq_false_2 by (intros [x Hx]; discriminate).
      unfold logger_info. rewrite (bind_ok _ _ _ _ _ (logger_log_ok _ _ _)).
      eexists. split; [reflexivity|]. world_simpl. intuition congruence. }
  destruct Hmvf as (w2 & Hrun2 & Hl2 & Hfi2 & Hf2 & Hn2 & Hsn2 & Hsr2).
  rewrite (bind_ok _ _ _ _ _ Hrun2).
  set (mvf := sql_max (map (get_col VALID_FROM_COL_NAME) (old_rows w))) in *.
  rewrite (bind_ok _ _ _ _ _
             (source_write_sql_to_delta_ok _ delta_path mode w2 rows Hf2
                ltac:(rewrite Hn2, Hsn2, Hsr2; apply eval_full_load_sql; symmetry; exact Hname))).
  set (w3 := add_event _ _). rewrite Hdc.
  unfold logger_info. rewrite (bind_ok _ _ _ _ _ (logger_log_ok _ _ _)).
  set (w4 := set_log _ _ w3).
  assert (Hl4 : lake w4 = <[delta_path := write_versions mode rows (lake w !! delta_path)]> (lake w))
    by (subst w4 w3; world_simpl; rewrite Hl2; reflexivity).
  assert (Hf4 : faults w4 = []) by (subst w4 w3; world_simpl; exact Hf2).
  rewrite (bind_ok _ _ _ _ _
             (local_register_update_view_latest delta_path _ w4 _ Hf4
                ltac:(rewrite Hl4; apply lookup_insert_eq))).
  set (w5 := set_views _ w4).
  rewrite (bind_ok _ _ _ _ _ (dest_mkdir_eq _ w5)).
  set (w6 := add_event _ w5).
  assert (Hq : map (fun pk => Column (get_target_name (write_config infos) pk) None) (pk_cols infos)
               ++ [Column (get_target_name (write_config infos) dc) None]
               = map (fun n => Column n None)
                     (manifest_cols (write_config infos) (pk_cols infos) dc)).
  { unfold manifest_cols. rewrite map_app, map_map. reflexivity. }
  rewrite Hq.
  assert (Hnew : List.filter
                   (fun r => where_keeps (now w6)
                               (if truthy mvf
                                then [GT (Column VALID_FROM_COL_NAME None) (Convert mvf)]
                                else []) [(_temp_table (table infos), r)])
                   (latest (write_versions mode rows (lake w !! delta_path)))
                 = rows).
  { assert (Hn6 : now w6 = now w) by (subst w6 w5 w4 w3; world_simpl; exact Hn2).
    rewrite Hn6.
    assert (Hrows : Forall (fun r => get_col VALID_FROM_COL_NAME r = VTime (now w)) rows).
    { subst rows. apply (proj2 (List.Forall_map _ _ _)). apply List.Forall_forall. intros r _.
      apply loaded_row_valid_from, Hvf. }
    pose proof (watermark_before (now w) (old_rows w) Hold) as Hwm. fold mvf in Hwm.
    rewrite latest_write_versions.
    destruct mode, (lake w !! delta_path) as [h|] eqn:Hh;
      try (apply filter_keeps_new; assumption).
    rewrite List.filter_app. rewrite (filter_keeps_new _ _ rows mvf Hwm Hrows).
    subst mvf. unfold old_rows in *. rewrite Hh in *.
    rewrite (filter_drops_old (now w) _ (latest h) Hold). reflexivity. }
  eexists. split.
  { eapply local_execute_sql_to_delta_ok.
    - subst w6 w5. world_simpl. exact Hf4.
    - apply eval_manifest_query. subst w6 w5. world_simpl. apply lookup_insert_eq. }
  subst w6 w5. world_simpl. rewrite Hnew, Hl4.
  rewrite lookup_insert_ne by discriminate.
  split; [reflexivity|]. split; [|exact Hf4].
  subst w4 w3. world_simpl. exact Hfi2.
Qed.

(** ** A full load, step by step *)

(** A full load in which no call fails, whatever [delta/] holds: what it
    writes, what it sends and what it leaves alone. *)
Lemma do_full_load_run infos mode w :
  faults w = [] ->
  source_name w = String.concat "." (table_parts (table infos)) ->
  exists w' l,
    do_full_load infos mode w = (Ok tt, w') /\
    lake w'
    = match delta_col infos with
      | Some dc =>
          <[delta_load LATEST_PK_VERSION :=
              write_versions overwrite (full_load_manifest infos dc mode w)
                             (lake w !! delta_load LATEST_PK_VERSION)]>
            (<[delta_path := write_versions mode (full_load_rows infos w)
                                            (lake w !! delta_path)]> (lake w))
      | None =>
          <[delta_path := write_versions mode (full_load_rows infos w)
                                         (lake w !! delta_path)]> (lake w)
      end /\
    (exists after,
       trace w' = trace w ++ EvSourceWrite (full_load_sql infos) delta_path mode :: after /\
       match delta_col infos with
       | Some _ => exists q, after = [EvMkdir "delta_load";
                                      EvLocalWrite q (delta_load LATEST_PK_VERSION) overwrite]
       | None => after = []
       end) /\
    log_buffer w'
    = log_buffer w ++ (INFO, table_str (table infos) +:+ ": Start Full Load") :: l /\
    files w' = files w /\ faults w' = [] /\ now w' = now w /\
    source_name w' = source_name w /\ source_rows w' = source_rows w.
Proof.
  intros Hf Hname. unfold do_full_load.
  fold (full_load_sql infos).
  set (rows := full_load_rows infos w).
  unfold logger_info at 1. rewrite (bind_ok _ _ _ _ _ (logger_log_ok _ _ _)).
  set (w1 := set_log _ _ w).
  rewrite (bind_ok _ _ _ _ _ (local_delta_table_exists_eq _ w1)).
  (* the newest [__valid_from] of the table *)
  assert (Hmvf : exists w2 l2,
             (if bool_decide (is_Some (lake w1 !! delta_path))
              then local_register_update_view delta_path (_temp_table (table infos)) None ;;
                   res <- local_execute_sql_to_py
                            (Select [Alias (Max (Column VALID_FROM_COL_NAME None))
                                           VALID_FROM_COL_NAME]
                                    (from_ (_temp_table (table infos))) [] []) ;;
                   ret (match res with
                        | r :: _ => get_col VALID_FROM_COL_NAME r
                        | [] => VNull
                        end)
              else logger_info "executing sql" ;; ret VNull) w1
             = (Ok (sql_max (map (get_col VALID_FROM_COL_NAME) (old_rows w))), w2) /\
             lake w2 = lake w /\ files w2 = files w /\ faults w2 = [] /\ now w2 = now w /\
             source_name w2 = source_name w /\ source_rows w2 = source_rows w /\
             trace w2 = trace w /\
             log_buffer w2
             = log_buffer w ++ (INFO, table_str (table infos) +:+ ": Start Full Load") :: l2).
  { assert (Hl1 : lake w1 = lake w) by reflexivity.
    assert (Hf1 : faults w1 = []) by exact Hf.
    assert (Hw1 : files w1 = files w /\ now w1 = now w /\ source_name w1 = source_name w /\
                  source_rows w1 = source_rows w /\ trace w1 = trace w /\
                  log_buffer w1
                  = log_buffer w ++ [(INFO, table_str (table infos) +:+ ": Start Full Load")])
      by (subst w1; world_simpl; auto 10).
    clearbody w1. unfold old_rows. rewrite Hl1.
    destruct (lake w !! delta_path) as [h|] eqn:Hh.
    - rewrite bool_decide_eq_true_2 by eauto. rewrite <- Hl1 in Hh.
      rewrite (bind_ok _ _ _ _ _ (local_register_update_view_latest _ _ _ h Hf1 Hh)).
      set (w2 := set_views _ _).
      rewrite (bind_ok _ _ _ _ _ (local_execute_sql_to_py_ok _ w2 _ Hf1
                                    (eval_max_as _ _ _ _ _ _ (lookup_insert_eq _ _ _)))).
      exists w2, []. split; [|subst w2; world_simpl; intuition congruence].
      unfold ret. cbn [get_col]. rewrite bool_decide_eq_true_2 by reflexivity. reflexivity.
    - rewrite bool_decide_eq_false_2 by (intros [x Hx]; discriminate).
      unfold logger_info. rewrite (bind_ok _ _ _ _ _ (logger_log_ok _ _ _)).
      eexists _, [_]. split; [reflexivity|]. world_simpl.
      destruct Hw1 as (? & ? & ? & ? & ? & ->). rewrite <- app_assoc.
      intuition congruence. }
  destruct Hmvf as (w2 & l2 & Hrun2 & Hl2 & Hfi2 & Hf2 & Hn2 & Hsn2 & Hsr2 & Ht2 & Hlog2).
  rewrite (bind_ok _ _ _ _ _ Hrun2).
  set (mvf := sql_max (map (get_col VALID_FROM_COL_NAME) (old_rows w))) in *.
  rewrite (bind_ok _ _ _ _ _
             (source_write_sql_to_delta_ok _ delta_path mode w2 rows Hf2
                ltac:(rewrite Hn2, Hsn2, Hsr2; apply eval_full_load_sql; symmetry; exact Hname))).
  set (w3 := add_event _ _).
  destruct (delta_col infos) as [dc|].
  - unfold logger_info. rewrite (bind_ok _ _ _ _ _ (logger_log_ok _ _ _)).
    set (w4 := set_log _ _ w3).
    assert (Hl4 : lake w4
                  = <[delta_path := write_versions mode rows (lake w !! delta_path)]> (lake w))
      by (subst w4 w3; world_simpl; rewrite Hl2; reflexivity).
    assert (Hf4 : faults w4 = []) by (subst w4 w3; world_simpl; exact Hf2).
    rewrite (bind_ok _ _ _ _ _
               (local_register_update_view_latest delta_path _ w4 _ Hf4
                  ltac:(rewrite Hl4; apply lookup_insert_eq))).
    set (w5 := set_views _ w4).
    rewrite (bind_ok _ _ _ _ _ (dest_mkdir_eq _ w5)).
    set (w6 := add_event _ w5).
    assert (Hq : map (fun pk => Column (get_target_name (write_config infos) pk) None)
                     (pk_cols infos)
                 ++ [Column (get_target_name (write_config infos) dc) None]
                 = map (fun n => Column n None)
                       (manifest_cols (write_config infos) (pk_cols infos) dc)).
    { unfold manifest_cols. rewrite map_app, map_map. reflexivity. }
    rewrite Hq.
    assert (Hn6 : now w6 = now w) by (subst w6 w5 w4 w3; world_simpl; exact Hn2).
    assert (Hnew : project (manifest_cols (write_config infos) (pk_cols infos) dc)
                     (List.filter
                        (fun r => where_keeps (now w6)
                                    (if truthy mvf
                                     then [GT (Column VALID_FROM_COL_NAME None) (Convert mvf)]
                                     else []) [(_temp_table (table infos), r)])
                        (latest (write_versions mode rows (lake w !! delta_path))))
                   = full_load_manifest infos dc mode w).
    { unfold full_load_manifest. fold mvf. fold rows. f_equal. apply filter_ext_eq.
      intros r. destruct (truthy mvf); [apply where_keeps_gt | reflexivity]. }
    eexists _, _. split.
    { eapply local_execute_sql_to_delta_ok.
      - subst w6 w5. world_simpl. exact Hf4.
      - apply eval_manifest_query. subst w6 w5. world_simpl. apply lookup_insert_eq. }
    subst w6 w5. world_simpl. rewrite Hnew, Hl4.
    rewrite lookup_insert_ne by discriminate.
    split; [reflexivity|].
    subst w4 w3. world_simpl. rewrite Ht2, Hlog2.
    split; [eexists; split; [rewrite <- !app_assoc; cbn [app]; reflexivity
                            | eexists; reflexivity]|].
    split; [rewrite <- app_assoc; reflexivity|].
    auto 10.
  - unfold logger_info. rewrite (logger_log_ok _ _ w3).
    eexists _, _. split; [reflexivity|]. subst w3. world_simpl. rewrite Hl2, Ht2, Hlog2.
    split; [reflexivity|].
    split; [eexists; split; reflexivity|].
    split; [rewrite <- app_assoc; reflexivity|].
    auto 10.
Qed.

(** C4. In every delta load in which no call fails and the maximum of
    [delta_col] over the [delta/] table is null, a warning is logged and a
    full load in append mode is performed instead of the delta pipeline:
    the line after the warning is the start of the full load; every row of
    the source is appended to [delta/] as one new version, marked as from a
    full load; the only statement sent to the source is the one of the full
    load, in append mode, followed by the write of the manifest; no table
    of the delta pipeline ([primary_keys_ts], [delta_1], [delta_2]) is
    written. *)
Theorem null_watermark_full_load sql_text restore_last_pk infos simple w dc h :
  faults w = [] ->
  source_name w = String.concat "." (table_parts (table infos)) ->
  delta_col infos = Some dc ->
  lake w !! delta_path = Some h ->
  sql_max (map (get_col (get_target_name (write_config infos) dc)) (latest h)) = VNull ->
  exists w' before msg l pre q,
    do_delta_load sql_text restore_last_pk infos simple w = (Ok tt, w') /\
    log_buffer w'
    = before ++ (WARNING, msg)
             :: (INFO, table_str (table infos) +:+ ": Start Full Load") :: l /\
    lake w' !! delta_path = Some (h ++ [latest h ++ full_load_rows infos w]) /\
    (forall p, p <> delta_path -> p <> delta_load LATEST_PK_VERSION ->
               lake w' !! p = lake w !! p) /\
    (pre = [] \/ pre = [EvReconstruct (delta_load LATEST_PK_VERSION)]) /\
    trace w' = trace w ++ pre
               ++ [EvSourceWrite (full_load_sql infos) delta_path append;
                   EvMkdir "delta_load";
                   EvLocalWrite q (delta_load LATEST_PK_VERSION) overwrite].
Proof.
  intros Hf Hname Hdc Hl Hmax.
  (* the full load, from a world that differs from [w] in the log, the
     views and, after a reconstruction, the manifest *)
  assert (Hfull : forall w1 before msg pre,
             faults w1 = [] -> source_name w1 = source_name w ->
             source_rows w1 = source_rows w -> now w1 = now w ->
             (forall p, p <> delta_load LATEST_PK_VERSION -> lake w1 !! p = lake w !! p) ->
             log_buffer w1 = before ++ [(WARNING, msg)] ->
             trace w1 = trace w ++ pre ->
             pre = [] \/ pre = [EvReconstruct (delta_load LATEST_PK_VERSION)] ->
             exists w' before msg l pre q,
               do_full_load infos append w1 = (Ok tt, w') /\
               log_buffer w'
               = before ++ (WARNING, msg)
                        :: (INFO, table_str (table infos) +:+ ": Start Full Load") :: l /\
               lake w' !! delta_path = Some (h ++ [latest h ++ full_load_rows infos w]) /\
               (forall p, p <> delta_path -> p <> delta_load LATEST_PK_VERSION ->
                          lake w' !! p = lake w !! p) /\
               (pre = [] \/ pre = [EvReconstruct (delta_load LATEST_PK_VERSION)]) /\
               trace w' = trace w ++ pre
                          ++ [EvSourceWrite (full_load_sql infos) delta_path append;
                              EvMkdir "delta_load";
                              EvLocalWrite q (delta_load LATEST_PK_VERSION) overwrite]).
  { intros w1 before msg pre Hf1 Hsn1 Hsr1 Hn1 Hl1 Hlog1 Ht1 Hpre.
    destruct (do_full_load_run infos append w1 Hf1 ltac:(rewrite Hsn1; exact Hname))
      as (w' & l & Hrun & Hlake & (after & Htrace & Hafter) & Hlog & _).
    rewrite Hdc in Hlake, Hafter. destruct Hafter as [q ->].
    exists w', before, msg, l, pre, q. split; [exact Hrun|].
    split; [rewrite Hlog, Hlog1, <- app_assoc; reflexivity|].
    rewrite Hlake. split.
    { rewrite lookup_insert_ne by discriminate. rewrite lookup_insert_eq.
      rewrite (Hl1 delta_path) by discriminate. rewrite Hl.
      unfold full_load_rows. rewrite Hn1, Hsr1. reflexivity. }
    split.
    { intros p Hp1 Hp2. rewrite !lookup_insert_ne by congruence. apply Hl1, Hp2. }
    split; [exact Hpre|]. rewrite Htrace, Ht1, <- app_assoc. reflexivity. }
  unfold do_delta_load. rewrite Hdc.
  assert (Hwater : forall w', faults w' = [] -> lake w' !! delta_path = Some h ->
            _get_latest_delta_value delta_path (table infos) dc (write_config infos) w'
            = (Ok VNull, set_views (insert (_temp_table (table infos)) (latest h)) w')).
  { intros w' Hf' Hl'. rewrite (get_latest_delta_value_ok _ _ _ _ w' h Hf' Hl'), Hmax.
    reflexivity. }
  destruct simple; cbv [negb]; cbv iota.
  - msimpl. set (w0 := set_log _ _ w).
    rewrite (bind_ok _ _ _ _ _ (Hwater w0 Hf Hl)).
    rewrite bool_decide_eq_true_2 by reflexivity. msimpl.
    eapply (Hfull _ _ _ []); subst w0; world_simpl; try reflexivity; auto.
    rewrite app_nil_r. reflexivity.
  - msimpl. set (w0 := set_log _ _ w).
    rewrite (bind_ok _ _ _ _ _ (local_delta_table_exists_eq _ w0)).
    destruct (lake w0 !! delta_load LATEST_PK_VERSION) as [hl|] eqn:Hlatest.
    + rewrite bool_decide_eq_true_2 by eauto. cbv [negb]. cbv iota. msimpl.
      rewrite (bind_ok _ _ _ _ _ (delta_version_ok _ w0 hl Hlatest)). msimpl.
      rewrite (bind_ok _ _ _ _ _ (Hwater w0 Hf Hl)).
      rewrite bool_decide_eq_true_2 by reflexivity. msimpl.
      eapply (Hfull _ _ _ []); subst w0; world_simpl; try reflexivity; auto.
      rewrite app_nil_r. reflexivity.
    + rewrite bool_decide_eq_false_2 by (intros [x Hx]; discriminate).
      cbv [negb]. cbv iota. msimpl.
      set (wa := set_log _ _ w0).
      pose proof (try_restore_last_pk restore_last_pk infos
                    (table_str (table infos) +:+ ": Could not restore primary keys") wa)
        as Htry.
      destruct (restore_last_pk infos wa) as [[t|]|] eqn:Hrestore.
      * (* the manifest is reconstructed: the delta load goes on to the watermark *)
        rewrite (bind_ok _ _ _ _ _ Htry).
        cbv [negb]. cbv iota. set (wb := add_event _ _). msimpl.
        assert (Hlb : lake wb !! delta_load LATEST_PK_VERSION = Some [t]).
        { subst wb wa w0. world_simpl. world_simpl. rewrite Hlatest. apply lookup_insert_eq. }
        rewrite (bind_ok _ _ _ _ _ (delta_version_ok _ wb _ Hlb)). msimpl.
        assert (Hdb : lake wb !! delta_path = Some h).
        { subst wb wa w0. world_simpl. rewrite lookup_insert_ne by discriminate. exact Hl. }
        rewrite (bind_ok _ _ _ _ _ (Hwater wb Hf Hdb)).
        rewrite bool_decide_eq_true_2 by reflexivity. msimpl.
        eapply (Hfull _ _ _ [EvReconstruct (delta_load LATEST_PK_VERSION)]);
          subst wb wa w0; world_simpl; try reflexivity; auto.
        intros p Hp. rewrite lookup_insert_ne by congruence. reflexivity.
      * (* the reconstruct routine gives up *)
        rewrite (bind_ok _ _ _ _ _ Htry).
        cbv [negb]. cbv iota. msimpl. set (wb := set_log _ _ wa).
        rewrite bind_returned_ret.
        eapply (Hfull _ _ _ []); subst wb wa w0; world_simpl; try reflexivity; auto.
        rewrite app_nil_r. reflexivity.
      * (* the reconstruct routine raises *)
        rewrite (bind_ok _ _ _ _ _ Htry).
        cbv [negb]. cbv iota. msimpl. set (wb := set_log _ _ _).
        rewrite bind_returned_ret.
        eapply (Hfull _ _ _ []); subst wb wa w0; world_simpl; try reflexivity; auto.
        rewrite app_nil_r. reflexivity.
Qed.

Lemma null_watermark_full_load_witness :
  faults world_null_watermark = [] /\
  exists w' h,
    do_delta_load example_sql_text example_restore_last_pk (example_infos mode_auto) false
                  world_null_watermark = (Ok tt, w') /\
    lake w' !! delta_path = Some h /\
    latest h = [ [("id", VInt 1); ("name", VStr "a"); ("ts", VNull);
                  ("__valid_from", VTime 1000); ("__is_deleted", VInt 0);
                  ("__is_full_load", VInt 1)];
                 delta_row 1 "a" 10 2000 true ].
Proof.
  split; [reflexivity|].
  destruct (null_watermark_full_load example_sql_text example_restore_last_pk
              (example_infos mode_auto) false world_null_watermark col_ts
              [[ [("id", VInt 1); ("name", VStr "a"); ("ts", VNull);
                  ("__valid_from", VTime 1000); ("__is_deleted", VInt 0);
                  ("__is_full_load", VInt 1)] ]]
              eq_refl eq_refl eq_refl eq_refl eq_refl)
    as (w' & before & msg & l & pre & q & Hrun & _ & Hd & _).
  eexists w', _. split; [exact Hrun|]. split; [exact Hd|]. reflexivity.
Defined.

(** X5. A full load that no call fails, at a time later than every
    [__valid_from] of the rows [delta/] holds: every row of the source goes
    to [delta/] (a new version that replaces or extends the newest one, by
    the mode) under the names of the destination, not deleted and from a
    full load; the manifest [latest_pk] is overwritten with the key and
    delta cells of exactly these rows; no other table and no file changes. *)
Theorem full_load_result infos mode w dc :
  faults w = [] ->
  source_name w = String.concat "." (table_parts (table infos)) ->
  delta_col infos = Some dc ->
  VALID_FROM_COL_NAME ∉ map (get_target_name (write_config infos)) (col_infos infos) ->
  Forall (fun r => exists t, get_col VALID_FROM_COL_NAME r = VTime t /\ t < now w) (old_rows w) ->
  exists w',
    do_full_load infos mode w = (Ok tt, w') /\
    lake w' !! delta_path
    = Some (write_versions mode
              (map (loaded_row (write_config infos) (col_infos infos) (now w) true)
                   (source_rows w))
              (lake w !! delta_path)) /\
    lake w' !! delta_load LATEST_PK_VERSION
    = Some (write_versions overwrite
              (project (manifest_cols (write_config infos) (pk_cols infos) dc)
                       (map (loaded_row (write_config infos) (col_infos infos) (now w) true)
                            (source_rows w)))
              (lake w !! delta_load LATEST_PK_VERSION)) /\
    (forall p, p <> delta_path -> p <> delta_load LATEST_PK_VERSION ->
               lake w' !! p = lake w !! p) /\
    files w' = files w.
Proof.
  intros Hf Hname Hdc Hvf Hold.
  destruct (do_full_load_ok infos mode w dc Hf Hname Hdc Hvf Hold) as (w' & Hrun & Hl & Hfi & _).
  exists w'. split; [exact Hrun|]. rewrite Hl. split; [|split; [|split]].
  - rewrite lookup_insert_ne by discriminate. apply lookup_insert_eq.
  - apply lookup_insert_eq.
  - intros p Hp1 Hp2. rewrite !lookup_insert_ne by congruence. reflexivity.
  - exact Hfi.
Qed.

Lemma full_load_result_witness :
  faults (world_changed []) = [] /\
  exists w',
    do_full_load (example_infos mode_force_full) append (world_changed []) = (Ok tt, w') /\
    lake w' !! delta_load LATEST_PK_VERSION
    = Some [[pk_row 1 10; pk_row 2 11; pk_row 3 12];
            [pk_row 1 10; pk_row 2 13; pk_row 4 14; pk_row 5 9]].
Proof.
  split; [reflexivity|].
  destruct (full_load_result (example_infos mode_force_full) append (world_changed []) col_ts
              eq_refl eq_refl eq_refl)
    as (w' & Hrun & _ & Hpk & _).
  - vm_compute. intros H. repeat (apply elem_of_cons in H as [H|H]; [discriminate H|]).
    apply elem_of_nil in H. exact H.
  - vm_compute. repeat constructor; exists 1000; split; reflexivity.
  - exists w'. split; [exact Hrun|]. rewrite Hpk. reflexivity.
Defined.

(** ** The snapshot of the keys *)

Lemma eval_pk_ts_sql now name rows cols table wc :
  String.concat "." (table_parts table) = name ->
  eval_source now name rows
    (Sql (Select (_get_cols_select cols None None false None false (data_type_map wc)
                                   (Some (get_target_name wc)))
                 (table_from_tuple table None) [] []))
  = Some (map (renamed_row wc cols) rows).
Proof.
  intros Hname. rewrite eval_source_select; [|exact Hname|apply get_cols_select_no_aggregate].
  unfold where_keeps. cbn [forallb]. rewrite filter_true. f_equal.
  apply map_ext. intros r. apply select_row_keys. intros n. apply eval_column_bare.
Qed.

Lemma retrieve_primary_key_data_ok table dc pk_cols wc w :
  faults w = [] ->
  source_name w = String.concat "." (table_parts table) ->
  exists w',
    _retrieve_primary_key_data table dc pk_cols wc w = (Ok (delta_load PRIMARY_KEYS_TS), w') /\
    lake w' = <[delta_load PRIMARY_KEYS_TS :=
                  write_versions overwrite
                    (map (renamed_row wc (pk_cols ++ [dc])) (source_rows w))
                    (lake w !! delta_load PRIMARY_KEYS_TS)]> (lake w) /\
    files w' = files w /\ faults w' = [] /\ views w' = views w /\ now w' = now w /\
    source_name w' = source_name w /\ source_rows w' = source_rows w.
Proof.
  intros Hf Hname. unfold _retrieve_primary_key_data.
  rewrite (bind_ok _ _ _ _ _
             (source_write_sql_to_delta_ok _ _ overwrite w _ Hf
                (eval_pk_ts_sql _ _ _ _ _ _ (eq_sym Hname)))).
  eexists. split; [reflexivity|]. world_simpl. unfold concat_seq. auto 10.
Qed.

(** X6. The snapshot of the keys, when no call fails: [primary_keys_ts] is
    overwritten with the key cells and the delta cell of every row of the
    source, none left out, under the names of the destination; the path of
    the table is returned and no other table changes. *)
Theorem retrieve_primary_key_data_snapshot table dc pk_cols wc w :
  faults w = [] ->
  source_name w = String.concat "." (table_parts table) ->
  exists w',
    _retrieve_primary_key_data table dc pk_cols wc w = (Ok (delta_load PRIMARY_KEYS_TS), w') /\
    (exists h, lake w' !! delta_load PRIMARY_KEYS_TS = Some h /\
               latest h = map (renamed_row wc (pk_cols ++ [dc])) (source_rows w)) /\
    (forall p, p <> delta_load PRIMARY_KEYS_TS -> lake w' !! p = lake w !! p).
Proof.
  intros Hf Hname.
  destruct (retrieve_primary_key_data_ok table dc pk_cols wc w Hf Hname)
    as (w' & Hrun & Hl & _).
  exists w'. split; [exact Hrun|]. rewrite Hl. split.
  - eexists. split; [apply lookup_insert_eq|]. apply latest_write_overwrite.
  - intros p Hp. apply lookup_insert_ne. congruence.
Qed.

Lemma retrieve_primary_key_data_snapshot_witness :
  faults (world_changed []) = [] /\
  exists w',
    _retrieve_primary_key_data (TSchemaName "dbo" "user2") col_ts [col_id]
                               (example_config mode_auto) (world_changed [])
    = (Ok (delta_load PRIMARY_KEYS_TS), w') /\
    exists h, lake w' !! delta_load PRIMARY_KEYS_TS = Some h /\ latest h = pk_ts_changed.
Proof.
  split; [reflexivity|].
  destruct (retrieve_primary_key_data_snapshot (TSchemaName "dbo" "user2") col_ts [col_id]
              (example_config mode_auto) (world_changed []) eq_refl eq_refl)
    as (w' & Hrun & (h & Hh & Hlatest) & _).
  exists w'. split; [exact Hrun|]. exists h. split; [exact Hh|]. rewrite Hlatest. reflexivity.
Defined.

(** ** Loads by timestamp *)

Lemma lookup_appended (rows : Table) (l : gmap string (list Table)) p h :
  l !! p = Some h ->
  (match rows with
   | [] => fun l => l
   | _ => fun l => <[p := write_versions append rows (l !! p)]> l
   end l) !! p = Some (appended rows h).
Proof.
  intros H. destruct rows; [exact H|]. rewrite lookup_insert_eq, H. reflexivity.
Qed.

Lemma lookup_appended_ne (rows : Table) (l : gmap string (list Table)) p q :
  q <> p ->
  (match rows with
   | [] => fun l => l
   | _ => fun l => <[p := write_versions append rows (l !! p)]> l
   end l) !! q = l !! q.
Proof. intros H. destruct rows; [reflexivity|]. apply lookup_insert_ne. congruence. Qed.

Lemma do_append_inserts_load_ok infos w dc h :
  faults w = [] ->
  source_name w = String.concat "." (table_parts (table infos)) ->
  delta_col infos = Some dc ->
  lake w !! delta_path = Some h ->
  exists w',
    do_append_inserts_load infos w = (Ok tt, w') /\
    lake w'
    = (match rows_after infos dc true
               (sql_max (map (get_col (get_target_name (write_config infos) dc)) (latest h))) w with
       | [] => fun l => l
       | _ => fun l => <[delta_path :=
                           write_versions append
                             (rows_after infos dc true
                                (sql_max (map (get_col (get_target_name (write_config infos) dc))
                                              (latest h))) w)
                             (l !! delta_path)]> l
       end)
        (<[delta_load DELTA_1_NAME :=
             write_versions overwrite
               (rows_after infos dc true
                  (sql_max (map (get_col (get_target_name (write_config infos) dc)) (latest h))) w)
               (lake w !! delta_load DELTA_1_NAME)]> (lake w)) /\
    files w' = files w.
Proof.
  intros Hf Hname Hdc Hh. unfold do_append_inserts_load. rewrite Hdc.
  unfold logger_info at 1. rewrite (bind_ok _ _ _ _ _ (logger_log_ok _ _ _)).
  set (w1 := set_log _ _ w).
  rewrite (bind_ok _ _ _ _ _ (get_latest_delta_value_ok _ _ _ _ w1 h Hf Hh)).
  set (v := sql_max _). set (w2 := set_views _ w1).
  unfold logger_info at 1. rewrite (bind_ok _ _ _ _ _ (logger_log_ok _ _ _)).
  set (w3 := set_log _ _ w2).
  assert (Hsrc : eval_source (now w3) (source_name w3) (source_rows w3)
                   (_get_update_sql (col_infos infos)
                      (if truthy v
                       then Some (GT (_cast (column_name dc) (data_type dc) (Some "t")
                                            (data_type_map (write_config infos))) (Convert v))
                       else None) (table infos) (write_config infos))
                 = Some (rows_after infos dc true v w)).
  { subst w3 w2 w1. world_simpl. rewrite Hname. unfold rows_after. cbn [andb].
    destruct (truthy v); cbn [negb].
    - apply eval_update_sql_newer. reflexivity.
    - rewrite (eval_update_sql _ _ _ _ None _ _ eq_refl), filter_true. reflexivity. }
  destruct (load_updates_to_delta_ok delta_path _ "delta_1" (write_config infos) w3 _ Hf Hsrc)
    as (w4 & Hrun & _ & Hl4 & _ & _ & Hfi4).
  rewrite (bind_ok _ _ _ _ _ Hrun). unfold logger_info. rewrite logger_log_ok.
  eexists. split; [reflexivity|]. world_simpl. rewrite Hl4, Hfi4. split; reflexivity.
Qed.

(** X7. An append-inserts load that no call fails: the watermark is the
    largest delta value of [delta/]; the source rows whose delta cell is
    greater go to [delta_1] and, if there is one, are appended to [delta/]
    as one new version.  With a watermark that counts as false in Python
    (none, 0, the empty string) every source row is loaded.  Nothing else
    changes: no key snapshot, no manifest, no tombstone. *)
Theorem append_inserts_load_result infos w dc h :
  faults w = [] ->
  source_name w = String.concat "." (table_parts (table infos)) ->
  delta_col infos = Some dc ->
  lake w !! delta_path = Some h ->
  exists w',
    do_append_inserts_load infos w = (Ok tt, w') /\
    lake w' !! delta_path
    = Some (appended
              (rows_after infos dc true
                 (sql_max (map (get_col (get_target_name (write_config infos) dc)) (latest h))) w)
              h) /\
    (exists h1, lake w' !! delta_load DELTA_1_NAME = Some h1 /\
                latest h1 = rows_after infos dc true
                              (sql_max (map (get_col (get_target_name (write_config infos) dc))
                                            (latest h))) w) /\
    (forall p, p <> delta_path -> p <> delta_load DELTA_1_NAME -> lake w' !! p = lake w !! p) /\
    files w' = files w.
Proof.
  intros Hf Hname Hdc Hh.
  destruct (do_append_inserts_load_ok infos w dc h Hf Hname Hdc Hh) as (w' & Hrun & Hl & Hfi).
  exists w'. split; [exact Hrun|]. rewrite Hl. split; [|split; [|split]].
  - apply lookup_appended. rewrite lookup_insert_ne by discriminate. exact Hh.
  - eexists. split.
    + rewrite lookup_appended_ne by discriminate. apply lookup_insert_eq.
    + apply latest_write_overwrite.
  - intros p Hp1 Hp2. rewrite lookup_appended_ne by exact Hp1.
    apply lookup_insert_ne. congruence.
  - exact Hfi.
Qed.

Lemma append_inserts_load_result_witness :
  faults (world_changed []) = [] /\
  exists w',
    do_append_inserts_load (example_infos mode_append_inserts) (world_changed []) = (Ok tt, w') /\
    lake w' !! delta_path
    = Some [[delta_row 1 "a" 10 1000 true; delta_row 2 "b" 11 1000 true;
             delta_row 3 "c" 12 1000 true];
            [delta_row 1 "a" 10 1000 true; delta_row 2 "b" 11 1000 true;
             delta_row 3 "c" 12 1000 true;
             delta_row 2 "bb" 13 2000 false; delta_row 4 "d" 14 2000 false]].
Proof.
  split; [reflexivity|].
  destruct (append_inserts_load_result (example_infos mode_append_inserts) (world_changed [])
              col_ts
              [[delta_row 1 "a" 10 1000 true; delta_row 2 "b" 11 1000 true;
                delta_row 3 "c" 12 1000 true]]
              eq_refl eq_refl eq_refl eq_refl)
    as (w' & Hrun & Hd & _).
  exists w'. split; [exact Hrun|]. rewrite Hd. reflexivity.
Defined.

(** A simple delta load in which no call fails, with a watermark. *)
Lemma simple_delta_load_ok sql_text restore_last_pk infos w dc h :
  faults w = [] ->
  source_name w = String.concat "." (table_parts (table infos)) ->
  delta_col infos = Some dc ->
  lake w !! delta_path = Some h ->
  sql_max (map (get_col (get_target_name (write_config infos) dc)) (latest h)) <> VNull ->
  exists w',
    do_delta_load sql_text restore_last_pk infos true w = (Ok tt, w') /\
    lake w' !! delta_path
    = Some (appended
              (rows_after infos dc false
                 (sql_max (map (get_col (get_target_name (write_config infos) dc)) (latest h))) w)
              h) /\
    lake w' !! delta_load LATEST_PK_VERSION = None /\
    (forall p, p <> delta_path -> p <> delta_load DELTA_1_NAME ->
               p <> delta_load LATEST_PK_VERSION -> lake w' !! p = lake w !! p) /\
    (forall p, p <> delta_load LATEST_PK_VERSION -> files w' !! p = files w !! p).
Proof.
  intros Hf Hname Hdc Hh Hv. unfold do_delta_load. rewrite Hdc. cbv [negb]. cbv iota.
  msimpl. set (w1 := set_log _ _ w).
  rewrite (bind_ok _ _ _ _ _ (get_latest_delta_value_ok _ _ _ _ w1 h Hf Hh)).
  set (v := sql_max _) in *. set (w2 := set_views _ w1).
  rewrite bool_decide_eq_false_2 by exact Hv. msimpl.
  set (w3 := set_log _ _ (set_log _ _ (set_log _ _ w2))).
  assert (Hsrc : eval_source (now w3) (source_name w3) (source_rows w3)
                   (_get_update_sql (col_infos infos)
                      (Some (GT (_cast (column_name dc) (data_type dc) (Some "t")
                                       (data_type_map (write_config infos))) (Convert v)))
                      (table infos) (write_config infos))
                 = Some (rows_after infos dc false v w)).
  { subst w3 w2 w1. world_simpl. rewrite Hname. apply eval_update_sql_newer. reflexivity. }
  destruct (load_updates_to_delta_ok delta_path _ "delta_1" (write_config infos) w3 _ Hf Hsrc)
    as (w4 & Hrun & _ & Hl4 & _ & _ & Hfi4).
  rewrite (bind_ok _ _ _ _ _ Hrun).
  rewrite (bind_ok _ _ _ _ _ (dest_exists_eq _ w4)).
  assert (Hl : lake w4 !! delta_path = Some (appended (rows_after infos dc false v w) h)).
  { rewrite Hl4. apply lookup_appended. subst w3 w2 w1. world_simpl.
    rewrite lookup_insert_ne by discriminate. exact Hh. }
  assert (Hother : forall p, p <> delta_path -> p <> delta_load DELTA_1_NAME ->
                             lake w4 !! p = lake w !! p).
  { intros p Hp1 Hp2. rewrite Hl4. rewrite lookup_appended_ne by exact Hp1.
    subst w3 w2 w1. world_simpl. apply lookup_insert_ne. unfold DELTA_1_NAME in Hp2. congruence. }
  destruct (path_exists (delta_load LATEST_PK_VERSION) w4) eqn:Hex.
  - rewrite (dest_remove_ok _ w4 Hex). eexists. split; [reflexivity|]. world_simpl.
    split; [rewrite lookup_delete_ne by discriminate; exact Hl|].
    split; [apply lookup_delete_eq|]. split.
    + intros p Hp1 Hp2 Hp3. rewrite lookup_delete_ne by congruence. apply Hother; assumption.
    + intros p Hp. rewrite lookup_delete_ne by congruence. rewrite Hfi4. reflexivity.
  - eexists. split; [reflexivity|]. split; [exact Hl|]. split.
    + unfold path_exists in Hex. apply orb_false_iff in Hex as [_ Hex].
      apply bool_decide_eq_false in Hex.
      destruct (lake w4 !! delta_load LATEST_PK_VERSION) eqn:E; [|reflexivity].
      exfalso. apply Hex. eauto.
    + split; [intros p Hp1 Hp2 _; apply Hother; assumption|].
      intros p _. rewrite Hfi4. reflexivity.
Qed.

(** X8. A simple delta load that no call fails, with a watermark that is
    not null: the source rows whose delta cell is greater than the watermark
    go to [delta_1] and, if there is one, are appended to [delta/] as one
    new version; the manifest [latest_pk] is not there afterwards; the keys
    are not snapshot and no other table changes. *)
Theorem simple_delta_load_result sql_text restore_last_pk infos w dc h :
  faults w = [] ->
  source_name w = String.concat "." (table_parts (table infos)) ->
  delta_col infos = Some dc ->
  lake w !! delta_path = Some h ->
  sql_max (map (get_col (get_target_name (write_config infos) dc)) (latest h)) <> VNull ->
  exists w',
    do_delta_load sql_text restore_last_pk infos true w = (Ok tt, w') /\
    lake w' !! delta_path
    = Some (appended
              (rows_after infos dc false
                 (sql_max (map (get_col (get_target_name (write_config infos) dc)) (latest h))) w)
              h) /\
    lake w' !! delta_load LATEST_PK_VERSION = None /\
    (forall p, p <> delta_path -> p <> delta_load DELTA_1_NAME ->
               p <> delta_load LATEST_PK_VERSION -> lake w' !! p = lake w !! p) /\
    (forall p, p <> delta_load LATEST_PK_VERSION -> files w' !! p = files w !! p).
Proof.
  intros Hf Hname Hdc Hh Hv.
  destruct (simple_delta_load_ok sql_text restore_last_pk infos w dc h Hf Hname Hdc Hh Hv)
    as (w' & Hrun & Hd & Hpk & Hother & Hfiles).
  exists w'. split; [exact Hrun|]. split; [exact Hd|]. split; [exact Hpk|].
  split; [exact Hother | exact Hfiles].
Qed.

Lemma simple_delta_load_result_witness :
  faults (world_changed []) = [] /\
  exists w',
    do_delta_load example_sql_text example_restore_last_pk (example_infos mode_simple_delta) true
                  (world_changed [])
    = (Ok tt, w') /\
    lake w' !! delta_load LATEST_PK_VERSION = None /\
    lake w' !! delta_load PRIMARY_KEYS_TS = None.
Proof.
  split; [reflexivity|].
  destruct (simple_delta_load_result example_sql_text example_restore_last_pk
              (example_infos mode_simple_delta) (world_changed []) col_ts
              [[delta_row 1 "a" 10 1000 true; delta_row 2 "b" 11 1000 true;
                delta_row 3 "c" 12 1000 true]]
              eq_refl eq_refl eq_refl eq_refl)
    as (w' & Hrun & _ & Hpk & Hother & _).
  - vm_compute. discriminate.
  - exists w'. split; [exact Hrun|]. split; [exact Hpk|].
    rewrite Hother by discriminate. reflexivity.
Defined.



(** ** What a run may change, whatever fails *)

Create HintDb within discriminated.

Section Footprint.

(** A relation between the world before and the world after, and the calls
    on the destination that respect it. *)
Variable R : World -> World -> Prop.
Variable may_write : string -> write_mode -> Prop.
Variable may_remove : string -> Prop.
Variable may_restore : string -> Prop.
Variable may_upload : string -> Prop.

Hypothesis R_trans : forall a b c, R a b -> R b c -> R a c.
Hypothesis R_same : forall w w', lake w' = lake w -> files w' = files w -> R w w'.
Hypothesis R_write : forall path mode rows w,
  may_write path mode -> R w (write_delta path mode rows w).
Hypothesis R_remove : forall path w,
  may_remove path -> R w (set_lake (delete path) (set_files (delete path) w)).
Hypothesis R_restore : forall path h v t w,
  may_restore path -> lake w !! path = Some h -> h !! v = Some t ->
  R w (set_lake (insert path (h ++ [t])) w).
Hypothesis R_upload : forall path f w,
  may_upload path -> R w (set_files (insert path f) w).

Abbreviation within := (changes_within R).

Lemma R_refl w : R w w.
Proof. apply R_same; reflexivity. Qed.

Lemma R_then_same a b c : R a b -> lake c = lake b -> files c = files b -> R a c.
Proof. intros Hab Hl Hf. eapply R_trans; [exact Hab | apply R_same; assumption]. Qed.

Lemma within_ret {A} (a : A) : within (ret a).
Proof. intros w. apply R_refl. Qed.

Lemma within_raise {A} (e : exn) : within (@raise A e).
Proof. intros w. apply R_refl. Qed.

Lemma within_bind {A B} (m : M A) (k : A -> M B) :
  within m -> (forall a, within (k a)) -> within (bind m k).
Proof.
  intros Hm Hk w. unfold bind. specialize (Hm w). cbv beta in Hm.
  destruct (m w) as [[a|e] w1]; simpl in *.
  - eapply R_trans; [exact Hm | apply Hk].
  - exact Hm.
Qed.

Lemma within_try_except {A} (m : M A) (handler : exn -> M A) :
  within m -> (forall e, within (handler e)) -> within (try_except m handler).
Proof.
  intros Hm Hh w. unfold try_except. specialize (Hm w). cbv beta in Hm.
  destruct (m w) as [[a|e] w1]; simpl in *.
  - exact Hm.
  - eapply R_trans; [exact Hm | apply Hh].
Qed.

Lemma within_try_except_reraise {A} (m : M A) (handler : M unit) :
  within m -> within handler -> within (try_except_reraise m handler).
Proof.
  intros Hm Hh w. unfold try_except_reraise. specialize (Hm w). cbv beta in Hm.
  destruct (m w) as [[a|e] w1]; simpl in *; [exact Hm|].
  specialize (Hh w1). cbv beta in Hh.
  destruct (handler w1) as [[[]|e'] w2]; simpl in *; eapply R_trans; eassumption.
Qed.

Lemma within_try_finally {A} (m : M A) (final : M unit) :
  within m -> within final -> within (try_finally m final).
Proof.
  intros Hm Hf w. unfold try_finally. specialize (Hm w). cbv beta in Hm.
  destruct (m w) as [r w1]; simpl in *.
  specialize (Hf w1). cbv beta in Hf.
  destruct (final w1) as [[[]|e'] w2]; simpl in *; eapply R_trans; eassumption.
Qed.

Lemma within_logger_log level msg : within (logger_log level msg).
Proof. intros w. apply R_same; reflexivity. Qed.

Lemma within_logger_flush : within logger_flush.
Proof. intros w. apply R_same; reflexivity. Qed.

Lemma within_dest_mkdir path : within (dest_mkdir path).
Proof. intros w. apply R_same; reflexivity. Qed.

Lemma within_get_world : within get_world.
Proof. intros w. apply R_refl. Qed.

Lemma within_fault_point what : within (fault_point what).
Proof.
  intros w. unfold fault_point. destruct (faults w) as [|[] fs]; apply R_same; reflexivity.
Qed.

Lemma within_local_delta_table_exists path : within (local_delta_table_exists path).
Proof. intros w. apply R_refl. Qed.

Lemma within_dest_exists path : within (dest_exists path).
Proof. intros w. apply R_refl. Qed.

Lemma within_dest_modified_time path : within (dest_modified_time path).
Proof. intros w. unfold dest_modified_time. destruct (files w !! path); apply R_refl. Qed.

Lemma within_dest_remove path : may_remove path -> within (dest_remove path).
Proof.
  intros Hp w. unfold dest_remove. destruct (path_exists path w); [|apply R_refl].
  cbn [fst snd]. eapply R_then_same; [apply (R_remove path w Hp) | reflexivity | reflexivity].
Qed.

Lemma within_dest_upload_str path c : may_upload path -> within (dest_upload_str path c).
Proof.
  intros Hp w. unfold dest_upload_str, modify. cbn [fst snd].
  eapply R_then_same;
    [apply (R_upload path {| f_content := c; f_mtime := now w |} w Hp) | reflexivity | reflexivity].
Qed.

Lemma within_local_register_update_view path name version :
  within (local_register_update_view path name version).
Proof.
  apply within_bind; [apply within_fault_point|]. intros _ w.
  destruct (lake w !! path) as [h|]; [|apply R_refl].
  destruct version as [v|]; [destruct (h !! v)|];
    first [apply R_refl | apply R_same; reflexivity].
Qed.

Lemma within_local_execute_sql_to_py q : within (local_execute_sql_to_py q).
Proof.
  apply within_bind; [apply within_fault_point|]. intros _ w.
  destruct (eval_query (now w) (views w) q); apply R_refl.
Qed.

Lemma within_local_register_view q name : within (local_register_view q name).
Proof.
  apply within_bind; [apply within_local_execute_sql_to_py|]. intros t w.
  apply R_same; reflexivity.
Qed.

Lemma within_local_execute_sql_to_delta q path mode :
  may_write path mode -> within (local_execute_sql_to_delta q path mode).
Proof.
  intros Hp. apply within_bind; [apply within_local_execute_sql_to_py|]. intros t w.
  unfold modify. cbn [fst snd].
  eapply R_then_same; [apply (R_write path mode t w Hp) | reflexivity | reflexivity].
Qed.

Lemma within_source_write_sql_to_delta sql path mode :
  may_write path mode -> within (source_write_sql_to_delta sql path mode).
Proof.
  intros Hp. apply within_bind; [apply within_fault_point|]. intros _ w.
  destruct (eval_source (now w) (source_name w) (source_rows w) sql) as [t|]; [|apply R_refl].
  cbn [fst snd].
  eapply R_then_same; [apply (R_write path mode t w Hp) | reflexivity | reflexivity].
Qed.

Lemma within_delta_version path : within (delta_version path).
Proof. intros w. unfold delta_version. destruct (lake w !! path); apply R_refl. Qed.

Lemma within_delta_vacuum path : within (delta_vacuum path).
Proof.
  intros w. unfold delta_vacuum. destruct (lake w !! path);
    [apply R_same; reflexivity | apply R_refl].
Qed.

Lemma within_delta_restore path version : may_restore path -> within (delta_restore path version).
Proof.
  intros Hp w. unfold delta_restore. destruct (lake w !! path) as [h|] eqn:Hh; [|apply R_refl].
  destruct (h !! version) as [t|] eqn:Ht; [|apply R_refl]. cbn [fst snd].
  eapply R_then_same; [apply (R_restore path h version t w Hp Hh Ht) | reflexivity | reflexivity].
Qed.

Lemma within_first_row name rows : within (first_row name rows).
Proof. destruct rows; [apply within_raise | apply within_ret]. Qed.

Lemma within_as_int v : within (as_int v).
Proof. destruct v; first [apply within_raise | apply within_ret]. Qed.

Lemma within_json_dumps rows : within (json_dumps rows).
Proof. unfold json_dumps. destruct (forallb _ rows); [apply within_ret | apply within_raise]. Qed.

Lemma within_batch_size pk_cols : within (batch_size pk_cols).
Proof. unfold batch_size. destruct (_ =? 0); [apply within_raise | apply within_ret]. Qed.

Lemma within_py_assert b msg : within (py_assert b msg).
Proof. destruct b; [apply within_ret | apply within_raise]. Qed.

Lemma within_restore_last_pk_call restore_last_pk infos :
  may_write (delta_load LATEST_PK_VERSION) overwrite ->
  within (restore_last_pk_call restore_last_pk infos).
Proof.
  intros Hp w. unfold restore_last_pk_call.
  destruct (restore_last_pk infos w) as [[t|]|]; try apply R_refl. cbn [fst snd].
  eapply R_then_same; [apply (R_write _ overwrite t w Hp) | reflexivity | reflexivity].
Qed.

#[local] Hint Resolve within_ret within_raise within_logger_log within_logger_flush
  within_dest_mkdir within_get_world within_fault_point within_local_delta_table_exists
  within_dest_exists within_dest_modified_time within_dest_remove within_dest_upload_str
  within_local_register_update_view within_local_execute_sql_to_py within_local_register_view
  within_local_execute_sql_to_delta within_source_write_sql_to_delta within_delta_version
  within_delta_vacuum within_delta_restore within_first_row within_as_int within_json_dumps
  within_batch_size within_py_assert within_restore_last_pk_call : within.

Ltac within_tac :=
  unfold logger_info, logger_warning, logger_error;
  repeat first
    [ solve [auto 3 with within]
    | match goal with
      | |- changes_within _ (bind _ _) => apply within_bind; [|intros ?]
      | |- changes_within _ (try_except _ _) => apply within_try_except; [|intros ?]
      | |- changes_within _ (try_except_reraise _ _) => apply within_try_except_reraise
      | |- changes_within _ (try_finally _ _) => apply within_try_finally
      | |- changes_within _ (if ?b then _ else _) => destruct b
      | |- changes_within _ (match ?x with _ => _ end) => destruct x
      end ].

Lemma within__vacuum dest : within (_vacuum dest).
Proof. unfold _vacuum. within_tac. Qed.

Lemma within__get_latest_delta_value dp table delta_col wc :
  within (_get_latest_delta_value dp table delta_col wc).
Proof. unfold _get_latest_delta_value. within_tac. Qed.

(** A full load of a table without a delta column writes to [delta/] only. *)
Lemma within_do_full_load_no_delta_col infos mode :
  delta_col infos = None ->
  may_write delta_path mode ->
  within (do_full_load infos mode).
Proof. intros Hdc Hw. unfold do_full_load. rewrite Hdc. within_tac. Qed.

(** The tables a run works with. *)
Hypothesis may_write_delta_1 : may_write (delta_load DELTA_1_NAME) overwrite.
Hypothesis may_write_delta_2 : forall mode, may_write (delta_load DELTA_2_NAME) mode.
Hypothesis may_write_primary_keys_ts : may_write (delta_load PRIMARY_KEYS_TS) overwrite.
Hypothesis may_write_latest_pk : may_write (delta_load LATEST_PK_VERSION) overwrite.
Hypothesis may_append : may_write delta_path append.
Hypothesis may_remove_latest_pk : may_remove (delta_load LATEST_PK_VERSION).
Hypothesis may_restore_latest_pk : may_restore (delta_load LATEST_PK_VERSION).
Hypothesis may_remove_lock : may_remove lock_file_path.
Hypothesis may_upload_lock : may_upload lock_file_path.

Lemma within_write_latest_pk pks delta_col wc : within (write_latest_pk pks delta_col wc).
Proof. unfold write_latest_pk. within_tac. Qed.

Lemma within_do_deletes cols pk_cols old_pk_version wc :
  within (do_deletes cols pk_cols old_pk_version wc).
Proof. unfold do_deletes. within_tac. Qed.

Lemma within__retrieve_primary_key_data table delta_col pk_cols wc :
  within (_retrieve_primary_key_data table delta_col pk_cols wc).
Proof. unfold _retrieve_primary_key_data. within_tac. Qed.

Lemma within__load_updates_to_delta sql wc :
  within (_load_updates_to_delta delta_path sql "delta_1" wc).
Proof. unfold _load_updates_to_delta. within_tac. Qed.

Lemma within_do_full_load infos mode :
  may_write delta_path mode -> within (do_full_load infos mode).
Proof. intros Hw. unfold do_full_load. within_tac. Qed.

#[local] Hint Resolve within__vacuum within__get_latest_delta_value within_write_latest_pk
  within_do_deletes within__retrieve_primary_key_data within__load_updates_to_delta
  within_do_full_load : within.

Lemma within_write_chunks sql_text full_sql chunks first :
  within (write_chunks sql_text full_sql (delta_load "delta_2") chunks first).
Proof.
  revert first. induction chunks as [|chunk chunks IH]; intros first; cbn [write_chunks].
  - apply within_ret.
  - within_tac; apply IH.
Qed.

#[local] Hint Resolve within_write_chunks : within.

Lemma within_replay_timestamp_step table pk_cols delta_col cols wc n :
  within (replay_timestamp_step table delta_path pk_cols delta_col cols wc n).
Proof. unfold replay_timestamp_step. within_tac. Qed.

Lemma within_chunked_openjson sql_text table pk_cols cols wc n jsd :
  within (chunked_openjson sql_text table delta_path pk_cols cols wc n jsd).
Proof. unfold chunked_openjson. within_tac. Qed.

#[local] Hint Resolve within_replay_timestamp_step within_chunked_openjson : within.

Lemma within__handle_additional_updates sql_text table pk_cols delta_col cols wc old :
  within (_handle_additional_updates sql_text table delta_path pk_cols delta_col cols wc old).
Proof. unfold _handle_additional_updates. within_tac. Qed.

Lemma within_do_append_inserts_load infos : within (do_append_inserts_load infos).
Proof. unfold do_append_inserts_load. within_tac. Qed.

#[local] Hint Resolve within__handle_additional_updates within_do_append_inserts_load : within.

Lemma within_do_delta_load sql_text restore_last_pk infos simple :
  within (do_delta_load sql_text restore_last_pk infos simple).
Proof. unfold do_delta_load. within_tac. Qed.

#[local] Hint Resolve within_do_delta_load : within.

Lemma within_exec_lock : within exec_lock.
Proof. unfold exec_lock. within_tac. Qed.

Lemma within_exec_cleanup : within exec_cleanup.
Proof. unfold exec_cleanup. within_tac. Qed.

Lemma within_exec_restore last_version_pk : within (exec_restore last_version_pk).
Proof. unfold exec_restore. within_tac. Qed.

Lemma within_exec_finally : within exec_finally.
Proof. unfold exec_finally. within_tac. Qed.

#[local] Hint Resolve within_exec_lock within_exec_cleanup within_exec_restore
  within_exec_finally : within.

(** The choice of the load when the table may be overwritten ... *)
Lemma within_exec_dispatch sql_text restore_last_pk infos :
  may_write delta_path overwrite ->
  within (exec_dispatch sql_text restore_last_pk infos).
Proof. intros Hw. unfold exec_dispatch. within_tac. Qed.

(** ... and when it is there and the load mode is not [overwrite]. *)
Lemma within_exec_dispatch_existing sql_text restore_last_pk infos w :
  load_mode (write_config infos) <> mode_overwrite ->
  is_Some (lake w !! delta_path) ->
  R w (exec_dispatch sql_text restore_last_pk infos w).2.
Proof.
  intros Hmode Hex. unfold exec_dispatch.
  rewrite (bind_ok _ _ _ _ _ (local_delta_table_exists_eq _ w)).
  rewrite bool_decide_eq_true_2 by exact Hex.
  rewrite (bool_decide_eq_false_2 (load_mode (write_config infos) = mode_overwrite))
    by exact Hmode.
  cbv [negb orb]. cbv iota.
  revert w Hex.
  assert (H : within
                (if bool_decide (load_mode (write_config infos) = mode_append_inserts)
                 then
                   py_assert
                     (bool_decide
                        (is_Some
                           match delta_col infos, pk_cols infos with
                           | None, [pk] => if is_identity pk then Some pk else None
                           | _, _ => delta_col infos
                           end)) "Must provide delta column for append_inserts load" ;;
                   do_append_inserts_load infos
                 else
                   if bool_decide (delta_col infos = None)
                      || bool_decide (length (pk_cols infos) = 0%nat)
                      || bool_decide (load_mode (write_config infos) = mode_force_full)
                   then do_full_load infos append
                   else do_delta_load sql_text restore_last_pk infos
                          (bool_decide (load_mode (write_config infos) = mode_simple_delta))))
    by within_tac.
  intros w _. apply H.
Qed.

(** The run, from the preamble to the [finally] block. *)
Lemma within_exec_write_db_to_delta sql_text restore_last_pk infos :
  may_write delta_path overwrite ->
  may_upload "meta/schema.json" ->
  within (exec_write_db_to_delta sql_text restore_last_pk infos).
Proof.
  intros Hw Hu. pose proof (within_exec_dispatch sql_text restore_last_pk infos Hw).
  unfold exec_write_db_to_delta, exec_try_body. within_tac.
Qed.

(** The run after its preamble has uploaded [meta/schema.json]. *)
Lemma within_exec_after_upload sql_text restore_last_pk infos w :
  may_write delta_path overwrite ->
  R (add_event (EvUploadStr "meta/schema.json")
       (set_files (insert "meta/schema.json"
                          {| f_content := SchemaJson (col_infos infos); f_mtime := now w |})
                  (add_event (EvMkdir "meta") w)))
    (exec_write_db_to_delta sql_text restore_last_pk infos w).2.
Proof.
  intros Hw. pose proof (within_exec_dispatch sql_text restore_last_pk infos Hw).
  unfold exec_write_db_to_delta.
  rewrite (bind_ok _ _ _ _ _ (dest_mkdir_eq _ w)).
  rewrite (bind_ok _ _ _ _ _ (dest_upload_str_eq _ _ _)).
  match goal with
  | |- R _ (bind ?m ?k ?w0).2 =>
      assert (Hrest : within (bind m k)) by (unfold exec_try_body; within_tac);
      exact (Hrest w0)
  end.
Qed.

Section Existing.

(** A run on a table that is there, in a load mode other than [overwrite]. *)
Variables (sql_text : source_sql -> string)
          (restore_last_pk : WriteConfigAndInfos -> World -> option (option Table))
          (infos : WriteConfigAndInfos).
Hypothesis not_overwrite : load_mode (write_config infos) <> mode_overwrite.
Hypothesis R_keeps_delta :
  forall a b, R a b -> is_Some (lake a !! delta_path) -> is_Some (lake b !! delta_path).

Lemma R_bind_existing {A B} (m : M A) (k : A -> M B) w :
  within m ->
  is_Some (lake w !! delta_path) ->
  (forall a w1, is_Some (lake w1 !! delta_path) -> R w1 (k a w1).2) ->
  R w (bind m k w).2.
Proof.
  intros Hm Hex Hk. unfold bind. specialize (Hm w). cbv beta in Hm.
  destruct (m w) as [[a|e] w1]; cbn [fst snd] in *; [|exact Hm].
  eapply R_trans; [exact Hm|]. apply Hk. exact (R_keeps_delta _ _ Hm Hex).
Qed.

Lemma within_exec_try_body_existing w :
  is_Some (lake w !! delta_path) ->
  R w (exec_try_body sql_text restore_last_pk infos w).2.
Proof.
  intros Hex. unfold exec_try_body.
  apply R_bind_existing; [apply within_exec_lock | exact Hex |]. intros _ w1 Hex1.
  pose proof (within_exec_dispatch_existing sql_text restore_last_pk infos w1 not_overwrite Hex1)
    as Hd.
  unfold bind.
  destruct (exec_dispatch sql_text restore_last_pk infos w1) as [[[]|e] w2];
    cbn [fst snd] in *; [|exact Hd].
  eapply R_trans; [exact Hd | apply within_exec_cleanup].
Qed.

Lemma within_exec_write_db_to_delta_existing w :
  may_upload "meta/schema.json" ->
  is_Some (lake w !! delta_path) ->
  R w (exec_write_db_to_delta sql_text restore_last_pk infos w).2.
Proof.
  intros Hu Hex. unfold exec_write_db_to_delta.
  apply R_bind_existing; [within_tac | exact Hex |]. intros _ w1 Hex1.
  apply R_bind_existing; [within_tac | exact Hex1 |]. intros _ w2 Hex2.
  apply R_bind_existing; [within_tac | exact Hex2 |]. intros has_pk w3 Hex3.
  apply R_bind_existing; [within_tac | exact Hex3 |]. intros last w4 Hex4.
  unfold try_finally, try_except_reraise.
  pose proof (within_exec_try_body_existing w4 Hex4) as Hb.
  destruct (exec_try_body sql_text restore_last_pk infos w4) as [[[]|e] w5]; cbn [fst snd] in *.
  - pose proof (within_exec_finally w5) as Hfin. cbv beta in Hfin.
    destruct (exec_finally w5) as [[[]|e'] w6]; cbn [fst snd] in *;
      eapply R_trans; eassumption.
  - pose proof (within_exec_restore last w5) as Hres. cbv beta in Hres.
    destruct (exec_restore last w5) as [[[]|e1] w6]; cbn [fst snd] in *;
      pose proof (within_exec_finally w6) as Hfin; cbv beta in Hfin;
      destruct (exec_finally w6) as [[[]|e'] w7]; cbn [fst snd] in *;
      (eapply R_trans; [exact Hb|]; eapply R_trans; eassumption).
Qed.

End Existing.

End Footprint.

(** *** The versions of a table *)

Lemma history_grows_trans p a b c :
  history_grows p a b -> history_grows p b c -> history_grows p a c.
Proof.
  intros Hab Hbc h H. destruct (Hab h H) as [h1 H1]. destruct (Hbc _ H1) as [h2 H2].
  exists (h1 ++ h2). rewrite app_assoc. exact H2.
Qed.

Lemma history_grows_same p w w' :
  lake w' = lake w -> files w' = files w -> history_grows p w w'.
Proof. intros Hl _ h H. exists []. rewrite app_nil_r, Hl. exact H. Qed.

Lemma history_grows_write p path mode rows w :
  history_grows p w (write_delta path mode rows w).
Proof.
  intros h H. unfold write_delta. world_simpl.
  destruct (decide (path = p)) as [->|Hne].
  - rewrite lookup_insert_eq, H. cbn [write_versions]. eauto.
  - rewrite lookup_insert_ne by exact Hne. exists []. rewrite app_nil_r. exact H.
Qed.

Lemma history_grows_remove p path w :
  path <> p -> history_grows p w (set_lake (delete path) (set_files (delete path) w)).
Proof.
  intros Hne h H. world_simpl. rewrite lookup_delete_ne by exact Hne.
  exists []. rewrite app_nil_r. exact H.
Qed.

Lemma history_grows_restore p path h (t : Table) w :
  lake w !! path = Some h -> history_grows p w (set_lake (insert path (h ++ [t])) w).
Proof.
  intros Hh h0 H0. world_simpl. destruct (decide (path = p)) as [->|Hne].
  - rewrite lookup_insert_eq. rewrite Hh in H0. injection H0 as ->. eauto.
  - rewrite lookup_insert_ne by exact Hne. exists []. rewrite app_nil_r. exact H0.
Qed.

Lemma history_grows_upload p path f w : history_grows p w (set_files (insert path f) w).
Proof. intros h H. exists []. rewrite app_nil_r. exact H. Qed.

(** X10. Whatever the load mode and whatever fails, a run removes no table
    but the lock file and the manifest [latest_pk], and takes no version
    from a table: the versions [delta/] has at entry are its first versions
    at exit. *)
Theorem run_keeps_versions sql_text restore_last_pk infos w p h :
  p <> lock_file_path ->
  p <> delta_load LATEST_PK_VERSION ->
  lake w !! p = Some h ->
  exists h', lake (exec_write_db_to_delta sql_text restore_last_pk infos w).2 !! p
             = Some (h ++ h').
Proof.
  intros Hlock Hpk Hh.
  refine (within_exec_write_db_to_delta (history_grows p) (fun _ _ => True) (fun q => q <> p)
            (fun _ => True) (fun _ => True) (history_grows_trans p) (history_grows_same p)
            _ _ _ _ I (fun _ => I) I I I _ I _ I
            sql_text restore_last_pk infos I I w h Hh).
  - intros path mode rows w0 _. apply history_grows_write.
  - intros path w0 Hne. apply history_grows_remove, Hne.
  - intros path h0 v t w0 _ Hh0 _. eapply history_grows_restore. exact Hh0.
  - intros path f w0 _. apply history_grows_upload.
  - congruence.
  - congruence.
Qed.

Lemma run_keeps_versions_witness :
  lake (world_changed [false; false; true]) !! delta_path
  = Some [[delta_row 1 "a" 10 1000 true; delta_row 2 "b" 11 1000 true;
           delta_row 3 "c" 12 1000 true]] /\
  exists h',
    lake (exec_write_db_to_delta example_sql_text example_restore_last_pk
            (example_infos mode_overwrite) (world_changed [false; false; true])).2 !! delta_path
    = Some ([[delta_row 1 "a" 10 1000 true; delta_row 2 "b" 11 1000 true;
              delta_row 3 "c" 12 1000 true]] ++ h').
Proof.
  split; [reflexivity|].
  apply (run_keeps_versions example_sql_text example_restore_last_pk
           (example_infos mode_overwrite) (world_changed [false; false; true]) delta_path);
    [discriminate | discriminate | reflexivity].
Defined.

(** *** The rows of [delta/] *)

Lemma rows_kept_trans p a b c : rows_kept p a b -> rows_kept p b c -> rows_kept p a c.
Proof.
  intros Hab Hbc h H. destruct (Hab h H) as (h1 & r1 & H1 & L1).
  destruct (Hbc _ H1) as (h2 & r2 & H2 & L2).
  exists (h1 ++ h2), (r1 ++ r2). rewrite !app_assoc. split; [exact H2|].
  rewrite L2, L1. reflexivity.
Qed.

Lemma rows_kept_same p w w' : lake w' = lake w -> files w' = files w -> rows_kept p w w'.
Proof.
  intros Hl _ h H. exists [], []. rewrite !app_nil_r, Hl. split; [exact H | reflexivity].
Qed.

Lemma rows_kept_unchanged p w w' : lake w' !! p = lake w !! p -> rows_kept p w w'.
Proof.
  intros Hl h H. exists [], []. rewrite !app_nil_r, Hl. split; [exact H | reflexivity].
Qed.

Lemma rows_kept_write p path mode rows w :
  path <> p \/ mode = append -> rows_kept p w (write_delta path mode rows w).
Proof.
  intros Hok. destruct (decide (path = p)) as [->|Hne].
  - destruct Hok as [Hne| ->]; [congruence|]. intros h H. unfold write_delta. world_simpl.
    rewrite lookup_insert_eq, H. cbn [write_versions].
    exists [latest h ++ rows], rows. split; [reflexivity|]. unfold latest at 1.
    apply last_last.
  - apply rows_kept_unchanged. unfold write_delta. world_simpl.
    apply lookup_insert_ne. exact Hne.
Qed.

Lemma rows_kept_is_Some p a b :
  rows_kept p a b -> is_Some (lake a !! p) -> is_Some (lake b !! p).
Proof. intros H [h Hh]. destruct (H h Hh) as (h' & r & Hb & _). eauto. Qed.

(** X11. In every load mode but [overwrite], and whatever fails, a run on a
    [delta/] that is there only adds rows to it: the versions at entry stay
    and the newest version at exit begins with the rows of the newest
    version at entry. *)
Theorem run_only_appends_rows sql_text restore_last_pk infos w h :
  load_mode (write_config infos) <> mode_overwrite ->
  lake w !! delta_path = Some h ->
  exists h' rows,
    lake (exec_write_db_to_delta sql_text restore_last_pk infos w).2 !! delta_path
    = Some (h ++ h') /\
    latest (h ++ h') = latest h ++ rows.
Proof.
  intros Hmode Hh.
  refine (within_exec_write_db_to_delta_existing (rows_kept delta_path)
            (fun q mode => q <> delta_path \/ mode = append) (fun q => q <> delta_path)
            (fun q => q <> delta_path) (fun _ => True)
            (rows_kept_trans delta_path) (rows_kept_same delta_path)
            _ _ _ _ _ _ _ _ _ _ _ _ _
            sql_text restore_last_pk infos Hmode (rows_kept_is_Some delta_path) w I _ h Hh);
    try (left; discriminate); try discriminate; try (intros; left; discriminate); eauto.
  - intros path mode rows w0 Hok. apply rows_kept_write, Hok.
  - intros path w0 Hne. apply rows_kept_unchanged. world_simpl.
    apply lookup_delete_ne. exact Hne.
  - intros path h0 v t w0 Hne _ _. apply rows_kept_unchanged. world_simpl.
    apply lookup_insert_ne. exact Hne.
  - intros path f w0 _. apply rows_kept_unchanged. reflexivity.
Qed.

Lemma run_only_appends_rows_witness :
  lake world_failing !! delta_path
  = Some [[delta_row 1 "a" 10 1000 true; delta_row 2 "b" 11 1000 true;
           delta_row 3 "c" 12 1000 true]] /\
  exists h' rows,
    lake (exec_write_db_to_delta example_sql_text example_restore_last_pk
            (example_infos mode_auto) world_failing).2 !! delta_path
    = Some ([[delta_row 1 "a" 10 1000 true; delta_row 2 "b" 11 1000 true;
              delta_row 3 "c" 12 1000 true]] ++ h') /\
    latest ([[delta_row 1 "a" 10 1000 true; delta_row 2 "b" 11 1000 true;
              delta_row 3 "c" 12 1000 true]] ++ h')
    = [delta_row 1 "a" 10 1000 true; delta_row 2 "b" 11 1000 true;
       delta_row 3 "c" 12 1000 true] ++ rows.
Proof.
  split; [reflexivity|].
  apply (run_only_appends_rows example_sql_text example_restore_last_pk
           (example_infos mode_auto) world_failing); [discriminate | reflexivity].
Defined.

(** *** The paths of a run *)

Lemma untouched_trans tables plain a b c :
  untouched tables plain a b -> untouched tables plain b c -> untouched tables plain a c.
Proof.
  intros [Hl1 Hf1] [Hl2 Hf2]. split; intros p Hp.
  - rewrite Hl2, Hl1 by exact Hp. reflexivity.
  - rewrite Hf2, Hf1 by exact Hp. reflexivity.
Qed.

Lemma untouched_same tables plain w w' :
  lake w' = lake w -> files w' = files w -> untouched tables plain w w'.
Proof. intros Hl Hf. split; intros p _; [rewrite Hl | rewrite Hf]; reflexivity. Qed.

Lemma untouched_write tables plain path mode rows w :
  path ∈ tables -> untouched tables plain w (write_delta path mode rows w).
Proof.
  intros Hin. split; intros p Hp; [|reflexivity]. unfold write_delta. world_simpl.
  apply lookup_insert_ne. intros ->. exact (Hp Hin).
Qed.

Lemma untouched_remove tables plain path w :
  path ∈ tables /\ path ∈ plain ->
  untouched tables plain w (set_lake (delete path) (set_files (delete path) w)).
Proof.
  intros [Ht Hp]. split; intros p Hn; world_simpl; apply lookup_delete_ne; intros ->; auto.
Qed.

Lemma untouched_restore tables plain path (h : list Table) w :
  path ∈ tables -> untouched tables plain w (set_lake (insert path h) w).
Proof.
  intros Hin. split; intros p Hp; [|reflexivity]. world_simpl.
  apply lookup_insert_ne. intros ->. exact (Hp Hin).
Qed.

Lemma untouched_upload tables plain path f w :
  path ∈ plain -> untouched tables plain w (set_files (insert path f) w).
Proof.
  intros Hin. split; intros p Hp; [reflexivity|]. world_simpl.
  apply lookup_insert_ne. intros ->. exact (Hp Hin).
Qed.

Ltac in_list := repeat first [apply list_elem_of_here | apply list_elem_of_further].

(** X12. Whatever the load mode and whatever fails, a run changes no table
    but [delta/], the four tables under [delta_load/] and what is at the
    path of the lock file, and no file but [meta/schema.json], the lock
    file and what is at the path of [latest_pk]. *)
Theorem run_footprint sql_text restore_last_pk infos w :
  untouched run_tables ("meta/schema.json" :: run_files) w
            (exec_write_db_to_delta sql_text restore_last_pk infos w).2.
Proof.
  refine (within_exec_write_db_to_delta
            (untouched run_tables ("meta/schema.json" :: run_files))
            (fun q _ => q ∈ run_tables)
            (fun q => q ∈ run_tables /\ q ∈ "meta/schema.json" :: run_files)
            (fun q => q ∈ run_tables) (fun q => q ∈ "meta/schema.json" :: run_files)
            (untouched_trans _ _) (untouched_same _ _) _ _ _ _ _ _ _ _ _ _ _ _ _
            sql_text restore_last_pk infos _ _ w);
    try (unfold run_tables, run_files; in_list; fail);
    try (split; unfold run_tables, run_files; in_list; fail).
  - intros path mode rows w0 Hin. apply untouched_write, Hin.
  - intros path w0 Hin. apply untouched_remove, Hin.
  - intros path h v t w0 Hin _ _. apply untouched_restore, Hin.
  - intros path f w0 Hin. apply untouched_upload, Hin.
  - intros mode. unfold run_tables. in_list.
Qed.

(** X13. Every run, whatever fails in it, leaves in [meta/schema.json] the
    description of the columns it was called with. *)
Theorem run_uploads_schema sql_text restore_last_pk infos w :
  files (exec_write_db_to_delta sql_text restore_last_pk infos w).2 !! "meta/schema.json"
  = Some {| f_content := SchemaJson (col_infos infos); f_mtime := now w |}.
Proof.
  assert (H : untouched run_tables run_files
                (add_event (EvUploadStr "meta/schema.json")
                   (set_files (insert "meta/schema.json"
                                      {| f_content := SchemaJson (col_infos infos);
                                         f_mtime := now w |})
                              (add_event (EvMkdir "meta") w)))
                (exec_write_db_to_delta sql_text restore_last_pk infos w).2).
  { refine (within_exec_after_upload
              (untouched run_tables run_files)
              (fun q _ => q ∈ run_tables) (fun q => q ∈ run_tables /\ q ∈ run_files)
              (fun q => q ∈ run_tables) (fun q => q ∈ run_files)
              (untouched_trans _ _) (untouched_same _ _) _ _ _ _ _ _ _ _ _ _ _ _ _
              sql_text restore_last_pk infos w _);
      try (unfold run_tables, run_files; in_list; fail);
      try (split; unfold run_tables, run_files; in_list; fail).
    - intros path mode rows w0 Hin. apply untouched_write, Hin.
    - intros path w0 Hin. apply untouched_remove, Hin.
    - intros path h v t w0 Hin _ _. apply untouched_restore, Hin.
    - intros path f w0 Hin. apply untouched_upload, Hin.
    - intros mode. unfold run_tables. in_list. }
  destruct H as [_ Hf]. rewrite Hf.
  - world_simpl. apply lookup_insert_eq.
  - unfold run_files. intros Hin.
    repeat (apply elem_of_cons in Hin as [Hin|Hin]; [discriminate Hin|]).
    apply elem_of_nil in Hin. exact Hin.
Qed.

(** X14. A full load of a table without a delta column, whatever fails:
    it writes to [delta/] and to nothing else; no manifest is written. *)
Theorem full_load_without_delta_col infos mode w :
  delta_col infos = None ->
  untouched [delta_path] [] w (do_full_load infos mode w).2.
Proof.
  intros Hdc.
  refine (within_do_full_load_no_delta_col (untouched [delta_path] [])
            (fun q _ => q ∈ [delta_path]) (untouched_trans _ _) (untouched_same _ _) _
            infos mode Hdc _ w).
  - intros path m rows w0 Hin. apply untouched_write, Hin.
  - in_list.
Qed.

Lemma full_load_without_delta_col_witness :
  delta_col infos_identity = None /\
  untouched [delta_path] [] world_identity (do_full_load infos_identity append world_identity).2.
Proof.
  split; [reflexivity|].
  apply (full_load_without_delta_col infos_identity append world_identity). reflexivity.
Defined.

(** ** Type names *)

Section TypeNames.

Import Stdlib.Strings.Ascii.


Lemma str_app_nil (s : string) : EmptyString +:+ s = s.
Proof. reflexivity. Qed.

Lemma str_app_cons (c : Ascii.ascii) (a b : string) : String c a +:+ b = String c (a +:+ b).
Proof. reflexivity. Qed.

Lemma str_index_app (c : Ascii.ascii) (base rest : string) :
  str_in c base = false ->
  str_index c (base +:+ String c rest) = Some (String.length base).
Proof.
  induction base as [|x base IH]; intros Hin.
  - rewrite str_app_nil. cbn [str_index String.length]. rewrite Ascii.eqb_refl. reflexivity.
  - rewrite str_app_cons. cbn [str_index String.length].
    cbn [str_in] in Hin. apply orb_false_iff in Hin as [Hx Hin].
    rewrite Hx, IH by exact Hin. reflexivity.
Qed.

Lemma str_in_app (c : Ascii.ascii) (a b : string) :
  str_in c (a +:+ b) = str_in c a || str_in c b.
Proof.
  induction a as [|x a IH]; [reflexivity|].
  rewrite str_app_cons. cbn [str_in]. rewrite IH, orb_assoc. reflexivity.
Qed.

Lemma str_in_here (c : Ascii.ascii) (s : string) : str_in c (String c s) = true.
Proof. cbn [str_in]. rewrite Ascii.eqb_refl. reflexivity. Qed.

Lemma str_take_app (a b : string) : str_take (String.length a) (a +:+ b) = a.
Proof.
  induction a as [|x a IH].
  - rewrite str_app_nil. destruct b; reflexivity.
  - rewrite str_app_cons. cbn [String.length str_take]. rewrite IH. reflexivity.
Qed.

Lemma str_drop_app (a b : string) : str_drop (String.length a) (a +:+ b) = b.
Proof.
  induction a as [|x a IH].
  - rewrite str_app_nil. destruct b; reflexivity.
  - rewrite str_app_cons. cbn [String.length str_drop]. exact IH.
Qed.

Lemma str_drop_app_cons (a : string) (c : Ascii.ascii) (b : string) :
  str_drop (S (String.length a)) (a +:+ String c b) = b.
Proof.
  induction a as [|x a IH].
  - rewrite str_app_nil. cbn [String.length str_drop]. destruct b; reflexivity.
  - rewrite str_app_cons. cbn [String.length str_drop]. exact IH.
Qed.

Lemma str_drop_last_snoc (a : string) (c : Ascii.ascii) :
  str_drop_last (a +:+ String c EmptyString) = a.
Proof.
  induction a as [|x a IH]; [reflexivity|].
  rewrite str_app_cons. cbn [str_drop_last]. rewrite IH.
  destruct a; reflexivity.
Qed.

Lemma str_split_1_app (c : Ascii.ascii) (base rest : string) :
  str_in c base = false ->
  str_split_1 c (base +:+ String c rest) = [base; rest].
Proof.
  intros Hin. unfold str_split_1. rewrite str_index_app by exact Hin.
  rewrite str_take_app, str_drop_app_cons. reflexivity.
Qed.

Lemma str_split_absent (c : Ascii.ascii) (s : string) :
  str_in c s = false -> str_split c s = [s].
Proof.
  induction s as [|x s IH]; intros Hin; [reflexivity|].
  cbn [str_in] in Hin. apply orb_false_iff in Hin as [Hx Hin].
  cbn [str_split]. rewrite Hx, IH by exact Hin. reflexivity.
Qed.

Lemma str_split_present (c : Ascii.ascii) (s : string) :
  str_in c s = true -> exists a b rest, str_split c s = a :: b :: rest.
Proof.
  induction s as [|x s IH]; intros Hin; [discriminate|].
  cbn [str_in] in Hin. cbn [str_split].
  destruct (Ascii.eqb x c) eqn:Hx.
  - destruct (str_split c s) as [|p ps] eqn:Hs; [destruct s; cbn in Hs; [discriminate|]|eauto].
    destruct (Ascii.eqb a c); [discriminate|]. destruct (str_split c s); discriminate.
  - cbn [orb] in Hin. destruct (IH Hin) as (a & b & rest & ->). eauto.
Qed.

Variable py_int : string -> option Z.
Variable py_strip : string -> string.
Variable py_upper : string -> string.

(** X15. [from_name_type] on a type name with one argument, as in
    [varchar(50)]: the text before the first parenthesis is the data type;
    the argument is read with [int] and is the maximum length of the four
    character types, the precision of [decimal] and [numeric], and dropped
    for every other type; the scale is none.  An argument that [int] cannot
    read, as in [varchar(max)], raises [ValueError].  The last character of
    the type name is dropped without a look at it. *)
Theorem from_name_type_one_argument (name base a : string) (c : Ascii.ascii) :
  str_in "("%char base = false ->
  str_in ","%char a = false ->
  from_name_type py_int name (base +:+ "(" +:+ a +:+ String c EmptyString)
  = match py_int a with
    | Some precision =>
        Parsed {| column_name := name;
                  data_type := base;
                  column_default := None;
                  is_nullable := true;
                  character_maximum_length :=
                    if bool_decide (base ∈ ["varchar"; "char"; "nvarchar"; "nchar"])
                    then Some precision else None;
                  numeric_precision :=
                    if bool_decide (base ∈ ["decimal"; "numeric"]) then Some precision else None;
                  numeric_scale := None;
                  datetime_precision := None;
                  generated_always_type_desc := Some NOT_APPLICABLE;
                  is_identity := false |}
    | None => ValueError
    end.
Proof.
  intros Hbase Ha. unfold from_name_type.
  change ("(" +:+ a +:+ String c EmptyString)
    with (String "("%char (a +:+ String c EmptyString)).
  rewrite str_in_app, str_in_here, orb_true_r.
  rewrite str_split_1_app by exact Hbase.
  rewrite str_drop_last_snoc, Ha. unfold int.
  destruct (py_int a) as [precision|]; [|reflexivity].
  destruct (bool_decide (base ∈ ["decimal"; "numeric"])); reflexivity.
Qed.

(** X16. [from_name_type] on a type name with two arguments, as in
    [decimal(10,2)]: both are read with [int], the first before the
    second; they are the precision and the scale of [decimal] and
    [numeric]; for a character type the first is the maximum length and the
    scale is dropped.  [ValueError] when [int] cannot read one of them. *)
Theorem from_name_type_two_arguments (name base a b : string) (c : Ascii.ascii) :
  str_in "("%char base = false ->
  str_in ","%char a = false ->
  from_name_type py_int name (base +:+ "(" +:+ a +:+ "," +:+ b +:+ String c EmptyString)
  = match py_int a, py_int b with
    | Some precision, Some scale =>
        Parsed {| column_name := name;
                  data_type := base;
                  column_default := None;
                  is_nullable := true;
                  character_maximum_length :=
                    if bool_decide (base ∈ ["varchar"; "char"; "nvarchar"; "nchar"])
                    then Some precision else None;
                  numeric_precision :=
                    if bool_decide (base ∈ ["decimal"; "numeric"]) then Some precision else None;
                  numeric_scale :=
                    if bool_decide (base ∈ ["decimal"; "numeric"]) then Some scale else None;
                  datetime_precision := None;
                  generated_always_type_desc := Some NOT_APPLICABLE;
                  is_identity := false |}
    | _, _ => ValueError
    end.
Proof.
  intros Hbase Ha. unfold from_name_type.
  change ("(" +:+ a +:+ "," +:+ b +:+ String c EmptyString)
    with (String "("%char (a +:+ "," +:+ b +:+ String c EmptyString)).
  rewrite str_in_app, str_in_here, orb_true_r.
  rewrite str_split_1_app by exact Hbase.
  replace (a +:+ "," +:+ b +:+ String c EmptyString)
    with ((a +:+ String ","%char b) +:+ String c EmptyString).
  2:{ clear. induction a as [|x a IH]; [reflexivity|].
      rewrite !str_app_cons, IH. reflexivity. }
  rewrite str_drop_last_snoc.
  rewrite str_in_app, str_in_here, orb_true_r.
  rewrite str_split_1_app by exact Ha. unfold int.
  destruct (py_int a) as [precision|]; [|reflexivity].
  destruct (py_int b) as [scale|]; reflexivity.
Qed.

(** X17. [_get_query_cols] on a type name with one argument, whatever the
    type: the text before the first parenthesis is the data type and the
    argument is the maximum length, [-1] when, stripped and in upper case,
    it reads [MAX], and what [int] makes of it otherwise; [ValueError] when
    [int] cannot read it.  The precision and the scale are those of the
    row; the name and the two flags of the row must pass the validation of
    the model, after the type name is read. *)
Theorem query_col_one_argument (d : describe_row) (base a : string) (c : Ascii.ascii) :
  dr_system_type_name d = Some (base +:+ "(" +:+ a +:+ String c EmptyString) ->
  str_in "("%char base = false ->
  str_in ","%char a = false ->
  query_col py_int py_strip py_upper d
  = match (if bool_decide (py_upper (py_strip a) = "MAX") then Some (-1)
           else py_int (py_strip a)) with
    | Some n => described_col d base (Some n)
    | None => DescribeValueError
    end.
Proof.
  intros Hname Hbase Ha. unfold query_col. rewrite Hname.
  change ("(" +:+ a +:+ String c EmptyString)
    with (String "("%char (a +:+ String c EmptyString)).
  rewrite str_in_app, str_in_here, orb_true_r.
  rewrite str_index_app by exact Hbase. rewrite str_take_app.
  rewrite Nat.add_1_r, str_drop_app_cons, str_drop_last_snoc.
  rewrite str_split_absent by exact Ha. unfold _ta, int.
  destruct (bool_decide (py_upper (py_strip a) = "MAX")); [reflexivity|].
  destruct (py_int (py_strip a)); reflexivity.
Qed.

(** X18. [_get_query_cols] on a type name with two or more arguments, as
    in [decimal(10,2)]: no maximum length, and nothing is read with [int]:
    the precision and the scale are those of the row. *)
Theorem query_col_more_arguments (d : describe_row) (base args : string) (c : Ascii.ascii) :
  dr_system_type_name d = Some (base +:+ "(" +:+ args +:+ String c EmptyString) ->
  str_in "("%char base = false ->
  str_in ","%char args = true ->
  query_col py_int py_strip py_upper d = described_col d base None.
Proof.
  intros Hname Hbase Hargs. unfold query_col. rewrite Hname.
  change ("(" +:+ args +:+ String c EmptyString)
    with (String "("%char (args +:+ String c EmptyString)).
  rewrite str_in_app, str_in_here, orb_true_r.
  rewrite str_index_app by exact Hbase. rewrite str_take_app.
  rewrite Nat.add_1_r, str_drop_app_cons, str_drop_last_snoc.
  destruct (str_split_present _ _ Hargs) as (x & y & rest & ->). reflexivity.
Qed.

Lemma query_col_plain (d : describe_row) (t : string) :
  dr_system_type_name d = Some t -> str_in "("%char t = false ->
  query_col py_int py_strip py_upper d = described_col d t None.
Proof. intros Ht Hp. unfold query_col. rewrite Ht, Hp. reflexivity. Qed.

(** X19. On rows whose type names have no parenthesis, [_get_query_cols]
    reads nothing with [int] and raises no [ValueError]: when the name and
    the two flags of every row pass the validation of the model, it gives
    the columns of the rows, in their order, with the type name as the data
    type and no maximum length; and the first row whose name or flag is
    [None] raises [ValidationError]. *)
Theorem get_query_cols_plain (dicts : list describe_row) (cols : list InformationSchemaColInfo)
    (rest : list describe_row) (bad : describe_row) :
  Forall2 (fun d c => exists t, dr_system_type_name d = Some t /\
                                str_in "("%char t = false /\
                                described_col d t None = Described c) dicts cols ->
  (exists t, dr_system_type_name bad = Some t /\ str_in "("%char t = false) ->
  dr_name bad = None \/ dr_is_identity_column bad = None \/ dr_is_nullable bad = None ->
  _get_query_cols py_int py_strip py_upper dicts = Described cols /\
  _get_query_cols py_int py_strip py_upper (dicts ++ bad :: rest) = DescribeValidationError.
Proof.
  intros Hall (t & Ht & Hp) Hbad.
  assert (Hb : query_col py_int py_strip py_upper bad = DescribeValidationError).
  { rewrite (query_col_plain bad t Ht Hp). unfold described_col.
    destruct Hbad as [->|[->| ->]]; [reflexivity| |].
    - destruct (dr_name bad); reflexivity.
    - destruct (dr_name bad), (dr_is_identity_column bad); reflexivity. }
  induction Hall as [|d c dicts cols (td & Hd & Hpd & Hc) _ [IH1 IH2]].
  - split; [reflexivity|]. cbn [app _get_query_cols]. rewrite Hb. reflexivity.
  - cbn [app _get_query_cols]. rewrite (query_col_plain d td Hd Hpd), Hc, IH1, IH2.
    split; reflexivity.
Qed.

End TypeNames.

Section TypeNameExamples.

Import Stdlib.Strings.Ascii.

Lemma from_name_type_one_argument_witness :
  str_in "("%char "varchar" = false /\
  exists c, from_name_type ascii_int "name" "varchar(50)" = Parsed c /\
            data_type c = "varchar" /\ character_maximum_length c = Some 50 /\
            numeric_precision c = None.
Proof.
  split; [reflexivity|].
  pose proof (from_name_type_one_argument ascii_int "name" "varchar" "50" ")"%char
                eq_refl eq_refl) as H.
  eexists. split; [exact H|]. repeat split.
Defined.

Lemma from_name_type_two_arguments_witness :
  str_in "("%char "decimal" = false /\
  exists c, from_name_type ascii_int "amount" "decimal(10,2)" = Parsed c /\
            data_type c = "decimal" /\ numeric_precision c = Some 10 /\
            numeric_scale c = Some 2 /\ character_maximum_length c = None.
Proof.
  split; [reflexivity|].
  pose proof (from_name_type_two_arguments ascii_int "amount" "decimal" "10" "2" ")"%char
                eq_refl eq_refl) as H.
  eexists. split; [exact H|]. repeat split.
Defined.

Lemma query_col_one_argument_witness :
  str_in "("%char "nvarchar" = false /\
  query_col ascii_int ascii_strip ascii_upper (example_describe_row "name" "nvarchar(max)")
  = Described (example_described_col "name" "nvarchar" (Some (-1))) /\
  query_col ascii_int ascii_strip ascii_upper (unnamed_describe_row "nvarchar(max)")
  = DescribeValidationError.
Proof.
  split; [reflexivity|]. split.
  - exact (query_col_one_argument ascii_int ascii_strip ascii_upper
             (example_describe_row "name" "nvarchar(max)") "nvarchar" "max" ")"%char
             eq_refl eq_refl eq_refl).
  - exact (query_col_one_argument ascii_int ascii_strip ascii_upper
             (unnamed_describe_row "nvarchar(max)") "nvarchar" "max" ")"%char
             eq_refl eq_refl eq_refl).
Defined.

Lemma query_col_more_arguments_witness :
  str_in ","%char "10,2" = true /\
  query_col ascii_int ascii_strip ascii_upper (example_describe_row "amount" "decimal(10,2)")
  = Described (example_described_col "amount" "decimal" None).
Proof.
  split; [reflexivity|].
  exact (query_col_more_arguments ascii_int ascii_strip ascii_upper
           (example_describe_row "amount" "decimal(10,2)") "decimal" "10,2" ")"%char
           eq_refl eq_refl eq_refl).
Defined.

Lemma get_query_cols_plain_witness :
  _get_query_cols ascii_int ascii_strip ascii_upper
    [example_describe_row "id" "int"; example_describe_row "ts" "bigint"]
  = Described [example_described_col "id" "int" None; example_described_col "ts" "bigint" None] /\
  _get_query_cols ascii_int ascii_strip ascii_upper
    ([example_describe_row "id" "int"; example_describe_row "ts" "bigint"]
     ++ unnamed_describe_row "int" :: [example_describe_row "name" "varchar(x)"])
  = DescribeValidationError.
Proof.
  apply (get_query_cols_plain ascii_int ascii_strip ascii_upper
           [example_describe_row "id" "int"; example_describe_row "ts" "bigint"]
           [example_described_col "id" "int" None; example_described_col "ts" "bigint" None]
           [example_describe_row "name" "varchar(x)"] (unnamed_describe_row "int")).
  - repeat constructor; eexists; repeat split; reflexivity.
  - eexists. split; reflexivity.
  - left. reflexivity.
Defined.

End TypeNameExamples.

(** ** The keys of the strange updates on their way to the source *)

Lemma documents_concat sql_text full_sql (chunks : list Table) :
  List.concat (documents sql_text full_sql chunks) = List.concat chunks.
Proof.
  unfold documents. induction chunks as [|chunk chunks IH]; [reflexivity|].
  cbn [map List.concat]. rewrite concat_app, IH. f_equal.
  destruct (oversized sql_text full_sql chunk); cbn [List.concat].
  - rewrite app_nil_r. apply take_drop.
  - apply app_nil_r.
Qed.

Lemma rows_serializable_chunks (jsd : Table) chunk_size :
  rows_serializable jsd = true ->
  forallb rows_serializable (_list_to_chunks jsd chunk_size) = true.
Proof.
  intros Hjsd. apply forallb_forall. intros chunk Hin.
  unfold rows_serializable in *. apply forallb_forall. intros r Hr.
  rewrite forallb_forall in Hjsd. apply Hjsd.
  pose proof (list_to_chunks_from_concat jsd [] chunk_size) as Hc. cbn [app] in Hc.
  rewrite <- Hc. apply in_concat. exists chunk. split; [exact Hin | exact Hr].
Qed.

(** X20. The batches of keys, when no call fails and every key can be
    written as JSON: the statements sent to the source carry JSON documents
    that, put one after the other, are the keys of the strange updates, in
    their order: chunking and splitting lose no key and send none twice. *)
Theorem chunks_carry_every_key sql_text table pk_cols cols wc path (jsd : Table) chunk_size w :
  faults w = [] ->
  String.concat "." (table_parts table) = source_name w ->
  rows_serializable jsd = true ->
  exists w' docs,
    write_chunks sql_text (full_sql table pk_cols cols wc) path
                 (_list_to_chunks jsd chunk_size) true w = (Ok tt, w') /\
    trace w' = trace w ++ chunk_events (full_sql table pk_cols cols wc) path true docs /\
    List.concat docs = jsd.
Proof.
  intros Hf Hname Hjsd.
  destruct (write_chunks_ok sql_text table pk_cols cols wc path
              (_list_to_chunks jsd chunk_size) true w Hf Hname
              (rows_serializable_chunks jsd chunk_size Hjsd))
    as (w' & Hrun & Htrace & _).
  exists w', (documents sql_text (full_sql table pk_cols cols wc)
                        (_list_to_chunks jsd chunk_size)).
  split; [exact Hrun|]. split; [exact Htrace|].
  rewrite documents_concat. apply (list_to_chunks_from_concat jsd [] chunk_size).
Qed.

Lemma chunks_carry_every_key_witness :
  faults world_many = [] /\
  exists w' docs,
    write_chunks wide_sql_text
      (full_sql (TSchemaName "dbo" "user2") [col_id] [col_id; col_name; col_ts]
                (example_config mode_auto))
      (delta_load "delta_2") (_list_to_chunks many_documents 466) true world_many = (Ok tt, w') /\
    List.concat docs = many_documents.
Proof.
  split; [reflexivity|].
  destruct (chunks_carry_every_key wide_sql_text (TSchemaName "dbo" "user2") [col_id]
              [col_id; col_name; col_ts] (example_config mode_auto) (delta_load "delta_2")
              many_documents 466 world_many eq_refl eq_refl)
    as (w' & docs & Hrun & _ & Hdocs).
  - vm_compute. reflexivity.
  - exists w', docs. split; [exact Hrun | exact Hdocs].
Defined.

(** ** The first run *)

Lemma exec_cleanup_lake w :
  is_Some (files w !! lock_file_path) ->
  exists w', exec_cleanup w = (Ok tt, w') /\
             lake w' = delete lock_file_path (lake w) /\
             files w' = delete lock_file_path (files w) /\
             log_buffer w' = log_buffer w.
Proof.
  intros Hlock. unfold exec_cleanup.
  assert (Hex : path_exists lock_file_path w = true).
  { unfold path_exists. rewrite bool_decide_eq_true_2 by exact Hlock. reflexivity. }
  rewrite (bind_ok _ _ _ _ _ (dest_remove_ok _ w Hex)).
  set (w1 := add_event _ _).
  destruct (vacuum_ok (delta_load LATEST_PK_VERSION) w1) as (w2 & H2 & Hl2 & Hf2 & Hb2).
  rewrite (bind_ok _ _ _ _ _ H2).
  destruct (vacuum_ok (delta_load DELTA_1_NAME) w2) as (w3 & H3 & Hl3 & Hf3 & Hb3).
  rewrite (bind_ok _ _ _ _ _ H3).
  destruct (vacuum_ok (delta_load DELTA_2_NAME) w3) as (w4 & H4 & Hl4 & Hf4 & Hb4).
  rewrite (bind_ok _ _ _ _ _ H4).
  destruct (vacuum_ok (delta_load PRIMARY_KEYS_TS) w4) as (w5 & H5 & Hl5 & Hf5 & Hb5).
  exists w5. split; [exact H5|].
  rewrite Hl5, Hl4, Hl3, Hl2, Hf5, Hf4, Hf3, Hf2, Hb5, Hb4, Hb3, Hb2.
  subst w1. world_simpl. auto.
Qed.

Lemma exec_finally_lake w :
  exists w', exec_finally w = (Ok tt, w') /\
             path_exists lock_file_path w' = false /\ log_buffer w' = [] /\
             forall p, p <> lock_file_path -> lake w' !! p = lake w !! p.
Proof.
  unfold exec_finally. rewrite (bind_ok _ _ _ _ _ (dest_exists_eq _ w)).
  destruct (path_exists lock_file_path w) eqn:Hex.
  - rewrite (bind_ok _ _ _ _ _ (dest_remove_ok _ w Hex)).
    eexists. split; [reflexivity|]. unfold logger_flush, modify. world_simpl.
    split.
    { unfold path_exists. world_simpl. rewrite !lookup_delete_eq.
      rewrite !bool_decide_eq_false_2 by (intros [x Hx]; discriminate). reflexivity. }
    split; [reflexivity|]. intros p Hp. apply lookup_delete_ne. congruence.
  - rewrite bind_ret_l. eexists. split; [reflexivity|]. unfold logger_flush, modify.
    split; [exact Hex|]. split; reflexivity.
Qed.

(** [_vacuum] and the [finally] block only add to the trace. *)
Lemma vacuum_grows dest w :
  exists w', _vacuum dest w = (Ok tt, w') /\ lake w' = lake w /\
             (forall e, In e (trace w) -> In e (trace w')).
Proof.
  unfold _vacuum. rewrite (bind_ok _ _ _ _ _ (local_delta_table_exists_eq _ w)).
  unfold delta_vacuum.
  destruct (lake w !! dest) as [h|] eqn:Hd.
  - rewrite bool_decide_eq_true_2 by eauto. rewrite Hd. eexists. split; [reflexivity|].
    world_simpl. split; [reflexivity|]. intros e He. apply in_or_app. left. exact He.
  - rewrite bool_decide_eq_false_2 by (intros [x Hx]; discriminate).
    eexists. split; [reflexivity|]. auto.
Qed.

Lemma exec_cleanup_vacuums w h :
  is_Some (files w !! lock_file_path) ->
  lake w !! delta_load LATEST_PK_VERSION = Some h ->
  exists w', exec_cleanup w = (Ok tt, w') /\
             lake w' !! delta_load LATEST_PK_VERSION = Some h /\
             In (EvVacuum (delta_load LATEST_PK_VERSION)) (trace w').
Proof.
  intros Hlock Hh. unfold exec_cleanup.
  assert (Hex : path_exists lock_file_path w = true).
  { unfold path_exists. rewrite bool_decide_eq_true_2 by exact Hlock. reflexivity. }
  rewrite (bind_ok _ _ _ _ _ (dest_remove_ok _ w Hex)).
  set (w1 := add_event _ _).
  assert (H1 : lake w1 !! delta_load LATEST_PK_VERSION = Some h).
  { subst w1. world_simpl. rewrite lookup_delete_ne by discriminate. exact Hh. }
  clearbody w1.
  assert (Hv : _vacuum (delta_load LATEST_PK_VERSION) w1
               = (Ok tt, add_event (EvVacuum (delta_load LATEST_PK_VERSION)) w1)).
  { unfold _vacuum. rewrite (bind_ok _ _ _ _ _ (local_delta_table_exists_eq _ w1)).
    rewrite bool_decide_eq_true_2 by eauto. unfold delta_vacuum. rewrite H1. reflexivity. }
  rewrite (bind_ok _ _ _ _ _ Hv).
  set (w2 := add_event _ w1).
  assert (H2 : lake w2 = lake w1 /\ In (EvVacuum (delta_load LATEST_PK_VERSION)) (trace w2)).
  { subst w2. world_simpl. split; [reflexivity|]. apply in_or_app. right. left. reflexivity. }
  destruct H2 as [Hl2 Hin2]. clearbody w2.
  destruct (vacuum_grows (delta_load DELTA_1_NAME) w2) as (w3 & H3 & Hl3 & Ht3).
  rewrite (bind_ok _ _ _ _ _ H3).
  destruct (vacuum_grows (delta_load DELTA_2_NAME) w3) as (w4 & H4 & Hl4 & Ht4).
  rewrite (bind_ok _ _ _ _ _ H4).
  destruct (vacuum_grows (delta_load PRIMARY_KEYS_TS) w4) as (w5 & H5 & Hl5 & Ht5).
  exists w5. split; [exact H5|]. rewrite Hl5, Hl4, Hl3, Hl2. split; [exact H1|].
  apply Ht5, Ht4, Ht3, Hin2.
Qed.

Lemma exec_finally_grows w :
  exists w', exec_finally w = (Ok tt, w') /\
             lake w' !! delta_load LATEST_PK_VERSION = lake w !! delta_load LATEST_PK_VERSION /\
             (forall e, In e (trace w) -> In e (trace w')).
Proof.
  unfold exec_finally. rewrite (bind_ok _ _ _ _ _ (dest_exists_eq _ w)).
  destruct (path_exists lock_file_path w) eqn:Hex.
  - rewrite (bind_ok _ _ _ _ _ (dest_remove_ok _ w Hex)).
    eexists. split; [reflexivity|]. unfold logger_flush, modify. world_simpl.
    split; [unfold lock_file_path; apply lookup_delete_ne; discriminate|].
    intros e He. apply in_or_app. left. exact He.
  - rewrite bind_ret_l. eexists. split; [reflexivity|]. unfold logger_flush, modify.
    world_simpl. auto.
Qed.

(** C9 (as amended). In every run whose load mode is not [simple_delta],
    whatever fails, a [latest_pk] that is there at entry is there at exit,
    with its old versions; and when such a run returns, [latest_pk] has been
    vacuumed, as the transient tables are.  A run in [simple_delta] mode in
    which no call fails, on a table with a delta column and a key and a
    [delta/] whose watermark is not null (the lock path holding no table),
    returns with [latest_pk] removed. *)
Theorem latest_pk_survives sql_text restore_last_pk infos w :
  (load_mode (write_config infos) <> mode_simple_delta ->
   forall h, lake w !! delta_load LATEST_PK_VERSION = Some h ->
     (exists h', lake (exec_write_db_to_delta sql_text restore_last_pk infos w).2
                   !! delta_load LATEST_PK_VERSION = Some (h ++ h')) /\
     ((exec_write_db_to_delta sql_text restore_last_pk infos w).1 = Ok tt ->
      In (EvVacuum (delta_load LATEST_PK_VERSION))
         (trace (exec_write_db_to_delta sql_text restore_last_pk infos w).2))) /\
  (load_mode (write_config infos) = mode_simple_delta ->
   forall dc hd,
     faults w = [] ->
     source_name w = String.concat "." (table_parts (table infos)) ->
     delta_col infos = Some dc ->
     pk_cols infos <> [] ->
     lake w !! delta_path = Some hd ->
     sql_max (map (get_col (get_target_name (write_config infos) dc)) (latest hd)) <> VNull ->
     lake w !! lock_file_path = None ->
     (exec_write_db_to_delta sql_text restore_last_pk infos w).1 = Ok tt /\
     lake (exec_write_db_to_delta sql_text restore_last_pk infos w).2
       !! delta_load LATEST_PK_VERSION = None).
Proof.
  split.
  - intros Hmode h Hh.
    destruct (exec_preamble sql_text restore_last_pk infos w) as (w0 & last & Hrun & Hl0 & _).
    rewrite Hrun. rewrite <- Hl0 in Hh. clear Hrun Hl0.
    assert (Hbody : forall w1 h1,
               lake w1 !! delta_load LATEST_PK_VERSION = Some h1 ->
               (exists h', lake (exec_try_body sql_text restore_last_pk infos w1).2
                             !! delta_load LATEST_PK_VERSION = Some (h1 ++ h')) /\
               ((exec_try_body sql_text restore_last_pk infos w1).1 = Ok tt ->
                In (EvVacuum (delta_load LATEST_PK_VERSION))
                   (trace (exec_try_body sql_text restore_last_pk infos w1).2))).
    { intros w1 h1 H1. unfold exec_try_body.
      destruct (exec_lock_spec w1) as [Hs1 Hlock1].
      destruct (exec_lock w1) as [[[]|e1] w2] eqn:Hlock; cbn [fst snd] in *.
      - rewrite (bind_ok _ _ _ _ _ Hlock).
        pose proof (keeps_exec_dispatch sql_text restore_last_pk infos Hmode w2) as Hd.
        cbv beta in Hd.
        destruct (exec_dispatch sql_text restore_last_pk infos w2) as [[[]|e2] w3] eqn:Hdisp;
          cbn [fst snd] in *.
        + rewrite (bind_ok _ _ _ _ _ Hdisp).
          assert (Hlock3 : is_Some (files w3 !! lock_file_path))
            by (apply Hd, Hlock1; reflexivity).
          destruct (proj1 (stable_trans _ _ _ Hs1 Hd) h1 H1) as [h' Hh'].
          destruct (exec_cleanup_vacuums w3 _ Hlock3 Hh') as (w4 & Hclean & Hkeep & Hvac).
          rewrite Hclean. cbn [fst snd]. split; [eauto | intros _; exact Hvac].
        + rewrite (bind_raise _ _ _ _ _ Hdisp). cbn [fst snd].
          split; [apply (stable_trans _ _ _ Hs1 Hd); exact H1 | discriminate].
      - rewrite (bind_raise _ _ _ _ _ Hlock). cbn [fst snd].
        split; [apply Hs1; exact H1 | discriminate]. }
    assert (Hrestore : keeps (exec_restore last)) by (unfold exec_restore; keeps_tac).
    unfold try_finally, try_except_reraise.
    destruct (Hbody w0 h Hh) as [[h1 Hh1] Hvac].
    destruct (exec_try_body sql_text restore_last_pk infos w0) as [[[]|e0] w3];
      cbn [fst snd] in Hh1, Hvac.
    + destruct (exec_finally_grows w3) as (w5 & Hfin & Hkeep & Hgrow). rewrite Hfin.
      cbn [fst snd]. rewrite Hkeep. split; [eauto|]. intros _. apply Hgrow, Hvac. reflexivity.
    + destruct (proj1 (Hrestore w3) _ Hh1) as [h2 Hh2].
      destruct (exec_restore last w3) as [[[]|e1] w4]; cbn [fst snd] in Hh2;
        destruct (exec_finally_grows w4) as (w5 & Hfin & Hkeep & _); rewrite Hfin;
        cbn [fst snd]; rewrite Hkeep, Hh2, <- app_assoc; (split; [eauto | discriminate]).
  - intros Hmode dc hd Hf Hname Hdc Hpk Hd Hv Hlock.
    unfold exec_write_db_to_delta.
    rewrite (bind_ok _ _ _ _ _ (dest_mkdir_eq _ w)).
    rewrite (bind_ok _ _ _ _ _ (dest_upload_str_eq _ _ _)).
    set (w0 := add_event _ _).
    assert (Hw0 : lake w0 = lake w /\ faults w0 = [] /\ source_name w0 = source_name w /\
                  source_rows w0 = source_rows w /\ now w0 = now w) by (subst w0; auto).
    destruct Hw0 as (Hl0 & Hf0 & Hsn0 & Hsr0 & Hn0). clearbody w0.
    rewrite (bind_ok _ _ _ _ _ (local_delta_table_exists_eq _ w0)).
    assert (Hlast : exists last,
               (if bool_decide (is_Some (lake w0 !! delta_load LATEST_PK_VERSION))
                then try_except (v <- delta_version (delta_load LATEST_PK_VERSION) ;;
                                 ret (Some v))
                                (fun _ => logger_warning "Could not get last version" ;;
                                          ret None)
                else ret None) w0 = (Ok last, w0)).
    { destruct (lake w0 !! delta_load LATEST_PK_VERSION) as [hl|] eqn:Hpk0.
      - rewrite bool_decide_eq_true_2 by eauto. eexists.
        unfold try_except, bind, delta_version. rewrite Hpk0. reflexivity.
      - rewrite bool_decide_eq_false_2 by (intros [x Hx]; discriminate). eexists. reflexivity. }
    destruct Hlast as [last Hlast]. rewrite (bind_ok _ _ _ _ _ Hlast).
    assert (Hbody : exists w3,
               exec_try_body sql_text restore_last_pk infos w0 = (Ok tt, w3) /\
               lake w3 !! delta_load LATEST_PK_VERSION = None).
    { unfold exec_try_body.
      rewrite (bind_ok _ _ _ _ _ (exec_lock_ok w0 ltac:(rewrite Hl0; exact Hlock))).
      set (w1 := add_event _ _).
      assert (Hw1 : lake w1 !! delta_path = Some hd /\ faults w1 = [] /\
                    source_name w1 = source_name w /\ source_rows w1 = source_rows w /\
                    now w1 = now w /\ is_Some (files w1 !! lock_file_path)).
      { subst w1. destruct (lock_stale w0); world_simpl.
        - rewrite lookup_delete_ne by discriminate. rewrite Hl0, lookup_insert_eq. eauto 10.
        - rewrite Hl0, lookup_insert_eq. eauto 10. }
      destruct Hw1 as (Hd1 & Hf1 & Hsn1 & Hsr1 & Hn1 & Hlk1). clearbody w1.
      destruct (simple_delta_load_ok sql_text restore_last_pk infos w1 dc hd Hf1
                  ltac:(rewrite Hsn1; exact Hname) Hdc Hd1 Hv)
        as (w3 & Hrun & _ & Hpk3 & _ & Hfi3).
      assert (Hdisp : exec_dispatch sql_text restore_last_pk infos w1 = (Ok tt, w3)).
      { destruct (exec_dispatch_cases sql_text restore_last_pk infos w1) as (_ & _ & _ & Hcase).
        rewrite Hcase.
        - rewrite bool_decide_eq_true_2 by exact Hmode. exact Hrun.
        - eauto.
        - rewrite Hmode. discriminate.
        - rewrite Hmode. discriminate.
        - rewrite Hmode. discriminate.
        - rewrite Hdc. eauto.
        - exact Hpk. }
      rewrite (bind_ok _ _ _ _ _ Hdisp).
      destruct (exec_cleanup_lake w3) as (w4 & Hclean & Hl4 & _).
      { rewrite Hfi3 by discriminate. exact Hlk1. }
      exists w4. split; [exact Hclean|]. rewrite Hl4.
      rewrite lookup_delete_ne by discriminate. exact Hpk3. }
    destruct Hbody as (w3 & Hbody & Hpk3).
    unfold try_finally, try_except_reraise. rewrite Hbody.
    destruct (exec_finally_lake w3) as (w4 & Hfin & _ & _ & Hl4).
    rewrite Hfin. cbn [fst snd]. split; [reflexivity|].
    rewrite Hl4 by discriminate. exact Hpk3.
Qed.

Lemma latest_pk_survives_witness :
  load_mode (write_config (example_infos mode_auto)) <> mode_simple_delta /\
  (exists h',
     lake (exec_write_db_to_delta example_sql_text example_restore_last_pk
             (example_infos mode_auto) (world_changed [])).2
       !! delta_load LATEST_PK_VERSION
     = Some ([[pk_row 1 10; pk_row 2 11; pk_row 3 12]] ++ h')) /\
  faults (world_changed []) = [] /\
  lake (exec_write_db_to_delta example_sql_text example_restore_last_pk
          (example_infos mode_simple_delta) (world_changed [])).2
    !! delta_load LATEST_PK_VERSION = None.
Proof.
  split; [discriminate|]. split; [|split; [reflexivity|]].
  - destruct (proj1 (latest_pk_survives example_sql_text example_restore_last_pk
                       (example_infos mode_auto) (world_changed []))
                    ltac:(discriminate) [[pk_row 1 10; pk_row 2 11; pk_row 3 12]] eq_refl)
      as [H _].
    exact H.
  - destruct (proj2 (latest_pk_survives example_sql_text example_restore_last_pk
                       (example_infos mode_simple_delta) (world_changed []))
                    eq_refl col_ts
                    [[delta_row 1 "a" 10 1000 true; delta_row 2 "b" 11 1000 true;
                      delta_row 3 "c" 12 1000 true]]
                    eq_refl eq_refl eq_refl ltac:(discriminate) eq_refl
                    ltac:(vm_compute; discriminate) eq_refl)
      as [_ H].
    exact H.
Defined.

(** X21. The first run on a destination without [delta/] (the lock path
    holding no table), in every load mode and with or without a delta
    column, when no call fails: the run returns; [delta/] has one version,
    the rows of the source marked as from a full load; with a delta column
    the manifest [latest_pk] holds the key and delta cells of these rows,
    without one [latest_pk] is not written; the lock file is gone and the
    logger is flushed. *)
Theorem first_run_result sql_text restore_last_pk infos w :
  faults w = [] ->
  source_name w = String.concat "." (table_parts (table infos)) ->
  lake w !! delta_path = None ->
  lake w !! lock_file_path = None ->
  exists w',
    exec_write_db_to_delta sql_text restore_last_pk infos w = (Ok tt, w') /\
    lake w' !! delta_path
    = Some [map (loaded_row (write_config infos) (col_infos infos) (now w) true)
                (source_rows w)] /\
    match delta_col infos with
    | Some dc =>
        exists h, lake w' !! delta_load LATEST_PK_VERSION = Some h /\
                  latest h = project (manifest_cols (write_config infos) (pk_cols infos) dc)
                               (map (loaded_row (write_config infos) (col_infos infos)
                                                (now w) true)
                                    (source_rows w))
    | None => lake w' !! delta_load LATEST_PK_VERSION = lake w !! delta_load LATEST_PK_VERSION
    end /\
    path_exists lock_file_path w' = false /\
    log_buffer w' = [].
Proof.
  intros Hf Hname Hdelta Hlock.
  unfold exec_write_db_to_delta.
  rewrite (bind_ok _ _ _ _ _ (dest_mkdir_eq _ w)).
  rewrite (bind_ok _ _ _ _ _ (dest_upload_str_eq _ _ _)).
  set (w0 := add_event _ _).
  assert (Hw0 : lake w0 = lake w /\ faults w0 = [] /\ source_name w0 = source_name w /\
                source_rows w0 = source_rows w /\ now w0 = now w) by (subst w0; auto).
  destruct Hw0 as (Hl0 & Hf0 & Hsn0 & Hsr0 & Hn0). clearbody w0.
  rewrite (bind_ok _ _ _ _ _ (local_delta_table_exists_eq _ w0)).
  assert (Hlast : exists last,
             (if bool_decide (is_Some (lake w0 !! delta_load LATEST_PK_VERSION))
              then try_except (v <- delta_version (delta_load LATEST_PK_VERSION) ;; ret (Some v))
                              (fun _ => logger_warning "Could not get last version" ;; ret None)
              else ret None) w0 = (Ok last, w0)).
  { destruct (lake w0 !! delta_load LATEST_PK_VERSION) as [hl|] eqn:Hpk.
    - rewrite bool_decide_eq_true_2 by eauto. eexists.
      unfold try_except, bind, delta_version. rewrite Hpk. reflexivity.
    - rewrite bool_decide_eq_false_2 by (intros [x Hx]; discriminate). eexists. reflexivity. }
  destruct Hlast as [last Hlast]. rewrite (bind_ok _ _ _ _ _ Hlast).
  set (rows := map (loaded_row (write_config infos) (col_infos infos) (now w) true)
                   (source_rows w)).
  (* the statements under [try:] *)
  assert (Hbody : exists w3,
             exec_try_body sql_text restore_last_pk infos w0 = (Ok tt, w3) /\
             lake w3 !! delta_path = Some [rows] /\
             match delta_col infos with
             | Some dc =>
                 exists h, lake w3 !! delta_load LATEST_PK_VERSION = Some h /\
                           latest h
                           = project (manifest_cols (write_config infos) (pk_cols infos) dc) rows
             | None =>
                 lake w3 !! delta_load LATEST_PK_VERSION = lake w !! delta_load LATEST_PK_VERSION
             end).
  { unfold exec_try_body.
    rewrite (bind_ok _ _ _ _ _ (exec_lock_ok w0 ltac:(rewrite Hl0; exact Hlock))).
    set (w1 := add_event _ _).
    assert (Hw1 : lake w1 !! delta_path = None /\ faults w1 = [] /\
                  source_name w1 = source_name w /\ source_rows w1 = source_rows w /\
                  now w1 = now w /\ is_Some (files w1 !! lock_file_path) /\
                  lake w1 !! delta_load LATEST_PK_VERSION
                  = lake w !! delta_load LATEST_PK_VERSION).
    { subst w1. destruct (lock_stale w0); world_simpl.
      - rewrite !lookup_delete_ne by discriminate. rewrite Hl0, lookup_insert_eq. eauto 10.
      - rewrite Hl0, lookup_insert_eq. eauto 10. }
    destruct Hw1 as (Hd1 & Hf1 & Hsn1 & Hsr1 & Hn1 & Hlk1 & Hpk1). clearbody w1.
    set (w2 := set_log (log_buffer (add_event (EvMkdir delta_path) w1)
                        ++ [(INFO, table_str (table infos) +:+ ": Start Full Load")])
                       (log_sink w1) (add_event (EvMkdir delta_path) w1)).
    destruct (do_full_load_run infos overwrite w2 Hf1
                ltac:(subst w2; world_simpl; rewrite Hsn1; exact Hname))
      as (w3 & l & Hrun & Hl3 & _ & _ & Hfi3 & _).
    assert (Hrows : full_load_rows infos w2 = rows).
    { unfold full_load_rows. subst w2 rows. world_simpl. rewrite Hn1, Hsr1. reflexivity. }
    assert (Hdisp : exec_dispatch sql_text restore_last_pk infos w1 = (Ok tt, w3)).
    { unfold exec_dispatch.
      rewrite (bind_ok _ _ _ _ _ (local_delta_table_exists_eq _ w1)). rewrite Hd1.
      rewrite bool_decide_eq_false_2 by (intros [x Hx]; discriminate).
      cbv [negb orb]. cbv iota.
      rewrite (bind_ok _ _ _ _ _ (dest_mkdir_eq _ w1)).
      unfold logger_info at 1. rewrite (bind_ok _ _ _ _ _ (logger_log_ok _ _ _)).
      exact Hrun. }
    rewrite (bind_ok _ _ _ _ _ Hdisp).
    destruct (exec_cleanup_lake w3) as (w4 & Hclean & Hl4 & _).
    { rewrite Hfi3. subst w2. world_simpl. exact Hlk1. }
    exists w4. split; [exact Hclean|]. rewrite Hl4, Hl3.
    assert (Hd2 : lake w2 !! delta_path = None) by (subst w2; world_simpl; exact Hd1).
    assert (Hpk2 : lake w2 !! delta_load LATEST_PK_VERSION
                   = lake w !! delta_load LATEST_PK_VERSION)
      by (subst w2; world_simpl; exact Hpk1).
    destruct (delta_col infos) as [dc|].
    - split.
      + rewrite lookup_delete_ne by discriminate. rewrite lookup_insert_ne by discriminate.
        rewrite lookup_insert_eq, Hd2, Hrows. reflexivity.
      + eexists. split.
        * rewrite lookup_delete_ne by discriminate. apply lookup_insert_eq.
        * rewrite latest_write_overwrite. unfold full_load_manifest, old_rows.
          rewrite Hd2, Hrows. rewrite latest_write_overwrite.
          cbn [map]. unfold sql_max. cbn [fold_left truthy]. rewrite filter_true. reflexivity.
    - split.
      + rewrite lookup_delete_ne by discriminate.
        rewrite lookup_insert_eq, Hd2, Hrows. reflexivity.
      + rewrite lookup_delete_ne by discriminate. rewrite lookup_insert_ne by discriminate.
        exact Hpk2. }
  destruct Hbody as (w3 & Hbody & Hd3 & Hpk3).
  unfold try_finally, try_except_reraise. rewrite Hbody.
  destruct (exec_finally_lake w3) as (w4 & Hfin & Hlock4 & Hlog4 & Hl4).
  rewrite Hfin. exists w4. split; [reflexivity|].
  rewrite !Hl4 by discriminate. auto.
Qed.

Lemma first_run_result_witness :
  faults world_fresh = [] /\
  (exists w',
     exec_write_db_to_delta example_sql_text example_restore_last_pk (example_infos mode_auto)
                            world_fresh = (Ok tt, w') /\
     lake w' !! delta_path
     = Some [[delta_row 1 "a" 10 1000 true; delta_row 2 "b" 11 1000 true;
              delta_row 3 "c" 12 1000 true]] /\
     path_exists lock_file_path w' = false) /\
  (exists w',
     exec_write_db_to_delta example_sql_text example_restore_last_pk infos_identity
                            world_fresh = (Ok tt, w') /\
     lake w' !! delta_load LATEST_PK_VERSION = None).
Proof.
  split; [reflexivity|]. split.
  - destruct (first_run_result example_sql_text example_restore_last_pk
                (example_infos mode_auto) world_fresh eq_refl eq_refl eq_refl eq_refl)
      as (w' & Hrun & Hd & _ & Hlock & _).
    exists w'. split; [exact Hrun|]. split; [rewrite Hd; reflexivity | exact Hlock].
  - destruct (first_run_result example_sql_text example_restore_last_pk
                infos_identity world_fresh eq_refl eq_refl eq_refl eq_refl)
      as (w' & Hrun & _ & Hpk & _).
    exists w'. split; [exact Hrun | exact Hpk].
Defined.

(** ** The manifest after a delta load *)

Lemma sql_eq_true a b : sql_eq a b = VBool true -> a = b /\ a <> VNull.
Proof.
  unfold sql_eq. destruct a, b; cbv beta iota; try discriminate; intros H; injection H as H;
    apply bool_decide_eq_true in H; (split; [exact H | discriminate]).
Qed.

Lemma is_true_sql_eq a b : is_true (sql_eq a b) = true -> a = b /\ a <> VNull.
Proof.
  intros H. apply sql_eq_true. destruct (sql_eq a b) as [| | |[]|]; try discriminate.
  reflexivity.
Qed.

Lemma sql_eq_refl a : a <> VNull -> is_true (sql_eq a a) = true.
Proof.
  intros H. unfold sql_eq. destruct a; try congruence; cbv beta iota;
    rewrite bool_decide_eq_true_2 by reflexivity; reflexivity.
Qed.

Lemma pk_match_true keys a b :
  pk_match keys a b = true <->
  forall n, In n keys -> get_col n a = get_col n b /\ get_col n a <> VNull.
Proof.
  unfold pk_match. rewrite forallb_forall. split.
  - intros H n Hn. apply is_true_sql_eq, H, Hn.
  - intros H n Hn. destruct (H n Hn) as [Heq Hnn]. rewrite <- Heq. apply sql_eq_refl, Hnn.
Qed.

Lemma pk_match_trans keys a b c :
  pk_match keys a b = true -> pk_match keys b c = true -> pk_match keys a c = true.
Proof.
  rewrite !pk_match_true. intros Hab Hbc n Hn.
  destruct (Hab n Hn) as [H1 H2]. destruct (Hbc n Hn) as [H3 _]. split; congruence.
Qed.

Lemma pk_match_refl keys a : keys_known keys a = true -> pk_match keys a a = true.
Proof.
  unfold keys_known. rewrite pk_match_true, forallb_forall. intros H n Hn. split; [reflexivity|].
  specialize (H n Hn). apply negb_true_iff, bool_decide_eq_false in H. exact H.
Qed.

Lemma pk_match_values keys a b :
  pk_match keys a b = true -> map (fun n => get_col n a) keys = map (fun n => get_col n b) keys.
Proof.
  rewrite pk_match_true. intros H. apply map_ext_in. intros n Hn. apply H, Hn.
Qed.

Lemma pk_match_project_r (keys cols : list string) (x y : Row) :
  (forall n, In n keys -> In n cols) ->
  pk_match keys x (map (fun n => (n, get_col n y)) cols) = pk_match keys x y.
Proof.
  intros Hsub. unfold pk_match. apply forallb_ext_In. intros n Hn.
  rewrite get_col_project by (apply Hsub; exact Hn). reflexivity.
Qed.

Lemma anti_join_on_intro keys l r x :
  In x l -> (forall y, In y r -> pk_match keys x y = false) -> In x (anti_join_on keys l r).
Proof.
  intros Hin Hno. unfold anti_join_on. apply filter_In. split; [exact Hin|].
  apply negb_true_iff. destruct (existsb (pk_match keys x) r) eqn:Hex; [|reflexivity].
  apply existsb_exists in Hex as (y & Hy & Hm). rewrite (Hno y Hy) in Hm. discriminate.
Qed.

Lemma partner_or_none keys (r : Table) x :
  (exists y, In y r /\ pk_match keys x y = true) \/ (forall y, In y r -> pk_match keys x y = false).
Proof.
  destruct (existsb (pk_match keys x) r) eqn:Hex.
  - left. apply existsb_exists in Hex. exact Hex.
  - right. intros y Hy. destruct (pk_match keys x y) eqn:Hm; [|reflexivity].
    assert (existsb (pk_match keys x) r = true) by (apply existsb_exists; eauto). congruence.
Qed.

Lemma in_project_intro (cols : list string) (t : Table) x :
  In x t -> In (map (fun n => (n, get_col n x)) cols) (project cols t).
Proof. intros H. unfold project. apply in_map_iff. eauto. Qed.

(** Every key of the three tables is in the rows of the manifest. *)
Lemma manifest_rows_cover keys cols (d1 d2 pk_ts : Table) x :
  (forall n, In n keys -> In n cols) ->
  In x d1 \/ In x d2 \/ In x pk_ts ->
  keys_known keys x = true ->
  exists y, In y (manifest_rows keys cols d1 d2 pk_ts) /\ pk_match keys x y = true.
Proof.
  intros Hsub Hin Hknown. unfold manifest_rows.
  destruct (partner_or_none keys d2 x) as [(e & He & Hm)|Hno2].
  { exists (map (fun n => (n, get_col n e)) cols). split.
    - apply in_or_app. left. apply in_project_intro, He.
    - rewrite pk_match_project_r by exact Hsub. exact Hm. }
  assert (Hself : pk_match keys x (map (fun n => (n, get_col n x)) cols) = true).
  { rewrite pk_match_project_r by exact Hsub. apply pk_match_refl, Hknown. }
  destruct Hin as [H1|[H2|H3]].
  - exists (map (fun n => (n, get_col n x)) cols). split; [|exact Hself].
    apply in_or_app. right. apply in_or_app. left.
    apply in_project_intro, anti_join_on_intro; assumption.
  - pose proof (pk_match_refl keys x Hknown) as Hr.
    rewrite (Hno2 x H2) in Hr. discriminate.
  - destruct (partner_or_none keys d1 x) as [(d & Hd & Hm)|Hno1].
    + exists (map (fun n => (n, get_col n d)) cols). split.
      * apply in_or_app. right. apply in_or_app. left.
        apply in_project_intro, anti_join_on_intro; [exact Hd|].
        intros e He. destruct (pk_match keys d e) eqn:Hde; [|reflexivity].
        rewrite <- (Hno2 e He). symmetry. eapply pk_match_trans; eassumption.
      * rewrite pk_match_project_r by exact Hsub. exact Hm.
    + exists (map (fun n => (n, get_col n x)) cols). split; [|exact Hself].
      apply in_or_app. right. apply in_or_app. right.
      apply in_project_intro, anti_join_on_intro; [|exact Hno1].
      apply anti_join_on_intro; assumption.
Qed.

(** Every row of the manifest is made of a row of one of the three tables. *)
Lemma manifest_rows_origin keys cols (d1 d2 pk_ts : Table) y :
  In y (manifest_rows keys cols d1 d2 pk_ts) ->
  exists x, (In x d1 \/ In x d2 \/ In x pk_ts) /\ y = map (fun n => (n, get_col n x)) cols.
Proof.
  unfold manifest_rows. intros H.
  apply in_app_or in H as [H|H]; [|apply in_app_or in H as [H|H]];
    apply In_project in H as (x & Hx & ->); exists x; split; try reflexivity.
  - auto.
  - left. eapply anti_join_on_incl, Hx.
  - right. right. eapply anti_join_on_incl, anti_join_on_incl, Hx.
Qed.

(** What [write_latest_pk] writes when no call fails. *)
Lemma write_latest_pk_rows pks delta_col wc w h1 h2 h3 :
  faults w = [] ->
  lake w !! delta_load DELTA_1_NAME = Some h1 ->
  lake w !! delta_load DELTA_2_NAME = Some h2 ->
  lake w !! delta_load PRIMARY_KEYS_TS = Some h3 ->
  exists w',
    write_latest_pk pks delta_col wc w = (Ok tt, w') /\
    lake w'
    = <[delta_load LATEST_PK_VERSION :=
          write_versions overwrite
            (manifest_rows (map (get_target_name wc) pks) (manifest_cols wc pks delta_col)
                           (latest h1) (latest h2) (latest h3))
            (lake w !! delta_load LATEST_PK_VERSION)]> (lake w) /\
    views w' = <[PRIMARY_KEYS_TS := latest h3]>
                 (<[DELTA_2_NAME := latest h2]> (<[DELTA_1_NAME := latest h1]> (views w))) /\
    faults w' = [] /\ now w' = now w /\ files w' = files w.
Proof.
  intros Hf H1 H2 H3.
  set (keys := map (get_target_name wc) pks).
  set (cols := manifest_cols wc pks delta_col).
  pose proof (latest_pk_query_shape pks delta_col wc) as Hq. cbv zeta in Hq.
  fold keys in Hq. change (keys ++ [get_target_name wc delta_col]) with cols in Hq.
  set (w1 := set_views (insert DELTA_1_NAME (latest h1)) w).
  set (w2 := set_views (insert DELTA_2_NAME (latest h2)) w1).
  set (w3 := set_views (insert PRIMARY_KEYS_TS (latest h3)) w2).
  assert (Hv1 : views w3 !! "delta_1" = Some (latest h1)).
  { subst w3 w2 w1. world_simpl. unfold PRIMARY_KEYS_TS, DELTA_2_NAME, DELTA_1_NAME.
    rewrite !lookup_insert_ne by discriminate. apply lookup_insert_eq. }
  assert (Hv2 : views w3 !! "delta_2" = Some (latest h2)).
  { subst w3 w2 w1. world_simpl. unfold PRIMARY_KEYS_TS, DELTA_2_NAME.
    rewrite lookup_insert_ne by discriminate. apply lookup_insert_eq. }
  assert (Hv3 : views w3 !! "primary_keys_ts" = Some (latest h3)).
  { subst w3 w2 w1. world_simpl. unfold PRIMARY_KEYS_TS. apply lookup_insert_eq. }
  eexists. split.
  { unfold write_latest_pk.
    rewrite (bind_ok _ _ _ _ _ (local_register_update_view_latest _ _ w h1 Hf H1)).
    fold w1.
    rewrite (bind_ok _ _ _ _ _ (local_register_update_view_latest _ _ w1 h2 Hf H2)).
    fold w2.
    rewrite (bind_ok _ _ _ _ _ (local_register_update_view_latest _ _ w2 h3 Hf H3)).
    fold w3. rewrite Hq.
    apply (local_execute_sql_to_delta_ok _ _ _ w3
             (manifest_rows keys cols (latest h1) (latest h2) (latest h3)) Hf).
    unfold manifest_rows.
    apply eval_union_all; [apply eval_select_plain; exact Hv2|].
    apply eval_union_all.
    - apply (eval_select_anti _ _ cols keys _ _ _ (latest h1)); [exact Hv1|].
      apply apply_anti_joins_one; [exact Hv2 | discriminate].
    - apply (eval_select_anti _ _ cols keys _ _ _ (latest h3)); [exact Hv3|].
      apply apply_anti_joins_two; [exact Hv2 | exact Hv1 | discriminate | discriminate]. }
  subst w3 w2 w1. world_simpl. auto 10.
Qed.

(** X22. The manifest [write_latest_pk] writes, when no call fails, holds
    every key of [delta_1], of [delta_2] and of the snapshot
    [primary_keys_ts] whose cells are not NULL, and nothing else: each of
    its rows is the key and delta cells of a row of one of the three. *)
Theorem manifest_holds_every_key pks delta_col wc w h1 h2 h3 :
  faults w = [] ->
  lake w !! delta_load DELTA_1_NAME = Some h1 ->
  lake w !! delta_load DELTA_2_NAME = Some h2 ->
  lake w !! delta_load PRIMARY_KEYS_TS = Some h3 ->
  exists w' h,
    write_latest_pk pks delta_col wc w = (Ok tt, w') /\
    lake w' !! delta_load LATEST_PK_VERSION = Some h /\
    (forall x, In x (latest h1) \/ In x (latest h2) \/ In x (latest h3) ->
               keys_known (map (get_target_name wc) pks) x = true ->
               exists y, In y (latest h) /\
                         pk_match (map (get_target_name wc) pks) x y = true) /\
    (forall y, In y (latest h) ->
               exists x, (In x (latest h1) \/ In x (latest h2) \/ In x (latest h3)) /\
                         y = map (fun n => (n, get_col n x)) (manifest_cols wc pks delta_col)).
Proof.
  intros Hf H1 H2 H3.
  destruct (write_latest_pk_rows pks delta_col wc w h1 h2 h3 Hf H1 H2 H3) as (w' & Hrun & Hl & _).
  eexists w', _. split; [exact Hrun|]. rewrite Hl. split; [apply lookup_insert_eq|].
  rewrite latest_write_overwrite. split.
  - intros x Hx Hknown. apply manifest_rows_cover; [|exact Hx|exact Hknown].
    intros n Hn. unfold manifest_cols. apply in_or_app. left. exact Hn.
  - intros y Hy. apply (manifest_rows_origin _ _ _ _ _ _ Hy).
Qed.

Lemma manifest_holds_every_key_witness :
  faults world_stepped = [] /\
  exists w' h,
    write_latest_pk [col_id] col_ts (example_config mode_auto) world_stepped = (Ok tt, w') /\
    lake w' !! delta_load LATEST_PK_VERSION = Some h /\
    exists y, In y (latest h) /\ pk_match ["id"] (pk_row 4 14) y = true.
Proof.
  split; [reflexivity|].
  destruct (manifest_holds_every_key [col_id] col_ts (example_config mode_auto) world_stepped
              [[delta_row 2 "bb" 13 2000 false; delta_row 4 "d" 14 2000 false]]
              [[delta_row 5 "e" 9 2000 false]]
              [[pk_row 1 10; pk_row 2 13; pk_row 4 14; pk_row 5 9]]
              eq_refl eq_refl eq_refl eq_refl)
    as (w' & h & Hrun & Hh & Hcover & _).
  exists w', h. split; [exact Hrun|]. split; [exact Hh|].
  apply (Hcover (pk_row 4 14)); [|reflexivity].
  right. right. right. right. left. reflexivity.
Defined.

(** ** The tombstones of a delta load *)

Lemma row_values_project_row (names : list string) (z : Row) :
  row_values (map (fun n => (n, get_col n z)) names) = map (fun n => get_col n z) names.
Proof. unfold row_values. rewrite map_map. reflexivity. Qed.

Lemma values_project (names : list string) (t : Table) :
  map row_values (project names t) = map (fun z => map (fun n => get_col n z) names) t.
Proof.
  unfold project. rewrite map_map. apply map_ext. intros z. apply row_values_project_row.
Qed.

Lemma project_project (keys cols : list string) (t : Table) :
  (forall n, In n keys -> In n cols) ->
  project keys (project cols t) = project keys t.
Proof.
  intros Hsub. unfold project. rewrite map_map. apply map_ext. intros z.
  apply map_ext_in. intros n Hn. rewrite get_col_project by (apply Hsub; exact Hn).
  reflexivity.
Qed.

Lemma row_in_same_values (x : Row) (a b : Table) :
  (forall v, In v (map row_values a) <-> In v (map row_values b)) ->
  row_in x a = row_in x b.
Proof.
  intros H. unfold row_in. apply bool_decide_ext. rewrite !list_elem_of_In. apply H.
Qed.

Lemma except_rows_same_values (l a b : Table) :
  (forall v, In v (map row_values a) <-> In v (map row_values b)) ->
  except_rows l a = except_rows l b.
Proof.
  intros H. unfold except_rows. f_equal. apply list_filter_iff. intros x.
  rewrite (row_in_same_values x a b H). reflexivity.
Qed.

(** The keys of the manifest are the keys of the snapshot, when the snapshot
    has every key of [delta_1] and [delta_2]. *)
Lemma manifest_keys_are_snapshot_keys keys cols (d1 d2 pk_ts : Table) v :
  (forall n, In n keys -> In n cols) ->
  (forall x, In x d1 \/ In x d2 -> exists s, In s pk_ts /\ pk_match keys x s = true) ->
  Forall (fun s => keys_known keys s = true) pk_ts ->
  In v (map row_values (project keys (manifest_rows keys cols d1 d2 pk_ts))) <->
  In v (map row_values (project keys pk_ts)).
Proof.
  intros Hsub Hin Hknown. rewrite !values_project. rewrite !in_map_iff. split.
  - intros (y & <- & Hy).
    apply manifest_rows_origin in Hy as (x & Hx & ->).
    assert (Hvals : map (fun n => get_col n (map (fun n0 => (n0, get_col n0 x)) cols)) keys
                    = map (fun n => get_col n x) keys).
    { apply map_ext_in. intros n Hn. apply get_col_project, Hsub, Hn. }
    rewrite Hvals. destruct Hx as [H1|[H2|H3]].
    + destruct (Hin x (or_introl H1)) as (s & Hs & Hm). exists s. split; [|exact Hs].
      symmetry. apply pk_match_values, Hm.
    + destruct (Hin x (or_intror H2)) as (s & Hs & Hm). exists s. split; [|exact Hs].
      symmetry. apply pk_match_values, Hm.
    + exists x. split; [reflexivity | exact H3].
  - intros (s & <- & Hs).
    destruct (manifest_rows_cover keys cols d1 d2 pk_ts s Hsub (or_intror (or_intror Hs)))
      as (y & Hy & Hm).
    { rewrite List.Forall_forall in Hknown. apply Hknown, Hs. }
    exists y. split; [|exact Hy]. symmetry. apply pk_match_values, Hm.
Qed.

(** What [do_deletes] writes when no call fails. *)
Lemma do_deletes_rows cols pk_cols old_pk_version wc w hl prior d1 :
  faults w = [] ->
  lake w !! delta_load LATEST_PK_VERSION = Some hl ->
  hl !! old_pk_version = Some prior ->
  views w !! "delta_1" = Some d1 ->
  exists w',
    do_deletes cols pk_cols old_pk_version wc w = (Ok tt, w') /\
    lake w'
    = match except_rows (project (map (get_target_name wc) pk_cols) prior)
                        (project (map (get_target_name wc) pk_cols) (latest hl)) with
      | [] => lake w
      | _ =>
          <[delta_path :=
              write_versions append
                (map (tombstone
                        (map (get_target_name wc)
                             (List.filter (fun c => negb (bool_decide (c ∈ pk_cols))) cols))
                        (now w))
                     (except_rows (project (map (get_target_name wc) pk_cols) prior)
                                  (project (map (get_target_name wc) pk_cols) (latest hl))))
                (lake w !! delta_path)]> (lake w)
      end /\
    files w' = files w.
Proof.
  intros Hf Hl Hv Hd1.
  set (keys := map (get_target_name wc) pk_cols).
  set (non_pk := map (get_target_name wc)
                     (List.filter (fun c => negb (bool_decide (c ∈ pk_cols))) cols)).
  set (deletes := except_rows (project keys prior) (project keys (latest hl))).
  set (rows := map (tombstone non_pk (now w)) deletes).
  pose proof (deletes_with_schema_shape cols pk_cols wc) as Hq. cbv zeta in Hq.
  fold non_pk in Hq.
  set (w1 := set_views (insert LATEST_PK_VERSION (latest hl)) w).
  set (w2 := set_views (insert LAST_PK_VERSION prior) w1).
  set (w3 := set_views (insert "deletes_with_schema" rows) w2).
  assert (Hprior : views w2 !! "LAST_PK_VERSION" = Some prior).
  { subst w2 w1. world_simpl. apply lookup_insert_eq. }
  assert (Hcur : views w2 !! "latest_pk" = Some (latest hl)).
  { subst w2 w1. world_simpl. unfold LAST_PK_VERSION, LATEST_PK_VERSION.
    rewrite lookup_insert_ne by discriminate. apply lookup_insert_eq. }
  assert (Heval : forall q, deletes_with_schema cols pk_cols wc = Some q ->
                            eval_query (now w2) (views w2) q = Some rows).
  { intros q Hq'. rewrite Hq in Hq'. injection Hq' as <-.
    change (eval_query (now w2) (views w2) (With ?n ?a ?t))
      with (match eval_query (now w2) (views w2) a with
            | Some t' => eval_query (now w2) (<[n := t']> (views w2)) t
            | None => None
            end).
    change (now w2) with (now w).
    rewrite (delete_query_eval (now w) (views w2) pk_cols wc prior (latest hl) Hprior Hcur).
    change rows with ([] ++ rows). apply eval_union_all.
    - apply (eval_select_where_false _ _ _ _ _ d1).
      + subst w2 w1. world_simpl. unfold LAST_PK_VERSION, LATEST_PK_VERSION.
        rewrite !lookup_insert_ne by discriminate. exact Hd1.
      + rewrite !existsb_app, !no_aggregate_plain. reflexivity.
    - apply eval_select_tombstones. apply lookup_insert_eq. }
  assert (Hrun : do_deletes cols pk_cols old_pk_version wc w
                 = (if 0 <? match rows with [] => 0 | _ => 1 end
                    then local_execute_sql_to_delta (select_star "deletes_with_schema")
                                                    delta_path append
                    else ret tt) w3).
  { unfold do_deletes.
    rewrite (bind_ok _ _ _ _ _ (local_register_update_view_latest _ _ w hl Hf Hl)). fold w1.
    rewrite (bind_ok _ _ _ _ _ (local_register_update_view_version _ _ w1 hl _ prior Hf Hl Hv)).
    fold w2. rewrite Hq.
    rewrite (bind_ok _ _ _ _ _ (local_register_view_ok _ _ w2 rows Hf (Heval _ Hq))). fold w3.
    rewrite (bind_ok _ _ _ _ _ (local_execute_sql_to_py_ok _ w3 _ Hf
                                  (eval_count_limit_one _ _ _ rows (lookup_insert_eq _ _ _)))).
    rewrite (bind_ok _ _ _ _ _ (first_row_ok _ _ _ _)). reflexivity. }
  subst rows. clearbody deletes. destruct deletes as [|d ds].
  - eexists. split; [rewrite Hrun; reflexivity|]. world_simpl. split; reflexivity.
  - eexists. split.
    { rewrite Hrun. simpl.
      eapply local_execute_sql_to_delta_ok; [exact Hf|].
      apply eval_select_star. apply lookup_insert_eq. }
    world_simpl. split; reflexivity.
Qed.

(** X23. The two last steps of a delta load, when no call fails, every key
    of [delta_1] and [delta_2] is a key of the snapshot [primary_keys_ts]
    and no key cell of the snapshot is NULL: the tombstones appended to
    [delta/] are those of the keys of the prior manifest that the snapshot
    no longer has, each once; with no such key, [delta/] gets no version. *)
Theorem tombstones_for_vanished_keys cols pk_cols delta_col wc old_pk_version msg w
    h1 h2 h3 hl prior :
  faults w = [] ->
  lake w !! delta_load DELTA_1_NAME = Some h1 ->
  lake w !! delta_load DELTA_2_NAME = Some h2 ->
  lake w !! delta_load PRIMARY_KEYS_TS = Some h3 ->
  lake w !! delta_load LATEST_PK_VERSION = Some hl ->
  hl !! old_pk_version = Some prior ->
  (forall x, In x (latest h1) \/ In x (latest h2) ->
             exists s, In s (latest h3) /\
                       pk_match (map (get_target_name wc) pk_cols) x s = true) ->
  Forall (fun s => keys_known (map (get_target_name wc) pk_cols) s = true) (latest h3) ->
  exists w',
    (write_latest_pk pk_cols delta_col wc ;;
     logger_info msg ;;
     do_deletes cols pk_cols old_pk_version wc) w = (Ok tt, w') /\
    lake w' !! delta_path
    = match except_rows (project (map (get_target_name wc) pk_cols) prior)
                        (project (map (get_target_name wc) pk_cols) (latest h3)) with
      | [] => lake w !! delta_path
      | _ =>
          Some (write_versions append
                  (map (tombstone
                          (map (get_target_name wc)
                               (List.filter (fun c => negb (bool_decide (c ∈ pk_cols))) cols))
                          (now w))
                       (except_rows (project (map (get_target_name wc) pk_cols) prior)
                                    (project (map (get_target_name wc) pk_cols) (latest h3))))
                  (lake w !! delta_path))
      end.
Proof.
  intros Hf H1 H2 H3 Hl Hv Hin Hknown.
  set (keys := map (get_target_name wc) pk_cols) in *.
  destruct (write_latest_pk_rows pk_cols delta_col wc w h1 h2 h3 Hf H1 H2 H3)
    as (w1 & Hrun1 & Hl1 & Hv1 & Hf1 & Hn1 & _).
  fold keys in Hl1.
  rewrite (bind_ok _ _ _ _ _ Hrun1).
  unfold logger_info. rewrite (bind_ok _ _ _ _ _ (logger_log_ok _ _ _)).
  set (w2 := set_log _ _ w1).
  set (manifest := manifest_rows keys (manifest_cols wc pk_cols delta_col)
                                 (latest h1) (latest h2) (latest h3)) in *.
  assert (Hl2 : lake w2 !! delta_load LATEST_PK_VERSION = Some (hl ++ [manifest])).
  { subst w2. world_simpl. rewrite Hl1, lookup_insert_eq, Hl. reflexivity. }
  assert (Hv2 : (hl ++ [manifest]) !! old_pk_version = Some prior).
  { apply lookup_app_l_Some. exact Hv. }
  assert (Hd2 : views w2 !! "delta_1" = Some (latest h1)).
  { subst w2. world_simpl. rewrite Hv1. unfold PRIMARY_KEYS_TS, DELTA_2_NAME, DELTA_1_NAME.
    rewrite !lookup_insert_ne by discriminate. apply lookup_insert_eq. }
  destruct (do_deletes_rows cols pk_cols old_pk_version wc w2 _ prior _ Hf1 Hl2 Hv2 Hd2)
    as (w3 & Hrun3 & Hl3 & _).
  exists w3. split; [exact Hrun3|]. rewrite Hl3. fold keys.
  assert (Hlatest : latest (hl ++ [manifest]) = manifest) by apply last_last.
  rewrite Hlatest.
  rewrite (except_rows_same_values (project keys prior) (project keys manifest)
             (project keys (latest h3))).
  2:{ intros v. apply manifest_keys_are_snapshot_keys; [|exact Hin|exact Hknown].
      intros n Hn. unfold manifest_cols. apply in_or_app. left. exact Hn. }
  assert (Hd : lake w2 !! delta_path = lake w !! delta_path).
  { subst w2. world_simpl. rewrite Hl1. apply lookup_insert_ne. discriminate. }
  assert (Hn2 : now w2 = now w) by (subst w2; world_simpl; exact Hn1).
  destruct (except_rows (project keys prior) (project keys (latest h3))).
  - exact Hd.
  - rewrite lookup_insert_eq, Hd, Hn2. reflexivity.
Qed.

Lemma tombstones_for_vanished_keys_witness :
  faults world_stepped = [] /\
  exists w',
    (write_latest_pk [col_id] col_ts (example_config mode_auto) ;;
     logger_info "user2: Start delta step 4.5, write deletes" ;;
     do_deletes [col_id; col_name; col_ts] [col_id] 0 (example_config mode_auto)) world_stepped
    = (Ok tt, w') /\
    exists h, lake w' !! delta_path = Some h /\
              latest h = [delta_row 1 "a" 10 1000 true; delta_row 2 "b" 11 1000 true;
                          delta_row 3 "c" 12 1000 true;
                          tombstone ["name"; "ts"] 2000 [("id", VInt 3)]].
Proof.
  split; [reflexivity|].
  destruct (tombstones_for_vanished_keys [col_id; col_name; col_ts] [col_id] col_ts
              (example_config mode_auto) 0%nat
              "user2: Start delta step 4.5, write deletes" world_stepped
              [[delta_row 2 "bb" 13 2000 false; delta_row 4 "d" 14 2000 false]]
              [[delta_row 5 "e" 9 2000 false]]
              [[pk_row 1 10; pk_row 2 13; pk_row 4 14; pk_row 5 9]]
              [[pk_row 1 10; pk_row 2 11; pk_row 3 12]]
              [pk_row 1 10; pk_row 2 11; pk_row 3 12]
              eq_refl eq_refl eq_refl eq_refl eq_refl eq_refl)
    as (w' & Hrun & Hd).
  - intros x [Hx|Hx]; cbn in Hx.
    + destruct Hx as [<-|[<-|[]]].
      * exists (pk_row 2 13). split; [right; left; reflexivity | reflexivity].
      * exists (pk_row 4 14). split; [right; right; left; reflexivity | reflexivity].
    + destruct Hx as [<-|[]].
      exists (pk_row 5 9). split; [right; right; right; left; reflexivity | reflexivity].
  - repeat constructor.
  - exists w'. split; [exact Hrun|]. eexists. split; [exact Hd|]. reflexivity.
Defined.

(** ** A delta load from its first step to its last *)

Lemma full_sql_rows_from_source table pk_cols cols wc js w t :
  eval_source (now w) (source_name w) (source_rows w) (full_sql table pk_cols cols wc js)
  = Some t ->
  Forall (from_source wc cols w) t.
Proof.
  unfold full_sql, eval_source.
  destruct (bool_decide _); [|discriminate]. intros H. injection H as <-.
  unfold flat_map_rows. apply List.Forall_forall. intros x Hx.
  apply in_concat in Hx as (l & Hl & Hx). apply in_map_iff in Hl as (r & <- & Hr).
  apply in_concat in Hx as (l' & Hl' & Hx). apply in_map_iff in Hl' as (j & <- & Hj).
  destruct (forallb _ _); [|destruct Hx]. destruct Hx as [<-|[]].
  exists r. split; [exact Hr|].
  unfold ref_alias, table_from_tuple. cbn [tr_alias].
  rewrite (select_row_get_cols_select (now w) cols false false (Some "t") "t" r)
    by (intros n; apply eval_column_alias).
  reflexivity.
Qed.

Lemma update_sql_rows_from_source cols criterion table wc w t :
  String.concat "." (table_parts table) = source_name w ->
  eval_source (now w) (source_name w) (source_rows w) (_get_update_sql cols criterion table wc)
  = Some t ->
  Forall (from_source wc cols w) t.
Proof.
  intros Hname. rewrite (eval_update_sql _ _ _ _ _ _ _ Hname). intros H. injection H as <-.
  apply List.Forall_forall. intros x Hx. apply in_map_iff in Hx as (r & <- & Hr).
  apply List.filter_In in Hr as [Hr _]. exists r. split; [exact Hr | reflexivity].
Qed.

Lemma from_source_same wc cols w w' x :
  source_rows w' = source_rows w -> now w' = now w ->
  from_source wc cols w x -> from_source wc cols w' x.
Proof. unfold from_source. intros -> ->. auto. Qed.

(** What the source answers to the OPENJSON statement. *)
Lemma eval_full_sql_rows now name rows table pk_cols cols wc js :
  String.concat "." (table_parts table) = name ->
  eval_source now name rows (full_sql table pk_cols cols wc js)
  = Some (openjson_rows wc pk_cols cols now js rows).
Proof.
  intros Hname. unfold full_sql, eval_source, table_from_tuple. cbn [tr_name].
  rewrite bool_decide_eq_true_2 by exact Hname. f_equal.
  unfold openjson_rows, flat_map_rows. f_equal. apply map_ext. intros r.
  f_equal. apply map_ext. intros j. fold (openjson_keys wc pk_cols).
  destruct (forallb _ _); [|reflexivity].
  unfold ref_alias. cbn [tr_alias].
  rewrite (select_row_get_cols_select now cols false false (Some "t") "t" r)
    by (intros n; apply eval_column_alias).
  reflexivity.
Qed.

Lemma openjson_rows_from_source wc pk_cols cols w js :
  Forall (from_source wc cols w) (openjson_rows wc pk_cols cols (now w) js (source_rows w)).
Proof.
  apply (full_sql_rows_from_source (TName (source_name w)) pk_cols cols wc js w).
  apply eval_full_sql_rows. reflexivity.
Qed.

Lemma flat_map_rows_app {A} (f : A -> Table) (a b : list A) :
  flat_map_rows f (a ++ b) = flat_map_rows f a ++ flat_map_rows f b.
Proof. unfold flat_map_rows. rewrite map_app, concat_app. reflexivity. Qed.

(** The batches, when no call fails: the table they are written to holds,
    document by document, the rows the source answers, after the rows it
    held when the first statement appends; nothing else changes. *)
Lemma write_chunks_rows sql_text table pk_cols cols wc path chunks first w base :
  faults w = [] ->
  String.concat "." (table_parts table) = source_name w ->
  forallb rows_serializable chunks = true ->
  (first = true /\ chunks <> [] /\ base = []) \/
  (first = false /\ exists h, lake w !! path = Some h /\ latest h = base) ->
  exists w' h',
    write_chunks sql_text (full_sql table pk_cols cols wc) path chunks first w = (Ok tt, w') /\
    lake w' !! path = Some h' /\
    latest h'
    = base ++ flat_map_rows (fun js => openjson_rows wc pk_cols cols (now w) js (source_rows w))
                            (documents sql_text (full_sql table pk_cols cols wc) chunks) /\
    (forall p, p <> path -> lake w' !! p = lake w !! p) /\
    faults w' = [] /\ views w' = views w /\ now w' = now w /\ files w' = files w /\
    source_name w' = source_name w /\ source_rows w' = source_rows w /\
    log_buffer w' = log_buffer w.
Proof.
  revert first w base.
  induction chunks as [|chunk chunks IH]; intros first w base Hf Hname Hser Hstart.
  - destruct Hstart as [(_ & Hne & _)|(_ & h & Hh & Hbase)]; [congruence|].
    exists w, h. cbn [write_chunks]. unfold ret, documents, flat_map_rows.
    cbn [map List.concat]. rewrite app_nil_r. auto 15.
  - cbn [forallb] in Hser. apply andb_true_iff in Hser as [Hchunk Hser].
    cbn [write_chunks].
    rewrite (bind_ok _ _ _ _ _ (json_dumps_ok chunk w Hchunk)).
    set (answer := fun js => openjson_rows wc pk_cols cols (now w) js (source_rows w)).
    (* one statement, in the mode of the chunk *)
    assert (Hstep : forall js mode w0 cur,
               faults w0 = [] /\ views w0 = views w /\ now w0 = now w /\ files w0 = files w /\
               source_name w0 = source_name w /\ source_rows w0 = source_rows w /\
               log_buffer w0 = log_buffer w ->
               (forall p, p <> path -> lake w0 !! p = lake w !! p) ->
               (mode = overwrite /\ cur = []) \/
               (mode = append /\ exists h, lake w0 !! path = Some h /\ latest h = cur) ->
               exists w1,
                 source_write_sql_to_delta (full_sql table pk_cols cols wc js) path mode w0
                 = (Ok tt, w1) /\
                 (faults w1 = [] /\ views w1 = views w /\ now w1 = now w /\ files w1 = files w /\
                  source_name w1 = source_name w /\ source_rows w1 = source_rows w /\
                  log_buffer w1 = log_buffer w) /\
                 (forall p, p <> path -> lake w1 !! p = lake w !! p) /\
                 exists h, lake w1 !! path = Some h /\ latest h = cur ++ answer js).
    { intros js mode w0 cur (Hf0 & Hv0 & Hn0 & Hfi0 & Hsn0 & Hsr0 & Hlb0) Hother0 Hmode.
      pose proof (eval_full_sql_rows (now w0) (source_name w0) (source_rows w0) table pk_cols
                    cols wc js ltac:(rewrite Hsn0; exact Hname)) as Ht.
      rewrite Hn0, Hsr0 in Ht at 2. fold (answer js) in Ht.
      eexists. split; [apply source_write_sql_to_delta_ok; eassumption|].
      unfold write_delta. world_simpl. split; [auto 10|]. split.
      { intros p Hp. rewrite lookup_insert_ne by congruence. apply Hother0, Hp. }
      eexists. split; [apply lookup_insert_eq|].
      rewrite latest_write_versions.
      destruct Hmode as [[-> ->]|(-> & h & Hh & Hcur)]; [reflexivity|].
      rewrite Hh, Hcur. reflexivity. }
    assert (Hmode : ((if first then overwrite else append) = overwrite /\ base = []) \/
                    ((if first then overwrite else append) = append /\
                     exists h, lake w !! path = Some h /\ latest h = base)).
    { destruct Hstart as [(-> & _ & ->)|(-> & Hh)]; [left; auto | right; auto]. }
    assert (Hw : faults w = [] /\ views w = views w /\ now w = now w /\ files w = files w /\
                 source_name w = source_name w /\ source_rows w = source_rows w /\
                 log_buffer w = log_buffer w) by auto 10.
    assert (Hnext : forall w1 cur,
               (faults w1 = [] /\ views w1 = views w /\ now w1 = now w /\ files w1 = files w /\
                source_name w1 = source_name w /\ source_rows w1 = source_rows w /\
                log_buffer w1 = log_buffer w) ->
               (forall p, p <> path -> lake w1 !! p = lake w !! p) ->
               (exists h, lake w1 !! path = Some h /\ latest h = cur) ->
               exists w' h',
                 write_chunks sql_text (full_sql table pk_cols cols wc) path chunks false w1
                 = (Ok tt, w') /\
                 lake w' !! path = Some h' /\
                 latest h'
                 = cur ++ flat_map_rows answer
                            (documents sql_text (full_sql table pk_cols cols wc) chunks) /\
                 (forall p, p <> path -> lake w' !! p = lake w !! p) /\
                 faults w' = [] /\ views w' = views w /\ now w' = now w /\ files w' = files w /\
                 source_name w' = source_name w /\ source_rows w' = source_rows w /\
                 log_buffer w' = log_buffer w).
    { intros w1 cur (Hf1 & Hv1 & Hn1 & Hfi1 & Hsn1 & Hsr1 & Hlb1) Hother1 Hcur.
      destruct (IH false w1 cur Hf1 ltac:(rewrite Hsn1; exact Hname) Hser
                   (or_intror (conj eq_refl Hcur)))
        as (w' & h' & Hrun & Hh' & Hlast & Hother & Hf' & Hv' & Hn' & Hfi' & Hsn' & Hsr' & Hlb').
      exists w', h'. split; [exact Hrun|]. split; [exact Hh'|]. split.
      { rewrite Hlast, Hn1, Hsr1. reflexivity. }
      split; [intros p Hp; rewrite (Hother p Hp); apply Hother1, Hp|].
      rewrite Hf', Hv', Hn', Hfi', Hsn', Hsr', Hlb'. auto 10. }
    unfold documents. cbn [map List.concat].
    fold (documents sql_text (full_sql table pk_cols cols wc) chunks).
    rewrite flat_map_rows_app. unfold oversized at 1.
    destruct (7000 <? Z.of_nat (String.length (sql_text (full_sql table pk_cols cols wc chunk)))).
    + rewrite !bind_bind.
      rewrite (bind_ok _ _ _ _ _ (json_dumps_ok _ w (forallb_take _ _ _ Hchunk))).
      destruct (Hstep (take (length chunk / 2)%nat chunk) (if first then overwrite else append)
                      w base Hw (fun _ _ => eq_refl) Hmode)
        as (w1 & Hrun1 & Hw1 & Hother1 & Hh1).
      rewrite !bind_bind. rewrite (bind_ok _ _ _ _ _ Hrun1).
      rewrite !bind_bind.
      rewrite (bind_ok _ _ _ _ _ (json_dumps_ok _ w1 (forallb_drop _ _ _ Hchunk))).
      destruct (Hstep (drop (length chunk / 2)%nat chunk) append w1 _ Hw1 Hother1
                      (or_intror (conj eq_refl Hh1)))
        as (w2 & Hrun2 & Hw2 & Hother2 & Hh2).
      rewrite (bind_ok _ _ _ _ _ Hrun2).
      destruct (Hnext w2 _ Hw2 Hother2 Hh2) as (w' & h' & Hrun & Hh' & Hlast & Hrest).
      exists w', h'. split; [exact Hrun|]. split; [exact Hh'|]. split; [|exact Hrest].
      rewrite Hlast. unfold flat_map_rows at 2. cbn [map List.concat].
      rewrite app_nil_r, <- !app_assoc. reflexivity.
    + destruct (Hstep chunk (if first then overwrite else append) w base Hw
                      (fun _ _ => eq_refl) Hmode) as (w1 & Hrun1 & Hw1 & Hother1 & Hh1).
      rewrite (bind_ok _ _ _ _ _ Hrun1).
      destruct (Hnext w1 _ Hw1 Hother1 Hh1) as (w' & h' & Hrun & Hh' & Hlast & Hrest).
      exists w', h'. split; [exact Hrun|]. split; [exact Hh'|]. split; [|exact Hrest].
      rewrite Hlast. unfold flat_map_rows at 2. cbn [map List.concat].
      rewrite app_nil_r, <- !app_assoc. reflexivity.
Qed.

Lemma distinct_rows_incl (t seen : Table) x : In x (distinct_rows t seen) -> In x t.
Proof.
  revert seen. induction t as [|r t IH]; intros seen H; [destruct H|].
  cbn [distinct_rows] in H. destruct (row_in r seen).
  - right. eapply IH, H.
  - destruct H as [<-|H]; [left; reflexivity | right; eapply IH, H].
Qed.

Lemma except_rows_incl (l r : Table) x : In x (except_rows l r) -> In x l.
Proof.
  unfold except_rows. intros H. apply distinct_rows_incl in H.
  apply list_elem_of_In, list_elem_of_filter in H as [_ H]. apply list_elem_of_In, H.
Qed.

(** The cell under a name of the destination is the cell of the source
    column, when the columns of this name stand for one column. *)
Lemma get_col_named wc (l : list InformationSchemaColInfo) (rest r : Row) k v :
  In k l ->
  (forall a, In a l -> get_target_name wc a = get_target_name wc k ->
             get_col (column_name a) r = v) ->
  get_col (get_target_name wc k)
          (map (fun c => (get_target_name wc c, get_col (column_name c) r)) l ++ rest) = v.
Proof.
  induction l as [|a l IH]; intros Hin Hall; [destruct Hin|].
  cbn [map app get_col].
  destruct (bool_decide_reflect (get_target_name wc a = get_target_name wc k)) as [Heq|Hne].
  - apply Hall; [left; reflexivity | exact Heq].
  - apply IH.
    + destruct Hin as [->|Hin]; [congruence | exact Hin].
    + intros b Hb. apply Hall. right. exact Hb.
Qed.

Lemma key_cell_loaded infos dc now is_full r k :
  key_columns_named infos dc -> In k (pk_cols infos) ->
  get_col (get_target_name (write_config infos) k)
          (loaded_row (write_config infos) (col_infos infos) now is_full r)
  = get_col (column_name k) r.
Proof.
  intros [Hsub Hone] Hk. unfold loaded_row. apply get_col_named; [apply Hsub, Hk|].
  intros a Ha Heq. rewrite (Hone a k); [reflexivity| |exact Hk|exact Heq].
  apply in_or_app. left. exact Ha.
Qed.

Lemma key_cell_renamed infos dc r k :
  key_columns_named infos dc -> In k (pk_cols infos) ->
  get_col (get_target_name (write_config infos) k)
          (renamed_row (write_config infos) (pk_cols infos ++ [dc]) r)
  = get_col (column_name k) r.
Proof.
  intros [Hsub Hone] Hk. unfold renamed_row.
  rewrite <- (app_nil_r (map _ (pk_cols infos ++ [dc]))).
  apply get_col_named; [apply in_or_app; left; exact Hk|].
  intros a Ha Heq. rewrite (Hone a k); [reflexivity| |exact Hk|exact Heq].
  apply in_or_app. right. exact Ha.
Qed.

(** A row loaded from the source has its key in the snapshot of the keys. *)
Lemma loaded_key_in_snapshot infos dc w x :
  key_columns_named infos dc ->
  Forall (source_keys_known infos) (source_rows w) ->
  from_source (write_config infos) (col_infos infos) w x ->
  exists s, In s (map (renamed_row (write_config infos) (pk_cols infos ++ [dc])) (source_rows w)) /\
            pk_match (map (get_target_name (write_config infos)) (pk_cols infos)) x s = true.
Proof.
  intros Hnamed Hknown (r & Hr & ->).
  exists (renamed_row (write_config infos) (pk_cols infos ++ [dc]) r).
  split; [apply in_map, Hr|].
  apply pk_match_true. intros n Hn. apply in_map_iff in Hn as (k & <- & Hk).
  rewrite (key_cell_loaded infos dc _ _ r k Hnamed Hk).
  rewrite (key_cell_renamed infos dc r k Hnamed Hk).
  split; [reflexivity|].
  rewrite List.Forall_forall in Hknown. apply (Hknown r Hr k Hk).
Qed.

Lemma snapshot_keys_known infos dc w :
  key_columns_named infos dc ->
  Forall (source_keys_known infos) (source_rows w) ->
  Forall (fun s => keys_known (map (get_target_name (write_config infos)) (pk_cols infos)) s = true)
         (map (renamed_row (write_config infos) (pk_cols infos ++ [dc])) (source_rows w)).
Proof.
  intros Hnamed Hknown. apply List.Forall_forall. intros s Hs.
  apply in_map_iff in Hs as (r & <- & Hr).
  unfold keys_known. apply forallb_forall. intros n Hn.
  apply in_map_iff in Hn as (k & <- & Hk).
  rewrite (key_cell_renamed infos dc r k Hnamed Hk).
  apply negb_true_iff, bool_decide_eq_false.
  rewrite List.Forall_forall in Hknown. apply (Hknown r Hr k Hk).
Qed.

Lemma forallb_imap {A B} (f : nat -> A -> B) (p : B -> bool) (l : list A) :
  (forall i a, In a l -> p (f i a) = true) -> forallb p (imap f l) = true.
Proof.
  revert f. induction l as [|a l IH]; intros f H; [reflexivity|].
  rewrite imap_cons. cbn [forallb]. rewrite H by (left; reflexivity).
  apply IH. intros i b Hb. apply H. right. exact Hb.
Qed.

(** The keys of the strange updates are key cells of rows of the source:
    they can be written as JSON. *)
Lemma jsd_serializable infos dc w (prior d1 : Table) :
  key_columns_named infos dc ->
  Forall (source_keys_known infos) (source_rows w) ->
  rows_serializable
    (map (json_keys (write_config infos) (pk_cols infos))
         (real_additional_updates_rows (write_config infos) (pk_cols infos)
            (additional_updates_rows (write_config infos) (pk_cols infos) dc
               (map (renamed_row (write_config infos) (pk_cols infos ++ [dc])) (source_rows w))
               prior)
            d1)) = true.
Proof.
  intros Hnamed Hknown. unfold rows_serializable. apply forallb_forall. intros j Hj.
  apply in_map_iff in Hj as (x & <- & Hx).
  unfold real_additional_updates_rows in Hx. apply except_rows_incl in Hx.
  apply In_project in Hx as (y & Hy & ->).
  unfold additional_updates_rows in Hy. apply except_rows_incl in Hy.
  apply In_project in Hy as (s & Hs & ->).
  apply in_map_iff in Hs as (r & <- & Hr).
  unfold json_keys, row_values.
  apply forallb_forall. intros v Hv. apply in_map_iff in Hv as ([n v'] & <- & Hv).
  cbn [snd]. apply list_elem_of_In in Hv.
  apply elem_of_lookup_imap in Hv as (i & k & Heq & Hk).
  injection Heq as _ ->. apply list_elem_of_lookup_2, list_elem_of_In in Hk.
  rewrite get_col_project by (apply in_map, Hk).
  rewrite get_col_project by (apply in_or_app; left; apply in_map, Hk).
  rewrite (key_cell_renamed infos dc r k Hnamed Hk).
  rewrite List.Forall_forall in Hknown. apply (Hknown r Hr k Hk).
Qed.

(** A load by timestamp, when no call fails: what it leaves in the lake, and
    that it changes neither the source nor the clock. *)
Lemma load_updates_to_delta_rows dp sql name wc w rows :
  faults w = [] ->
  eval_source (now w) (source_name w) (source_rows w) sql = Some rows ->
  exists w',
    _load_updates_to_delta dp sql name wc w = (Ok tt, w') /\
    lake w' = (match rows with
               | [] => fun l => l
               | _ => fun l => <[dp := write_versions append rows (l !! dp)]> l
               end)
                (<[delta_load name := write_versions overwrite rows (lake w !! delta_load name)]>
                   (lake w)) /\
    views w' = <[name := rows]> (views w) /\
    faults w' = [] /\ now w' = now w /\
    source_name w' = source_name w /\ source_rows w' = source_rows w.
Proof.
  intros Hf Hsrc. unfold _load_updates_to_delta, logger_info.
  rewrite (bind_ok _ _ _ _ _ (logger_log_ok _ _ _)).
  set (w1 := set_log _ _ w).
  rewrite (bind_ok _ _ _ _ _ (source_write_sql_to_delta_ok sql _ overwrite w1 rows Hf Hsrc)).
  set (w2 := add_event _ _).
  assert (Hl2 : lake w2 !! delta_load name
                = Some (write_versions overwrite rows (lake w !! delta_load name)))
    by (subst w2 w1; world_simpl; apply lookup_insert_eq).
  rewrite (bind_ok _ _ _ _ _ (local_register_update_view_latest _ name w2 _ Hf Hl2)).
  rewrite latest_write_overwrite.
  set (w3 := set_views _ w2).
  rewrite (bind_ok _ _ _ _ _ (local_execute_sql_to_py_ok _ w3 _ Hf
                                (eval_count_limit_one _ _ _ rows (lookup_insert_eq _ _ _)))).
  rewrite (bind_ok _ _ _ _ _ (first_row_ok _ _ _ _)).
  cbn [get_col]. rewrite (bool_decide_eq_true_2 ("cnt" = "cnt")) by reflexivity.
  destruct rows as [|r rows].
  - rewrite bool_decide_eq_true_2 by reflexivity. eexists. split; [reflexivity|].
    subst w3 w2 w1. world_simpl. repeat split; auto.
  - rewrite bool_decide_eq_false_2 by discriminate.
    eexists. split.
    { eapply local_execute_sql_to_delta_ok; [exact Hf|].
      apply eval_select_star. apply lookup_insert_eq. }
    subst w3 w2 w1. world_simpl. repeat split; auto.
Qed.

Lemma appended_latest (rows : Table) (h : list Table) :
  exists hs, appended rows h = h ++ hs /\ latest (h ++ hs) = latest h ++ rows.
Proof.
  destruct rows as [|r rows].
  - exists []. cbn [appended]. rewrite !app_nil_r. auto.
  - exists [latest h ++ r :: rows]. cbn [appended]. split; [reflexivity|].
    unfold latest at 1. apply last_last.
Qed.

(** Step 3 of a delta load, when no call fails, in each of its three
    branches: [delta_1] and [delta_2] hold rows of the source, [delta/] grows
    by rows of the source, the snapshot and the manifest are as before. *)
Lemma handle_additional_updates_loaded sql_text table pk_cols dc cols wc old w
    h1 hd h_pk hl prior :
  faults w = [] ->
  String.concat "." (table_parts table) = source_name w ->
  pk_cols <> [] ->
  lake w !! delta_load PRIMARY_KEYS_TS = Some h_pk ->
  lake w !! delta_load LATEST_PK_VERSION = Some hl ->
  hl !! old = Some prior ->
  lake w !! delta_load DELTA_1_NAME = Some h1 ->
  views w !! "delta_1" = Some (latest h1) ->
  Forall (from_source wc cols w) (latest h1) ->
  lake w !! delta_path = Some hd ->
  rows_serializable
    (map (json_keys wc pk_cols)
         (real_additional_updates_rows wc pk_cols
            (additional_updates_rows wc pk_cols dc (latest h_pk) prior) (latest h1))) = true ->
  exists w' h1' h2' hs strange,
    _handle_additional_updates sql_text table delta_path pk_cols dc cols wc old w = (Ok tt, w') /\
    lake w' !! delta_load DELTA_1_NAME = Some h1' /\
    Forall (from_source wc cols w) (latest h1') /\
    lake w' !! delta_load DELTA_2_NAME = Some h2' /\
    Forall (from_source wc cols w) (latest h2') /\
    lake w' !! delta_path = Some (hd ++ hs) /\
    latest (hd ++ hs) = latest hd ++ strange /\
    Forall (from_source wc cols w) strange /\
    lake w' !! delta_load PRIMARY_KEYS_TS = Some h_pk /\
    lake w' !! delta_load LATEST_PK_VERSION = Some hl /\
    faults w' = [] /\ now w' = now w /\
    strange = strange_rows sql_text table pk_cols dc cols wc (latest h_pk) prior (latest h1) w.
Proof.
  intros Hf Hname Hpk Hpkts Hlpk Hprior H1 Hv1 Hfrom1 Hd Hser.
  rewrite (handle_additional_updates_reads sql_text table delta_path pk_cols cols dc wc old w
             h_pk hl prior (latest h1) Hf Hpkts Hlpk Hprior Hv1).
  set (au := additional_updates_rows wc pk_cols dc (latest h_pk) prior) in *.
  set (real := real_additional_updates_rows wc pk_cols au (latest h1)) in *.
  set (ws := strange_update_views (latest h_pk) prior au real w).
  assert (Hws : lake ws = lake w /\ faults ws = [] /\ now ws = now w /\
                source_name ws = source_name w /\ source_rows ws = source_rows w /\
                views ws !! "additional_updates" = Some au).
  { subst ws. unfold strange_update_views. world_simpl. repeat (split; [auto; fail|]).
    rewrite lookup_insert_ne by discriminate. apply lookup_insert_eq. }
  destruct Hws as (Hlws & Hfws & Hnws & Hsnws & Hsrws & Hau). clearbody ws.
  (* the empty load that creates [delta_2] *)
  assert (Hempty : source_write_sql_to_delta (full_sql table pk_cols cols wc [])
                     (delta_load "delta_2") overwrite ws
                   = (Ok tt, add_event (EvSourceWrite (full_sql table pk_cols cols wc [])
                                          (delta_load "delta_2") overwrite)
                               (write_delta (delta_load "delta_2") overwrite [] ws))).
  { apply source_write_sql_to_delta_ok; [exact Hfws|].
    apply full_sql_empty_document. rewrite Hsnws. exact Hname. }
  destruct (Z.of_nat (length real) =? 0) eqn:Hcount.
  - (* no strange update *)
    rewrite Hempty.
    exists (add_event (EvSourceWrite (full_sql table pk_cols cols wc [])
                         (delta_load "delta_2") overwrite)
              (write_delta (delta_load "delta_2") overwrite [] ws)),
           h1, (write_versions overwrite [] (lake ws !! delta_load "delta_2")), [], [].
    split; [reflexivity|]. world_simpl. rewrite Hlws.
    split; [rewrite lookup_insert_ne by discriminate; exact H1|].
    split; [exact Hfrom1|].
    split; [apply lookup_insert_eq|].
    split; [rewrite latest_write_versions; constructor|].
    split; [rewrite lookup_insert_ne by discriminate; rewrite app_nil_r; exact Hd|].
    split; [rewrite !app_nil_r; reflexivity|].
    split; [constructor|].
    split; [rewrite lookup_insert_ne by discriminate; exact Hpkts|].
    split; [rewrite lookup_insert_ne by discriminate; exact Hlpk|].
    split; [exact Hfws|]. split; [exact Hnws|].
    unfold strange_rows. cbv zeta. fold au. fold real. rewrite Hcount. reflexivity.
  - destruct ((1000 <? Z.of_nat (length real)) || no_complex_entries_load wc) eqn:Hbranch.
    + (* many strange updates: once more by timestamp *)
      unfold replay_timestamp_step.
      rewrite (bind_ok _ _ _ _ _ Hempty). msimpl.
      set (w1 := set_log _ _ (add_event _ _)).
      assert (Hw1 : lake w1 = <[delta_load "delta_2" :=
                                  write_versions overwrite [] (lake w !! delta_load "delta_2")]>
                                (lake w) /\
                    faults w1 = [] /\ now w1 = now w /\ source_name w1 = source_name w /\
                    source_rows w1 = source_rows w /\
                    views w1 !! "additional_updates" = Some au).
      { subst w1. world_simpl. rewrite Hlws. auto 10. }
      destruct Hw1 as (Hl1 & Hf1 & Hn1 & Hsn1 & Hsr1 & Hau1). clearbody w1.
      rewrite (bind_ok _ _ _ _ _
                 (local_execute_sql_to_py_ok _ w1 _ Hf1
                    (eval_min (now w1) (views w1) "additional_updates" "rau" _ au Hau1))).
      rewrite (bind_ok _ _ _ _ _ (first_row_ok _ _ _ _)). msimpl.
      set (v := get_col "min_ts" _).
      set (w2 := set_log _ _ (set_log _ _ w1)).
      assert (Hw2 : lake w2 = lake w1 /\ faults w2 = [] /\ now w2 = now w /\
                    source_name w2 = source_name w /\ source_rows w2 = source_rows w).
      { subst w2. world_simpl. auto 10. }
      destruct Hw2 as (Hl2 & Hf2 & Hn2 & Hsn2 & Hsr2). clearbody w2.
      assert (Hsrc : eval_source (now w2) (source_name w2) (source_rows w2)
                       (_get_update_sql cols
                          (Some (GT (_cast (column_name dc) (data_type dc) (Some "t")
                                           (data_type_map wc)) (Convert v)))
                          table wc)
                     = Some (map (loaded_row wc cols (now w) false)
                                 (List.filter (newer_than dc v) (source_rows w)))).
      { rewrite Hn2, Hsn2, Hsr2. apply eval_update_sql_newer. exact Hname. }
      set (rows := map _ (List.filter _ _)) in Hsrc.
      assert (Hrows : Forall (from_source wc cols w) rows).
      { subst rows. apply List.Forall_forall. intros x Hx.
        apply in_map_iff in Hx as (r & <- & Hr). apply List.filter_In in Hr as [Hr _].
        exists r. split; [exact Hr | reflexivity]. }
      destruct (load_updates_to_delta_rows delta_path _ "delta_1" wc w2 rows Hf2 Hsrc)
        as (w3 & Hrun & Hl3 & _ & Hf3 & Hn3 & _).
      rewrite Hn2 in Hn3.
      destruct (appended_latest rows hd) as (hs & Hhs & Hlast).
      exists w3, (write_versions overwrite rows (Some h1)),
             (write_versions overwrite [] (lake w !! delta_load "delta_2")), hs, rows.
      split; [exact Hrun|]. rewrite Hl3, Hl2, Hl1.
      split.
      { rewrite lookup_appended_ne by discriminate. rewrite lookup_insert_eq.
        rewrite lookup_insert_ne by discriminate. unfold DELTA_1_NAME in H1. rewrite H1.
        reflexivity. }
      split; [rewrite latest_write_versions; exact Hrows|].
      split.
      { rewrite lookup_appended_ne by discriminate. rewrite lookup_insert_ne by discriminate.
        apply lookup_insert_eq. }
      split; [rewrite latest_write_versions; constructor|].
      split.
      { rewrite <- Hhs. apply lookup_appended. rewrite !lookup_insert_ne by discriminate.
        exact Hd. }
      split; [exact Hlast|]. split; [exact Hrows|].
      split.
      { rewrite lookup_appended_ne by discriminate. rewrite !lookup_insert_ne by discriminate.
        exact Hpkts. }
      split.
      { rewrite lookup_appended_ne by discriminate. rewrite !lookup_insert_ne by discriminate.
        exact Hlpk. }
      split; [exact Hf3|]. split; [exact Hn3|].
      unfold strange_rows. cbv zeta. fold au. fold real. rewrite Hcount, Hbranch.
      subst rows v. reflexivity.
    + (* few strange updates: their keys go to the source in batches *)
      unfold chunked_openjson.
      rewrite (bind_ok _ _ _ _ _ (batch_size_ok pk_cols ws Hpk)). msimpl.
      set (size := Z.max 10 _).
      set (jsd := map (json_keys wc pk_cols) real) in *.
      set (w1 := set_log _ _ (set_log _ _ ws)).
      assert (Hw1 : lake w1 = lake w /\ faults w1 = [] /\ now w1 = now w /\
                    source_name w1 = source_name w /\ source_rows w1 = source_rows w).
      { subst w1. world_simpl. auto 10. }
      destruct Hw1 as (Hl1 & Hf1 & Hn1 & Hsn1 & Hsr1). clearbody w1.
      assert (Hne : _list_to_chunks jsd size <> []).
      { intros Hnil.
        pose proof (list_to_chunks_from_concat jsd [] size) as Hc. cbn [app] in Hc.
        fold (_list_to_chunks jsd size) in Hc. rewrite Hnil in Hc. cbn in Hc. subst jsd.
        apply (f_equal (@length _)) in Hc. rewrite length_map in Hc. cbn in Hc.
        apply Z.eqb_neq in Hcount. lia. }
      destruct (write_chunks_rows sql_text table pk_cols cols wc (delta_load "delta_2")
                  (_list_to_chunks jsd size) true w1 [] Hf1
                  ltac:(rewrite Hsn1; exact Hname)
                  (rows_serializable_chunks jsd size Hser)
                  (or_introl (conj eq_refl (conj Hne eq_refl))))
        as (w2 & h2 & Hrun & Hh2 & Hlast2 & Hother & Hf2 & _ & Hn2 & _).
      cbn [app] in Hlast2. rewrite Hn1, Hsr1 in Hlast2.
      assert (Hall2' : Forall (from_source wc cols w) (latest h2)).
      { rewrite Hlast2. unfold flat_map_rows. apply Forall_concat, Forall_map.
        apply List.Forall_forall. intros js _. apply openjson_rows_from_source. }
      rewrite (bind_ok _ _ _ _ _ Hrun).
      rewrite (bind_ok _ _ _ _ _ (local_register_update_view_latest _ "delta_2" w2 h2 Hf2 Hh2)).
      eexists _, h1, h2, [latest hd ++ latest h2], (latest h2).
      split.
      { eapply local_execute_sql_to_delta_ok; [exact Hf2|].
        apply eval_select_star. apply lookup_insert_eq. }
      world_simpl.
      assert (Hd2 : lake w2 !! delta_path = Some hd).
      { rewrite Hother by discriminate. rewrite Hl1. exact Hd. }
      split.
      { rewrite lookup_insert_ne by discriminate. rewrite Hother by discriminate.
        rewrite Hl1. exact H1. }
      split; [exact Hfrom1|].
      split; [rewrite lookup_insert_ne by discriminate; exact Hh2|].
      split; [exact Hall2'|].
      split; [rewrite lookup_insert_eq, Hd2; reflexivity|].
      split; [unfold latest at 1; apply last_last|].
      split; [exact Hall2'|].
      split.
      { rewrite lookup_insert_ne by discriminate. rewrite Hother by discriminate.
        rewrite Hl1. exact Hpkts. }
      split.
      { rewrite lookup_insert_ne by discriminate. rewrite Hother by discriminate.
        rewrite Hl1. exact Hlpk. }
      split; [exact Hf2|]. split; [rewrite Hn2; exact Hn1|].
      unfold strange_rows. cbv zeta. fold au. fold real. rewrite Hcount, Hbranch.
      exact Hlast2.
Qed.

Lemma strange_rows_same sql_text table pk_cols dc cols wc pk_ts prior d1 w w' :
  now w' = now w -> source_rows w' = source_rows w ->
  strange_rows sql_text table pk_cols dc cols wc pk_ts prior d1 w'
  = strange_rows sql_text table pk_cols dc cols wc pk_ts prior d1 w.
Proof. intros Hn Hs. unfold strange_rows. rewrite Hn, Hs. reflexivity. Qed.

(** The steps of a delta load that is not a simple one, when no call fails:
    the rows that reach [delta/] and the manifest left for the next run. *)
Lemma delta_load_steps sql_text restore_last_pk infos w dc hd hl :
  faults w = [] ->
  source_name w = String.concat "." (table_parts (table infos)) ->
  delta_col infos = Some dc ->
  pk_cols infos <> [] ->
  key_columns_named infos dc ->
  Forall (source_keys_known infos) (source_rows w) ->
  lake w !! delta_path = Some hd ->
  lake w !! delta_load LATEST_PK_VERSION = Some hl ->
  hl <> [] ->
  sql_max (map (get_col (get_target_name (write_config infos) dc)) (latest hd)) <> VNull ->
  exists w' hs strange manifest,
    do_delta_load sql_text restore_last_pk infos false w = (Ok tt, w') /\
    lake w' !! delta_path = Some (hd ++ hs) /\
    latest (hd ++ hs)
    = latest hd
      ++ rows_after infos dc false
           (sql_max (map (get_col (get_target_name (write_config infos) dc)) (latest hd))) w
      ++ strange
      ++ tombstones_of infos dc (latest hl) w /\
    Forall (from_source (write_config infos) (col_infos infos) w) strange /\
    lake w' !! delta_load LATEST_PK_VERSION = Some (hl ++ [manifest]) /\
    (forall v, In v (map row_values
                         (project (map (get_target_name (write_config infos)) (pk_cols infos))
                                  manifest)) <->
               In v (map row_values
                         (project (map (get_target_name (write_config infos)) (pk_cols infos))
                                  (key_snapshot infos dc w)))) /\
    strange
    = strange_rows sql_text (table infos) (pk_cols infos) dc (col_infos infos)
        (write_config infos) (key_snapshot infos dc w) (latest hl)
        (rows_after infos dc false
           (sql_max (map (get_col (get_target_name (write_config infos) dc)) (latest hd))) w)
        w.
Proof.
  intros Hf Hname Hdc Hpk Hnamed Hknown Hd Hl Hne Hv.
  unfold do_delta_load. rewrite Hdc. cbv [negb]. cbv iota. msimpl.
  set (w1 := set_log _ _ w).
  assert (Hw1 : lake w1 = lake w /\ faults w1 = [] /\ now w1 = now w /\
                source_name w1 = source_name w /\ source_rows w1 = source_rows w)
    by (subst w1; world_simpl; auto 10).
  destruct Hw1 as (Hl1 & Hf1 & Hn1 & Hsn1 & Hsr1). clearbody w1.
  rewrite (bind_ok _ _ _ _ _ (local_delta_table_exists_eq _ w1)).
  rewrite Hl1, Hl. rewrite bool_decide_eq_true_2 by eauto. msimpl. cbv [negb]. cbv iota.
  msimpl.
  rewrite (bind_ok _ _ _ _ _ (delta_version_ok _ w1 hl ltac:(rewrite Hl1; exact Hl))). msimpl.
  set (old := (length hl - 1)%nat).
  assert (Hprior : forall h', (hl ++ h') !! old = Some (latest hl))
    by (intros h'; apply latest_lookup, Hne).
  assert (Hprior0 : hl !! old = Some (latest hl))
    by (specialize (Hprior []); rewrite app_nil_r in Hprior; exact Hprior).
  rewrite (bind_ok _ _ _ _ _
             (get_latest_delta_value_ok _ _ _ _ w1 hd Hf1 ltac:(rewrite Hl1; exact Hd))).
  set (v := sql_max _) in *.
  rewrite bool_decide_eq_false_2 by exact Hv. msimpl.
  set (w2 := set_log _ _ (set_views _ w1)).
  assert (Hw2 : lake w2 = lake w /\ faults w2 = [] /\ now w2 = now w /\
                source_name w2 = source_name w /\ source_rows w2 = source_rows w)
    by (subst w2; world_simpl; auto 10).
  destruct Hw2 as (Hl2 & Hf2 & Hn2 & Hsn2 & Hsr2). clearbody w2.
  (* step 1: the snapshot of the keys *)
  destruct (retrieve_primary_key_data_ok (table infos) dc (pk_cols infos) (write_config infos)
              w2 Hf2 ltac:(rewrite Hsn2; exact Hname))
    as (w3 & Hrun3 & Hl3 & _ & Hf3 & _ & Hn3 & Hsn3 & Hsr3).
  rewrite (bind_ok _ _ _ _ _ Hrun3). msimpl.
  rewrite Hsr2 in Hl3. fold (key_snapshot infos dc w) in Hl3.
  set (h_pk := write_versions overwrite (key_snapshot infos dc w) _) in Hl3.
  assert (Hlatest_pk : latest h_pk = key_snapshot infos dc w)
    by (subst h_pk; apply latest_write_overwrite).
  clearbody h_pk.
  set (w4 := set_log _ _ (set_log _ _ w3)).
  assert (Hw4 : lake w4 = <[delta_load PRIMARY_KEYS_TS := h_pk]> (lake w) /\ faults w4 = [] /\
                now w4 = now w /\ source_name w4 = source_name w /\
                source_rows w4 = source_rows w).
  { subst w4. world_simpl. rewrite Hl3, Hl2, Hn3, Hsn3, Hsr3. auto 10. }
  destruct Hw4 as (Hl4 & Hf4 & Hn4 & Hsn4 & Hsr4). clearbody w4.
  (* step 2: the rows newer than the watermark *)
  assert (Hsrc : eval_source (now w4) (source_name w4) (source_rows w4)
                   (_get_update_sql (col_infos infos)
                      (Some (GT (_cast (column_name dc) (data_type dc) (Some "t")
                                       (data_type_map (write_config infos))) (Convert v)))
                      (table infos) (write_config infos))
                 = Some (rows_after infos dc false v w)).
  { rewrite Hn4, Hsn4, Hsr4, Hname. apply eval_update_sql_newer. reflexivity. }
  set (rows := rows_after infos dc false v w) in *.
  assert (Hrows : Forall (from_source (write_config infos) (col_infos infos) w) rows).
  { subst rows. unfold rows_after. cbn [andb]. apply List.Forall_forall. intros x Hx.
    apply in_map_iff in Hx as (r & <- & Hr). apply List.filter_In in Hr as [Hr _].
    exists r. split; [exact Hr | reflexivity]. }
  destruct (load_updates_to_delta_rows delta_path _ "delta_1" (write_config infos) w4 rows
              Hf4 Hsrc)
    as (w5 & Hrun5 & Hl5 & Hv5 & Hf5 & Hn5 & Hsn5 & Hsr5).
  rewrite (bind_ok _ _ _ _ _ Hrun5).
  destruct (appended_latest rows hd) as (hs1 & Hhs1 & Hlast1).
  set (h1 := write_versions overwrite rows (lake w4 !! delta_load "delta_1")) in Hl5.
  assert (Hlatest1 : latest h1 = rows) by (subst h1; apply latest_write_overwrite).
  clearbody h1.
  assert (Hfrom : forall x, from_source (write_config infos) (col_infos infos) w x <->
                            from_source (write_config infos) (col_infos infos) w5 x).
  { intros x. split; apply from_source_same; congruence. }
  assert (H5d : lake w5 !! delta_path = Some (hd ++ hs1)).
  { rewrite Hl5, <- Hhs1. apply lookup_appended. rewrite Hl4.
    rewrite !lookup_insert_ne by discriminate. exact Hd. }
  assert (H5 : lake w5 !! delta_load PRIMARY_KEYS_TS = Some h_pk /\
               lake w5 !! delta_load LATEST_PK_VERSION = Some hl /\
               lake w5 !! delta_load DELTA_1_NAME = Some h1).
  { rewrite Hl5, Hl4. rewrite !lookup_appended_ne by discriminate. repeat split.
    - rewrite lookup_insert_ne by discriminate. apply lookup_insert_eq.
    - rewrite !lookup_insert_ne by discriminate. exact Hl.
    - apply lookup_insert_eq. }
  destruct H5 as (H5pk & H5l & H51).
  assert (H5v : views w5 !! "delta_1" = Some (latest h1)).
  { rewrite Hv5, Hlatest1. apply lookup_insert_eq. }
  (* step 3: the strange updates *)
  destruct (handle_additional_updates_loaded sql_text (table infos) (pk_cols infos) dc
              (col_infos infos) (write_config infos) old w5 h1 (hd ++ hs1) h_pk hl (latest hl)
              Hf5 ltac:(rewrite Hsn5, Hsn4, Hname; reflexivity) Hpk H5pk H5l
              Hprior0 H51 H5v
              ltac:(rewrite Hlatest1; eapply Forall_impl; [exact Hrows | intros x; apply Hfrom])
              H5d
              ltac:(rewrite Hlatest_pk; apply jsd_serializable; assumption))
    as (w6 & h1' & h2' & hs2 & strange & Hrun6 & H61 & Hfrom1 & H62 & Hfrom2 & H6d & Hlast2 &
        Hstrange & H6pk & H6l & Hf6 & Hn6 & Hpin).
  rewrite (strange_rows_same _ _ _ _ _ _ _ _ _ w w5) in Hpin
    by (rewrite ?Hn5, ?Hsr5; assumption).
  rewrite Hlatest_pk, Hlatest1 in Hpin.
  rewrite (bind_ok _ _ _ _ _ Hrun6).
  rewrite (bind_ok _ _ _ _ _
             (local_register_update_view_latest _ _ w6 _ Hf6 H6d)). msimpl.
  set (w7 := set_log _ _ (set_views _ w6)).
  assert (Hw7 : lake w7 = lake w6 /\ faults w7 = [] /\ now w7 = now w).
  { subst w7. world_simpl. rewrite Hn6, Hn5, Hn4. auto. }
  destruct Hw7 as (Hl7 & Hf7 & Hn7). clearbody w7.
  (* steps 3.5 and 4.5: the manifest and the tombstones *)
  set (keys := map (get_target_name (write_config infos)) (pk_cols infos)).
  destruct (write_latest_pk_rows (pk_cols infos) dc (write_config infos) w7 h1' h2' h_pk Hf7
              ltac:(rewrite Hl7; exact H61) ltac:(rewrite Hl7; exact H62)
              ltac:(rewrite Hl7; exact H6pk))
    as (w8 & Hrun8 & Hl8 & Hv8 & Hf8 & Hn8 & _).
  fold keys in Hl8.
  rewrite (bind_ok _ _ _ _ _ Hrun8). msimpl.
  set (manifest := manifest_rows keys (manifest_cols (write_config infos) (pk_cols infos) dc)
                                 (latest h1') (latest h2') (latest h_pk)) in *.
  set (w9 := set_log _ _ w8).
  assert (Hw9 : lake w9 = <[delta_load LATEST_PK_VERSION := hl ++ [manifest]]> (lake w6) /\
                faults w9 = [] /\ now w9 = now w /\
                views w9 !! "delta_1" = Some (latest h1')).
  { subst w9. world_simpl. rewrite Hl8, Hl7, H6l, Hn8, Hn7, Hv8.
    repeat split; auto.
    unfold PRIMARY_KEYS_TS, DELTA_2_NAME, DELTA_1_NAME.
    rewrite !lookup_insert_ne by discriminate. apply lookup_insert_eq. }
  destruct Hw9 as (Hl9 & Hf9 & Hn9 & Hv9). clearbody w9.
  destruct (do_deletes_rows (col_infos infos) (pk_cols infos) old (write_config infos) w9
              (hl ++ [manifest]) (latest hl) (latest h1') Hf9
              ltac:(rewrite Hl9; apply lookup_insert_eq) (Hprior _) Hv9)
    as (w10 & Hrun10 & Hl10 & _).
  rewrite (bind_ok _ _ _ _ _ Hrun10).
  fold keys in Hl10.
  assert (Hlm : latest (hl ++ [manifest]) = manifest) by apply last_last.
  rewrite Hlm in Hl10.
  assert (Hkeys : forall x, In x (map row_values (project keys manifest)) <->
                            In x (map row_values (project keys (latest h_pk)))).
  { intros x. apply manifest_keys_are_snapshot_keys.
    - intros n Hn. unfold manifest_cols. apply in_or_app. left. exact Hn.
    - intros y Hy. rewrite Hlatest_pk. apply loaded_key_in_snapshot; [assumption..|].
      rewrite List.Forall_forall in Hfrom1, Hfrom2.
      apply Hfrom. destruct Hy as [Hy|Hy]; [apply Hfrom1, Hy | apply Hfrom2, Hy].
    - rewrite Hlatest_pk. apply snapshot_keys_known; assumption. }
  rewrite (except_rows_same_values (project keys (latest hl)) (project keys manifest)
             (project keys (latest h_pk)) Hkeys) in Hl10.
  rewrite Hlatest_pk in Hkeys.
  rewrite Hlatest_pk, Hn9 in Hl10.
  assert (H9l : lake w9 !! delta_load LATEST_PK_VERSION = Some (hl ++ [manifest])).
  { rewrite Hl9. apply lookup_insert_eq. }
  assert (H9d : lake w9 !! delta_path = Some ((hd ++ hs1) ++ hs2)).
  { rewrite Hl9. rewrite lookup_insert_ne by discriminate. exact H6d. }
  assert (Hstrange' : Forall (from_source (write_config infos) (col_infos infos) w) strange).
  { eapply Forall_impl; [exact Hstrange | intros x; apply Hfrom]. }
  rewrite logger_log_ok. unfold tombstones_of. cbv zeta. fold keys.
  destruct (except_rows (project keys (latest hl)) (project keys (key_snapshot infos dc w)))
    as [|k ks].
  - eexists _, (hs1 ++ hs2), strange, manifest. split; [reflexivity|]. world_simpl.
    rewrite Hl10, app_assoc. split; [exact H9d|].
    split; [|split; [exact Hstrange' | split; [exact H9l | split; [exact Hkeys | exact Hpin]]]].
    rewrite Hlast2, Hlast1. cbn [map]. rewrite app_nil_r, <- app_assoc. reflexivity.
  - set (tombs := map _ (k :: ks)) in *.
    eexists _, (hs1 ++ hs2 ++ [latest ((hd ++ hs1) ++ hs2) ++ tombs]), strange, manifest.
    split; [reflexivity|]. world_simpl. rewrite Hl10, lookup_insert_eq, H9d.
    split; [cbn [write_versions]; rewrite <- !app_assoc; reflexivity|].
    split.
    { rewrite !app_assoc. unfold latest at 1. rewrite last_last.
      rewrite Hlast2, Hlast1. rewrite <- !app_assoc. reflexivity. }
    split; [exact Hstrange'|].
    split; [rewrite lookup_insert_ne by discriminate; exact H9l|].
    split; [exact Hkeys | exact Hpin].
Qed.

(** The key cells of a row of the source are the key cells of its row in the
    snapshot. *)
Lemma snapshot_key_values infos dc w :
  key_columns_named infos dc ->
  map row_values (project (map (get_target_name (write_config infos)) (pk_cols infos))
                          (key_snapshot infos dc w))
  = map (source_key infos) (source_rows w).
Proof.
  intros Hnamed. rewrite values_project. unfold key_snapshot. rewrite map_map.
  apply map_ext. intros r. unfold source_key. rewrite map_map. apply map_ext_in.
  intros k Hk. apply (key_cell_renamed infos dc r k Hnamed Hk).
Qed.

(** X24. A delta load that is not a simple one, on a destination with
    [delta/] and a manifest, when no call fails, the key has a column, the
    key cells of the source are not NULL and can be written as JSON, and the
    watermark is not NULL: the load returns, and [delta/] gets, after its
    rows, the rows of the source newer than the watermark, then the rows of
    step 3 ([strange_rows]: none without a strange update, the rows newer
    than the smallest delta value of the strange updates when there are more
    than 1000 of them or the configuration asks for plain statements, and
    else the rows of the source that have one of their keys), then the
    tombstones of the keys of the prior manifest that the source no longer
    has. *)
Theorem delta_load_result sql_text restore_last_pk infos w dc hd hl :
  faults w = [] ->
  source_name w = String.concat "." (table_parts (table infos)) ->
  delta_col infos = Some dc ->
  pk_cols infos <> [] ->
  key_columns_named infos dc ->
  Forall (source_keys_known infos) (source_rows w) ->
  lake w !! delta_path = Some hd ->
  lake w !! delta_load LATEST_PK_VERSION = Some hl ->
  hl <> [] ->
  sql_max (map (get_col (get_target_name (write_config infos) dc)) (latest hd)) <> VNull ->
  exists w' hs,
    do_delta_load sql_text restore_last_pk infos false w = (Ok tt, w') /\
    lake w' !! delta_path = Some (hd ++ hs) /\
    latest (hd ++ hs)
    = latest hd
      ++ rows_after infos dc false
           (sql_max (map (get_col (get_target_name (write_config infos) dc)) (latest hd))) w
      ++ strange_rows sql_text (table infos) (pk_cols infos) dc (col_infos infos)
           (write_config infos) (key_snapshot infos dc w) (latest hl)
           (rows_after infos dc false
              (sql_max (map (get_col (get_target_name (write_config infos) dc)) (latest hd))) w)
           w
      ++ tombstones_of infos dc (latest hl) w /\
    Forall (from_source (write_config infos) (col_infos infos) w)
           (strange_rows sql_text (table infos) (pk_cols infos) dc (col_infos infos)
              (write_config infos) (key_snapshot infos dc w) (latest hl)
              (rows_after infos dc false
                 (sql_max (map (get_col (get_target_name (write_config infos) dc)) (latest hd)))
                 w)
              w).
Proof.
  intros Hf Hname Hdc Hpk Hnamed Hknown Hd Hl Hne Hv.
  destruct (delta_load_steps sql_text restore_last_pk infos w dc hd hl
              Hf Hname Hdc Hpk Hnamed Hknown Hd Hl Hne Hv)
    as (w' & hs & strange & manifest & Hrun & Hd' & Hlast & Hstrange & _ & _ & Hpin).
  subst strange.
  exists w', hs. split; [exact Hrun|]. split; [exact Hd'|].
  split; [exact Hlast | exact Hstrange].
Qed.

(** X25. Under the same conditions, the manifest [latest_pk] keeps its
    versions and gets one more, whose keys are the keys of the rows of the
    source: every key of the source is in it, and it has no other key. *)
Theorem delta_load_manifest sql_text restore_last_pk infos w dc hd hl :
  faults w = [] ->
  source_name w = String.concat "." (table_parts (table infos)) ->
  delta_col infos = Some dc ->
  pk_cols infos <> [] ->
  key_columns_named infos dc ->
  Forall (source_keys_known infos) (source_rows w) ->
  lake w !! delta_path = Some hd ->
  lake w !! delta_load LATEST_PK_VERSION = Some hl ->
  hl <> [] ->
  sql_max (map (get_col (get_target_name (write_config infos) dc)) (latest hd)) <> VNull ->
  exists w' manifest,
    do_delta_load sql_text restore_last_pk infos false w = (Ok tt, w') /\
    lake w' !! delta_load LATEST_PK_VERSION = Some (hl ++ [manifest]) /\
    (forall v, In v (map (manifest_key infos) manifest) <->
               In v (map (source_key infos) (source_rows w))).
Proof.
  intros Hf Hname Hdc Hpk Hnamed Hknown Hd Hl Hne Hv.
  destruct (delta_load_steps sql_text restore_last_pk infos w dc hd hl
              Hf Hname Hdc Hpk Hnamed Hknown Hd Hl Hne Hv)
    as (w' & hs & strange & manifest & Hrun & _ & _ & _ & Hl' & Hkeys & _).
  exists w', manifest. split; [exact Hrun|]. split; [exact Hl'|].
  intros v. rewrite <- (snapshot_key_values infos dc w Hnamed), <- Hkeys.
  rewrite values_project. reflexivity.
Qed.

Lemma delta_load_result_witness :
  faults (world_changed []) = [] /\
  exists w' h,
    do_delta_load example_sql_text example_restore_last_pk (example_infos mode_auto) false
                  (world_changed [])
    = (Ok tt, w') /\
    lake w' !! delta_path = Some h /\
    latest h = [delta_row 1 "a" 10 1000 true; delta_row 2 "b" 11 1000 true;
                delta_row 3 "c" 12 1000 true;
                delta_row 2 "bb" 13 2000 false; delta_row 4 "d" 14 2000 false;
                delta_row 5 "e" 9 2000 false;
                tombstone ["name"; "ts"] 2000 [("id", VInt 3)]].
Proof.
  split; [reflexivity|].
  destruct (delta_load_result example_sql_text example_restore_last_pk (example_infos mode_auto)
              (world_changed []) col_ts
              [[delta_row 1 "a" 10 1000 true; delta_row 2 "b" 11 1000 true;
                delta_row 3 "c" 12 1000 true]]
              [[pk_row 1 10; pk_row 2 11; pk_row 3 12]]
              eq_refl eq_refl eq_refl)
    as (w' & hs & Hrun & Hd & Hlast & _).
  - discriminate.
  - split.
    + intros c [<-|[]]. left. reflexivity.
    + intros a b _ _ H. exact H.
  - unfold world_changed, example_world, rows_changed. cbn [source_rows].
    repeat (apply List.Forall_cons; [intros c [<-|[]]; split; [discriminate | reflexivity]|]).
    apply List.Forall_nil.
  - reflexivity.
  - reflexivity.
  - discriminate.
  - vm_compute. discriminate.
  - eexists w', _. split; [exact Hrun|]. split; [exact Hd|].
    rewrite Hlast. vm_compute. reflexivity.
Defined.

Lemma delta_load_manifest_witness :
  faults (world_changed []) = [] /\
  exists w' manifest,
    do_delta_load example_sql_text example_restore_last_pk (example_infos mode_auto) false
                  (world_changed [])
    = (Ok tt, w') /\
    lake w' !! delta_load LATEST_PK_VERSION
    = Some ([[pk_row 1 10; pk_row 2 11; pk_row 3 12]] ++ [manifest]) /\
    (forall v, In v (map (manifest_key (example_infos mode_auto)) manifest) <->
               In v [[VInt 1]; [VInt 2]; [VInt 4]; [VInt 5]]).
Proof.
  split; [reflexivity|].
  destruct (delta_load_manifest example_sql_text example_restore_last_pk
              (example_infos mode_auto) (world_changed []) col_ts
              [[delta_row 1 "a" 10 1000 true; delta_row 2 "b" 11 1000 true;
                delta_row 3 "c" 12 1000 true]]
              [[pk_row 1 10; pk_row 2 11; pk_row 3 12]]
              eq_refl eq_refl eq_refl)
    as (w' & manifest & Hrun & Hl & Hkeys).
  - discriminate.
  - split.
    + intros c [<-|[]]. left. reflexivity.
    + intros a b _ _ H. exact H.
  - unfold world_changed, example_world, rows_changed. cbn [source_rows].
    repeat (apply List.Forall_cons; [intros c [<-|[]]; split; [discriminate | reflexivity]|]).
    apply List.Forall_nil.
  - reflexivity.
  - reflexivity.
  - discriminate.
  - vm_compute. discriminate.
  - exists w', manifest. split; [exact Hrun|]. split; [exact Hl | exact Hkeys].
Defined.
